(** * ZenC stress generators: a shallow embedding of the driver programs

    Every program of the repository is a standalone [main] that talks to
    the operating system.  The embedding keeps the control flow of each
    [main] as it is written and makes the operating system explicit:

    - the answers of the OS (what [malloc], [pthread_create], [open],
      [fwrite], [fork], [socket], [connect] return, what an uninitialised
      stack slot happens to hold, what the CPU clock reads) come from a
      [world] record of oracles, one answer per call;
    - what the program does to the OS is recorded as a trace of [event]s,
      in program order;
    - C integers are [Z] with their wrap-around written out ([to_int],
      [to_uint], [to_size_t]); loop counters that stay below their small
      constant bound are [nat];
    - fixed-size C arrays are lists of exactly that many cells, read with
      [!!] and written with [<[ i := v ]>]. *)

From Stdlib Require Import ZArith List Lia Bool String Ascii DecimalString DecimalNat.
From stdpp Require Import base list.

Local Open Scope Z_scope.

(** ** Machine integers *)

Module CInt.

(** [int]: 32 bits, signed. *)
Definition to_int (x : Z) : Z := (x + 2 ^ 31) mod 2 ^ 32 - 2 ^ 31.

(** [unsigned int]: 32 bits. *)
Definition to_uint (x : Z) : Z := x mod 2 ^ 32.

(** [size_t] and [unsigned long] on the LP64 targets the programs are
    built for: 64 bits. *)
Definition to_size_t (x : Z) : Z := x mod 2 ^ 64.

Definition int_add (a b : Z) : Z := to_int (a + b).
Definition int_mul (a b : Z) : Z := to_int (a * b).

End CInt.

(** ** Events and loops shared by all programs *)

Module OS.

Inductive stream := Stdout | Stderr.

(** File names the programs build.  The two [snprintf] patterns carry
    the numbers they are formatted from. *)
Inductive path :=
| ExhaustTmp (pid : Z) (idx : nat)   (* "/tmp/exhaust_%d_%d.tmp" *)
| IoStormTmp (pid : Z)               (* "/tmp/io_storm_test_%d.dat" *)
| TestOutputDat.                     (* "test_output.dat" *)

(** One constructor per library call the programs make.  [Print] keeps
    the text of the format (decorations dropped) and the integer
    arguments; string and floating-point arguments are not kept, nor,
    outside the CPU spike simulator, is the difference of two readings
    of [time]. *)
Inductive event :=
| Print (to : stream) (fmt : string) (args : list Z)
| Perror (what : string)
| FflushStdout
| Sleep (usec : Z)
| Malloc (size ret : Z)
| Memset (p byte size : Z)
| Free (p : Z)
| Store (slot : nat) (v : Z)
| Load (slot : nat) (v : Z)
| PthreadCreate (slot : nat) (ok : bool) (handle : Z)
| PthreadJoin (slot : nat) (handle : Z)
| Open (name : path) (ret : Z)
| Close (fd : Z)
| Unlink (name : path)
| Fopen (name : path) (ok : bool)
| Fwrite (size ret : Z)
| Fflush
| Fclose
| Fork (ret : Z)
| Exit (code : Z)
| Socket (ret : Z)
| InetPton (ret : Z)
| Connect (ret : Z)
| Time.

(** [n] seconds, in the microseconds [Sleep] counts in. *)
Definition sec (n : Z) : Z := n * 1000000.

(** What the body of a loop asks for: go on with the next iteration,
    or leave the loop ([break]). *)
Inductive ctl := Next | Break.

Section Loops.
Context {St : Type}.

(** [for (j = i; j < i + n; j++) body], where the body may [break]. *)
Fixpoint for_loop (body : nat -> St -> ctl * St) (i n : nat) (s : St) : St :=
  match n with
  | O => s
  | S n' =>
      match body i s with
      | (Next, s') => for_loop body (S i) n' s'
      | (Break, s') => s'
      end
  end.

End Loops.

(** Number of events of a trace that satisfy [f]. *)
Definition count (f : event -> bool) (t : list event) : nat :=
  length (List.filter f t).

End OS.

Import CInt OS.

(** Equality of events is decidable, so whether an event occurs in a
    trace can be computed. *)
Definition event_eq_dec (a b : event) : {a = b} + {a <> b}.
Proof. repeat decide equality. Defined.

Definition occurs (e : event) (t : list event) : bool :=
  if in_dec event_eq_dec e t then true else false.

(** The calls of [malloc] of a trace in program order, as pairs of the
    size asked for and the answer, and the sizes of those that
    succeeded. *)
Fixpoint malloc_calls (t : list event) : list (Z * Z) :=
  match t with
  | [] => []
  | Malloc size p :: t' => (size, p) :: malloc_calls t'
  | _ :: t' => malloc_calls t'
  end.

Definition leaked_sizes (t : list event) : list Z :=
  map fst (List.filter (fun c => negb (snd c =? 0)) (malloc_calls t)).

Definition is_malloc (e : event) : bool :=
  match e with Malloc _ _ => true | _ => false end.

(** [extends tr ok s s']: the trace of [s'] is the trace of [s] followed
    by events that all satisfy [ok]. *)
Definition extends {St : Type} (tr : St -> list event) (ok : event -> bool)
    (s s' : St) : Prop :=
  exists ext, tr s' = tr s ++ ext /\ forallb ok ext = true.

(** Neighbours in a list: [chain R l] says that [R a b] holds for every
    two consecutive elements [a], [b] of [l]. *)
Fixpoint chain {A : Type} (R : A -> A -> Prop) (l : list A) : Prop :=
  match l with
  | a :: (b :: _) as l' => R a b /\ chain R l'
  | _ => True
  end.

(** ** The heap

    [free (p)] is defined for NULL and for a block that [malloc]
    returned and that was not passed to [free] since; called with any
    other word, the program has no defined behaviour from that call on.
    The blocks a process holds are read off its trace, oldest first. *)

(** [h] without the first occurrence of [p] *)
Fixpoint take_out (p : Z) (h : list Z) : list Z :=
  match h with
  | [] => []
  | q :: h' => if p =? q then h' else q :: take_out p h'
  end.

Definition holds (h : list Z) (p : Z) : bool := existsb (Z.eqb p) h.

(** The blocks held after the events of [t], when [h] was held before. *)
Fixpoint heap_from (h : list Z) (t : list event) : list Z :=
  match t with
  | [] => h
  | Malloc _ p :: t' => heap_from (if p =? 0 then h else h ++ [p]) t'
  | Free p :: t' => heap_from (take_out p h) t'
  | _ :: t' => heap_from h t'
  end.

Definition heap (t : list event) : list Z := heap_from [] t.

(** [p] is a block the process holds after [t]. *)
Definition is_block (p : Z) (t : list event) : bool := holds (heap t) p.

(** Every call of [free] in [t] is a defined one. *)
Fixpoint frees_defined (h : list Z) (t : list event) : bool :=
  match t with
  | [] => true
  | Malloc _ p :: t' => frees_defined (if p =? 0 then h else h ++ [p]) t'
  | Free p :: t' => ((p =? 0) || holds h p) && frees_defined (take_out p h) t'
  | _ :: t' => frees_defined h t'
  end.

Definition defined (t : list event) : bool := frees_defined [] t.

(** What a loop [for (...) if (cell[i]) free (cell[i]);] does over the
    [n] cells from [i] on, when cell [j] holds [c j] and the blocks [h]
    are held: it goes from cell to cell until a word that is no block
    held is passed to [free]. *)
Fixpoint sweep_from (c : nat -> Z) (h : list Z) (i n : nat) : list event :=
  match n with
  | O => []
  | S n' =>
      if c i =? 0 then Load i (c i) :: sweep_from c h (S i) n'
      else if holds h (c i)
           then Load i (c i) :: Free (c i) :: sweep_from c (take_out (c i) h) (S i) n'
           else [Load i (c i); Free (c i)]
  end.

(** The first of the [n] numbers from [i] on at which [f] is 0, and
    [i + n] when there is none. *)
Fixpoint first_null (f : nat -> Z) (i n : nat) : nat :=
  match n with
  | O => i
  | S n' => if f i =? 0 then i else first_null f (S i) n'
  end.

(** ** The formats of [printf]

    A format is text with conversion specifications: [%], flags, a
    width, a precision, a length modifier and the conversion character,
    in this order; [%%] stands for a percent sign.  A call is defined
    when every specification of its format is a valid one and finds its
    argument (C11 7.21.6.1); the types of the arguments are not looked
    at. *)

Module Printf.

Fixpoint among (c : ascii) (set : string) : bool :=
  match set with
  | EmptyString => false
  | String d set' => Ascii.eqb c d || among c set'
  end.

Definition is_flag (c : ascii) : bool := among c "-+ #0".
Definition is_digit (c : ascii) : bool := among c "0123456789".
Definition is_conversion (c : ascii) : bool := among c "diouxXfFeEgGaAcspn".

(** Where the reading of a format stands: in plain text, or inside a
    conversion specification. *)
Inductive place :=
| Text
| Start        (* just behind the percent sign *)
| Flags
| Width
| WidthStar    (* behind a width given as an asterisk *)
| Dot
| Precision
| PrecisionStar
| LengthH      (* behind one h *)
| LengthL      (* behind one l *)
| Length.

(** Behind the flags: a width, a precision, a length modifier or the
    conversion character.  The number is the count of arguments the
    character takes. *)
Definition from_width (c : ascii) : option (place * nat) :=
  if Ascii.eqb c "." then Some (Dot, 0%nat) else
  if Ascii.eqb c "h" then Some (LengthH, 0%nat) else
  if Ascii.eqb c "l" then Some (LengthL, 0%nat) else
  if among c "jztL" then Some (Length, 0%nat) else
  if is_conversion c then Some (Text, 1%nat) else None.

Definition from_precision (c : ascii) : option (place * nat) :=
  if Ascii.eqb c "h" then Some (LengthH, 0%nat) else
  if Ascii.eqb c "l" then Some (LengthL, 0%nat) else
  if among c "jztL" then Some (Length, 0%nat) else
  if is_conversion c then Some (Text, 1%nat) else None.

Definition from_length (c : ascii) : option (place * nat) :=
  if is_conversion c then Some (Text, 1%nat) else None.

Definition from_flags (c : ascii) : option (place * nat) :=
  if is_flag c then Some (Flags, 0%nat) else
  if is_digit c then Some (Width, 0%nat) else
  if Ascii.eqb c "*" then Some (WidthStar, 1%nat) else from_width c.

Definition step (at_ : place) (c : ascii) : option (place * nat) :=
  match at_ with
  | Text => if Ascii.eqb c "%" then Some (Start, 0%nat) else Some (Text, 0%nat)
  | Start => if Ascii.eqb c "%" then Some (Text, 0%nat) else from_flags c
  | Flags => from_flags c
  | Width => if is_digit c then Some (Width, 0%nat) else from_width c
  | WidthStar => from_width c
  | Dot =>
      if is_digit c then Some (Precision, 0%nat) else
      if Ascii.eqb c "*" then Some (PrecisionStar, 1%nat) else from_precision c
  | Precision => if is_digit c then Some (Precision, 0%nat) else from_precision c
  | PrecisionStar => from_precision c
  | LengthH => if Ascii.eqb c "h" then Some (Length, 0%nat) else from_length c
  | LengthL => if Ascii.eqb c "l" then Some (Length, 0%nat) else from_length c
  | Length => from_length c
  end.

Fixpoint scan (at_ : place) (n : nat) (fmt : string) : option nat :=
  match fmt with
  | EmptyString => match at_ with Text => Some n | _ => None end
  | String c fmt' =>
      match step at_ c with
      | Some (at', k) => scan at' (n + k) fmt'
      | None => None
      end
  end.

(** The number of arguments [fmt] asks for; [None] when it holds a
    specification that is not valid. *)
Definition arguments (fmt : string) : option nat := scan Text 0 fmt.

(** [printf (fmt, ...)] with [given] arguments is a defined call. *)
Definition defined (fmt : string) (given : nat) : bool :=
  match arguments fmt with
  | Some n => (n <=? given)%nat
  | None => false
  end.

End Printf.

(** ** ml_anomaly_tests/memory_leak_progressive.c *)

Module MemoryLeakProgressive.

Definition MB : Z := 1024 * 1024.

Record world := {
  malloc_ret : nat -> Z;      (* answer of the k-th call of malloc; 0 is NULL *)
  stack_garbage : nat -> Z    (* what slot k of the stack array holds at entry *)
}.

Record state := {
  allocations : list Z;       (* void* allocations[30] *)
  total_allocated : Z;        (* size_t *)
  trace : list event
}.

Definition emit (es : list event) (s : state) : state :=
  {| allocations := allocations s;
     total_allocated := total_allocated s;
     trace := trace s ++ es |}.

(** [allocations[i] = v] *)
Definition store (i : nat) (v : Z) (s : state) : state :=
  {| allocations := <[ i := v ]> (allocations s);
     total_allocated := total_allocated s;
     trace := trace s ++ [Store i v] |}.

(** the value of [allocations[i]] *)
Definition cell (i : nat) (s : state) : Z := default 0 (allocations s !! i).

Definition add_total (n : Z) (s : state) : state :=
  {| allocations := allocations s;
     total_allocated := to_size_t (total_allocated s + n);
     trace := trace s |}.

(** [(i + 1) * 5 * MB], computed in [int] and converted to [size_t] *)
Definition alloc_size (i : nat) : Z :=
  to_size_t (int_mul (int_mul (int_add (Z.of_nat i) 1) 5) MB).

(** Body of the leak loop, lines 33-68. *)
Definition leak_body (w : world) (i : nat) (s : state) : ctl * state :=
  let size := alloc_size i in
  let p := malloc_ret w i in
  let s := store i p (emit [Malloc size p] s) in
  if p =? 0 then
    (Break,
     emit [Print Stdout "[%d/25] Memory allocation FAILED at %zu MB"
             [Z.of_nat i + 1; size / MB];
           Print Stdout "(System limit reached - this is expected)" []] s)
  else
    let s := emit [Memset p 170 size] s in
    let s := add_total size s in
    let s := emit [Print Stdout "[%d/25] Leaked %zu MB | Total: %zu MB | Growth: +%zu MB/sec"
                     [Z.of_nat i + 1; size / MB; total_allocated s / MB; size / MB];
                   Sleep (sec 1)] s in
    let s := if Nat.eqb i 5
             then emit [Print Stdout "Memory leak detected! Continuing to worsen..." []] s
             else s in
    let s := if Nat.eqb i 10
             then emit [Print Stdout "Critical memory leak! Growth accelerating..." []] s
             else s in
    let s := if Nat.eqb i 15
             then emit [Print Stdout "Severe memory leak! System resources depleting..." []] s
             else s in
    (Next, s).

(** Body of the sustain loop, lines 73-76. *)
Definition hold_body (i : nat) (s : state) : ctl * state :=
  (Next, emit [Print Stdout "[%d/5] Memory still leaked: %zu MB"
                 [Z.of_nat i + 1; total_allocated s / MB];
               Sleep (sec 1)] s).

(** Body of the cleanup loop, lines 88-92.  The word in the cell is
    passed to [free] unless it is NULL; when it is no block the process
    holds, the call is not defined and the run goes no further. *)
Definition cleanup_body (i : nat) (s : state) : ctl * state :=
  let p := cell i s in
  let s := emit [Load i p] s in
  if p =? 0 then (Next, s)
  else if is_block p (trace s) then (Next, emit [Free p] s)
  else (Break, emit [Free p] s).

Definition banner : list event :=
  [Print Stdout "MEMORY LEAK PROGRESSIVE SIMULATOR (ML Test)" [];
   Print Stdout "This program is designed to trigger ML anomaly detection." [];
   Print Stdout "Expected: Memory Leak Anomaly (score: 0.75-0.90)" [];
   Print Stdout "Pattern: Progressive memory growth (10MB/sec+)" []].

(** The stack array is not initialised: at entry its 30 cells hold
    whatever the stack held. *)
Definition init (w : world) : state :=
  {| allocations := map (stack_garbage w) (seq 0 30);
     total_allocated := 0;
     trace := [] |}.

Definition leak_phase (w : world) (s : state) : state :=
  for_loop (leak_body w) 0 25
    (emit [Print Stdout "Phase 1/2: Starting memory leak..." []] s).

Definition hold_phase (s : state) : state :=
  let s := emit [Print Stdout "Phase 2/2: Memory leak sustained (NOT cleaning up)..." [];
                 Print Stdout "Holding %zu MB allocated for 5 seconds..."
                   [total_allocated s / MB]] s in
  let s := for_loop hold_body 0 5 s in
  emit [Print Stdout "LEAK TEST COMPLETE" [];
        Print Stdout "Total Memory Leaked: %zu MB" [total_allocated s / MB];
        Print Stdout "Average Growth Rate: ~%.1f MB/sample" [];
        Print Stdout "Check ML Anomaly Detection tab for analysis." [];
        Print Stdout "Expected: isAnomalous=true, anomalyType='memory_leak'" []] s.

Definition cleanup_phase (s : state) : state :=
  for_loop cleanup_body 0 30
    (emit [Print Stdout "Cleaning up allocations..." []] s).

(** [main]: the exit code, or [None] when the run ends in a call of
    [free] that is not defined, and the final state. *)
Definition main (w : world) : option Z * state :=
  let s := cleanup_phase (hold_phase (leak_phase w (emit banner (init w)))) in
  (if defined (trace s) then Some 0 else None, s).

(** Resources acquired (successful [malloc]) and released ([free]). *)
Definition acquired (t : list event) : nat :=
  count (fun e => match e with Malloc _ p => negb (p =? 0) | _ => false end) t.

Definition released (t : list event) : nat :=
  count (fun e => match e with Free _ => true | _ => false end) t.

(** Writes to the array, and writes to one of its cells. *)
Definition is_store (e : event) : bool :=
  match e with Store _ _ => true | _ => false end.

Definition stores_to (k : nat) (e : event) : bool :=
  match e with Store j _ => Nat.eqb j k | _ => false end.

(** What the leak loop does on the turn whose [malloc] fails. *)
Definition failure_events (k : nat) : list event :=
  [Malloc (alloc_size k) 0;
   Store k 0;
   Print Stdout "[%d/25] Memory allocation FAILED at %zu MB"
     [Z.of_nat k + 1; alloc_size k / MB];
   Print Stdout "(System limit reached - this is expected)" []].

(** Events that are no call of [malloc]. *)
Definition no_call (e : event) : bool := negb (is_malloc e).

(** A run in which the fourth allocation (20 MB) fails. *)
Definition fails_at_3 : world :=
  {| malloc_ret := fun k => if (k <? 3)%nat then 4096 * (1 + Z.of_nat k) else 0;
     stack_garbage := fun _ => 0 |}.

(** The same run on a stack that left a stale word in every cell of
    the array. *)
Definition fails_at_3_stale : world :=
  {| malloc_ret := fun k => if (k <? 3)%nat then 4096 * (1 + Z.of_nat k) else 0;
     stack_garbage := fun k => 140737488355328 + 8 * Z.of_nat k |}.

(** A run in which all 25 allocations succeed and the stack cell that
    becomes [allocations[25]] holds a stale non-NULL word. *)
Definition stale_slot_25 : world :=
  {| malloc_ret := fun k => 4096 * (1 + Z.of_nat k);
     stack_garbage := fun k => if Nat.eqb k 25 then 3735928559 else 0 |}.

(** At most 25 cells written, none of the cells from 25 on, and the
    cells 25 to 29 still hold what the stack held at entry. *)
Definition tail_untouched (w : world) (s : state) : Prop :=
  (count is_store (trace s) <= 25)%nat /\
  (forall k, (25 <= k)%nat -> count (stores_to k) (trace s) = 0%nat) /\
  (forall k, (25 <= k < 30)%nat -> allocations s !! k = Some (stack_garbage w k)).

End MemoryLeakProgressive.

(** ** The C library's [atoi] *)

Module Libc.

Definition is_space (c : ascii) : bool :=
  match nat_of_ascii c with
  | 32 | 9 | 10 | 11 | 12 | 13 => true
  | _ => false
  end%nat.

Definition digit_of (c : ascii) : option Z :=
  let n := Z.of_nat (nat_of_ascii c) in
  if (48 <=? n) && (n <=? 57) then Some (n - 48) else None.

Fixpoint skip_spaces (s : string) : string :=
  match s with
  | String c s' => if is_space c then skip_spaces s' else s
  | EmptyString => s
  end.

(** the value of the longest prefix of decimal digits *)
Fixpoint digits (acc : Z) (s : string) : Z :=
  match s with
  | String c s' =>
      match digit_of c with
      | Some d => digits (acc * 10 + d) s'
      | None => acc
      end
  | EmptyString => acc
  end.

(** [strtol] saturates at the range of [long] *)
Definition to_long_sat (x : Z) : Z := Z.max (- 2 ^ 63) (Z.min (2 ^ 63 - 1) x).

(** [atoi s] is [(int) strtol (s, NULL, 10)]: leading white space, an
    optional sign, then digits; text that starts with none of them
    gives 0. *)
Definition atoi (s : string) : Z :=
  match skip_spaces s with
  | String "-" s' => to_int (to_long_sat (- digits 0 s'))
  | String "+" s' => to_int (to_long_sat (digits 0 s'))
  | s' => to_int (to_long_sat (digits 0 s'))
  end.

(** The decimal numeral of [n], as it is typed on a command line. *)
Definition decimal (n : nat) : string := NilZero.string_of_uint (Nat.to_uint n).

End Libc.

(** ** ml_anomaly_tests/fork_bomb_gradual.c

    The embedding follows the driver thread.  The workers only poll
    [keep_running] and sleep; they are not modelled. *)

Module ForkBombGradual.

Definition MAX_THREADS : Z := 80.

Record world := {
  thread_ids_ptr : Z;                    (* what malloc returns for thread_ids *)
  pthread_create_ret : nat -> option Z   (* k-th call: the new handle, or failure *)
}.

Record state := {
  threads : list Z;          (* pthread_t threads[MAX_THREADS], a zeroed global *)
  keep_running : bool;
  created_threads : nat;
  calls : nat;               (* calls of pthread_create made so far *)
  crashed : bool;            (* a write through a NULL thread_ids *)
  trace : list event
}.

Definition emit (es : list event) (s : state) : state :=
  {| threads := threads s; keep_running := keep_running s;
     created_threads := created_threads s; calls := calls s;
     crashed := crashed s; trace := trace s ++ es |}.

Definition crash (s : state) : state :=
  {| threads := threads s; keep_running := keep_running s;
     created_threads := created_threads s; calls := calls s;
     crashed := true; trace := trace s |}.

(** [pthread_create(&threads[i], ...)]: on success the handle is
    written to the slot; on failure the slot is left as it was. *)
Definition create (w : world) (i : nat) (s : state) : bool * state :=
  match pthread_create_ret w (calls s) with
  | Some h =>
      (true,
       {| threads := <[ i := h ]> (threads s); keep_running := keep_running s;
          created_threads := created_threads s; calls := S (calls s);
          crashed := crashed s; trace := trace s ++ [PthreadCreate i true h] |})
  | None =>
      (false,
       {| threads := threads s; keep_running := keep_running s;
          created_threads := created_threads s; calls := S (calls s);
          crashed := crashed s; trace := trace s ++ [PthreadCreate i false 0] |})
  end.

Definition incr_created (s : state) : state :=
  {| threads := threads s; keep_running := keep_running s;
     created_threads := S (created_threads s); calls := calls s;
     crashed := crashed s; trace := trace s |}.

Definition stop_workers (s : state) : state :=
  {| threads := threads s; keep_running := false;
     created_threads := created_threads s; calls := calls s;
     crashed := crashed s; trace := trace s |}.

Definition slot (i : nat) (s : state) : Z := default 0 (threads s !! i).

(** Lines 42-47. [argv] holds the arguments after the program name. *)
Definition max_threads_of (argv : list string) : Z :=
  match argv with
  | [] => MAX_THREADS
  | a :: _ =>
      let m := Libc.atoi a in
      let m := if m >? MAX_THREADS then MAX_THREADS else m in
      if m <? 5 then 5 else m
  end.

(** Phase 1, lines 55-62: a failed creation is passed over in silence
    and the loop goes on with the next slot. *)
Definition startup_body (w : world) (i : nat) (s : state) : ctl * state :=
  if thread_ids_ptr w =? 0 then (Break, crash s)
  else
    match create w i s with
    | (true, s) =>
        let s := incr_created s in
        (Next, emit [Print Stdout "Created thread %d (total: %d)"
                       [Z.of_nat i + 1; Z.of_nat (created_threads s)];
                     Sleep (sec 1)] s)
    | (false, s) => (Next, s)
    end.

Definition milestone (n : nat) : list event :=
  if Nat.eqb n 10 then [Print Stdout "Thread count suspicious: %d threads" [Z.of_nat n]]
  else if Nat.eqb n 25 then [Print Stdout "Thread count alarming: %d threads" [Z.of_nat n]]
  else if Nat.eqb n 50 then [Print Stdout "CRITICAL thread count: %d threads (FORK BOMB!)" [Z.of_nat n]]
  else if Nat.eqb (n mod 10) 0 then [Print Stdout "Thread explosion: %d threads" [Z.of_nat n]]
  else [].

Definition pace (i : nat) : Z :=
  if (i <? 20)%nat then 500000 else if (i <? 40)%nat then 300000 else 100000.

(** Phase 2, lines 67-94. *)
Definition attack_body (w : world) (i : nat) (s : state) : ctl * state :=
  if thread_ids_ptr w =? 0 then (Break, crash s)
  else
    match create w i s with
    | (true, s) =>
        let s := incr_created s in
        let s := emit (milestone (created_threads s)) s in
        (Next, emit [Sleep (pace i)] s)
    | (false, s) =>
        (Break, emit [Print Stdout "Failed to create thread %d (limit reached)"
                        [Z.of_nat i + 1]] s)
    end.

Definition sustain_body (i : nat) (s : state) : ctl * state :=
  (Next, emit [Print Stdout "[%d/10] Maintaining %d threads (ANOMALOUS)"
                 [Z.of_nat i + 1; Z.of_nat (created_threads s)];
               Sleep (sec 1)] s).

(** Lines 117-119: the slots joined are the first [created_threads]. *)
Definition join_body (i : nat) (s : state) : ctl * state :=
  (Next, emit [PthreadJoin i (slot i s)] s).

Definition banner : list event :=
  [Print Stdout "GRADUAL FORK BOMB SIMULATOR (ML Test)" [];
   Print Stdout "This program is designed to trigger ML anomaly detection." [];
   Print Stdout "Expected: Fork Bomb Anomaly (score: 0.85-0.95)" [];
   Print Stdout "Pattern: Gradual thread growth from 1 -> 80+ threads" []].

Definition init : state :=
  {| threads := replicate 80 0; keep_running := true; created_threads := 0;
     calls := 0; crashed := false; trace := [] |}.

Definition startup_phase (w : world) (max_threads : Z) (s : state) : state :=
  let s := emit [Print Stdout "Phase 1/3: Normal startup (1-5 threads)..." [];
                 Malloc (to_size_t (max_threads * 4)) (thread_ids_ptr w)] s in
  for_loop (startup_body w) 0 (Nat.min 5 (Z.to_nat max_threads)) s.

Definition attack_phase (w : world) (max_threads : Z) (s : state) : state :=
  for_loop (attack_body w) 5 (Z.to_nat max_threads - 5)
    (emit [Print Stdout "Phase 2/3: ATTACK - Rapid thread spawning!" []] s).

Definition sustain_phase (s : state) : state :=
  let s := emit [Print Stdout "Peak thread count: %d threads" [Z.of_nat (created_threads s)];
                 Print Stdout "Phase 3/3: Sustaining high thread count..." []] s in
  let s := for_loop sustain_body 0 10 s in
  emit [Print Stdout "FORK BOMB TEST COMPLETE" [];
        Print Stdout "Total Threads Created: %d" [Z.of_nat (created_threads s)];
        Print Stdout "Thread Growth Rate: ~%.1f threads/sample" [];
        Print Stdout "Check ML Anomaly Detection tab for analysis." [];
        Print Stdout "Expected: isAnomalous=true, anomalyType='fork_bomb'" []] s.

Definition cleanup_phase (w : world) (s : state) : state :=
  let s := stop_workers (emit [Print Stdout "Shutting down threads..." []] s) in
  let s := for_loop join_body 0 (created_threads s) s in
  emit [Free (thread_ids_ptr w)] s.

(** [main]: the exit code, or [None] when the process dies on the NULL
    write, and the final state. *)
Definition main (w : world) (argv : list string) : option Z * state :=
  let max_threads := max_threads_of argv in
  let s := startup_phase w max_threads (emit banner init) in
  if crashed s then (None, s)
  else
    let s := attack_phase w max_threads s in
    if crashed s then (None, s)
    else (Some 0, cleanup_phase w (sustain_phase s)).

(** Slot [k] received a thread; slot [k] was joined. *)
Definition created_at (k : nat) (e : event) : bool :=
  match e with PthreadCreate j true _ => Nat.eqb j k | _ => false end.

Definition joined_at (k : nat) (e : event) : bool :=
  match e with PthreadJoin j _ => Nat.eqb j k | _ => false end.

Definition is_created (e : event) : bool :=
  match e with PthreadCreate _ true _ => true | _ => false end.

Definition is_create (e : event) : bool :=
  match e with PthreadCreate _ _ _ => true | _ => false end.

Definition is_join (e : event) : bool :=
  match e with PthreadJoin _ _ => true | _ => false end.

(** What the attack loop does on the turn whose creation fails. *)
Definition failure_events (k : nat) : list event :=
  [PthreadCreate k false 0;
   Print Stdout "Failed to create thread %d (limit reached)" [Z.of_nat k + 1]].

(** Events that are no call of [pthread_create]. *)
Definition no_create (e : event) : bool := negb (is_create e).

(** Events that neither bring a thread into being nor join one. *)
Definition calm (e : event) : bool := negb (is_created e) && negb (is_join e).

(** The threads created so far sit in slots [0] to [n - 1], one each, and
    none has been joined. *)
Definition tidy (n : nat) (s : state) : Prop :=
  created_threads s = n /\
  crashed s = false /\
  (forall k, count (created_at k) (trace s) = if (k <? n)%nat then 1%nat else 0%nat) /\
  count is_join (trace s) = 0%nat.

(** The counter counts the threads created, and none has been joined. *)
Definition counted (s : state) : Prop :=
  created_threads s = count is_created (trace s) /\
  count is_join (trace s) = 0%nat /\
  crashed s = false.

(** A run in which the thread limit is reached at the eighth creation. *)
Definition fails_at_7 : world :=
  {| thread_ids_ptr := 4096;
     pthread_create_ret :=
       fun k => if (k <? 7)%nat then Some (1000 + Z.of_nat k) else None |}.

(** A run in which the third creation fails once (in phase 1) and the
    thread limit is reached at the eighth (in phase 2). *)
Definition fails_at_2_and_7 : world :=
  {| thread_ids_ptr := 4096;
     pthread_create_ret :=
       fun k => if Nat.eqb k 2 then None
                else if (k <? 7)%nat then Some (1000 + Z.of_nat k) else None |}.

(** A run in which the very first [pthread_create] fails (a transient
    EAGAIN) and every later one succeeds; handles are told apart by
    the number of the call. *)
Definition first_create_fails : world :=
  {| thread_ids_ptr := 4096;
     pthread_create_ret := fun k => if Nat.eqb k 0 then None else Some (1000 + Z.of_nat k) |}.

End ForkBombGradual.

(** ** ml_anomaly_tests/resource_exhaustion_combo.c

    As for the gradual fork bomb, the embedding follows the driver
    thread; the CPU consumer threads are not modelled. *)

Module ResourceExhaustionCombo.

Definition MB : Z := 1024 * 1024.
Definition MAX_THREADS : nat := 60.
Definition MAX_FILES : nat := 100.

(** Each call is named by the place it is made at: the attack iteration
    [i], and for [pthread_create] the turn [j] of the inner loop. *)
Record world := {
  pid : Z;
  malloc_ret : nat -> Z;                         (* 0 is NULL *)
  pthread_create_ret : nat -> nat -> option Z;   (* the new handle, or failure *)
  open_ret : nat -> Z;                           (* a descriptor, or -1 *)
  stack_garbage : nat -> Z                       (* memory_leaks[] at entry *)
}.

Record state := {
  memory_leaks : list Z;     (* void* memory_leaks[30], on the stack *)
  threads : list Z;          (* pthread_t threads[MAX_THREADS], zeroed global *)
  open_fds : list Z;         (* int open_fds[MAX_FILES], zeroed global *)
  keep_running : bool;
  leak_count : nat;
  thread_count : nat;
  file_count : nat;
  trace : list event
}.

Definition emit (es : list event) (s : state) : state :=
  {| memory_leaks := memory_leaks s; threads := threads s; open_fds := open_fds s;
     keep_running := keep_running s; leak_count := leak_count s;
     thread_count := thread_count s; file_count := file_count s;
     trace := trace s ++ es |}.

Definition set_leak (k : nat) (p : Z) (s : state) : state :=
  {| memory_leaks := <[ k := p ]> (memory_leaks s); threads := threads s;
     open_fds := open_fds s; keep_running := keep_running s;
     leak_count := leak_count s; thread_count := thread_count s;
     file_count := file_count s; trace := trace s |}.

Definition set_thread (k : nat) (h : Z) (s : state) : state :=
  {| memory_leaks := memory_leaks s; threads := <[ k := h ]> (threads s);
     open_fds := open_fds s; keep_running := keep_running s;
     leak_count := leak_count s; thread_count := thread_count s;
     file_count := file_count s; trace := trace s |}.

Definition set_fd (k : nat) (fd : Z) (s : state) : state :=
  {| memory_leaks := memory_leaks s; threads := threads s;
     open_fds := <[ k := fd ]> (open_fds s); keep_running := keep_running s;
     leak_count := leak_count s; thread_count := thread_count s;
     file_count := file_count s; trace := trace s |}.

Definition incr_leak (s : state) : state :=
  {| memory_leaks := memory_leaks s; threads := threads s; open_fds := open_fds s;
     keep_running := keep_running s; leak_count := S (leak_count s);
     thread_count := thread_count s; file_count := file_count s; trace := trace s |}.

Definition incr_thread (s : state) : state :=
  {| memory_leaks := memory_leaks s; threads := threads s; open_fds := open_fds s;
     keep_running := keep_running s; leak_count := leak_count s;
     thread_count := S (thread_count s); file_count := file_count s; trace := trace s |}.

Definition incr_file (s : state) : state :=
  {| memory_leaks := memory_leaks s; threads := threads s; open_fds := open_fds s;
     keep_running := keep_running s; leak_count := leak_count s;
     thread_count := thread_count s; file_count := S (file_count s); trace := trace s |}.

Definition stop_workers (s : state) : state :=
  {| memory_leaks := memory_leaks s; threads := threads s; open_fds := open_fds s;
     keep_running := false; leak_count := leak_count s;
     thread_count := thread_count s; file_count := file_count s; trace := trace s |}.

Definition leak_cell (k : nat) (s : state) : Z := default 0 (memory_leaks s !! k).
Definition thread_cell (k : nat) (s : state) : Z := default 0 (threads s !! k).
Definition fd_cell (k : nat) (s : state) : Z := default 0 (open_fds s !! k).

(** [(leak_count + 1) * 8 * MB], computed in [int], as a [size_t] *)
Definition alloc_size (leaks : nat) : Z :=
  to_size_t (int_mul (int_mul (int_add (Z.of_nat leaks) 1) 8) MB).

(** Attack vector 1, lines 61-69.  A failed [malloc] leaves [leak_count]
    as it was: nothing is printed, and the next turn tries the same
    slot with the same size. *)
Definition leak_step (w : world) (i : nat) (s : state) : state :=
  if Nat.eqb (i mod 2) 0 && (leak_count s <? 30)%nat then
    let alloc := alloc_size (leak_count s) in
    let p := malloc_ret w i in
    let s := set_leak (leak_count s) p (emit [Malloc alloc p] s) in
    if p =? 0 then s
    else
      let s := incr_leak (emit [Memset p 187 alloc] s) in
      emit [Print Stdout "Memory leak: +%zu MB (total: %d leaks)"
              [alloc / MB; Z.of_nat (leak_count s)]] s
  else s.

(** Inner loop of attack vector 2, lines 74-78. *)
Definition spawn_body (w : world) (i j : nat) (s : state) : ctl * state :=
  if (thread_count s <? MAX_THREADS)%nat then
    match pthread_create_ret w i j with
    | Some h =>
        (Next, incr_thread (set_thread (thread_count s) h
                              (emit [PthreadCreate (thread_count s) true h] s)))
    | None => (Next, emit [PthreadCreate (thread_count s) false 0] s)
    end
  else (Break, s).

(** Attack vector 2, lines 72-80. *)
Definition thread_step (w : world) (i : nat) (s : state) : state :=
  if Nat.eqb (i mod 3) 0 && (thread_count s <? MAX_THREADS)%nat then
    let s := for_loop (spawn_body w i) 0 3 s in
    emit [Print Stdout "Thread spawn: +3 threads (total: %d threads)"
            [Z.of_nat (thread_count s)]] s
  else s.

(** Attack vector 3, lines 83-91. *)
Definition file_step (w : world) (i : nat) (s : state) : state :=
  if Nat.eqb (i mod 2) 1 && (file_count s <? MAX_FILES)%nat then
    let fd := open_ret w i in
    let s := set_fd (file_count s) fd
               (emit [Open (ExhaustTmp (pid w) (file_count s)) fd] s) in
    if 0 <=? fd then
      let s := incr_file s in
      emit [Print Stdout "File opened: %d open files" [Z.of_nat (file_count s)]] s
    else s
  else s.

(** Attack vector 4 and the threshold warnings, lines 94-109. *)
Definition report_step (i : nat) (s : state) : state :=
  let s := if (0 <? thread_count s)%nat
           then emit [Print Stdout "CPU spike: %d threads consuming CPU"
                        [Z.of_nat (thread_count s)]] s
           else s in
  let s := if Nat.eqb i 5
           then emit [Print Stdout "WARNING: Resource consumption elevated" []] s
           else s in
  let s := if Nat.eqb i 10
           then emit [Print Stdout "CRITICAL: Multiple resource exhaustion vectors active" []] s
           else s in
  let s := if Nat.eqb i 15
           then emit [Print Stdout "SEVERE: System resources critically depleted" []] s
           else s in
  emit [Sleep (sec 1)] s.

(** Body of the attack loop, lines 57-110: no path leaves the loop. *)
Definition attack_body (w : world) (i : nat) (s : state) : ctl * state :=
  let s := emit [Print Stdout "Attack iteration %d/20:" [Z.of_nat i + 1]] s in
  (Next, report_step i (file_step w i (thread_step w i (leak_step w i s)))).

Definition sustain_body (i : nat) (s : state) : ctl * state :=
  (Next, emit [Print Stdout "[%d/8] All attack vectors active (CRITICAL)" [Z.of_nat i + 1];
               Sleep (sec 1)] s).

Definition join_body (i : nat) (s : state) : ctl * state :=
  (Next, emit [PthreadJoin i (thread_cell i s)] s).

Definition free_body (i : nat) (s : state) : ctl * state :=
  (Next, if leak_cell i s =? 0 then s else emit [Free (leak_cell i s)] s).

Definition close_body (w : world) (i : nat) (s : state) : ctl * state :=
  (Next, if 0 <=? fd_cell i s
         then emit [Close (fd_cell i s); Unlink (ExhaustTmp (pid w) i)] s
         else s).

Definition banner : list event :=
  [Print Stdout "RESOURCE EXHAUSTION COMBO ATTACK (ML Test)" [];
   Print Stdout "This program is designed to trigger ML anomaly detection." [];
   Print Stdout "Expected: Resource Exhaustion Anomaly (score: 0.9+)" [];
   Print Stdout "Pattern: Simultaneous CPU + Memory + Threads + Files" []].

Definition init (w : world) : state :=
  {| memory_leaks := map (stack_garbage w) (seq 0 30);
     threads := replicate MAX_THREADS 0;
     open_fds := replicate MAX_FILES 0;
     keep_running := true;
     leak_count := 0; thread_count := 0; file_count := 0;
     trace := [] |}.

Definition attack_phase (w : world) (s : state) : state :=
  for_loop (attack_body w) 0 20
    (emit [Print Stdout "Phase 1/3: Normal startup..." [];
           Sleep (sec 2);
           Print Stdout "Phase 2/3: COMBINED ATTACK!" [];
           Print Stdout "Triggering all attack vectors simultaneously..." []] s).

Definition sustain_phase (s : state) : state :=
  let s := emit [Print Stdout "Attack Summary:" [];
                 Print Stdout "Memory Leaks: %d (total leaked memory)" [Z.of_nat (leak_count s)];
                 Print Stdout "Active Threads: %d (consuming CPU)" [Z.of_nat (thread_count s)];
                 Print Stdout "Open Files: %d file descriptors" [Z.of_nat (file_count s)];
                 Print Stdout "CPU Usage: Sustained high (~80-95%%)" [];
                 Print Stdout "Phase 3/3: Sustaining attack for ML detection..." []] s in
  let s := for_loop sustain_body 0 8 s in
  emit [Print Stdout "COMBO ATTACK TEST COMPLETE" [];
        Print Stdout "Resource Exhaustion Metrics:" [];
        Print Stdout "Memory: %d leaks" [Z.of_nat (leak_count s)];
        Print Stdout "Threads: %d active" [Z.of_nat (thread_count s)];
        Print Stdout "Files: %d open" [Z.of_nat (file_count s)];
        Print Stdout "CPU: Sustained high load" [];
        Print Stdout "Check ML Anomaly Detection tab for analysis." [];
        Print Stdout "Expected: isAnomalous=true, anomalyType='resource_exhaustion'" [];
        Print Stdout "Expected: anomalyScore > 0.9 (CRITICAL)" []] s.

Definition cleanup_phase (w : world) (s : state) : state :=
  let s := stop_workers (emit [Print Stdout "Shutting down attack..." []] s) in
  let s := for_loop join_body 0 (thread_count s) s in
  let s := for_loop free_body 0 (leak_count s) s in
  for_loop (close_body w) 0 (file_count s) s.

Definition main (w : world) : Z * state :=
  (0, cleanup_phase w (sustain_phase (attack_phase w (emit banner (init w))))).

Definition is_iteration (e : event) : bool :=
  match e with
  | Print Stdout fmt _ => String.eqb fmt "Attack iteration %d/20:"
  | _ => false
  end.

(** Every format the program prints with; none of them reports a
    failure. *)
Definition narration : list string :=
  [ "RESOURCE EXHAUSTION COMBO ATTACK (ML Test)";
    "This program is designed to trigger ML anomaly detection.";
    "Expected: Resource Exhaustion Anomaly (score: 0.9+)";
    "Pattern: Simultaneous CPU + Memory + Threads + Files";
    "Phase 1/3: Normal startup...";
    "Phase 2/3: COMBINED ATTACK!";
    "Triggering all attack vectors simultaneously...";
    "Attack iteration %d/20:";
    "Memory leak: +%zu MB (total: %d leaks)";
    "Thread spawn: +3 threads (total: %d threads)";
    "File opened: %d open files";
    "CPU spike: %d threads consuming CPU";
    "WARNING: Resource consumption elevated";
    "CRITICAL: Multiple resource exhaustion vectors active";
    "SEVERE: System resources critically depleted";
    "Attack Summary:";
    "Memory Leaks: %d (total leaked memory)";
    "Active Threads: %d (consuming CPU)";
    "Open Files: %d file descriptors";
    "CPU Usage: Sustained high (~80-95%%)";
    "Phase 3/3: Sustaining attack for ML detection...";
    "[%d/8] All attack vectors active (CRITICAL)";
    "COMBO ATTACK TEST COMPLETE";
    "Resource Exhaustion Metrics:";
    "Memory: %d leaks";
    "Threads: %d active";
    "Files: %d open";
    "CPU: Sustained high load";
    "Check ML Anomaly Detection tab for analysis.";
    "Expected: isAnomalous=true, anomalyType='resource_exhaustion'";
    "Expected: anomalyScore > 0.9 (CRITICAL)";
    "Shutting down attack..." ]%string.

(** An event that is not a print, or a print to standard output with
    one of the formats of [narration]. *)
Definition plain (e : event) : bool :=
  match e with
  | Print Stdout fmt _ => existsb (String.eqb fmt) narration
  | Print Stderr _ _ => false
  | Perror _ => false
  | _ => true
  end.

(** Events of the attack loop other than the line that opens an
    iteration and the calls of [malloc]. *)
Definition inert (e : event) : bool :=
  plain e && negb (is_iteration e) && negb (is_malloc e).

(** An iteration opens with this line. *)
Definition iteration_line (i : nat) : event :=
  Print Stdout "Attack iteration %d/20:" [Z.of_nat i + 1].

(** Two consecutive calls of [malloc]: when the first one failed, the
    second one asks for the same size. *)
Definition retry_same (a b : Z * Z) : Prop := snd a = 0 -> fst b = fst a.

(** What holds of the state between two turns of the attack loop. *)
Definition attack_inv (s : state) : Prop :=
  leaked_sizes (trace s) =
    map (fun k => (Z.of_nat k + 1) * (8 * MB)) (seq 0 (leak_count s)) /\
  chain retry_same (malloc_calls (trace s)) /\
  (forall a, last (malloc_calls (trace s)) = Some a ->
             snd a = 0 -> fst a = alloc_size (leak_count s)) /\
  forallb plain (trace s) = true.

(** What holds of the trace of a whole run. *)
Definition run_summary (t : list event) : Prop :=
  (exists n, leaked_sizes t = map (fun k => (Z.of_nat k + 1) * (8 * MB)) (seq 0 n)) /\
  chain retry_same (malloc_calls t) /\
  forallb plain t = true /\
  count is_iteration t = 20%nat.

(** Resources obtained and resources given back. *)
Definition malloc_ok (e : event) : bool :=
  match e with Malloc _ p => negb (p =? 0) | _ => false end.

Definition is_created (e : event) : bool :=
  match e with PthreadCreate _ true _ => true | _ => false end.

Definition open_ok (e : event) : bool :=
  match e with Open _ fd => 0 <=? fd | _ => false end.

Definition is_free (e : event) : bool :=
  match e with Free _ => true | _ => false end.

Definition is_join (e : event) : bool :=
  match e with PthreadJoin _ _ => true | _ => false end.

Definition is_close (e : event) : bool :=
  match e with Close _ => true | _ => false end.

Definition is_release (e : event) : bool := is_free e || is_join e || is_close e.

(** The three counters count what was obtained, the slots below them
    hold it, and nothing has been given back yet. *)
Definition balanced (s : state) : Prop :=
  leak_count s = count malloc_ok (trace s) /\
  thread_count s = count is_created (trace s) /\
  file_count s = count open_ok (trace s) /\
  (forall k, (k < leak_count s)%nat -> leak_cell k s <> 0) /\
  (forall k, (k < file_count s)%nat -> 0 <= fd_cell k s) /\
  length (memory_leaks s) = 30%nat /\
  length (open_fds s) = 100%nat /\
  count is_release (trace s) = 0%nat.

(** A run in which the first [malloc] fails and every other call
    succeeds. *)
Definition first_malloc_fails : world :=
  {| pid := 4242;
     malloc_ret := fun i => if Nat.eqb i 0 then 0 else 65536 * (1 + Z.of_nat i);
     pthread_create_ret := fun i j => Some (1000 + 3 * Z.of_nat i + Z.of_nat j);
     open_ret := fun i => 3 + Z.of_nat i;
     stack_garbage := fun _ => 0 |}.

End ResourceExhaustionCombo.

(** ** ml_anomaly_tests/io_storm_writer.c *)

Module IoStormWriter.

Definition MB : Z := 1024 * 1024.
Definition CHUNK_SIZE : Z := 1 * MB.

Record world := {
  pid : Z;
  buffer_ptr : Z;            (* what malloc returns for the buffer *)
  fopen_ok : bool;
  fwrite_ret : nat -> Z      (* what the k-th call of fwrite returns *)
}.

Record state := {
  total_written : Z;         (* size_t *)
  trace : list event
}.

Definition emit (es : list event) (s : state) : state :=
  {| total_written := total_written s; trace := trace s ++ es |}.

Definition add_written (n : Z) (s : state) : state :=
  {| total_written := to_size_t (total_written s + n); trace := trace s |}.

(** Phases 1 and 3, lines 48-53 and 89-94: the count that [fwrite]
    returns is dropped.  [base] is the number of calls made before. *)
Definition normal_body (w : world) (base : nat) (i : nat) (s : state) : ctl * state :=
  (Next, emit [Fwrite CHUNK_SIZE (fwrite_ret w (base + i));
               Fflush;
               Print Stdout "[%d/3] Wrote 1 MB (normal rate)" [Z.of_nat i + 1];
               Sleep (sec 1)] s).

(** Phase 2, lines 61-76: whatever [fwrite] returns is added to the
    running total; no path leaves the loop. *)
Definition storm_body (w : world) (i : nat) (s : state) : ctl * state :=
  let written := fwrite_ret w (3 + i) in
  let s := emit [Fwrite CHUNK_SIZE written; Fflush] s in
  let s := add_written written s in
  let s := if Nat.eqb (i mod 10) 0
           then emit [Time;
                      Print Stdout "[%d/150] Written: %zu MB | Rate: %.1f MB/s (ANOMALOUS)"
                        [Z.of_nat i + 1; total_written s / MB]] s
           else s in
  (Next, emit [Sleep 10000] s).

Definition banner : list event :=
  [Print Stdout "I/O STORM SIMULATOR (ML Test)" [];
   Print Stdout "This program is designed to trigger ML anomaly detection." [];
   Print Stdout "Expected: I/O Storm Anomaly (score: 0.6-0.8)" [];
   Print Stdout "Pattern: Sustained high I/O throughput (>10 MB/s)" []].

Definition init : state := {| total_written := 0; trace := [] |}.

Definition normal_phase (w : world) (s : state) : state :=
  for_loop (normal_body w 0) 0 3 s.

Definition storm_phase (w : world) (s : state) : state :=
  let s := emit [Print Stdout "Phase 2/3: I/O STORM - Rapid writes!" []; Time] s in
  for_loop (storm_body w) 0 150 s.

Definition cooldown_phase (w : world) (s : state) : state :=
  let s := emit [Time;
                 Print Stdout "I/O Storm Statistics:" [];
                 Print Stdout "Total Written: %zu MB" [total_written s / MB];
                 Print Stdout "Duration: %.1f seconds" [];
                 Print Stdout "Average Rate: %.1f MB/s" [];
                 Print Stdout "Phase 3/3: Returning to normal I/O..." []] s in
  for_loop (normal_body w 153) 0 3 s.

Definition cleanup_phase (w : world) (s : state) : state :=
  emit [Fclose;
        Print Stdout "I/O STORM TEST COMPLETE" [];
        Print Stdout "Peak I/O Rate: %.1f MB/s" [];
        Print Stdout "Check ML Anomaly Detection tab for analysis." [];
        Print Stdout "Expected: isAnomalous=true, anomalyType='io_storm'" [];
        Print Stdout "Cleaning up temp file: %s" [];
        Unlink (IoStormTmp (pid w));
        Free (buffer_ptr w)] s.

(** Lines 27-31: the buffer is asked for. *)
Definition allocated (w : world) : state :=
  emit (banner ++ [Malloc CHUNK_SIZE (buffer_ptr w)]) init.

(** Lines 33-45: the buffer is filled and the temp file is opened. *)
Definition opened (w : world) : state :=
  emit [Memset (buffer_ptr w) 65 CHUNK_SIZE;
        Print Stdout "Phase 1/3: Normal I/O (low throughput)..." [];
        Fopen (IoStormTmp (pid w)) (fopen_ok w)] (allocated w).

Definition main (w : world) : Z * state :=
  if buffer_ptr w =? 0 then
    (1, emit [Print Stderr "Failed to allocate buffer!" []] (allocated w))
  else if fopen_ok w then
    (0, cleanup_phase w (cooldown_phase w (storm_phase w (normal_phase w (opened w)))))
  else
    (1, emit [Print Stderr "Failed to open temp file: %s" [];
              Free (buffer_ptr w)] (opened w)).

(** The sum of what the [n] calls of [fwrite] from call [k] on return. *)
Fixpoint returned (w : world) (k n : nat) : Z :=
  match n with
  | O => 0
  | S n' => fwrite_ret w k + returned w (S k) n'
  end.

Definition is_fwrite (e : event) : bool :=
  match e with Fwrite _ _ => true | _ => false end.

(** A run on a disk that fills up: the first write of the storm phase
    stores 4096 bytes only, every other write is complete. *)
Definition short_write : world :=
  {| pid := 4242; buffer_ptr := 65536; fopen_ok := true;
     fwrite_ret := fun k => if Nat.eqb k 3 then 4096 else CHUNK_SIZE |}.

Definition all_complete : world :=
  {| pid := 4242; buffer_ptr := 65536; fopen_ok := true;
     fwrite_ret := fun _ => CHUNK_SIZE |}.

End IoStormWriter.

(** ** ui_test_programs/file_writer.c *)

Module FileWriter.

Definition CHUNK_SIZE : Z := 1048576.

Record world := {
  fopen_ok : bool;
  buffer_ptr : Z;
  fwrite_ret : nat -> Z      (* what the k-th call of fwrite returns *)
}.

Record state := {
  total : Z;                 (* unsigned long *)
  count_ : Z;                (* unsigned int count *)
  writes : nat;              (* calls of fwrite made so far *)
  trace : list event
}.

Definition emit (es : list event) (s : state) : state :=
  {| total := total s; count_ := count_ s; writes := writes s;
     trace := trace s ++ es |}.

(** One turn of [while (1)], lines 37-54. *)
Definition write_body (w : world) (s : state) : ctl * state :=
  let written := fwrite_ret w (writes s) in
  let s := {| total := total s; count_ := count_ s; writes := S (writes s);
              trace := trace s ++ [Fwrite CHUNK_SIZE written] |} in
  if written =? CHUNK_SIZE then
    let s := {| total := to_size_t (total s + written);
                count_ := to_uint (count_ s + 1);
                writes := writes s; trace := trace s |} in
    let s := if count_ s mod 100 =? 0
             then emit [Print Stdout "Written: %lu MB" [total s / (1024 * 1024)];
                        FflushStdout; Fflush] s
             else s in
    (Next, emit [Sleep 10000] s)
  else
    (Break, emit [Print Stderr "Write failed after %lu MB" [total s / (1024 * 1024)]] s).

(** [while (1) body]: [None] when [fuel] turns do not reach the
    [break]. *)
Fixpoint while_loop (body : state -> ctl * state) (fuel : nat) (s : state) : option state :=
  match fuel with
  | O => None
  | S fuel' =>
      match body s with
      | (Next, s') => while_loop body fuel' s'
      | (Break, s') => Some s'
      end
  end.

Definition init : state := {| total := 0; count_ := 0; writes := 0; trace := [] |}.

(** Lines 14-18: the output file is opened for writing. *)
Definition opened (w : world) : state :=
  emit [Print Stdout "Starting file write test..." [];
        Print Stdout "Output file: %s" [];
        FflushStdout;
        Fopen TestOutputDat (fopen_ok w)] init.

(** Lines 24-32: the buffer is obtained and filled. *)
Definition ready (w : world) : state :=
  emit [Malloc CHUNK_SIZE (buffer_ptr w);
        Memset (buffer_ptr w) 205 CHUNK_SIZE] (opened w).

(** [main]: exit code and final state, when the loop is left within
    [fuel] turns. *)
Definition main (w : world) (fuel : nat) : option (Z * state) :=
  if fopen_ok w then
    if buffer_ptr w =? 0 then
      Some (1, emit [Malloc CHUNK_SIZE (buffer_ptr w);
                     Print Stderr "malloc failed" []; Fclose] (opened w))
    else
      match while_loop (write_body w) fuel (ready w) with
      | Some s => Some (0, emit [Free (buffer_ptr w); Fclose] s)
      | None => None
      end
  else
    Some (1, emit [Perror "fopen"] (opened w)).

Definition is_unlink (e : event) : bool :=
  match e with Unlink _ => true | _ => false end.

Definition is_full_write (e : event) : bool :=
  match e with Fwrite _ r => r =? CHUNK_SIZE | _ => false end.

(** A disk with room for two chunks and a half. *)
Definition disk_full_after_2 : world :=
  {| fopen_ok := true; buffer_ptr := 65536;
     fwrite_ret := fun k => if (k <? 2)%nat then CHUNK_SIZE else 524288 |}.

(** A directory in which the output file cannot be created, a machine
    without memory for the buffer, and a disk that takes every chunk. *)
Definition read_only_dir : world :=
  {| fopen_ok := false; buffer_ptr := 65536; fwrite_ret := fun _ => CHUNK_SIZE |}.

Definition no_memory : world :=
  {| fopen_ok := true; buffer_ptr := 0; fwrite_ret := fun _ => CHUNK_SIZE |}.

Definition roomy : world :=
  {| fopen_ok := true; buffer_ptr := 65536; fwrite_ret := fun _ => CHUNK_SIZE |}.

End FileWriter.

(** ** ml_anomaly_tests/cpu_spike_attack.c

    Time is kept in two accounts: [slept], the microseconds the process
    asked to sleep, and [cpu], the ticks of processor time [clock ()] has
    seen it consume.  One pass over the inner [for] of [consume_cpu]
    (10000 additions) costs [batch_ticks w k] ticks, [k] counting the
    passes of the whole run; everything else costs no time. *)

Module CpuSpikeAttack.

Record world := {
  CLOCKS_PER_SEC : Z;          (* the <time.h> constant *)
  batch_ticks : nat -> Z;      (* processor time of the k-th pass *)
  time_ret : nat -> Z          (* what the k-th call of time returns *)
}.

Record state := {
  cpu : Z;                     (* what clock () returns now *)
  passes : nat;                (* passes of the inner loop made so far *)
  slept : Z;                   (* microseconds asked of sleep and usleep *)
  trace : list event
}.

(** How far a piece of the program gets: to its end, to a call that has
    no defined behaviour (with the state the call is made in), or not to
    the end of a busy loop within the fuel given. *)
Inductive run (A : Type) :=
| Ok (a : A)
| Undefined (s : state)
| OutOfFuel.
Arguments Ok {A} a.
Arguments Undefined {A} s.
Arguments OutOfFuel {A}.

Definition bind {A B : Type} (m : run A) (k : A -> run B) : run B :=
  match m with
  | Ok a => k a
  | Undefined s => Undefined s
  | OutOfFuel => OutOfFuel
  end.

Notation "'let*' x := m 'in' k" := (bind m (fun x => k))
  (at level 10, x name, m at level 100, k at level 200).

Definition emit (es : list event) (s : state) : state :=
  {| cpu := cpu s; passes := passes s; slept := slept s; trace := trace s ++ es |}.

(** [printf (fmt, args...)] *)
Definition printf (fmt : string) (args : list Z) (s : state) : run state :=
  if Printf.defined fmt (length args)
  then Ok (emit [Print Stdout fmt args] s)
  else Undefined s.

(** [usleep (us)]; [sleep (n)] is [usleep_ (sec n)] *)
Definition usleep_ (us : Z) (s : state) : state :=
  {| cpu := cpu s; passes := passes s; slept := slept s + us;
     trace := trace s ++ [Sleep us] |}.

(** one pass over the inner [for] loop of [consume_cpu] *)
Definition one_pass (w : world) (s : state) : state :=
  {| cpu := cpu s + batch_ticks w (passes s); passes := S (passes s);
     slept := slept s; trace := trace s |}.

(** [while (clock () < end) pass], lines 23-29; [None] when [fuel]
    passes do not reach [end_]. *)
Fixpoint burn (w : world) (fuel : nat) (end_ : Z) (s : state) : option state :=
  if cpu s <? end_ then
    match fuel with
    | O => None
    | S fuel' => burn w fuel' end_ (one_pass w s)
    end
  else Some s.

(** [consume_cpu (duration_sec)], lines 16-30 *)
Definition consume_cpu (w : world) (fuel : nat) (duration_sec : Z) (s : state)
  : run state :=
  let start := cpu s in
  let end_ := start + duration_sec * CLOCKS_PER_SEC w in
  match burn w fuel end_ s with
  | Some s => Ok s
  | None => OutOfFuel
  end.

(** A [for] loop of [n] turns. *)
Fixpoint repeat_ (body : nat -> state -> run state) (i n : nat) (s : state)
  : run state :=
  match n with
  | O => Ok s
  | S n' => let* s' := body i s in repeat_ body (S i) n' s'
  end.

(** Several calls of [printf] in a row. *)
Fixpoint say (lines : list (string * list Z)) (s : state) : run state :=
  match lines with
  | [] => Ok s
  | (fmt, args) :: lines' => let* s' := printf fmt args s in say lines' s'
  end.

Definition benign_body (w : world) (fuel : nat) (i : nat) (s : state) : run state :=
  let* s := printf "[%d/5] CPU: ~5%% (normal)" [Z.of_nat i + 1] s in
  let s := usleep_ 900000 s in
  let* s := consume_cpu w fuel 0 s in
  Ok (usleep_ 100000 s).

Definition attack_body (w : world) (fuel : nat) (i : nat) (s : state) : run state :=
  let* s := printf "[%d/15] CPU: 95%%+ (ANOMALOUS)" [Z.of_nat i + 1] s in
  consume_cpu w fuel 1 s.

Definition cooldown_body (i : nat) (s : state) : run state :=
  let* s := printf "[%d/3] CPU: ~5%% (normal)" [Z.of_nat i + 1] s in
  Ok (usleep_ (sec 1) s).

(** Lines 33-39.  The last format is the one of line 39, with its
    percent signs as they are written there. *)
Definition banner : list (string * list Z) :=
  [("CPU SPIKE ATTACK SIMULATOR (ML Test)"%string, []);
   ("This program is designed to trigger ML anomaly detection."%string, []);
   ("Expected: CPU Spike Anomaly (score: 0.8-0.95)"%string, []);
   ("Pattern: Low CPU (5%) -> Sudden spike to 95%+ sustained"%string, [])].

(** Phase 1, lines 42-48. *)
Definition benign_phase (w : world) (fuel : nat) (s : state) : run state :=
  let* s := printf "Phase 1/3: Benign behavior (low CPU)..." [] s in
  repeat_ (benign_body w fuel) 0 5 s.

(** Phase 2, lines 50-59. *)
Definition attack_phase (w : world) (fuel : nat) (s : state) : run state :=
  let* s := printf "Phase 2/3: ATTACK - CPU SPIKE!" [] s in
  let* s := printf "Consuming 95%%+ CPU for 15 seconds..." [] s in
  let* s := repeat_ (attack_body w fuel) 0 15 (emit [Time] s) in
  Ok (emit [Time] s).

(** Phase 3, lines 61-65. *)
Definition cooldown_phase (s : state) : run state :=
  let* s := printf "Phase 3/3: Returning to normal behavior..." [] s in
  repeat_ cooldown_body 0 3 s.

(** Lines 67-72; the number printed is [attack_end - attack_start]. *)
Definition closing (w : world) : list (string * list Z) :=
  [("ATTACK COMPLETE"%string, []);
   ("Attack Duration: %ld seconds"%string, [time_ret w 1 - time_ret w 0]);
   ("Check ML Anomaly Detection tab for analysis."%string, []);
   ("Expected: isAnomalous=true, anomalyType='cpu_spike'"%string, [])].

Definition init (cpu0 : Z) : state :=
  {| cpu := cpu0; passes := 0; slept := 0; trace := [] |}.

(** Lines 41-74: the three phases, the closing lines and [return 0]. *)
Definition phases (w : world) (fuel : nat) (s : state) : run (Z * state) :=
  let* s := benign_phase w fuel s in
  let* s := attack_phase w fuel s in
  let* s := cooldown_phase s in
  let* s := say (closing w) s in
  Ok (0, s).

(** [main], from a process that has used [cpu0] ticks so far. *)
Definition main (w : world) (fuel : nat) (cpu0 : Z) : run (Z * state) :=
  let* s := say banner (init cpu0) in
  phases w fuel s.

(** A machine with the POSIX clock rate on which a pass takes 3 ticks. *)
Definition steady : world :=
  {| CLOCKS_PER_SEC := 1000000; batch_ticks := fun _ => 3;
     time_ret := fun k => 1700000000 + 15 * Z.of_nat k |}.

End CpuSpikeAttack.

(** ** ui_test_programs/fork_bomb.c and network_test.c: loops without end *)

(** What a turn of [while (1)] leads to: the next turn, or the end of the
    process with an exit code. *)
Inductive outcome (St : Type) :=
| Running (s : St)
| Exited (code : Z) (s : St).
Arguments Running {St} s.
Arguments Exited {St} code s.

(** The first [fuel] turns of [while (1) step]. *)
Fixpoint forever {St : Type} (step : St -> option Z * St) (fuel : nat) (s : St)
  : outcome St :=
  match fuel with
  | O => Running s
  | S fuel' =>
      match step s with
      | (None, s') => forever step fuel' s'
      | (Some code, s') => Exited code s'
      end
  end.

Module ForkBomb.

Record world := {
  fork_ret : nat -> Z     (* what the k-th call of fork returns in this process *)
}.

Record state := {
  count_ : Z;             (* unsigned int count *)
  forks : nat;            (* calls of fork made so far *)
  trace : list event
}.

Definition emit (es : list event) (s : state) : state :=
  {| count_ := count_ s; forks := forks s; trace := trace s ++ es |}.

(** One turn of [while (1)], lines 17-42.  The process ends only where
    [fork] returned 0, that is in a child. *)
Definition step (w : world) (s : state) : option Z * state :=
  let p := fork_ret w (forks s) in
  let s := {| count_ := count_ s; forks := S (forks s);
              trace := trace s ++ [Fork p] |} in
  if p <? 0 then
    (None, emit [Print Stderr "Fork failed after %u processes" [count_ s];
                 Perror "fork";
                 Sleep (sec 1)] s)
  else
    let s := {| count_ := to_uint (count_ s + 1); forks := forks s;
                trace := trace s |} in
    if p =? 0 then
      (Some 0, emit [Sleep (sec 60); Exit 0] s)
    else
      let s := if count_ s mod 10 =? 0
               then emit [Print Stdout "Forked %u processes (latest PID: %d)" [count_ s; p];
                          FflushStdout] s
               else s in
      (None, emit [Sleep 50000] s).

Definition init : state :=
  {| count_ := 0; forks := 0;
     trace := [Print Stdout "Starting fork bomb test..." [];
               Print Stdout "WARNING: This will create many processes!" [];
               FflushStdout] |}.

Definition main (w : world) (fuel : nat) : outcome state :=
  forever (step w) fuel init.

Definition is_fork (e : event) : bool :=
  match e with Fork _ => true | _ => false end.

(** What a turn does after a failed [fork]. *)
Definition retry_events (p count : Z) : list event :=
  [Fork p;
   Print Stderr "Fork failed after %u processes" [count];
   Perror "fork";
   Sleep (sec 1)].

(** The parent after two children. *)
Definition two_children : state := {| count_ := 2; forks := 2; trace := [] |}.

(** The process table is full from the third call on. *)
Definition table_full_after_2 : world :=
  {| fork_ret := fun k => if (k <? 2)%nat then 500 + Z.of_nat k else -1 |}.

End ForkBomb.

Module NetworkTest.

Definition TEST_PORT : Z := 53.

(** Answers are named by the turn of the loop they are given in. *)
Record world := {
  socket_ret : nat -> Z;
  inet_pton_ret : nat -> Z;
  connect_ret : nat -> Z
}.

Record state := {
  attempt : Z;            (* int *)
  turns : nat;            (* turns of the loop made so far *)
  trace : list event
}.

Definition emit (es : list event) (s : state) : state :=
  {| attempt := attempt s; turns := turns s; trace := trace s ++ es |}.

(** One turn of [while (1)], lines 23-57: no path ends the process. *)
Definition step (w : world) (s : state) : option Z * state :=
  let k := turns s in
  let s := {| attempt := int_add (attempt s) 1; turns := S (turns s);
              trace := trace s |} in
  let sock := socket_ret w k in
  let s := emit [Socket sock] s in
  if sock <? 0 then
    (None, emit [Print Stderr "Attempt %d: socket() failed" [attempt s];
                 Perror "socket";
                 Sleep (sec 2)] s)
  else
    let r := inet_pton_ret w k in
    let s := emit [InetPton r] s in
    if r <=? 0 then
      (None, emit [Print Stderr "Attempt %d: Invalid address" [attempt s];
                   Close sock;
                   Sleep (sec 2)] s)
    else
      let s := emit [Print Stdout "Attempt %d: Connecting..." [attempt s];
                     FflushStdout] s in
      let c := connect_ret w k in
      let s := emit [Connect c] s in
      let s := if c <? 0
               then emit [Print Stderr "Attempt %d: Connection failed (Network blocked?)"
                            [attempt s];
                          Perror "connect"] s
               else emit [Print Stdout "Attempt %d: Connection successful!" [attempt s]] s in
      (None, emit [Close sock; Sleep (sec 3)] s).

Definition init : state :=
  {| attempt := 0; turns := 0;
     trace := [Print Stdout "Starting network connectivity test..." [];
               Print Stdout "Attempting to connect to %s:%d (Google DNS)..." [TEST_PORT];
               FflushStdout] |}.

Definition main (w : world) (fuel : nat) : outcome state :=
  forever (step w) fuel init.

(** What a turn does when [socket] fails, and when [connect] does. *)
Definition socket_retry_events (sock attempt : Z) : list event :=
  [Socket sock;
   Print Stderr "Attempt %d: socket() failed" [attempt];
   Perror "socket";
   Sleep (sec 2)].

Definition connect_retry_events (sock r c attempt : Z) : list event :=
  [Socket sock;
   InetPton r;
   Print Stdout "Attempt %d: Connecting..." [attempt];
   FflushStdout;
   Connect c;
   Print Stderr "Attempt %d: Connection failed (Network blocked?)" [attempt];
   Perror "connect";
   Close sock;
   Sleep (sec 3)].

(** The network is closed: every [connect] fails. *)
Definition blocked : world :=
  {| socket_ret := fun _ => 3; inet_pton_ret := fun _ => 1; connect_ret := fun _ => -1 |}.

End NetworkTest.

(** Events that touch no tracked resource: narration, delays, filling a
    block that is already held. *)
Definition quiet (e : event) : bool :=
  match e with
  | Print _ _ _ | Sleep _ | Memset _ _ _ => true
  | _ => false
  end.

(** ** What a trace shows of the resources a program held *)

(** The values [f] finds in the events of a trace, in program order. *)
Fixpoint pick {A : Type} (f : event -> option A) (t : list event) : list A :=
  match t with
  | [] => []
  | e :: t' =>
      match f e with
      | Some a => a :: pick f t'
      | None => pick f t'
      end
  end.

Definition block_obtained (e : event) : option Z :=
  match e with Malloc _ p => if p =? 0 then None else Some p | _ => None end.

Definition block_freed (e : event) : option Z :=
  match e with Free p => Some p | _ => None end.

Definition thread_created (e : event) : option Z :=
  match e with PthreadCreate _ true h => Some h | _ => None end.

Definition thread_joined (e : event) : option Z :=
  match e with PthreadJoin _ h => Some h | _ => None end.

Definition fd_opened (e : event) : option Z :=
  match e with Open _ fd => if 0 <=? fd then Some fd else None | _ => None end.

Definition fd_closed (e : event) : option Z :=
  match e with Close fd => Some fd | _ => None end.

Definition file_created (e : event) : option path :=
  match e with Open name fd => if 0 <=? fd then Some name else None | _ => None end.

Definition file_unlinked (e : event) : option path :=
  match e with Unlink name => Some name | _ => None end.

(** The cells of a stack array that were read. *)
Definition cell_loaded (e : event) : option nat :=
  match e with Load i _ => Some i | _ => None end.

Definition sum_list (l : list Z) : Z := fold_right Z.add 0 l.

(** The blocks obtained with the size asked for, and the blocks filled
    with the size filled. *)
Definition block_sized (e : event) : option (Z * Z) :=
  match e with Malloc size p => if p =? 0 then None else Some (p, size) | _ => None end.

Definition block_filled (e : event) : option (Z * Z) :=
  match e with Memset p _ size => Some (p, size) | _ => None end.

(** What [fwrite] returned, the streams opened and closed, the delays
    asked for. *)
Definition write_returned (e : event) : option Z :=
  match e with Fwrite _ r => Some r | _ => None end.

Definition stream_opened (e : event) : option (path * bool) :=
  match e with Fopen name ok => Some (name, ok) | _ => None end.

Definition stream_closed (e : event) : option unit :=
  match e with Fclose => Some tt | _ => None end.

Definition stream_flushed (e : event) : option unit :=
  match e with Fflush => Some tt | _ => None end.

Definition delay (e : event) : option Z :=
  match e with Sleep us => Some us | _ => None end.

(** Events that only narrate or wait. *)
Definition idle (e : event) : bool :=
  match e with
  | Print _ _ _ | Sleep _ => true
  | _ => false
  end.

(** The state a run has reached, ended or not. *)
Definition final {St : Type} (o : outcome St) : St :=
  match o with
  | Running s => s
  | Exited _ s => s
  end.

(** Reading a trace of the fork bomb from the left, with the number of
    forks that succeeded so far (an [unsigned int]): the number after the
    last event, or [None] when a message carries another number or a
    progress line is printed off a multiple of ten. *)
Fixpoint fork_audit (n : Z) (t : list event) : option Z :=
  match t with
  | [] => Some n
  | Fork p :: t' => fork_audit (if p <? 0 then n else to_uint (n + 1)) t'
  | Print Stderr _ [c] :: t' => if c =? n then fork_audit n t' else None
  | Print Stdout _ (c :: _) :: t' =>
      if (c =? n) && (n mod 10 =? 0) then fork_audit n t' else None
  | _ :: t' => fork_audit n t'
  end.

(** The process in which the fourth call of [fork] returns 0: a child
    of the parent that had forked three times before. *)
Definition fourth_child : ForkBomb.world :=
  {| ForkBomb.fork_ret := fun k => if (k <? 3)%nat then 500 + Z.of_nat k else 0 |}.

(** The handle the [k]-th call of [pthread_create] of the gradual fork
    bomb gives. *)
Definition gradual_handle (w : ForkBombGradual.world) (k : nat) : Z :=
  default 0 (ForkBombGradual.pthread_create_ret w k).

(** The first [i] threads were created by the calls 0 to [i - 1], their
    handles sit in the slots 0 to [i - 1], and none was joined. *)
Definition gradual_lined (w : ForkBombGradual.world) (i : nat)
    (s : ForkBombGradual.state) : Prop :=
  ForkBombGradual.created_threads s = i /\
  ForkBombGradual.crashed s = false /\
  length (ForkBombGradual.threads s) = 80%nat /\
  take i (ForkBombGradual.threads s) = map (gradual_handle w) (seq 0 i) /\
  pick thread_created (ForkBombGradual.trace s) = map (gradual_handle w) (seq 0 i) /\
  pick thread_joined (ForkBombGradual.trace s) = [].

(** What the combo holds during its attack: the three counters point
    behind the blocks, threads and descriptors obtained so far, which sit
    in the arrays in the order obtained; the files created are named by
    their slot; nothing has been given back. *)
Definition combo_held (w : ResourceExhaustionCombo.world)
    (s : ResourceExhaustionCombo.state) : Prop :=
  take (ResourceExhaustionCombo.leak_count s) (ResourceExhaustionCombo.memory_leaks s)
    = pick block_obtained (ResourceExhaustionCombo.trace s) /\
  take (ResourceExhaustionCombo.thread_count s) (ResourceExhaustionCombo.threads s)
    = pick thread_created (ResourceExhaustionCombo.trace s) /\
  take (ResourceExhaustionCombo.file_count s) (ResourceExhaustionCombo.open_fds s)
    = pick fd_opened (ResourceExhaustionCombo.trace s) /\
  pick file_created (ResourceExhaustionCombo.trace s)
    = map (ExhaustTmp (ResourceExhaustionCombo.pid w))
          (seq 0 (ResourceExhaustionCombo.file_count s)) /\
  length (ResourceExhaustionCombo.memory_leaks s) = 30%nat /\
  length (ResourceExhaustionCombo.threads s) = 60%nat /\
  length (ResourceExhaustionCombo.open_fds s) = 100%nat /\
  pick block_freed (ResourceExhaustionCombo.trace s) = [] /\
  pick thread_joined (ResourceExhaustionCombo.trace s) = [] /\
  pick fd_closed (ResourceExhaustionCombo.trace s) = [] /\
  pick file_unlinked (ResourceExhaustionCombo.trace s) = [] /\
  (ResourceExhaustionCombo.leak_count s <= 30)%nat /\
  (ResourceExhaustionCombo.thread_count s <= 60)%nat /\
  (ResourceExhaustionCombo.file_count s <= 100)%nat.

(** [t] has the arrays and the counters of [s]. *)
Definition combo_same_store (s t : ResourceExhaustionCombo.state) : Prop :=
  ResourceExhaustionCombo.memory_leaks t = ResourceExhaustionCombo.memory_leaks s /\
  ResourceExhaustionCombo.threads t = ResourceExhaustionCombo.threads s /\
  ResourceExhaustionCombo.open_fds t = ResourceExhaustionCombo.open_fds s /\
  ResourceExhaustionCombo.leak_count t = ResourceExhaustionCombo.leak_count s /\
  ResourceExhaustionCombo.thread_count t = ResourceExhaustionCombo.thread_count s /\
  ResourceExhaustionCombo.file_count t = ResourceExhaustionCombo.file_count s.

(** [f i + f (i + 1) + ... + f (i + n - 1)] *)
Fixpoint tally (f : nat -> nat) (i n : nat) : nat :=
  match n with
  | O => 0
  | S n' => f i + tally f (S i) n'
  end.

(** What an iteration of the combo's attack loop may add to its three
    counters: a block on the even turns, three threads on every third
    turn, a file on the odd turns. *)
Definition combo_blocks (i : nat) : nat := if Nat.eqb (i mod 2) 0 then 1 else 0.
Definition combo_threads (i : nat) : nat := if Nat.eqb (i mod 3) 0 then 3 else 0.
Definition combo_files (i : nat) : nat := if Nat.eqb (i mod 2) 1 then 1 else 0.

(** The blocks the combo has obtained before turn [j] of its attack
    loop: one for each even turn whose [malloc] was granted.  And the
    call of [malloc] turn [j] makes, if any: on an even turn, for 8 MB
    more than the blocks obtained so far take. *)
Definition combo_leaks (w : ResourceExhaustionCombo.world) (j : nat) : nat :=
  tally (fun i => if Nat.eqb (i mod 2) 0
                     && negb (ResourceExhaustionCombo.malloc_ret w i =? 0)
                  then 1%nat else 0%nat) 0 j.

Definition combo_call (w : ResourceExhaustionCombo.world) (j : nat) : list (Z * Z) :=
  if Nat.eqb (j mod 2) 0
  then [((Z.of_nat (combo_leaks w j) + 1) * (8 * ResourceExhaustionCombo.MB),
         ResourceExhaustionCombo.malloc_ret w j)]
  else [].

(** The operating system grants the combo everything it asks for. *)
Definition combo_granted (w : ResourceExhaustionCombo.world) : Prop :=
  (forall i, ResourceExhaustionCombo.malloc_ret w i <> 0) /\
  (forall i j, ResourceExhaustionCombo.pthread_create_ret w i j <> None) /\
  (forall i, 0 <= ResourceExhaustionCombo.open_ret w i).

(** A run of the combo in which every call succeeds. *)
Definition combo_generous : ResourceExhaustionCombo.world :=
  {| ResourceExhaustionCombo.pid := 4242;
     ResourceExhaustionCombo.malloc_ret := fun i => 65536 * (1 + Z.of_nat i);
     ResourceExhaustionCombo.pthread_create_ret :=
       fun i j => Some (1000 + 3 * Z.of_nat i + Z.of_nat j);
     ResourceExhaustionCombo.open_ret := fun i => 3 + Z.of_nat i;
     ResourceExhaustionCombo.stack_garbage := fun _ => 0 |}.

(** Reading a trace of the network test from the left, with the number
    of the attempt (an [int]) and the socket held: [None] when a socket
    is asked for while one is held, when [inet_pton], [connect] or
    [close] come without a socket held, when another descriptor than the
    one held is closed, or when a line of an attempt carries another
    number. *)
Fixpoint net_audit (attempt : Z) (held : option Z) (t : list event)
  : option (Z * option Z) :=
  match t with
  | [] => Some (attempt, held)
  | Socket fd :: t' =>
      match held with
      | None => net_audit (int_add attempt 1) (if fd <? 0 then None else Some fd) t'
      | Some _ => None
      end
  | InetPton _ :: t' | Connect _ :: t' =>
      match held with
      | Some _ => net_audit attempt held t'
      | None => None
      end
  | Close fd :: t' =>
      match held with
      | Some fd' => if fd =? fd' then net_audit attempt None t' else None
      | None => None
      end
  | Print _ fmt [a] :: t' =>
      if negb (String.prefix "Attempt %d:" fmt) || (a =? attempt)
      then net_audit attempt held t'
      else None
  | _ :: t' => net_audit attempt held t'
  end.

(** ** ui_test_programs/memory_hog.c *)

Module MemoryHog.

Definition CHUNK_SIZE : Z := 10 * 1024 * 1024.

Record world := {
  malloc_ret : nat -> Z      (* answer of the k-th call of malloc; 0 is NULL *)
}.

Record state := {
  total : Z;                 (* unsigned long *)
  count_ : Z;                (* int count *)
  calls : nat;               (* calls of malloc made so far *)
  trace : list event
}.

Definition emit (es : list event) (s : state) : state :=
  {| total := total s; count_ := count_ s; calls := calls s;
     trace := trace s ++ es |}.

(** One turn of [while (1)], lines 19-39.  The [break] of line 23 leads
    to [return 1], the only way out of the program. *)
Definition step (w : world) (s : state) : option Z * state :=
  let block := malloc_ret w (calls s) in
  let s := {| total := total s; count_ := count_ s; calls := S (calls s);
              trace := trace s ++ [Malloc CHUNK_SIZE block] |} in
  if block =? 0 then
    (Some 1, emit [Print Stderr "malloc failed after %lu MB" [total s / (1024 * 1024)]] s)
  else
    let s := emit [Memset block 171 CHUNK_SIZE] s in
    let s := {| total := to_size_t (total s + CHUNK_SIZE);
                count_ := int_add (count_ s) 1;
                calls := calls s; trace := trace s |} in
    let s := if Z.rem (count_ s) 10 =? 0
             then emit [Print Stdout "Allocated: %lu MB (%d chunks)"
                          [total s / (1024 * 1024); count_ s];
                        FflushStdout] s
             else s in
    (None, emit [Sleep 100000] s).

Definition init : state :=
  {| total := 0; count_ := 0; calls := 0;
     trace := [Print Stdout "Starting memory allocation test..." [];
               FflushStdout] |}.

Definition main (w : world) (fuel : nat) : outcome state :=
  forever (step w) fuel init.

Definition is_progress (e : event) : bool :=
  match e with
  | Print Stdout fmt _ => String.eqb fmt "Allocated: %lu MB (%d chunks)"
  | _ => false
  end.

(** What holds once [k] chunks were obtained and [malloc] has not
    failed. *)
Definition holds (w : world) (k : nat) (s : state) : Prop :=
  calls s = k /\
  total s = CHUNK_SIZE * Z.of_nat k /\
  count_ s = Z.of_nat k /\
  pick block_obtained (trace s) = map (malloc_ret w) (seq 0 k) /\
  pick block_freed (trace s) = [] /\
  Z.of_nat (count is_progress (trace s)) = Z.of_nat k / 10.

(** The address space is used up at the thirteenth chunk. *)
Definition full_after_12 : world :=
  {| malloc_ret := fun k => if (k <? 12)%nat then 4096 * (1 + Z.of_nat k) else 0 |}.

End MemoryHog.

(** ** ui_test_programs/infinite_loop.c *)

Module InfiniteLoop.

Record state := {
  counter : Z;               (* volatile unsigned long long *)
  trace : list event
}.

Definition emit (es : list event) (s : state) : state :=
  {| counter := counter s; trace := trace s ++ es |}.

(** One turn of [while (1)], lines 12-19: no path ends the process. *)
Definition step (s : state) : option Z * state :=
  let s := {| counter := (counter s + 1) mod 2 ^ 64; trace := trace s |} in
  (None,
   if counter s mod 100000000 =? 0
   then emit [Print Stdout "Counter: %llu" [counter s]; FflushStdout] s
   else s).

Definition init : state :=
  {| counter := 0;
     trace := [Print Stdout "Starting infinite CPU loop..." []; FflushStdout] |}.

Definition main (fuel : nat) : outcome state := forever step fuel init.

Definition is_report (e : event) : bool :=
  match e with
  | Print Stdout fmt _ => String.eqb fmt "Counter: %llu"
  | _ => false
  end.

(** A report carries a multiple of one hundred million. *)
Definition round_report (e : event) : bool :=
  match e with
  | Print Stdout fmt [c] =>
      negb (String.eqb fmt "Counter: %llu") || (c mod 100000000 =? 0)
  | _ => true
  end.

End InfiniteLoop.

(** ** ui_test_programs/ml_test_pattern.c

    Time is kept as for the CPU spike: [slept] counts the microseconds
    asked of [sleep], [cpu] the ticks [clock ()] has seen; one pass of
    the busy loop of [cpu_burst] costs [pass_ticks w k] ticks. *)

Module MlTestPattern.

Definition MB : Z := 1024 * 1024.

Record world := {
  CLOCKS_PER_SEC : Z;          (* the <time.h> constant *)
  pass_ticks : nat -> Z;       (* processor time of the k-th pass of the busy loop *)
  malloc_ret : nat -> Z;       (* answer of the k-th call of malloc; 0 is NULL *)
  stack_garbage : nat -> Z     (* what ptrs[k] holds at entry *)
}.

Record state := {
  ptrs : list Z;               (* void* ptrs[20], on the stack *)
  mem_ptr : Z;                 (* void* mem_ptr *)
  mallocs : nat;               (* calls of malloc made so far *)
  cpu : Z;                     (* what clock () returns now *)
  passes : nat;                (* passes of the busy loop made so far *)
  slept : Z;                   (* microseconds asked of sleep *)
  trace : list event
}.

Definition emit (es : list event) (s : state) : state :=
  {| ptrs := ptrs s; mem_ptr := mem_ptr s; mallocs := mallocs s; cpu := cpu s;
     passes := passes s; slept := slept s; trace := trace s ++ es |}.

(** [sleep (n)] *)
Definition sleep_ (n : Z) (s : state) : state :=
  {| ptrs := ptrs s; mem_ptr := mem_ptr s; mallocs := mallocs s; cpu := cpu s;
     passes := passes s; slept := slept s + sec n;
     trace := trace s ++ [Sleep (sec n)] |}.

(** one pass of the busy loop: [sum += rand ()] *)
Definition one_pass (w : world) (s : state) : state :=
  {| ptrs := ptrs s; mem_ptr := mem_ptr s; mallocs := mallocs s;
     cpu := cpu s + pass_ticks w (passes s); passes := S (passes s);
     slept := slept s; trace := trace s |}.

(** [ptrs[i] = v] *)
Definition set_ptr (i : nat) (v : Z) (s : state) : state :=
  {| ptrs := <[ i := v ]> (ptrs s); mem_ptr := mem_ptr s; mallocs := mallocs s;
     cpu := cpu s; passes := passes s; slept := slept s;
     trace := trace s ++ [Store i v] |}.

Definition set_mem_ptr (v : Z) (s : state) : state :=
  {| ptrs := ptrs s; mem_ptr := v; mallocs := mallocs s; cpu := cpu s;
     passes := passes s; slept := slept s; trace := trace s |}.

(** the value of [ptrs[i]] *)
Definition cell (i : nat) (s : state) : Z := default 0 (ptrs s !! i).

(** [duration_ms * CLOCKS_PER_SEC / 1000], in [long] *)
Definition ticks_of (w : world) (duration_ms : Z) : Z :=
  Z.quot (duration_ms * CLOCKS_PER_SEC w) 1000.

(** [while (clock () < end) sum += rand ();], lines 20-22; [None] when
    [fuel] passes do not reach [end_]. *)
Fixpoint burn (w : world) (fuel : nat) (end_ : Z) (s : state) : option state :=
  if cpu s <? end_ then
    match fuel with
    | O => None
    | S fuel' => burn w fuel' end_ (one_pass w s)
    end
  else Some s.

(** [cpu_burst (duration_ms)], lines 15-23 *)
Definition cpu_burst (w : world) (fuel : nat) (duration_ms : Z) (s : state)
  : option state :=
  let start := cpu s in
  let end_ := start + ticks_of w duration_ms in
  burn w fuel end_ s.

(** [allocate_memory (bytes)], lines 26-32: the block is filled only
    when there is one. *)
Definition allocate_memory (w : world) (bytes : Z) (s : state) : Z * state :=
  let ptr := malloc_ret w (mallocs s) in
  let s := {| ptrs := ptrs s; mem_ptr := mem_ptr s; mallocs := S (mallocs s);
              cpu := cpu s; passes := passes s; slept := slept s;
              trace := trace s ++ [Malloc bytes ptr] |} in
  (ptr, if ptr =? 0 then s else emit [Memset ptr 170 bytes] s).

(** A [for] loop of [n] turns over a body that may run out of fuel. *)
Fixpoint repeat_ (body : nat -> state -> option state) (i n : nat) (s : state)
  : option state :=
  match n with
  | O => Some s
  | S n' =>
      match body i s with
      | Some s' => repeat_ body (S i) n' s'
      | None => None
      end
  end.

(** [print; cpu_burst (ms); sleep (1)]: the shape of a turn of the
    patterns 1, 2 and 4. *)
Definition burst_turn (w : world) (fuel : nat) (line : event) (ms : Z) (s : state)
  : option state :=
  match cpu_burst w fuel ms (emit [line] s) with
  | Some s => Some (sleep_ 1 s)
  | None => None
  end.

(** Pattern 1, lines 49-53. *)
Definition gradual_body (w : world) (fuel : nat) (i : nat) (s : state) : option state :=
  burst_turn w fuel
    (Print Stdout "Iteration %d: CPU load %d%%" [Z.of_nat i + 1; (Z.of_nat i + 1) * 5])
    (50 + Z.of_nat i * 25) s.

(** Pattern 2, lines 59-68. *)
Definition spike_body (w : world) (fuel : nat) (i : nat) (s : state) : option state :=
  if Nat.eqb i 7 then
    burst_turn w fuel
      (Print Stdout "!!! SUDDEN SPIKE at iteration %d !!!" [Z.of_nat i + 1]) 800 s
  else
    burst_turn w fuel
      (Print Stdout "Iteration %d: Normal load" [Z.of_nat i + 1]) 50 s.

(** [(i + 1) * 5 * 1024 * 1024], computed in [int], as a [size_t] *)
Definition alloc_bytes (i : nat) : Z :=
  to_size_t (int_mul (int_mul (int_mul (int_add (Z.of_nat i) 1) 5) 1024) 1024).

(** Pattern 3, the allocation loop, lines 75-85.  The last argument of
    the line is the [int] [(i+1)*(i+2)/2 * 5]. *)
Definition leak_body (w : world) (i : nat) (s : state) : ctl * state :=
  let bytes := alloc_bytes i in
  let s := emit [Print Stdout "Iteration %d: Allocating %zu MB (total: %zu MB)"
                   [Z.of_nat i + 1; bytes / MB;
                    Z.quot ((Z.of_nat i + 1) * (Z.of_nat i + 2)) 2 * 5]] s in
  let (p, s) := allocate_memory w bytes s in
  let s := set_ptr i p s in
  if p =? 0 then (Break, emit [Print Stdout "Memory allocation failed!" []] s)
  else (Next, sleep_ 1 s).

(** Pattern 3, the cleanup loop, lines 87-89.  The word in the cell is
    passed to [free] unless it is NULL; when it is no block the process
    holds, the call is not defined and the run goes no further. *)
Definition cleanup_body (i : nat) (s : state) : ctl * state :=
  let p := cell i s in
  let s := emit [Load i p] s in
  if p =? 0 then (Next, s)
  else if is_block p (trace s) then (Next, emit [Free p] s)
  else (Break, emit [Free p] s).

(** Pattern 4, lines 95-104. *)
Definition oscillating_body (w : world) (fuel : nat) (i : nat) (s : state)
  : option state :=
  if Nat.eqb (i mod 2) 0 then
    burst_turn w fuel (Print Stdout "Iteration %d: HIGH CPU load" [Z.of_nat i + 1]) 600 s
  else
    burst_turn w fuel (Print Stdout "Iteration %d: LOW CPU load" [Z.of_nat i + 1]) 50 s.

(** Pattern 5, lines 111-121. *)
Definition combined_body (w : world) (fuel : nat) (i : nat) (s : state)
  : option state :=
  if Nat.eqb i 10 then
    match cpu_burst w fuel 700
            (emit [Print Stdout "!!! ANOMALY: Simultaneous CPU spike + memory surge !!!" []] s)
    with
    | Some s =>
        let (p, s) := allocate_memory w (50 * 1024 * 1024) s in
        Some (sleep_ 1 (set_mem_ptr p s))
    | None => None
    end
  else
    burst_turn w fuel (Print Stdout "Iteration %d: Normal behavior" [Z.of_nat i + 1]) 100 s.

Definition banner : list event :=
  [Print Stdout "ML Test Pattern Generator" [];
   Print Stdout "==========================" [];
   Print Stdout "This program creates patterns for ML anomaly detection." [];
   Print Stdout "Watch the AI Anomaly Detection tab for analysis results." []].

Definition usage : list event :=
  [Print Stdout "Invalid pattern. Use: %s [1-5]" [];
   Print Stdout "  1: Gradual CPU increase (Normal)" [];
   Print Stdout "  2: Sudden CPU spike (Anomalous)" [];
   Print Stdout "  3: Memory leak (Anomalous)" [];
   Print Stdout "  4: Oscillating behavior (Suspicious)" [];
   Print Stdout "  5: Combined CPU + Memory anomaly" []].

Definition gradual_pattern (w : world) (fuel : nat) (s : state) : option state :=
  repeat_ (gradual_body w fuel) 0 20
    (emit [Print Stdout "Pattern 1: Gradual CPU increase (Normal behavior)" [];
           Print Stdout "This should be detected as NORMAL by ML." []] s).

Definition spike_pattern (w : world) (fuel : nat) (s : state) : option state :=
  repeat_ (spike_body w fuel) 0 15
    (emit [Print Stdout "Pattern 2: Sudden CPU spike (Anomalous behavior)" [];
           Print Stdout "This should be detected as ANOMALOUS by ML." []] s).

Definition leak_loop (w : world) (s : state) : state :=
  for_loop (leak_body w) 0 20
    (emit [Print Stdout "Pattern 3: Memory leak simulation (Anomalous behavior)" [];
           Print Stdout "This should be detected as ANOMALOUS by ML." []] s).

Definition cleanup_loop (s : state) : state :=
  for_loop cleanup_body 0 20 (emit [Print Stdout "Cleaning up memory..." []] s).

(** Pattern 3, lines 72-90: [None] when the cleanup ends in a call of
    [free] that is not defined. *)
Definition leak_pattern (w : world) (s : state) : option state :=
  let s := cleanup_loop (leak_loop w s) in
  if defined (trace s) then Some s else None.

Definition oscillating_pattern (w : world) (fuel : nat) (s : state) : option state :=
  repeat_ (oscillating_body w fuel) 0 20
    (emit [Print Stdout "Pattern 4: Oscillating behavior (Suspicious pattern)" [];
           Print Stdout "This should trigger ML analysis." []] s).

Definition combined_pattern (w : world) (fuel : nat) (s : state) : option state :=
  match repeat_ (combined_body w fuel) 0 25
          (emit [Print Stdout "Pattern 5: Combined CPU + Memory anomaly" [];
                 Print Stdout "This creates a complex anomaly for ML to detect." []] s)
  with
  | Some s => Some (if mem_ptr s =? 0 then s else emit [Free (mem_ptr s)] s)
  | None => None
  end.

(** Lines 135-136, reached from every [break] of the [switch]. *)
Definition complete (r : option state) : option (Z * state) :=
  match r with
  | Some s =>
      Some (0, emit [Print Stdout "Pattern complete! Check the AI Anomaly Detection tab." []] s)
  | None => None
  end.

(** Lines 40-43. [argv] holds the arguments after the program name. *)
Definition pattern_of (argv : list string) : Z :=
  match argv with
  | [] => 1
  | a :: _ => Libc.atoi a
  end.

(** The stack array of pattern 3 is not initialised. *)
Definition init (w : world) (cpu0 : Z) : state :=
  {| ptrs := map (stack_garbage w) (seq 0 20); mem_ptr := 0; mallocs := 0;
     cpu := cpu0; passes := 0; slept := 0; trace := [] |}.

(** The [switch] of lines 45-133. *)
Definition dispatch (w : world) (fuel : nat) (pattern : Z) (s : state)
  : option (Z * state) :=
  match pattern with
  | 1 => complete (gradual_pattern w fuel s)
  | 2 => complete (spike_pattern w fuel s)
  | 3 => complete (leak_pattern w s)
  | 4 => complete (oscillating_pattern w fuel s)
  | 5 => complete (combined_pattern w fuel s)
  | _ => Some (1, emit usage s)
  end.

(** [main], from a process that has used [cpu0] ticks so far: the exit
    code and the final state.  There is none when a call of [cpu_burst]
    runs out of [fuel], and none when pattern 3 ends in a call of [free]
    that is not defined. *)
Definition main (w : world) (fuel : nat) (cpu0 : Z) (argv : list string)
  : option (Z * state) :=
  dispatch w fuel (pattern_of argv) (emit banner (init w cpu0)).

(** The processor time the bursts of [n] turns from turn [i] on ask
    for, when turn [j] asks for [ms j] milliseconds. *)
Fixpoint planned (w : world) (ms : nat -> Z) (i n : nat) : Z :=
  match n with
  | O => 0
  | S n' => ticks_of w (ms i) + planned w ms (S i) n'
  end.

(** [s'] differs from [s] in the clock at most. *)
Definition only_burnt (s s' : state) : Prop :=
  ptrs s' = ptrs s /\ mem_ptr s' = mem_ptr s /\ mallocs s' = mallocs s /\
  slept s' = slept s /\ trace s' = trace s.

(** The numbers a line of pattern 3 announces: the iteration, the size
    asked for and the running total, the last two in MB. *)
Definition announced (e : event) : option (list Z) :=
  match e with
  | Print Stdout fmt args =>
      if String.eqb fmt "Iteration %d: Allocating %zu MB (total: %zu MB)"
      then Some args else None
  | _ => None
  end.

(** The line that opens turn [i] of pattern 3, and what the turn does
    when its allocation succeeds and when it fails. *)
Definition announcement (i : nat) : event :=
  Print Stdout "Iteration %d: Allocating %zu MB (total: %zu MB)"
    [Z.of_nat i + 1; alloc_bytes i / MB;
     Z.quot ((Z.of_nat i + 1) * (Z.of_nat i + 2)) 2 * 5].

Definition turn_ok (w : world) (i : nat) : list event :=
  [announcement i;
   Malloc (alloc_bytes i) (malloc_ret w i);
   Memset (malloc_ret w i) 170 (alloc_bytes i);
   Store i (malloc_ret w i);
   Sleep (sec 1)].

Definition turn_failed (i : nat) : list event :=
  [announcement i;
   Malloc (alloc_bytes i) 0;
   Store i 0;
   Print Stdout "Memory allocation failed!" []].

(** A machine with the POSIX clock rate on which a pass takes 2 ticks
    and every allocation succeeds. *)
Definition steady : world :=
  {| CLOCKS_PER_SEC := 1000000; pass_ticks := fun _ => 2;
     malloc_ret := fun k => 4096 * (1 + Z.of_nat k);
     stack_garbage := fun _ => 0 |}.

(** The same machine, out of memory at the fourth allocation, with a
    stale word in the stack cell that becomes [ptrs[9]]. *)
Definition tight : world :=
  {| CLOCKS_PER_SEC := 1000000; pass_ticks := fun _ => 2;
     malloc_ret := fun k => if (k <? 3)%nat then 4096 * (1 + Z.of_nat k) else 0;
     stack_garbage := fun k => if Nat.eqb k 9 then 3735928559 else 0 |}.

End MlTestPattern.

(** * Theorems *)

(** ** Loops and machine integers *)

Section LoopFacts.
Context {St : Type}.
Implicit Types (body : nat -> St -> ctl * St).

(** Invariant rule for [for_loop]: [P j] holds before iteration [j],
    [Q] holds when the loop is left, by [break] or by running out. *)
Lemma for_loop_rule (P : nat -> St -> Prop) (Q : St -> Prop) body n :
  forall i s,
    P i s ->
    (forall j t t', (i <= j < i + n)%nat -> P j t -> body j t = (Next, t') -> P (S j) t') ->
    (forall j t t', (i <= j < i + n)%nat -> P j t -> body j t = (Break, t') -> Q t') ->
    (forall t, P (i + n)%nat t -> Q t) ->
    Q (for_loop body i n s).
Proof.
  induction n as [|n IH]; intros i s Hs Hnext Hbreak Hend; simpl.
  - apply Hend. now rewrite Nat.add_0_r.
  - destruct (body i s) as [[] s'] eqn:E.
    + apply IH.
      * apply (Hnext i s s'); [lia | assumption | assumption].
      * intros j t t' Hj. apply Hnext. lia.
      * intros j t t' Hj. apply Hbreak. lia.
      * intros t Ht. apply Hend. now replace (i + S n)%nat with (S i + n)%nat by lia.
    + apply (Hbreak i s s'); [lia | assumption | assumption].
Qed.

(** A loop whose body never breaks runs all its iterations. *)
Lemma for_loop_total (P : nat -> St -> Prop) body n :
  forall i s,
    P i s ->
    (forall j t, (i <= j < i + n)%nat -> P j t ->
                 fst (body j t) = Next /\ P (S j) (snd (body j t))) ->
    P (i + n)%nat (for_loop body i n s).
Proof.
  intros i s Hs Hstep.
  apply (for_loop_rule P (P (i + n)%nat) body n i s Hs).
  - intros j t t' Hj Ht E. destruct (Hstep j t Hj Ht) as [_ H]. now rewrite E in H.
  - intros j t t' Hj Ht E. destruct (Hstep j t Hj Ht) as [H _]. now rewrite E in H.
  - auto.
Qed.

(** What no iteration changes, the loop does not change. *)
Lemma for_loop_preserves {A : Type} (f : St -> A) body n :
  forall i s,
    (forall j t, f (snd (body j t)) = f t) ->
    f (for_loop body i n s) = f s.
Proof.
  induction n as [|n IH]; intros i s H; simpl; [reflexivity|].
  specialize (H i s) as Hi. destruct (body i s) as [[] s']; cbn [snd] in Hi.
  - rewrite IH by assumption. exact Hi.
  - exact Hi.
Qed.

Section Extends.
Variables (tr : St -> list event) (ok : event -> bool).

Lemma extends_refl (s : St) : extends tr ok s s.
Proof. exists []. now rewrite app_nil_r. Qed.

Lemma extends_trans (s t u : St) :
  extends tr ok s t -> extends tr ok t u -> extends tr ok s u.
Proof.
  intros (e1 & E1 & H1) (e2 & E2 & H2). exists (e1 ++ e2).
  rewrite E2, E1, <- app_assoc, forallb_app, H1, H2. now split.
Qed.

Lemma extends_In (s s' : St) (e : event) :
  extends tr ok s s' -> In e (tr s) -> In e (tr s').
Proof. intros (ext & -> & _) H. apply in_or_app. now left. Qed.

(** A loop extends the trace the way its turns do. *)
Lemma for_loop_extends body n :
  (forall j t, extends tr ok t (snd (body j t))) ->
  forall i s, extends tr ok s (for_loop body i n s).
Proof.
  intros Hbody. induction n as [|n IH]; intros i s; simpl.
  - apply extends_refl.
  - specialize (Hbody i s) as Hi. destruct (body i s) as [[] s']; cbn [snd] in Hi.
    + eapply extends_trans; [exact Hi | apply IH].
    + exact Hi.
Qed.

End Extends.

End LoopFacts.

Lemma to_int_small (x : Z) : - 2 ^ 31 <= x < 2 ^ 31 -> to_int x = x.
Proof. intros H. unfold to_int. rewrite Z.mod_small; lia. Qed.

Lemma to_size_t_small (x : Z) : 0 <= x < 2 ^ 64 -> to_size_t x = x.
Proof. intros H. unfold to_size_t. now rewrite Z.mod_small. Qed.

Lemma count_app (f : event -> bool) (t u : list event) :
  count f (t ++ u) = (count f t + count f u)%nat.
Proof. unfold count. now rewrite List.filter_app, length_app. Qed.

Lemma occurs_In (e : event) (t : list event) : occurs e t = true -> In e t.
Proof. unfold occurs. now destruct (in_dec event_eq_dec e t). Qed.

Lemma count_nil (f : event -> bool) : count f [] = 0%nat.
Proof. reflexivity. Qed.

Lemma count_cons (f : event -> bool) (e : event) (t : list event) :
  count f (e :: t) = ((if f e then 1 else 0) + count f t)%nat.
Proof. unfold count. cbn. now destruct (f e). Qed.

Lemma malloc_calls_app (t u : list event) :
  malloc_calls (t ++ u) = malloc_calls t ++ malloc_calls u.
Proof.
  induction t as [|e t IH]; [reflexivity|].
  destruct e; cbn; rewrite ?IH; reflexivity.
Qed.

Lemma malloc_calls_none (ok : event -> bool) (t : list event) :
  (forall e, ok e = true -> is_malloc e = false) ->
  forallb ok t = true -> malloc_calls t = [].
Proof.
  intros Hok. induction t as [|e t IH]; [reflexivity|]. cbn [forallb].
  intros H. apply andb_prop in H as [He Ht]. apply Hok in He.
  destruct e; try discriminate; cbn; auto.
Qed.

Lemma leaked_sizes_app (t u : list event) :
  leaked_sizes (t ++ u) = leaked_sizes t ++ leaked_sizes u.
Proof. unfold leaked_sizes. now rewrite malloc_calls_app, List.filter_app, map_app. Qed.

Lemma count_none (f ok : event -> bool) (t : list event) :
  (forall e, ok e = true -> f e = false) ->
  forallb ok t = true -> count f t = 0%nat.
Proof.
  intros Hf. unfold count. induction t as [|e t IH]; cbn; [reflexivity|].
  intros H. apply andb_prop in H as [He Ht].
  rewrite (Hf e He). auto.
Qed.

Lemma forallb_weaken (ok ok' : event -> bool) (t : list event) :
  (forall e, ok e = true -> ok' e = true) ->
  forallb ok t = true -> forallb ok' t = true.
Proof.
  intros H. induction t as [|e t IH]; [reflexivity|]. cbn.
  intros Ht. apply andb_prop in Ht as [He Ht]. now rewrite (H e He), IH.
Qed.

(** *** Chains *)

Lemma chain_snoc {A : Type} (R : A -> A -> Prop) (l : list A) (x : A) :
  chain R l -> (forall a, last l = Some a -> R a x) -> chain R (l ++ [x]).
Proof.
  induction l as [|a l IH]; [intros; exact I|].
  destruct l as [|b l].
  - intros _ H. cbn. split; [apply H; reflexivity | exact I].
  - intros [Hab Hc] H. cbn [app chain]. split; [exact Hab|].
    apply IH; [exact Hc|]. intros c Hlast. apply H. exact Hlast.
Qed.

(** An arithmetic progression is a chain of equal steps. *)
Lemma chain_progression (d : Z) (n i : nat) :
  chain (fun a b => b = a + d) (map (fun k => (Z.of_nat k + 1) * d) (seq i n)).
Proof.
  revert i. induction n as [|n IH]; intros i; [exact I|].
  destruct n as [|n]; [exact I|].
  change (seq i (S (S n))) with (i :: seq (S i) (S n)).
  specialize (IH (S i)). cbn [seq map chain] in *. split; [lia | exact IH].
Qed.

(** ** Progressive memory leak *)

Section MemoryLeakFacts.
Import MemoryLeakProgressive.
Variable w : world.

Lemma alloc_size_eq (i : nat) :
  (i < 25)%nat -> alloc_size i = (Z.of_nat i + 1) * (5 * MB).
Proof.
  intros Hi. unfold alloc_size, int_mul, int_add, MB.
  rewrite (to_int_small (Z.of_nat i + 1)) by lia.
  rewrite (to_int_small ((Z.of_nat i + 1) * 5)) by lia.
  rewrite to_int_small by lia.
  rewrite to_size_t_small by lia. lia.
Qed.

(** One turn of the leak loop: the call, the write of its answer into
    cell [i], then only quiet events. *)
Lemma leak_body_spec (i : nat) (s : state) :
  exists rest,
    forallb quiet rest = true /\
    leak_body w i s =
      (if malloc_ret w i =? 0 then Break else Next,
       {| allocations := <[ i := malloc_ret w i ]> (allocations s);
          total_allocated :=
            if malloc_ret w i =? 0 then total_allocated s
            else to_size_t (total_allocated s + alloc_size i);
          trace := trace s ++ Malloc (alloc_size i) (malloc_ret w i)
                                :: Store i (malloc_ret w i) :: rest |}).
Proof.
  unfold leak_body, store, emit, add_total; cbn [allocations total_allocated trace].
  destruct (malloc_ret w i =? 0);
    [| destruct (Nat.eqb i 5), (Nat.eqb i 10), (Nat.eqb i 15) ];
    cbn [allocations total_allocated trace];
    rewrite <- ?app_assoc; cbn [app];
    eexists; (split; [| reflexivity]); reflexivity.
Qed.

Lemma cleanup_body_spec (i : nat) (s : state) :
  exists c,
    cleanup_body i s =
      (c,
       {| allocations := allocations s;
          total_allocated := total_allocated s;
          trace := trace s ++ Load i (cell i s)
                     :: (if cell i s =? 0 then [] else [Free (cell i s)]) |}).
Proof.
  unfold cleanup_body, emit; cbn [allocations total_allocated trace].
  change (default 0 (allocations s !! i)) with (cell i s).
  destruct (cell i s =? 0); [eexists; rewrite <- ?app_assoc; reflexivity|].
  destruct (is_block _ _); eexists; rewrite <- ?app_assoc; reflexivity.
Qed.

Lemma count_quiet (f : event -> bool) (rest : list event) :
  (forall e, quiet e = true -> f e = false) ->
  forallb quiet rest = true -> count f rest = 0%nat.
Proof.
  intros Hf. unfold count. induction rest as [|e rest IH]; cbn; [reflexivity|].
  intros H. apply andb_prop in H as [He Hrest].
  rewrite (Hf e He). auto.
Qed.

Lemma is_store_quiet e : quiet e = true -> is_store e = false.
Proof. now destruct e. Qed.

Lemma stores_to_quiet k e : quiet e = true -> stores_to k e = false.
Proof. now destruct e. Qed.

Lemma init_cells (k : nat) :
  (k < 30)%nat -> allocations (init w) !! k = Some (stack_garbage w k).
Proof.
  intros Hk. unfold init; cbn [allocations].
  rewrite list_lookup_fmap, lookup_seq_lt by lia. reflexivity.
Qed.

Lemma leak_phase_tail : tail_untouched w (leak_phase w (emit banner (init w))).
Proof.
  unfold leak_phase.
  apply (for_loop_rule
           (fun i s => (count is_store (trace s) <= i)%nat /\
                       (forall k, (25 <= k)%nat -> count (stores_to k) (trace s) = 0%nat) /\
                       (forall k, (25 <= k < 30)%nat ->
                                  allocations s !! k = Some (stack_garbage w k)))
           (tail_untouched w)).
  - split; [| split].
    + cbn. lia.
    + intros k Hk. reflexivity.
    + intros k Hk. unfold emit; cbn [allocations]. apply init_cells. lia.
  - intros j t t' Hj (Hc & Hz & Ha) E.
    destruct (leak_body_spec j t) as (rest & Hq & E'). rewrite E' in E.
    injection E as _ <-. cbn [trace allocations]. split; [| split].
    + rewrite count_app, !count_cons, (count_quiet is_store rest is_store_quiet Hq). cbn. lia.
    + intros k Hk.
      rewrite count_app, !count_cons, (count_quiet _ rest (stores_to_quiet k) Hq), Hz by lia.
      cbn. destruct (Nat.eqb_spec j k); [lia | reflexivity].
    + intros k Hk. rewrite list_lookup_insert_ne by lia. now apply Ha.
  - intros j t t' Hj (Hc & Hz & Ha) E.
    destruct (leak_body_spec j t) as (rest & Hq & E'). rewrite E' in E.
    injection E as _ <-. unfold tail_untouched; cbn [trace allocations]. split; [| split].
    + rewrite count_app, !count_cons, (count_quiet is_store rest is_store_quiet Hq). cbn. lia.
    + intros k Hk.
      rewrite count_app, !count_cons, (count_quiet _ rest (stores_to_quiet k) Hq), Hz by lia.
      cbn. destruct (Nat.eqb_spec j k); [lia | reflexivity].
    + intros k Hk. rewrite list_lookup_insert_ne by lia. now apply Ha.
  - intros t (Hc & Hz & Ha). split; [| split]; [lia | assumption | assumption].
Qed.

(** The sustain phase only narrates and sleeps. *)
Lemma leak_hold_spec (s : state) :
  exists rest,
    forallb quiet rest = true /\
    hold_phase s = {| allocations := allocations s;
                      total_allocated := total_allocated s;
                      trace := trace s ++ rest |}.
Proof.
  unfold hold_phase, hold_body, emit; cbn [for_loop allocations total_allocated trace].
  rewrite <- !app_assoc. eexists. split; [| reflexivity]. reflexivity.
Qed.

Lemma hold_phase_tail (s : state) : tail_untouched w s -> tail_untouched w (hold_phase s).
Proof.
  intros (Hc & Hz & Ha). destruct (leak_hold_spec s) as (rest & Hq & ->).
  unfold tail_untouched; cbn [trace allocations]. split; [| split].
  - rewrite count_app, (count_quiet is_store rest is_store_quiet Hq). lia.
  - intros k Hk. rewrite count_app, (count_quiet _ rest (stores_to_quiet k) Hq), Hz by lia.
    reflexivity.
  - assumption.
Qed.

Lemma quiet_no_call e : quiet e = true -> no_call e = true.
Proof. now destruct e. Qed.

Lemma no_call_not_malloc e : no_call e = true -> is_malloc e = false.
Proof. unfold no_call. now destruct (is_malloc e). Qed.

Lemma leak_body_fail (i : nat) (s : state) :
  malloc_ret w i = 0 ->
  fst (leak_body w i s) = Break /\
  trace (snd (leak_body w i s)) = trace s ++ failure_events i.
Proof.
  intros H. unfold leak_body, failure_events. rewrite H. cbn [Z.eqb fst snd].
  split; [reflexivity|].
  unfold store, emit; cbn [trace]. now rewrite <- !app_assoc.
Qed.

(** The leak loop up to the first failure: the turns before it each
    call [malloc] once, the failing turn reports and leaves the loop. *)
Lemma leak_loop_fail (d : nat) :
  forall i n s k,
    k = (i + d)%nat -> (k < i + n)%nat ->
    malloc_ret w k = 0 ->
    (forall j, (i <= j < k)%nat -> malloc_ret w j <> 0) ->
    exists mid,
      trace (for_loop (leak_body w) i n s) = trace s ++ mid ++ failure_events k /\
      count is_malloc mid = d.
Proof.
  induction d as [|d IH]; intros i n s k Hk Hn Hfail Hok.
  - replace k with i in * by lia.
    destruct n as [|n]; [lia|]. cbn [for_loop].
    destruct (leak_body_fail i s Hfail) as [Hc Ht].
    destruct (leak_body w i s) as [c s']. cbn [fst snd] in *. subst c.
    exists []. now split.
  - destruct n as [|n]; [lia|]. cbn [for_loop].
    destruct (leak_body_spec i s) as (rest & Hq & E). rewrite E.
    destruct (Z.eqb_spec (malloc_ret w i) 0) as [Hz | Hnz];
      [exfalso; apply (Hok i); [lia | exact Hz] |].
    match goal with |- context [for_loop _ _ _ ?s1] => set (s' := s1) end.
    assert (Hok' : forall j, (S i <= j < k)%nat -> malloc_ret w j <> 0)
      by (intros j Hj; apply Hok; lia).
    destruct (IH (S i) n s' k ltac:(lia) ltac:(lia) Hfail Hok') as (mid & Hm & Hcnt).
    rewrite Hm. subst s'. cbn [trace].
    exists (Malloc (alloc_size i) (malloc_ret w i) :: Store i (malloc_ret w i) :: rest ++ mid).
    split.
    + cbn [app]. rewrite <- ?app_assoc. cbn [app]. rewrite <- ?app_assoc. reflexivity.
    + rewrite !count_cons, count_app, Hcnt.
      rewrite (count_none is_malloc quiet rest) by (try assumption; now intros []).
      reflexivity.
Qed.

Lemma leak_cleanup_extends (s : state) :
  extends trace no_call
    (emit [Print Stdout "Cleaning up allocations..." []] s) (cleanup_phase s).
Proof.
  unfold cleanup_phase. apply for_loop_extends. intros j t.
  destruct (cleanup_body_spec j t) as (c & ->). cbn [snd].
  eexists. split; [reflexivity|]. now destruct (cell j t =? 0).
Qed.

(** The sizes of the blocks the leak loop obtained are 5 MB, 10 MB,
    15 MB and so on, without a gap. *)
Lemma leak_phase_sizes :
  exists n,
    leaked_sizes (trace (leak_phase w (emit banner (init w)))) =
      map (fun k => (Z.of_nat k + 1) * (5 * MB)) (seq 0 n).
Proof.
  unfold leak_phase.
  apply (for_loop_rule
           (fun i s => leaked_sizes (trace s) =
                         map (fun k => (Z.of_nat k + 1) * (5 * MB)) (seq 0 i))
           (fun s => exists n, leaked_sizes (trace s) =
                                 map (fun k => (Z.of_nat k + 1) * (5 * MB)) (seq 0 n))).
  - reflexivity.
  - intros j t t' Hj Ht E.
    destruct (leak_body_spec j t) as (rest & Hq & E'). rewrite E' in E.
    destruct (malloc_ret w j =? 0) eqn:Hz; [discriminate|].
    injection E as <-. cbn [trace].
    rewrite leaked_sizes_app, Ht, seq_S, map_app. f_equal.
    unfold leaked_sizes. cbn [malloc_calls List.filter snd].
    rewrite Hz. cbn [negb map fst Nat.add].
    rewrite (malloc_calls_none quiet rest) by (try assumption; now intros []).
    cbn. now rewrite alloc_size_eq by lia.
  - intros j t t' Hj Ht E.
    destruct (leak_body_spec j t) as (rest & Hq & E'). rewrite E' in E.
    destruct (malloc_ret w j =? 0) eqn:Hz; [| discriminate].
    injection E as <-. cbn [trace]. exists j.
    rewrite leaked_sizes_app, Ht.
    unfold leaked_sizes. cbn [malloc_calls List.filter snd].
    rewrite Hz. cbn [negb].
    rewrite (malloc_calls_none quiet rest) by (try assumption; now intros []).
    cbn. now rewrite app_nil_r.
  - intros t Ht. now exists (0 + 25)%nat.
Qed.

(** After the leak loop no call of [malloc] is made. *)
Lemma leak_after_attack (s : state) :
  exists ext,
    trace (cleanup_phase (hold_phase s)) =
      trace s ++ ext /\
    forallb no_call ext = true /\
    In (Print Stdout "Cleaning up allocations..." []) ext.
Proof.
  destruct (leak_hold_spec s) as (r1 & Hq1 & E1).
  destruct (leak_cleanup_extends (hold_phase s)) as (r2 & E2 & Hq2).
  rewrite E2. unfold emit; cbn [trace]. rewrite E1; cbn [trace].
  exists (r1 ++ [Print Stdout "Cleaning up allocations..." []] ++ r2).
  split; [now rewrite <- !app_assoc | split].
  - rewrite !forallb_app, Hq2, (forallb_weaken quiet no_call r1 quiet_no_call Hq1).
    reflexivity.
  - apply in_or_app. right. now left.
Qed.

Lemma leak_main_sizes :
  exists n,
    leaked_sizes (trace (snd (main w))) =
      map (fun k => (Z.of_nat k + 1) * (5 * MB)) (seq 0 n).
Proof.
  unfold main; cbn [snd].
  destruct leak_phase_sizes as (n & Hn).
  destruct (leak_after_attack (leak_phase w (emit banner (init w)))) as (ext & -> & Hq & _).
  exists n. rewrite leaked_sizes_app, Hn.
  unfold leaked_sizes.
  rewrite (malloc_calls_none no_call ext no_call_not_malloc Hq). cbn.
  now rewrite app_nil_r.
Qed.

(** When the allocation of turn [k] is the first to fail, the failure
    is reported at once, no further allocation is tried, and the run
    goes on to the cleanup. *)
Lemma leak_main_on_failure (k : nat) :
  (k < 25)%nat ->
  malloc_ret w k = 0 ->
  (forall j, (j < k)%nat -> malloc_ret w j <> 0) ->
  exists pre post,
    trace (snd (main w)) = pre ++ failure_events k ++ post /\
    count is_malloc pre = k /\
    count is_malloc post = 0%nat /\
    In (Print Stdout "Cleaning up allocations..." []) post.
Proof.
  intros Hk Hfail Hok. unfold main; cbn [snd].
  destruct (leak_after_attack (leak_phase w (emit banner (init w)))) as (ext & -> & Hq & Hin).
  unfold leak_phase.
  set (s0 := emit [Print Stdout "Phase 1/2: Starting memory leak..." []] (emit banner (init w))).
  assert (H0 : count is_malloc (trace s0) = 0%nat) by reflexivity.
  assert (Hok' : forall j, (0 <= j < k)%nat -> malloc_ret w j <> 0)
    by (intros j Hj; apply Hok; lia).
  destruct (leak_loop_fail k 0%nat 25%nat s0 k eq_refl ltac:(lia) Hfail Hok')
    as (mid & Hm & Hmid).
  rewrite Hm. clearbody s0.
  exists (trace s0 ++ mid), ext. split; [| split; [| split]].
  - now rewrite <- !app_assoc.
  - rewrite count_app, Hmid, H0. reflexivity.
  - exact (count_none is_malloc no_call ext no_call_not_malloc Hq).
  - exact Hin.
Qed.

End MemoryLeakFacts.

(** ** Gradual fork bomb *)

Section ForkBombGradualFacts.
Import ForkBombGradual.
Variable w : world.

Lemma max_threads_range (argv : list string) : 5 <= max_threads_of argv <= 80.
Proof.
  unfold max_threads_of, MAX_THREADS. destruct argv as [|a argv]; [lia|].
  cbv zeta.
  destruct (Z.gtb_spec (Libc.atoi a) 80).
  - cbn. lia.
  - destruct (Z.ltb_spec (Libc.atoi a) 5); lia.
Qed.

Lemma create_created (i : nat) (s : state) :
  created_threads (snd (create w i s)) = created_threads s.
Proof. unfold create. now destruct (pthread_create_ret w (calls s)). Qed.

Lemma startup_body_created (i : nat) (s : state) :
  (created_threads (snd (startup_body w i s)) <= S (created_threads s))%nat.
Proof.
  unfold startup_body. destruct (thread_ids_ptr w =? 0); cbn; [lia|].
  pose proof (create_created i s) as H.
  destruct (create w i s) as [[] s']; cbn in *; lia.
Qed.

Lemma attack_body_created (i : nat) (s : state) :
  (created_threads (snd (attack_body w i s)) <= S (created_threads s))%nat.
Proof.
  unfold attack_body. destruct (thread_ids_ptr w =? 0); cbn; [lia|].
  pose proof (create_created i s) as H.
  destruct (create w i s) as [[] s']; cbn in *; lia.
Qed.

Lemma created_emit (es : list event) (s : state) :
  created_threads (emit es s) = created_threads s.
Proof. reflexivity. Qed.

Lemma sustain_phase_created (s : state) :
  created_threads (sustain_phase s) = created_threads s.
Proof.
  unfold sustain_phase. cbv zeta. rewrite created_emit.
  rewrite (for_loop_preserves created_threads) by (intros; apply created_emit).
  apply created_emit.
Qed.

Lemma cleanup_phase_created (s : state) :
  created_threads (cleanup_phase w s) = created_threads s.
Proof.
  unfold cleanup_phase. cbv zeta. rewrite created_emit.
  rewrite (for_loop_preserves created_threads) by (intros; apply created_emit).
  unfold stop_workers; cbn [created_threads]. apply created_emit.
Qed.

(** The first half of the fork bomb property holds in every run: the
    count of created threads never passes the configured maximum. *)
Lemma created_le_max (argv : list string) :
  Z.of_nat (created_threads (snd (main w argv))) <= max_threads_of argv.
Proof.
  pose proof (max_threads_range argv) as Hm.
  unfold main. cbv zeta.
  set (m := max_threads_of argv) in *.
  assert (H1 : (created_threads (startup_phase w m (emit banner init)) <= 5)%nat).
  { unfold startup_phase. cbv zeta.
    replace (Nat.min 5 (Z.to_nat m)) with 5%nat by lia.
    apply (for_loop_rule (fun i s => (created_threads s <= i)%nat)
                         (fun s => (created_threads s <= 5)%nat)).
    - cbn. lia.
    - intros j t t' Hj Ht E. pose proof (startup_body_created j t) as H.
      rewrite E in H. cbn in H. lia.
    - intros j t t' Hj Ht E. pose proof (startup_body_created j t) as H.
      rewrite E in H. cbn in H. lia.
    - intros t Ht. exact Ht. }
  destruct (crashed (startup_phase w m (emit banner init))); cbn [snd]; [lia|].
  assert (H2 : (created_threads (attack_phase w m (startup_phase w m (emit banner init)))
                <= Z.to_nat m)%nat).
  { unfold attack_phase.
    apply (for_loop_rule (fun i s => (created_threads s <= i)%nat)
                         (fun s => (created_threads s <= Z.to_nat m)%nat)).
    - unfold emit; cbn [created_threads]. exact H1.
    - intros j t t' Hj Ht E. pose proof (attack_body_created j t) as H.
      rewrite E in H. cbn in H. lia.
    - intros j t t' Hj Ht E. pose proof (attack_body_created j t) as H.
      rewrite E in H. cbn in H. lia.
    - intros t Ht. lia. }
  destruct (crashed (attack_phase _ _ _)); cbn [snd]; [lia|].
  rewrite cleanup_phase_created, sustain_phase_created. lia.
Qed.

Hypothesis thread_ids_ok : thread_ids_ptr w <> 0.

Lemma no_create_not_create e : no_create e = true -> is_create e = false.
Proof. unfold no_create. now destruct (is_create e). Qed.

Lemma milestone_no_create (n : nat) : forallb no_create (milestone n) = true.
Proof.
  unfold milestone.
  destruct (Nat.eqb n 10), (Nat.eqb n 25), (Nat.eqb n 50), (Nat.eqb (n mod 10) 0);
    reflexivity.
Qed.

(** One turn of phase 1: one call, never a [break], no crash. *)
Lemma startup_body_spec (i : nat) (s : state) :
  fst (startup_body w i s) = Next /\
  calls (snd (startup_body w i s)) = S (calls s) /\
  crashed (snd (startup_body w i s)) = crashed s /\
  count is_create (trace (snd (startup_body w i s))) = S (count is_create (trace s)).
Proof.
  unfold startup_body.
  destruct (Z.eqb_spec (thread_ids_ptr w) 0) as [E | _]; [contradiction|].
  unfold create, emit, incr_created.
  destruct (pthread_create_ret w (calls s)); cbn [fst snd calls crashed trace].
  - split; [reflexivity | split; [reflexivity | split; [reflexivity |]]].
    rewrite <- app_assoc, count_app. cbn [app]. rewrite !count_cons, count_nil.
    cbn [is_create]. lia.
  - split; [reflexivity | split; [reflexivity | split; [reflexivity |]]].
    rewrite count_app, count_cons, count_nil. cbn [is_create]. lia.
Qed.

Lemma gradual_startup_spec (m : Z) :
  5 <= m ->
  let s := startup_phase w m (emit banner init) in
  calls s = 5%nat /\ crashed s = false /\ count is_create (trace s) = 5%nat.
Proof.
  intros Hm. unfold startup_phase. cbv zeta.
  replace (Nat.min 5 (Z.to_nat m)) with 5%nat by lia.
  apply (for_loop_total
           (fun i s => calls s = i /\ crashed s = false /\ count is_create (trace s) = i)
           (startup_body w) 5 0%nat).
  - split; [reflexivity | split; reflexivity].
  - intros j t Hj (Hc & Hcr & Hn).
    destruct (startup_body_spec j t) as (H1 & H2 & H3 & H4).
    split; [exact H1 |]. rewrite H2, H3, H4, Hc, Hn. now split.
Qed.

Lemma gradual_attack_fail (i : nat) (s : state) :
  pthread_create_ret w (calls s) = None ->
  fst (attack_body w i s) = Break /\
  trace (snd (attack_body w i s)) = trace s ++ failure_events i /\
  crashed (snd (attack_body w i s)) = crashed s.
Proof.
  intros H. unfold attack_body.
  destruct (Z.eqb_spec (thread_ids_ptr w) 0) as [E | _]; [contradiction|].
  unfold create. rewrite H. cbn. rewrite <- app_assoc. now split.
Qed.

Lemma gradual_attack_ok (i : nat) (s : state) (h : Z) :
  pthread_create_ret w (calls s) = Some h ->
  fst (attack_body w i s) = Next /\
  calls (snd (attack_body w i s)) = S (calls s) /\
  crashed (snd (attack_body w i s)) = crashed s /\
  exists rest,
    trace (snd (attack_body w i s)) = trace s ++ PthreadCreate i true h :: rest /\
    forallb no_create rest = true.
Proof.
  intros H. unfold attack_body.
  destruct (Z.eqb_spec (thread_ids_ptr w) 0) as [E | _]; [contradiction|].
  unfold create. rewrite H. cbn [fst snd].
  unfold emit, incr_created; cbn [calls crashed trace created_threads].
  split; [reflexivity | split; [reflexivity | split; [reflexivity |]]].
  eexists. rewrite <- !app_assoc. cbn [app]. split; [reflexivity|].
  rewrite forallb_app, milestone_no_create. reflexivity.
Qed.

(** Phase 2 up to the first failure. *)
Lemma gradual_loop_fail (d : nat) :
  forall i n s k,
    k = (i + d)%nat -> (k < i + n)%nat ->
    calls s = i ->
    pthread_create_ret w k = None ->
    (forall j, (i <= j < k)%nat -> pthread_create_ret w j <> None) ->
    exists mid,
      trace (for_loop (attack_body w) i n s) = trace s ++ mid ++ failure_events k /\
      count is_create mid = d /\
      crashed (for_loop (attack_body w) i n s) = crashed s.
Proof.
  induction d as [|d IH]; intros i n s k Hk Hn Hcalls Hfail Hok.
  - replace k with i in * by lia.
    destruct n as [|n]; [lia|]. cbn [for_loop].
    rewrite <- Hcalls in Hfail.
    destruct (gradual_attack_fail i s Hfail) as (Hc & Ht & Hcr).
    destruct (attack_body w i s) as [c s']. cbn [fst snd] in *. subst c.
    exists []. now split.
  - destruct n as [|n]; [lia|]. cbn [for_loop].
    destruct (pthread_create_ret w (calls s)) as [h|] eqn:E;
      [| exfalso; apply (Hok i); [lia | now rewrite <- Hcalls]].
    destruct (gradual_attack_ok i s h E) as (Hc & Hcalls' & Hcr & rest & Ht & Hrest).
    destruct (attack_body w i s) as [c s']. cbn [fst snd] in *. subst c.
    assert (Hok' : forall j, (S i <= j < k)%nat -> pthread_create_ret w j <> None)
      by (intros j Hj; apply Hok; lia).
    destruct (IH (S i) n s' k ltac:(lia) ltac:(lia) ltac:(lia) Hfail Hok')
      as (mid & Hm & Hcnt & Hcr').
    rewrite Hm, Hcr', Hcr, Ht.
    exists (PthreadCreate i true h :: rest ++ mid).
    split; [| split; [| reflexivity]].
    + cbn [app]. rewrite <- ?app_assoc. cbn [app]. rewrite <- ?app_assoc. reflexivity.
    + rewrite count_cons, count_app, Hcnt.
      rewrite (count_none is_create no_create rest no_create_not_create Hrest).
      reflexivity.
Qed.

Lemma emit_extends_gradual (es : list event) (s : state) :
  forallb no_create es = true -> extends trace no_create s (emit es s).
Proof. intros H. now exists es. Qed.

Lemma gradual_sustain_extends (s : state) : extends trace no_create s (sustain_phase s).
Proof.
  unfold sustain_phase.
  eapply extends_trans; [| apply emit_extends_gradual; reflexivity].
  eapply extends_trans; [| apply for_loop_extends].
  - apply emit_extends_gradual. reflexivity.
  - intros j t. apply emit_extends_gradual. reflexivity.
Qed.

Lemma stop_workers_extends (s : state) : extends trace no_create s (stop_workers s).
Proof.
  exists []. split; [| reflexivity].
  unfold stop_workers; cbn [trace]. symmetry. apply app_nil_r.
Qed.

Lemma gradual_cleanup_extends (s : state) :
  extends trace no_create
    (emit [Print Stdout "Shutting down threads..." []] s) (cleanup_phase w s).
Proof.
  unfold cleanup_phase.
  generalize (emit [Print Stdout "Shutting down threads..." []] s). intros s1.
  eapply extends_trans; [| apply emit_extends_gradual; reflexivity].
  eapply extends_trans; [apply stop_workers_extends |].
  generalize (stop_workers s1). intros s2.
  apply for_loop_extends.
  intros j t. apply emit_extends_gradual. reflexivity.
Qed.

(** After phase 2 no thread is created, and the cleanup is reached. *)
Lemma gradual_after_attack (s : state) :
  exists ext,
    trace (cleanup_phase w (sustain_phase s)) = trace s ++ ext /\
    forallb no_create ext = true /\
    In (Print Stdout "Shutting down threads..." []) ext.
Proof.
  destruct (gradual_sustain_extends s) as (e1 & E1 & Q1).
  destruct (gradual_cleanup_extends (sustain_phase s)) as (e2 & E2 & Q2).
  generalize dependent (cleanup_phase w (sustain_phase s)). intros s3 E2.
  generalize dependent (sustain_phase s). intros s2 E1 E2.
  change (trace (emit [Print Stdout "Shutting down threads..." []] s2))
    with (trace s2 ++ [Print Stdout "Shutting down threads..." []]) in E2.
  rewrite E2, E1.
  exists (e1 ++ [Print Stdout "Shutting down threads..." []] ++ e2).
  split; [| split].
  - rewrite <- !app_assoc. reflexivity.
  - rewrite !forallb_app, Q1, Q2. reflexivity.
  - apply in_or_app. right. left. reflexivity.
Qed.

Lemma main_unfold (argv : list string) :
  crashed (startup_phase w (max_threads_of argv) (emit banner init)) = false ->
  crashed (attack_phase w (max_threads_of argv)
             (startup_phase w (max_threads_of argv) (emit banner init))) = false ->
  main w argv =
    (Some 0,
     cleanup_phase w
       (sustain_phase
          (attack_phase w (max_threads_of argv)
             (startup_phase w (max_threads_of argv) (emit banner init))))).
Proof. intros H1 H2. unfold main. cbv zeta. rewrite H1, H2. reflexivity. Qed.

(** When a creation of phase 2 is the first of that phase to fail, the
    failure is reported at once, no further thread is created, and the
    run goes on to the cleanup and exits with 0. *)
Lemma gradual_main_on_failure (argv : list string) (k : nat) :
  5 <= Z.of_nat k < max_threads_of argv ->
  pthread_create_ret w k = None ->
  (forall j, (5 <= j < k)%nat -> pthread_create_ret w j <> None) ->
  fst (main w argv) = Some 0 /\
  exists pre post,
    trace (snd (main w argv)) = pre ++ failure_events k ++ post /\
    count is_create pre = k /\
    count is_create post = 0%nat /\
    In (Print Stdout "Shutting down threads..." []) post.
Proof.
  intros Hk Hfail Hok.
  destruct (gradual_startup_spec (max_threads_of argv) ltac:(lia)) as (Hcalls & Hcr & Hcnt).
  assert (Hloop := gradual_loop_fail (k - 5) 5%nat (Z.to_nat (max_threads_of argv) - 5)%nat
                     (emit [Print Stdout "Phase 2/3: ATTACK - Rapid thread spawning!" []]
                        (startup_phase w (max_threads_of argv) (emit banner init)))
                     k ltac:(lia) ltac:(lia) Hcalls Hfail Hok).
  destruct Hloop as (mid & Hm & Hmid & Hcr2).
  change (crashed (emit [Print Stdout "Phase 2/3: ATTACK - Rapid thread spawning!" []]
                     (startup_phase w (max_threads_of argv) (emit banner init))))
    with (crashed (startup_phase w (max_threads_of argv) (emit banner init))) in Hcr2.
  rewrite Hcr in Hcr2.
  change (trace (emit [Print Stdout "Phase 2/3: ATTACK - Rapid thread spawning!" []]
                   (startup_phase w (max_threads_of argv) (emit banner init))))
    with (trace (startup_phase w (max_threads_of argv) (emit banner init))
            ++ [Print Stdout "Phase 2/3: ATTACK - Rapid thread spawning!" []]) in Hm.
  rewrite (main_unfold argv Hcr Hcr2). cbn [fst snd].
  split; [reflexivity|].
  destruct (gradual_after_attack
              (attack_phase w (max_threads_of argv)
                 (startup_phase w (max_threads_of argv) (emit banner init))))
    as (ext & -> & Hq & Hin).
  unfold attack_phase at 1. rewrite Hm.
  generalize dependent (startup_phase w (max_threads_of argv) (emit banner init)).
  intros s1 Hcalls Hcr Hcnt _ _.
  exists ((trace s1 ++ [Print Stdout "Phase 2/3: ATTACK - Rapid thread spawning!" []]) ++ mid), ext.
  split; [| split; [| split]].
  - rewrite <- !app_assoc. reflexivity.
  - rewrite !count_app, Hcnt, Hmid. change (count is_create [_]) with 0%nat. lia.
  - exact (count_none is_create no_create ext no_create_not_create Hq).
  - exact Hin.
Qed.

Lemma calm_not_created k e : calm e = true -> created_at k e = false.
Proof.
  destruct e; try reflexivity.
  match goal with b : bool |- _ => destruct b end; [discriminate | reflexivity].
Qed.

Lemma calm_not_join e : calm e = true -> is_join e = false.
Proof. now destruct e. Qed.

Lemma calm_not_joined k e : calm e = true -> joined_at k e = false.
Proof. now destruct e. Qed.

Lemma milestone_calm (n : nat) : forallb calm (milestone n) = true.
Proof.
  unfold milestone.
  destruct (Nat.eqb n 10), (Nat.eqb n 25), (Nat.eqb n 50), (Nat.eqb (n mod 10) 0);
    reflexivity.
Qed.

(** A calm extension keeps a state tidy when it keeps the counters. *)
Lemma tidy_extends (n : nat) (s s' : state) :
  extends trace calm s s' ->
  created_threads s' = created_threads s ->
  crashed s' = crashed s ->
  tidy n s -> tidy n s'.
Proof.
  intros (ext & E & Hq) Hc Hcr (H1 & H2 & H3 & H4).
  unfold tidy. rewrite E, Hc, Hcr. split; [exact H1 | split; [exact H2 | split]].
  - intros k. rewrite count_app, H3.
    rewrite (count_none (created_at k) calm ext (calm_not_created k) Hq). lia.
  - rewrite count_app, H4, (count_none is_join calm ext calm_not_join Hq). reflexivity.
Qed.

(** A creation that succeeds in slot [i] keeps the state tidy, one slot
    further. *)
Lemma tidy_created (i : nat) (s s' : state) (h : Z) (rest : list event) :
  trace s' = trace s ++ PthreadCreate i true h :: rest ->
  forallb calm rest = true ->
  created_threads s' = S (created_threads s) ->
  crashed s' = crashed s ->
  tidy i s -> tidy (S i) s'.
Proof.
  intros E Hq Hc Hcr (H1 & H2 & H3 & H4).
  unfold tidy. rewrite E, Hc, Hcr, H1. split; [reflexivity | split; [exact H2 | split]].
  - intros k. rewrite count_app, count_cons, H3.
    rewrite (count_none (created_at k) calm rest (calm_not_created k) Hq).
    cbn [created_at].
    destruct (Nat.eqb_spec i k) as [-> | Hne].
    + rewrite Nat.ltb_irrefl. replace (k <? S k)%nat with true by (symmetry; apply Nat.ltb_lt; lia).
      reflexivity.
    + destruct (Nat.ltb_spec k i), (Nat.ltb_spec k (S i)); lia.
  - rewrite count_app, count_cons, H4, (count_none is_join calm rest calm_not_join Hq).
    reflexivity.
Qed.

Lemma startup_body_ok (i : nat) (s : state) (h : Z) :
  pthread_create_ret w (calls s) = Some h ->
  fst (startup_body w i s) = Next /\
  calls (snd (startup_body w i s)) = S (calls s) /\
  created_threads (snd (startup_body w i s)) = S (created_threads s) /\
  crashed (snd (startup_body w i s)) = crashed s /\
  exists rest,
    trace (snd (startup_body w i s)) = trace s ++ PthreadCreate i true h :: rest /\
    forallb calm rest = true.
Proof.
  intros H. unfold startup_body.
  destruct (Z.eqb_spec (thread_ids_ptr w) 0) as [E | _]; [contradiction|].
  unfold create. rewrite H. cbn [fst snd].
  unfold emit, incr_created; cbn [calls crashed trace created_threads].
  split; [reflexivity | split; [reflexivity | split; [reflexivity | split; [reflexivity |]]]].
  eexists. rewrite <- !app_assoc. cbn [app]. split; reflexivity.
Qed.

Lemma gradual_attack_ok_calm (i : nat) (s : state) (h : Z) :
  pthread_create_ret w (calls s) = Some h ->
  fst (attack_body w i s) = Next /\
  calls (snd (attack_body w i s)) = S (calls s) /\
  created_threads (snd (attack_body w i s)) = S (created_threads s) /\
  crashed (snd (attack_body w i s)) = crashed s /\
  exists rest,
    trace (snd (attack_body w i s)) = trace s ++ PthreadCreate i true h :: rest /\
    forallb calm rest = true.
Proof.
  intros H. unfold attack_body.
  destruct (Z.eqb_spec (thread_ids_ptr w) 0) as [E | _]; [contradiction|].
  unfold create. rewrite H. cbn [fst snd].
  unfold emit, incr_created; cbn [calls crashed trace created_threads].
  split; [reflexivity | split; [reflexivity | split; [reflexivity | split; [reflexivity |]]]].
  eexists. rewrite <- !app_assoc. cbn [app]. split; [reflexivity|].
  rewrite forallb_app, milestone_calm. reflexivity.
Qed.

Lemma gradual_attack_fail_calm (i : nat) (s : state) :
  pthread_create_ret w (calls s) = None ->
  fst (attack_body w i s) = Break /\
  extends trace calm s (snd (attack_body w i s)) /\
  created_threads (snd (attack_body w i s)) = created_threads s /\
  crashed (snd (attack_body w i s)) = crashed s.
Proof.
  intros H. unfold attack_body.
  destruct (Z.eqb_spec (thread_ids_ptr w) 0) as [E | _]; [contradiction|].
  unfold create. rewrite H. cbn [fst snd].
  unfold emit; cbn [calls crashed trace created_threads].
  split; [reflexivity | split; [| split; reflexivity]].
  eexists. cbn [trace]. rewrite <- app_assoc. split; reflexivity.
Qed.

Section StartupSucceeds.
Hypothesis startup_ok : forall k, (k < 5)%nat -> pthread_create_ret w k <> None.

Lemma gradual_startup_tidy (m : Z) :
  5 <= m ->
  calls (startup_phase w m (emit banner init)) = 5%nat /\
  tidy 5 (startup_phase w m (emit banner init)).
Proof.
  intros Hm. unfold startup_phase. cbv zeta.
  replace (Nat.min 5 (Z.to_nat m)) with 5%nat by lia.
  apply (for_loop_total (fun i s => calls s = i /\ tidy i s) (startup_body w) 5 0%nat).
  - split; [reflexivity|]. split; [reflexivity | split; [reflexivity | split]].
    + intros k. reflexivity.
    + reflexivity.
  - intros j t Hj [Hcalls Ht].
    destruct (pthread_create_ret w (calls t)) as [h|] eqn:E;
      [| exfalso; apply (startup_ok j); [lia | now rewrite <- Hcalls]].
    destruct (startup_body_ok j t h E) as (H1 & H2 & H3 & H4 & rest & H5 & H6).
    split; [exact H1 | split; [lia |]].
    exact (tidy_created j t _ h rest H5 H6 H3 H4 Ht).
Qed.

End StartupSucceeds.

Lemma gradual_attack_tidy (m : Z) (s : state) :
  calls s = 5%nat -> tidy 5 s ->
  exists n, tidy n (attack_phase w m s).
Proof.
  intros Hcalls Ht. unfold attack_phase.
  apply (for_loop_rule (fun i t => calls t = i /\ tidy i t)
                       (fun t => exists n, tidy n t)).
  - split; [exact Hcalls|].
    apply (tidy_extends 5 s); [| reflexivity | reflexivity | exact Ht].
    eexists. split; reflexivity.
  - intros j t t' Hj [Hc Hti] E.
    destruct (pthread_create_ret w (calls t)) as [h|] eqn:Er.
    + destruct (gradual_attack_ok_calm j t h Er) as (H1 & H2 & H3 & H4 & rest & H5 & H6).
      rewrite E in *. cbn [fst snd] in *.
      split; [lia | exact (tidy_created j t t' h rest H5 H6 H3 H4 Hti)].
    + destruct (gradual_attack_fail_calm j t Er) as (H1 & _). rewrite E in H1. discriminate.
  - intros j t t' Hj [Hc Hti] E.
    destruct (pthread_create_ret w (calls t)) as [h|] eqn:Er.
    + destruct (gradual_attack_ok_calm j t h Er) as (H1 & _). rewrite E in H1. discriminate.
    + destruct (gradual_attack_fail_calm j t Er) as (_ & H2 & H3 & H4).
      rewrite E in *. cbn [fst snd] in *.
      exists j. exact (tidy_extends j t t' H2 H3 H4 Hti).
  - intros t [_ Hti]. eexists. exact Hti.
Qed.

Lemma crashed_emit (es : list event) (s : state) : crashed (emit es s) = crashed s.
Proof. reflexivity. Qed.

Lemma trace_emit (es : list event) (s : state) : trace (emit es s) = trace s ++ es.
Proof. reflexivity. Qed.

Lemma gradual_sustain_tidy (n : nat) (s : state) : tidy n s -> tidy n (sustain_phase s).
Proof.
  apply tidy_extends.
  - unfold sustain_phase.
    eapply extends_trans; [| eexists; split; reflexivity].
    eapply extends_trans; [| apply for_loop_extends].
    + eexists; split; reflexivity.
    + intros j t. eexists; split; reflexivity.
  - apply sustain_phase_created.
  - unfold sustain_phase. cbv zeta. rewrite crashed_emit.
    rewrite (for_loop_preserves crashed) by (intros; apply crashed_emit).
    apply crashed_emit.
Qed.

(** The cleanup joins slots [0] to [created_threads - 1], one each. *)
Lemma gradual_cleanup_joins (n : nat) (s : state) :
  tidy n s ->
  forall k,
    count (joined_at k) (trace (cleanup_phase w s)) = (if (k <? n)%nat then 1%nat else 0%nat) /\
    count (created_at k) (trace (cleanup_phase w s)) = count (created_at k) (trace s).
Proof.
  intros (H1 & H2 & H3 & H4) k. unfold cleanup_phase. cbv zeta.
  rewrite trace_emit, !count_app.
  change (count (joined_at k) [Free (thread_ids_ptr w)]) with 0%nat.
  change (count (created_at k) [Free (thread_ids_ptr w)]) with 0%nat.
  rewrite !Nat.add_0_r.
  match goal with
  | |- context [for_loop join_body 0 (created_threads ?t) ?t] => set (s1 := t)
  end.
  assert (Hn : created_threads s1 = n) by exact H1.
  assert (Hj : count (joined_at k) (trace s1) = 0%nat).
  { subst s1. unfold stop_workers, emit; cbn [trace]. rewrite count_app.
    assert (Hle : (count (joined_at k) (trace s) <= count is_join (trace s))%nat).
    { unfold count. generalize (trace s). intros t. induction t as [|e t IH]; [cbn; lia|].
      cbn [List.filter]. destruct e; cbn [joined_at is_join]; try exact IH.
      destruct (Nat.eqb slot0 k); cbn [length]; lia. }
    change (count (joined_at k) [_]) with 0%nat. lia. }
  assert (Hc : count (created_at k) (trace s1) = count (created_at k) (trace s)).
  { subst s1. unfold stop_workers, emit; cbn [trace]. rewrite count_app.
    change (count (created_at k) [_]) with 0%nat. lia. }
  rewrite Hn. clearbody s1.
  apply (for_loop_total
           (fun i t => count (joined_at k) (trace t) = (if (k <? i)%nat then 1%nat else 0%nat) /\
                       count (created_at k) (trace t) = count (created_at k) (trace s))
           join_body n 0%nat s1).
  - split; [exact Hj | exact Hc].
  - intros j t _ [Hjt Hct]. split; [reflexivity|].
    cbn [join_body snd]. rewrite trace_emit, !count_app, Hjt, Hct.
    change (count (created_at k) [PthreadJoin j (slot j t)]) with 0%nat.
    unfold count at 1; cbn [List.filter joined_at].
    destruct (Nat.eqb_spec j k) as [-> | Hne]; cbn [length].
    + rewrite Nat.ltb_irrefl.
      replace (k <? S k)%nat with true by (symmetry; apply Nat.ltb_lt; lia). lia.
    + destruct (Nat.ltb_spec k j), (Nat.ltb_spec k (S j)); lia.
Qed.

(** *** Threads created and threads joined, by number *)

Lemma calm_not_is_created e : calm e = true -> is_created e = false.
Proof. unfold calm. now destruct (is_created e). Qed.

Lemma counted_extends (s s' : state) :
  extends trace calm s s' ->
  created_threads s' = created_threads s ->
  crashed s' = crashed s ->
  counted s -> counted s'.
Proof.
  intros (ext & E & Hq) Hc Hcr (H1 & H2 & H3).
  unfold counted. rewrite E, Hc, Hcr, !count_app, H1, H2.
  rewrite (count_none is_created calm ext calm_not_is_created Hq).
  rewrite (count_none is_join calm ext calm_not_join Hq).
  split; [lia | split; [reflexivity | exact H3]].
Qed.

Lemma counted_created (i : nat) (s s' : state) (h : Z) (rest : list event) :
  trace s' = trace s ++ PthreadCreate i true h :: rest ->
  forallb calm rest = true ->
  created_threads s' = S (created_threads s) ->
  crashed s' = crashed s ->
  counted s -> counted s'.
Proof.
  intros E Hq Hc Hcr (H1 & H2 & H3).
  unfold counted. rewrite E, Hc, Hcr, !count_app, !count_cons, H1, H2.
  rewrite (count_none is_created calm rest calm_not_is_created Hq).
  rewrite (count_none is_join calm rest calm_not_join Hq).
  cbn [is_created is_join]. split; [lia | split; [reflexivity | exact H3]].
Qed.

Lemma startup_body_failed (i : nat) (s : state) :
  pthread_create_ret w (calls s) = None ->
  extends trace calm s (snd (startup_body w i s)) /\
  created_threads (snd (startup_body w i s)) = created_threads s /\
  crashed (snd (startup_body w i s)) = crashed s.
Proof.
  intros H. unfold startup_body.
  destruct (Z.eqb_spec (thread_ids_ptr w) 0) as [E | _]; [contradiction|].
  unfold create. rewrite H. cbn [fst snd calls crashed trace created_threads].
  split; [eexists; split; reflexivity | split; reflexivity].
Qed.

Lemma startup_body_counted (i : nat) (s : state) :
  counted s -> counted (snd (startup_body w i s)).
Proof.
  intros Hs. destruct (pthread_create_ret w (calls s)) as [h|] eqn:E.
  - destruct (startup_body_ok i s h E) as (_ & _ & H3 & H4 & rest & H5 & H6).
    exact (counted_created i s _ h rest H5 H6 H3 H4 Hs).
  - destruct (startup_body_failed i s E) as (H1 & H2 & H3).
    exact (counted_extends s _ H1 H2 H3 Hs).
Qed.

Lemma attack_body_counted (i : nat) (s : state) :
  counted s -> counted (snd (attack_body w i s)).
Proof.
  intros Hs. destruct (pthread_create_ret w (calls s)) as [h|] eqn:E.
  - destruct (gradual_attack_ok_calm i s h E) as (_ & _ & H3 & H4 & rest & H5 & H6).
    exact (counted_created i s _ h rest H5 H6 H3 H4 Hs).
  - destruct (gradual_attack_fail_calm i s E) as (_ & H1 & H2 & H3).
    exact (counted_extends s _ H1 H2 H3 Hs).
Qed.

Lemma for_loop_counted (body : nat -> state -> ctl * state) (n i : nat) (s : state) :
  (forall j t, counted t -> counted (snd (body j t))) ->
  counted s -> counted (for_loop body i n s).
Proof.
  intros Hbody Hs.
  apply (for_loop_rule (fun _ t => counted t) counted); [exact Hs | | | auto].
  - intros j t t' _ Ht E. specialize (Hbody j t Ht). now rewrite E in Hbody.
  - intros j t t' _ Ht E. specialize (Hbody j t Ht). now rewrite E in Hbody.
Qed.

Lemma gradual_sustain_counted (s : state) : counted s -> counted (sustain_phase s).
Proof.
  apply counted_extends.
  - unfold sustain_phase.
    eapply extends_trans; [| eexists; split; reflexivity].
    eapply extends_trans; [| apply for_loop_extends].
    + eexists; split; reflexivity.
    + intros j t. eexists; split; reflexivity.
  - apply sustain_phase_created.
  - unfold sustain_phase. cbv zeta. rewrite crashed_emit.
    rewrite (for_loop_preserves crashed) by (intros; apply crashed_emit).
    apply crashed_emit.
Qed.

(** The cleanup makes [created_threads] joins and creates nothing. *)
Lemma gradual_cleanup_count (s : state) :
  count is_join (trace s) = 0%nat ->
  count is_join (trace (cleanup_phase w s)) = created_threads s /\
  count is_created (trace (cleanup_phase w s)) = count is_created (trace s).
Proof.
  intros H0. unfold cleanup_phase. cbv zeta.
  rewrite trace_emit, !count_app.
  change (count is_join [Free (thread_ids_ptr w)]) with 0%nat.
  change (count is_created [Free (thread_ids_ptr w)]) with 0%nat.
  rewrite !Nat.add_0_r.
  match goal with
  | |- context [for_loop join_body 0 (created_threads ?t) ?t] => set (s1 := t)
  end.
  assert (Hn : created_threads s1 = created_threads s) by reflexivity.
  assert (Hj : count is_join (trace s1) = 0%nat).
  { subst s1. unfold stop_workers; cbn [trace]. rewrite trace_emit, count_app, H0. reflexivity. }
  assert (Hc : count is_created (trace s1) = count is_created (trace s)).
  { subst s1. unfold stop_workers; cbn [trace]. rewrite trace_emit, count_app.
    change (count is_created [_]) with 0%nat. lia. }
  rewrite Hn. clearbody s1.
  apply (for_loop_total
           (fun i t => count is_join (trace t) = i /\
                       count is_created (trace t) = count is_created (trace s))
           join_body (created_threads s) 0%nat s1).
  - split; [exact Hj | exact Hc].
  - intros j t _ [Hjt Hct]. split; [reflexivity|].
    cbn [join_body snd]. rewrite trace_emit, !count_app, Hjt, Hct.
    change (count is_join [PthreadJoin j (slot j t)]) with 1%nat.
    change (count is_created [PthreadJoin j (slot j t)]) with 0%nat. lia.
Qed.

(** By number the gradual fork bomb joins what it created, in every run
    that is not stopped by the NULL write. *)
Lemma gradual_join_count (argv : list string) :
  fst (main w argv) = Some 0 /\
  count is_join (trace (snd (main w argv))) = count is_created (trace (snd (main w argv))).
Proof.
  assert (H1 : counted (startup_phase w (max_threads_of argv) (emit banner init))).
  { unfold startup_phase. cbv zeta. apply for_loop_counted; [apply startup_body_counted|].
    split; [reflexivity | split; reflexivity]. }
  assert (H2 : counted (attack_phase w (max_threads_of argv)
                          (startup_phase w (max_threads_of argv) (emit banner init)))).
  { unfold attack_phase. apply for_loop_counted; [apply attack_body_counted|].
    apply (counted_extends (startup_phase w (max_threads_of argv) (emit banner init)));
      [| reflexivity | reflexivity | exact H1].
    exists [Print Stdout "Phase 2/3: ATTACK - Rapid thread spawning!" []].
    split; reflexivity. }
  rewrite (main_unfold argv (proj2 (proj2 H1)) (proj2 (proj2 H2))). cbn [fst snd].
  split; [reflexivity|].
  apply gradual_sustain_counted in H2.
  generalize dependent (sustain_phase
                          (attack_phase w (max_threads_of argv)
                             (startup_phase w (max_threads_of argv) (emit banner init)))).
  intros s (Hc & Hj & _).
  destruct (gradual_cleanup_count s Hj) as [E1 E2]. rewrite E1, E2. exact Hc.
Qed.

(** What C6 asks for holds in the runs whose five phase-1 creations
    succeed: whatever happens in phase 2, a slot is joined exactly when a
    thread was created in it. *)
Lemma gradual_joins_what_it_created (argv : list string) :
  (forall k, (k < 5)%nat -> pthread_create_ret w k <> None) ->
  fst (main w argv) = Some 0 /\
  forall k,
    count (joined_at k) (trace (snd (main w argv)))
      = count (created_at k) (trace (snd (main w argv))).
Proof.
  intros Hok.
  pose proof (max_threads_range argv) as Hm.
  destruct (gradual_startup_tidy Hok (max_threads_of argv) ltac:(lia)) as [Hcalls Ht1].
  destruct (gradual_attack_tidy (max_threads_of argv) _ Hcalls Ht1) as (n & Ht2).
  rewrite (main_unfold argv (proj1 (proj2 Ht1)) (proj1 (proj2 Ht2))). cbn [fst snd].
  split; [reflexivity|]. intros k.
  pose proof (gradual_sustain_tidy n _ Ht2) as Ht3.
  destruct (gradual_cleanup_joins n _ Ht3 k) as [Hj Hc].
  rewrite Hj, Hc. destruct Ht3 as (_ & _ & H3 & _). now rewrite H3.
Qed.

End ForkBombGradualFacts.

(** ** [atoi] on numerals and on other text *)

(** Reading the digits of a numeral gives its value. *)
Lemma digits_of_uint (d : Decimal.uint) :
  forall acc,
    0 <= acc ->
    Libc.digits acc (NilEmpty.string_of_uint d) = Z.of_nat (Nat.of_uint_acc d (Z.to_nat acc)).
Proof.
  induction d as [|d IH|d IH|d IH|d IH|d IH|d IH|d IH|d IH|d IH|d IH]; intros acc Hacc;
    cbn [NilEmpty.string_of_uint Nat.of_uint_acc];
    [cbn [Libc.digits]; lia | ..];
    match goal with
    | |- Libc.digits _ (String ?c _) = _ =>
        let v := eval vm_compute in (Z.of_nat (nat_of_ascii c) - 48) in
        change (Libc.digits acc (String c (NilEmpty.string_of_uint d)))
          with (Libc.digits (acc * 10 + v) (NilEmpty.string_of_uint d))
    end;
    rewrite IH by lia; rewrite Nat.tail_mul_spec; f_equal; f_equal; lia.
Qed.

Lemma digits_decimal (n : nat) : Libc.digits 0 (Libc.decimal n) = Z.of_nat n.
Proof.
  unfold Libc.decimal.
  pose proof (DecimalNat.Unsigned.of_to n) as H. unfold Nat.of_uint in H.
  destruct (Nat.to_uint n) as [|d|d|d|d|d|d|d|d|d|d] eqn:E;
    [change (Libc.digits 0 (NilZero.string_of_uint Decimal.Nil)) with 0;
     cbn [Nat.of_uint_acc] in H; lia | ..];
    unfold NilZero.string_of_uint; rewrite digits_of_uint by lia;
    change (Z.to_nat 0) with 0%nat; now rewrite H.
Qed.

(** [atoi] reads a numeral as its value, and a numeral behind a minus
    sign as the opposite. *)
Lemma atoi_decimal (n : nat) :
  Z.of_nat n < 2 ^ 31 ->
  Libc.atoi (Libc.decimal n) = Z.of_nat n /\
  Libc.atoi (String "-" (Libc.decimal n)) = - Z.of_nat n.
Proof.
  intros Hn. pose proof (digits_decimal n) as Hd.
  assert (Hsat : forall x, - 2 ^ 31 <= x < 2 ^ 31 -> to_int (Libc.to_long_sat x) = x).
  { intros x Hx. unfold Libc.to_long_sat. rewrite to_int_small; lia. }
  split.
  - assert (E : Libc.atoi (Libc.decimal n)
                = to_int (Libc.to_long_sat (Libc.digits 0 (Libc.decimal n)))).
    { unfold Libc.decimal.
      destruct (Nat.to_uint n) as [|d|d|d|d|d|d|d|d|d|d]; reflexivity. }
    rewrite E, Hd. apply Hsat. lia.
  - change (Libc.atoi (String "-" (Libc.decimal n)))
      with (to_int (Libc.to_long_sat (- Libc.digits 0 (Libc.decimal n)))).
    rewrite Hd. apply Hsat. lia.
Qed.

(** Text whose first character is no white space, no sign and no digit
    reads as 0. *)
Lemma atoi_no_number (c : ascii) (s : string) :
  Libc.is_space c = false ->
  c <> "-"%char -> c <> "+"%char ->
  Libc.digit_of c = None ->
  Libc.atoi (String c s) = 0.
Proof.
  intros Hsp Hm Hp Hd. unfold Libc.atoi. cbn [Libc.skip_spaces]. rewrite Hsp.
  destruct c as [[] [] [] [] [] [] [] []];
    try discriminate; try (exfalso; apply Hm; reflexivity);
    try (exfalso; apply Hp; reflexivity);
    cbn [Libc.digits]; rewrite Hd; reflexivity.
Qed.

(** The clamp of lines 44-46. *)
Lemma max_threads_clamp (a : string) (rest : list string) :
  ForkBombGradual.max_threads_of (a :: rest) = Z.max 5 (Z.min 80 (Libc.atoi a)).
Proof.
  unfold ForkBombGradual.max_threads_of, ForkBombGradual.MAX_THREADS. cbv zeta.
  destruct (Z.gtb_spec (Libc.atoi a) 80).
  - cbn. lia.
  - destruct (Z.ltb_spec (Libc.atoi a) 5); lia.
Qed.

(** C10 (gradual fork bomb).  Whatever the argument is, text that is no
    number included, the maximum thread count the program works with
    lies between 5 and 80, and without an argument it is 80.  It is the
    number [atoi] reads from the first argument, raised to 5 when it is
    below and lowered to 80 when it is above: a numeral from 5 to 80 is
    kept as it is, a greater one gives 80, a smaller one or one behind a
    minus sign gives 5.  Text that begins with neither white space, a
    sign nor a digit is read by [atoi] as 0 and so gives 5. *)
Theorem C10_max_threads_clamped :
  (forall argv : list string, 5 <= ForkBombGradual.max_threads_of argv <= 80) /\
  ForkBombGradual.max_threads_of [] = 80 /\
  (forall (a : string) (rest : list string),
      ForkBombGradual.max_threads_of (a :: rest) = Z.max 5 (Z.min 80 (Libc.atoi a))) /\
  (forall (n : nat) (rest : list string),
      Z.of_nat n < 2 ^ 31 ->
      Libc.atoi (Libc.decimal n) = Z.of_nat n /\
      ((5 <= n <= 80)%nat ->
       ForkBombGradual.max_threads_of (Libc.decimal n :: rest) = Z.of_nat n) /\
      ((80 < n)%nat ->
       ForkBombGradual.max_threads_of (Libc.decimal n :: rest) = 80) /\
      ((n < 5)%nat ->
       ForkBombGradual.max_threads_of (Libc.decimal n :: rest) = 5) /\
      ForkBombGradual.max_threads_of (String "-" (Libc.decimal n) :: rest) = 5) /\
  (forall (c : ascii) (s : string) (rest : list string),
      Libc.is_space c = false ->
      c <> "-"%char -> c <> "+"%char ->
      Libc.digit_of c = None ->
      Libc.atoi (String c s) = 0 /\
      ForkBombGradual.max_threads_of (String c s :: rest) = 5) /\
  (Libc.decimal 42 = "42"%string /\
   ForkBombGradual.max_threads_of ["42"%string] = 42 /\
   ForkBombGradual.max_threads_of ["1000"%string] = 80 /\
   ForkBombGradual.max_threads_of ["-3"%string] = 5 /\
   Libc.atoi "many" = 0 /\ ForkBombGradual.max_threads_of ["many"%string] = 5).
Proof.
  split; [exact max_threads_range |]. split; [reflexivity |].
  split; [exact max_threads_clamp |]. split; [| split].
  - intros n rest Hn. destruct (atoi_decimal n Hn) as [E1 E2].
    rewrite !max_threads_clamp, E1, E2. repeat split; intros; lia.
  - intros c s rest Hsp Hm Hp Hd.
    rewrite max_threads_clamp, (atoi_no_number c s Hsp Hm Hp Hd). split; reflexivity.
  - repeat split.
Qed.

(** C10 at the numerals 7, 2000 and 3 and at a word. *)
Lemma C10_max_threads_clamped_witness :
  (Libc.atoi (Libc.decimal 7) = 7 /\
   ForkBombGradual.max_threads_of [Libc.decimal 7] = 7) /\
  ForkBombGradual.max_threads_of [Libc.decimal 2000] = 80 /\
  ForkBombGradual.max_threads_of [Libc.decimal 3] = 5 /\
  (Libc.atoi "x9" = 0 /\ ForkBombGradual.max_threads_of ["x9"%string] = 5).
Proof.
  destruct C10_max_threads_clamped as (_ & _ & _ & Hnum & Htext & _).
  assert (H7 : Z.of_nat 7 < 2 ^ 31) by (cbn; lia).
  assert (H2000 : Z.of_nat 2000 < 2 ^ 31) by (cbn; lia).
  assert (H3 : Z.of_nat 3 < 2 ^ 31) by (cbn; lia).
  destruct (Hnum 7%nat [] H7) as (E7 & K7 & _).
  destruct (Hnum 2000%nat [] H2000) as (_ & _ & K2000 & _).
  destruct (Hnum 3%nat [] H3) as (_ & _ & _ & K3 & _).
  split; [split; [exact E7 | apply K7; lia] |].
  split; [apply K2000; lia |].
  split; [apply K3; lia |].
  apply (Htext "x"%char "9"%string []).
  - reflexivity.
  - discriminate.
  - discriminate.
  - reflexivity.
Defined.

(** C6 (gradual fork bomb).  For every argument and in every run the
    count of created threads stays within the configured maximum.  But
    not every created thread is joined: on the run without argument
    where the first creation fails and the 79 later ones succeed, the
    join loop walks slots 0 to 78, so the thread in slot 79 is created
    and never joined, while slot 0, which never received a thread, is
    joined. *)
Theorem C6_created_thread_not_joined :
  (forall (w : ForkBombGradual.world) (argv : list string),
      Z.of_nat (ForkBombGradual.created_threads (snd (ForkBombGradual.main w argv)))
        <= ForkBombGradual.max_threads_of argv) /\
  (let r := ForkBombGradual.main ForkBombGradual.first_create_fails [] in
   let t := ForkBombGradual.trace (snd r) in
   fst r = Some 0 /\
   ForkBombGradual.created_threads (snd r) = 79%nat /\
   count ForkBombGradual.is_created t = 79%nat /\
   count ForkBombGradual.is_join t = 79%nat /\
   In (PthreadCreate 79 true 1079) t /\
   count (ForkBombGradual.joined_at 79) t = 0%nat /\
   In (PthreadCreate 0 false 0) t /\
   count (ForkBombGradual.created_at 0) t = 0%nat /\
   In (PthreadJoin 0 0) t).
Proof.
  split; [exact created_le_max |].
  cbv zeta.
  refine (conj _ (conj _ (conj _ (conj _ (conj _ (conj _ (conj _ (conj _ _))))))));
    try (apply occurs_In); vm_compute; reflexivity.
Qed.

(** ** Resource exhaustion combo *)

Section ComboFacts.
Import ResourceExhaustionCombo.
Variable w : world.

Lemma alloc_size_combo (k : nat) :
  (k < 30)%nat -> alloc_size k = (Z.of_nat k + 1) * (8 * MB).
Proof.
  intros Hk. unfold alloc_size, int_mul, int_add, MB.
  rewrite (to_int_small (Z.of_nat k + 1)) by lia.
  rewrite (to_int_small ((Z.of_nat k + 1) * 8)) by lia.
  rewrite to_int_small by lia.
  rewrite to_size_t_small by lia. lia.
Qed.

(** Attack vector 1 either does nothing or calls [malloc] once, with
    the size of the slot at [leak_count]; the count moves on a
    success only. *)
Lemma leak_step_spec (i : nat) (s : state) :
  (trace (leak_step w i s) = trace s /\
   leak_count (leak_step w i s) = leak_count s) \/
  (exists rest,
      trace (leak_step w i s) =
        trace s ++ Malloc (alloc_size (leak_count s)) (malloc_ret w i) :: rest /\
      forallb inert rest = true /\
      (leak_count s < 30)%nat /\
      leak_count (leak_step w i s) =
        if malloc_ret w i =? 0 then leak_count s else S (leak_count s)).
Proof.
  unfold leak_step.
  destruct (Nat.eqb (i mod 2) 0); cbn [andb]; [| now left].
  destruct (Nat.ltb_spec (leak_count s) 30); [| now left].
  right. destruct (malloc_ret w i =? 0);
    unfold set_leak, incr_leak, emit; cbn [trace leak_count];
    rewrite <- ?app_assoc; cbn [app];
    eexists; (split; [reflexivity | split; [reflexivity | split; [assumption | reflexivity]]]).
Qed.

Lemma spawn_body_spec (i j : nat) (s : state) :
  extends trace inert s (snd (spawn_body w i j s)) /\
  leak_count (snd (spawn_body w i j s)) = leak_count s.
Proof.
  unfold spawn_body.
  destruct (thread_count s <? MAX_THREADS)%nat; [| split; [apply extends_refl | reflexivity]].
  destruct (pthread_create_ret w i j); (split; [| reflexivity]);
    eexists; (split; [reflexivity | reflexivity]).
Qed.

Lemma combo_emit_extends (es : list event) (s : state) :
  forallb inert es = true -> extends trace inert s (emit es s).
Proof. intros H. now exists es. Qed.

(** Closes [extends trace inert s s'] where [s'] is [s] under a stack
    of [emit]s and of updates that leave the trace alone. *)
Ltac extends_emits :=
  repeat (eapply extends_trans; [| apply combo_emit_extends; vm_compute; reflexivity]);
  apply extends_refl.

Lemma thread_step_spec (i : nat) (s : state) :
  extends trace inert s (thread_step w i s) /\
  leak_count (thread_step w i s) = leak_count s.
Proof.
  unfold thread_step.
  destruct (Nat.eqb (i mod 3) 0 && (thread_count s <? MAX_THREADS)%nat);
    [| split; [apply extends_refl | reflexivity]].
  split.
  - eapply extends_trans; [| apply combo_emit_extends; reflexivity].
    apply for_loop_extends. intros j t. apply spawn_body_spec.
  - unfold emit; cbn [leak_count].
    apply (for_loop_preserves leak_count). intros j t. apply spawn_body_spec.
Qed.

Lemma file_step_spec (i : nat) (s : state) :
  extends trace inert s (file_step w i s) /\
  leak_count (file_step w i s) = leak_count s.
Proof.
  unfold file_step.
  destruct (Nat.eqb (i mod 2) 1 && (file_count s <? MAX_FILES)%nat);
    [| split; [apply extends_refl | reflexivity]].
  destruct (0 <=? open_ret w i); (split; [| reflexivity]).
  - eapply extends_trans; [| apply combo_emit_extends; reflexivity].
    eexists; split; reflexivity.
  - eexists; split; reflexivity.
Qed.

Lemma report_step_spec (i : nat) (s : state) :
  extends trace inert s (report_step i s) /\
  leak_count (report_step i s) = leak_count s.
Proof.
  unfold report_step.
  destruct (0 <? thread_count s)%nat, (Nat.eqb i 5), (Nat.eqb i 10), (Nat.eqb i 15);
    (split; [extends_emits | reflexivity]).
Qed.

(** One turn of the attack loop: the opening line, at most one call of
    [malloc], and events that are neither; the loop is never left. *)
Lemma combo_attack_body_spec (i : nat) (s : state) :
  fst (attack_body w i s) = Next /\
  exists rest,
    forallb inert rest = true /\
    ((trace (snd (attack_body w i s)) = trace s ++ iteration_line i :: rest /\
      leak_count (snd (attack_body w i s)) = leak_count s) \/
     (trace (snd (attack_body w i s)) =
        trace s ++ iteration_line i
          :: Malloc (alloc_size (leak_count s)) (malloc_ret w i) :: rest /\
      (leak_count s < 30)%nat /\
      leak_count (snd (attack_body w i s)) =
        if malloc_ret w i =? 0 then leak_count s else S (leak_count s))).
Proof.
  split; [reflexivity|].
  unfold attack_body; cbn [snd].
  set (s0 := emit _ s).
  destruct (report_step_spec i (file_step w i (thread_step w i (leak_step w i s0))))
    as ((e3 & T3 & I3) & L3).
  destruct (file_step_spec i (thread_step w i (leak_step w i s0))) as ((e2 & T2 & I2) & L2).
  destruct (thread_step_spec i (leak_step w i s0)) as ((e1 & T1 & I1) & L1).
  rewrite T3, T2, T1, L3, L2, L1.
  assert (Ht0 : trace s0 = trace s ++ [iteration_line i]) by reflexivity.
  assert (Hl0 : leak_count s0 = leak_count s) by reflexivity.
  destruct (leak_step_spec i s0) as [[T0 L0] | (r0 & T0 & I0 & B0 & L0)];
    rewrite T0, L0, Ht0, Hl0, <- ?app_assoc; cbn [app].
  - exists (e1 ++ e2 ++ e3). split.
    + rewrite !forallb_app, I1, I2, I3. reflexivity.
    + left. split; reflexivity.
  - exists (r0 ++ e1 ++ e2 ++ e3). split.
    + rewrite !forallb_app, I0, I1, I2, I3. reflexivity.
    + right. split; [reflexivity | split; [lia | reflexivity]].
Qed.

Lemma inert_not_malloc e : inert e = true -> is_malloc e = false.
Proof.
  unfold inert. intros H. apply andb_prop in H as [_ H].
  now destruct (is_malloc e).
Qed.

Lemma inert_not_iteration e : inert e = true -> is_iteration e = false.
Proof.
  unfold inert. intros H. apply andb_prop in H as [H _]. apply andb_prop in H as [_ H].
  now destruct (is_iteration e).
Qed.

Lemma inert_plain e : inert e = true -> plain e = true.
Proof.
  unfold inert. intros H. apply andb_prop in H as [H _]. now apply andb_prop in H as [H _].
Qed.

Lemma combo_attack_body_inv (i : nat) (s : state) :
  attack_inv s ->
  attack_inv (snd (attack_body w i s)) /\
  count is_iteration (trace (snd (attack_body w i s))) = S (count is_iteration (trace s)).
Proof.
  intros (Hs & Hc & Hl & Hp).
  destruct (combo_attack_body_spec i s) as (_ & rest & Hrest & [[T L] | (T & B & L)]);
    pose proof (malloc_calls_none inert rest inert_not_malloc Hrest) as Hm;
    pose proof (count_none is_iteration inert rest inert_not_iteration Hrest) as Hi;
    pose proof (forallb_weaken inert plain rest inert_plain Hrest) as Hq;
    unfold attack_inv; rewrite T, L.
  - (* no call of malloc in this turn *)
    split; [split; [| split; [| split]] |].
    + unfold leaked_sizes in *. rewrite malloc_calls_app. cbn [malloc_calls iteration_line].
      rewrite Hm, app_nil_r. exact Hs.
    + rewrite malloc_calls_app. cbn [malloc_calls iteration_line]. now rewrite Hm, app_nil_r.
    + rewrite malloc_calls_app. cbn [malloc_calls iteration_line]. now rewrite Hm, app_nil_r.
    + rewrite forallb_app, Hp. cbn [forallb]. now rewrite Hq.
    + rewrite count_app, count_cons, Hi. cbn. lia.
  - (* one call of malloc *)
    assert (Hcalls : malloc_calls (trace s ++ iteration_line i
                        :: Malloc (alloc_size (leak_count s)) (malloc_ret w i) :: rest)
                     = malloc_calls (trace s) ++ [(alloc_size (leak_count s), malloc_ret w i)]).
    { rewrite malloc_calls_app. cbn [malloc_calls iteration_line]. now rewrite Hm. }
    split; [split; [| split; [| split]] |].
    + unfold leaked_sizes in *. rewrite Hcalls, List.filter_app, map_app, Hs.
      cbn [List.filter snd fst map].
      destruct (malloc_ret w i =? 0); cbn [negb map].
      * now rewrite app_nil_r.
      * rewrite seq_S, map_app. cbn [map Nat.add]. now rewrite alloc_size_combo.
    + rewrite Hcalls. apply chain_snoc; [exact Hc|].
      intros a Ha Hz. cbn [fst]. symmetry. now apply Hl.
    + rewrite Hcalls, last_snoc. intros a [= <-]. cbn [fst snd]. intros Hz.
      now rewrite Hz.
    + rewrite forallb_app, Hp. cbn [forallb]. now rewrite Hq.
    + rewrite count_app, !count_cons, Hi. cbn. lia.
Qed.

Lemma combo_init_inv : attack_inv (emit banner (init w)).
Proof.
  split; [reflexivity | split; [exact I | split; [| reflexivity]]].
  intros a Ha. discriminate.
Qed.

Lemma combo_attack_phase_inv :
  let s := attack_phase w (emit banner (init w)) in
  attack_inv s /\ count is_iteration (trace s) = 20%nat.
Proof.
  unfold attack_phase.
  apply (for_loop_total
           (fun i s => attack_inv s /\ count is_iteration (trace s) = i)
           (attack_body w) 20 0%nat).
  - split; [| reflexivity].
    destruct combo_init_inv as (Hs & Hc & Hl & Hp).
    split; [exact Hs | split; [exact Hc | split; [exact Hl |]]].
    unfold emit at 1; cbn [trace]. rewrite forallb_app, Hp. reflexivity.
  - intros j t Hj [Hinv Hcount]. split; [reflexivity|].
    destruct (combo_attack_body_inv j t Hinv) as [H1 H2]. split; [exact H1 | lia].
Qed.

(** After the attack loop the program calls [malloc] no more and prints
    only narration. *)
Lemma combo_sustain_extends (s : state) : extends trace inert s (sustain_phase s).
Proof.
  unfold sustain_phase.
  eapply extends_trans; [| apply combo_emit_extends; reflexivity].
  eapply extends_trans; [| apply for_loop_extends].
  - apply combo_emit_extends. reflexivity.
  - intros j t. apply combo_emit_extends. reflexivity.
Qed.

Lemma combo_cleanup_extends (s : state) : extends trace inert s (cleanup_phase w s).
Proof.
  unfold cleanup_phase.
  eapply extends_trans; [| apply for_loop_extends].
  eapply extends_trans; [| apply for_loop_extends].
  eapply extends_trans; [| apply for_loop_extends].
  - exists [Print Stdout "Shutting down attack..." []]. split; reflexivity.
  - intros j t. apply combo_emit_extends. reflexivity.
  - intros j t. cbn [free_body snd]. destruct (leak_cell j t =? 0);
      [apply extends_refl | apply combo_emit_extends; reflexivity].
  - intros j t. cbn [close_body snd]. destruct (0 <=? fd_cell j t);
      [apply combo_emit_extends; reflexivity | apply extends_refl].
Qed.

Lemma combo_cleanup_reached (s : state) :
  In (Print Stdout "Shutting down attack..." []) (trace (cleanup_phase w s)).
Proof.
  unfold cleanup_phase. cbv zeta.
  eapply (extends_In trace (fun _ => true)).
  { apply for_loop_extends. intros j t. cbn [close_body snd].
    destruct (0 <=? fd_cell j t); [eexists; split; reflexivity | apply extends_refl]. }
  eapply (extends_In trace (fun _ => true)).
  { apply for_loop_extends. intros j t. cbn [free_body snd].
    destruct (leak_cell j t =? 0); [apply extends_refl | eexists; split; reflexivity]. }
  eapply (extends_In trace (fun _ => true)).
  { apply for_loop_extends. intros j t. eexists; split; reflexivity. }
  unfold stop_workers, emit; cbn [trace].
  apply in_or_app. right. left. reflexivity.
Qed.

Lemma combo_main_summary : run_summary (trace (snd (main w))).
Proof.
  unfold main; cbn [snd].
  destruct combo_attack_phase_inv as ((Hs & Hc & _ & Hp) & Hn).
  generalize dependent (attack_phase w (emit banner (init w))). intros s Hs Hc Hp Hn.
  destruct (extends_trans trace inert _ _ _
              (combo_sustain_extends s) (combo_cleanup_extends (sustain_phase s)))
    as (ext & -> & Hext).
  pose proof (malloc_calls_none inert ext inert_not_malloc Hext) as Hm.
  unfold run_summary, leaked_sizes in *.
  rewrite malloc_calls_app, Hm, app_nil_r.
  split; [exists (leak_count s); exact Hs | split; [exact Hc | split]].
  - rewrite forallb_app, Hp. exact (forallb_weaken inert plain ext inert_plain Hext).
  - rewrite count_app, Hn, (count_none is_iteration inert ext inert_not_iteration Hext).
    reflexivity.
Qed.

(** *** Resources obtained and given back *)

(** Normalises a state built from the updates of this program, and the
    counts over what it appended to the trace. *)
Ltac combo_norm :=
  unfold emit, set_leak, set_thread, set_fd, incr_leak, incr_thread, incr_file,
    stop_workers, leak_cell, fd_cell, thread_cell;
  cbn [memory_leaks threads open_fds keep_running leak_count thread_count file_count trace];
  rewrite ?count_app, ?count_cons, ?count_nil;
  cbn [malloc_ok is_created open_ok is_release is_free is_join is_close orb negb].

Lemma leak_step_balanced (i : nat) (s : state) : balanced s -> balanced (leak_step w i s).
Proof.
  intros (B1 & B2 & B3 & B4 & B5 & B6 & B7 & B8). unfold leak_step.
  destruct (Nat.eqb (i mod 2) 0); cbn [andb]; [| now repeat split].
  destruct (Nat.ltb_spec (leak_count s) 30) as [Hlt | _]; [| now repeat split].
  destruct (Z.eqb_spec (malloc_ret w i) 0) as [Hz | Hnz]; unfold balanced; combo_norm.
  - rewrite Hz. cbn [Z.eqb negb].
    split; [lia | split; [lia | split; [lia | split; [| split; [| split; [| split]]]]]].
    + intros k Hk. rewrite list_lookup_insert_ne by lia. now apply B4.
    + exact B5.
    + now rewrite length_insert.
    + exact B7.
    + lia.
  - destruct (Z.eqb_spec (malloc_ret w i) 0) as [E | _]; [contradiction|]. cbn [negb].
    split; [lia | split; [lia | split; [lia | split; [| split; [| split; [| split]]]]]].
    + intros k Hk. destruct (Nat.eq_dec k (leak_count s)) as [-> | Hne].
      * rewrite list_lookup_insert_eq by lia. exact Hnz.
      * rewrite list_lookup_insert_ne by lia. apply B4. lia.
    + exact B5.
    + now rewrite length_insert.
    + exact B7.
    + lia.
Qed.

Lemma spawn_body_balanced (i j : nat) (s : state) :
  balanced s -> balanced (snd (spawn_body w i j s)).
Proof.
  intros (B1 & B2 & B3 & B4 & B5 & B6 & B7 & B8). unfold spawn_body.
  destruct (thread_count s <? MAX_THREADS)%nat; [| now repeat split].
  destruct (pthread_create_ret w i j); cbn [snd]; unfold balanced; combo_norm;
    (split; [lia | split; [lia | split; [lia | split; [exact B4 | split; [exact B5 |
       split; [exact B6 | split; [exact B7 | lia]]]]]]]).
Qed.

Lemma thread_step_balanced (i : nat) (s : state) : balanced s -> balanced (thread_step w i s).
Proof.
  intros B. unfold thread_step.
  destruct (Nat.eqb (i mod 3) 0 && (thread_count s <? MAX_THREADS)%nat); [| exact B].
  assert (B' : balanced (for_loop (spawn_body w i) 0 3 s)).
  { apply (for_loop_rule (fun _ t => balanced t) balanced); [exact B | | | auto].
    - intros j t t' _ Ht E. pose proof (spawn_body_balanced i j t Ht) as H. now rewrite E in H.
    - intros j t t' _ Ht E. pose proof (spawn_body_balanced i j t Ht) as H. now rewrite E in H. }
  generalize dependent (for_loop (spawn_body w i) 0 3 s).
  intros t (B1 & B2 & B3 & B4 & B5 & B6 & B7 & B8).
  unfold balanced; combo_norm.
  split; [lia | split; [lia | split; [lia | split; [exact B4 | split; [exact B5 |
     split; [exact B6 | split; [exact B7 | lia]]]]]]].
Qed.

Lemma file_step_balanced (i : nat) (s : state) : balanced s -> balanced (file_step w i s).
Proof.
  intros (B1 & B2 & B3 & B4 & B5 & B6 & B7 & B8). unfold file_step.
  destruct (Nat.eqb (i mod 2) 1); cbn [andb]; [| now repeat split].
  destruct (Nat.ltb_spec (file_count s) MAX_FILES) as [Hlt | _]; [| now repeat split].
  unfold MAX_FILES in Hlt.
  destruct (Z.leb_spec 0 (open_ret w i)) as [Hge | Hneg]; unfold balanced; combo_norm.
  - destruct (Z.leb_spec 0 (open_ret w i)) as [_ | E]; [| lia].
    split; [lia | split; [lia | split; [lia | split; [exact B4 | split; [| split; [| split]]]]]].
    + intros k Hk. destruct (Nat.eq_dec k (file_count s)) as [-> | Hne].
      * rewrite list_lookup_insert_eq by lia. exact Hge.
      * rewrite list_lookup_insert_ne by lia. apply B5. lia.
    + exact B6.
    + now rewrite length_insert.
    + lia.
  - destruct (Z.leb_spec 0 (open_ret w i)) as [E | _]; [lia|].
    split; [lia | split; [lia | split; [lia | split; [exact B4 | split; [| split; [| split]]]]]].
    + intros k Hk. rewrite list_lookup_insert_ne by lia. now apply B5.
    + exact B6.
    + now rewrite length_insert.
    + lia.
Qed.

(** Appending narration keeps a state balanced. *)
Lemma emit_balanced (es : list event) (s : state) :
  forallb quiet es = true -> balanced s -> balanced (emit es s).
Proof.
  intros Hq (B1 & B2 & B3 & B4 & B5 & B6 & B7 & B8).
  unfold balanced, emit, leak_cell, fd_cell;
    cbn [memory_leaks threads open_fds keep_running leak_count thread_count file_count trace].
  rewrite !count_app.
  rewrite (count_none malloc_ok quiet es), (count_none is_created quiet es),
    (count_none open_ok quiet es), (count_none is_release quiet es)
    by (try exact Hq; now intros []).
  split; [lia | split; [lia | split; [lia | split; [exact B4 | split; [exact B5 |
     split; [exact B6 | split; [exact B7 | lia]]]]]]].
Qed.

Lemma report_step_balanced (i : nat) (s : state) : balanced s -> balanced (report_step i s).
Proof.
  intros B. unfold report_step.
  destruct (0 <? thread_count s)%nat, (Nat.eqb i 5), (Nat.eqb i 10), (Nat.eqb i 15);
    repeat (apply emit_balanced; [reflexivity |]); exact B.
Qed.

Lemma attack_phase_balanced : balanced (attack_phase w (emit banner (init w))).
Proof.
  unfold attack_phase.
  apply (for_loop_total (fun _ t => balanced t) (attack_body w) 20 0%nat).
  - apply emit_balanced; [reflexivity|]. apply emit_balanced; [reflexivity|].
    unfold balanced, init, leak_cell, fd_cell;
      cbn [memory_leaks threads open_fds keep_running leak_count thread_count file_count trace].
    split; [reflexivity | split; [reflexivity | split; [reflexivity |
       split; [| split; [| split; [| split]]]]]].
    + intros k Hk. lia.
    + intros k Hk. lia.
    + now rewrite length_map, length_seq.
    + reflexivity.
    + reflexivity.
  - intros j t _ B. split; [reflexivity|]. unfold attack_body; cbn [snd].
    apply report_step_balanced, file_step_balanced, thread_step_balanced, leak_step_balanced.
    apply emit_balanced; [reflexivity | exact B].
Qed.

Lemma sustain_phase_balanced (s : state) : balanced s -> balanced (sustain_phase s).
Proof.
  intros B. unfold sustain_phase. cbv zeta.
  apply emit_balanced; [reflexivity|].
  apply (for_loop_rule (fun _ t => balanced t) balanced).
  - apply emit_balanced; [reflexivity | exact B].
  - intros j t t' _ Ht [= <-]. apply emit_balanced; [reflexivity | exact Ht].
  - intros j t t' _ Ht [=].
  - auto.
Qed.

(** The three cleanup loops give back exactly what the counters count. *)
Lemma cleanup_phase_counts (s : state) :
  balanced s ->
  count is_join (trace (cleanup_phase w s)) = thread_count s /\
  count is_free (trace (cleanup_phase w s)) = leak_count s /\
  count is_close (trace (cleanup_phase w s)) = file_count s /\
  count malloc_ok (trace (cleanup_phase w s)) = count malloc_ok (trace s) /\
  count is_created (trace (cleanup_phase w s)) = count is_created (trace s) /\
  count open_ok (trace (cleanup_phase w s)) = count open_ok (trace s).
Proof.
  intros (B1 & B2 & B3 & B4 & B5 & B6 & B7 & B8). unfold cleanup_phase. cbv zeta.
  set (keeps := fun (t : state) =>
         memory_leaks t = memory_leaks s /\ open_fds t = open_fds s /\
         leak_count t = leak_count s /\ thread_count t = thread_count s /\
         file_count t = file_count s /\
         count malloc_ok (trace t) = count malloc_ok (trace s) /\
         count is_created (trace t) = count is_created (trace s) /\
         count open_ok (trace t) = count open_ok (trace s)).
  assert (Hrel : forall f : event -> bool,
             (forall e, f e = true -> is_release e = true) -> count f (trace s) = 0%nat).
  { intros f Hf. unfold count in *. revert B8. generalize (trace s). intros t.
    induction t as [|e t IH]; [reflexivity|]. cbn [List.filter].
    destruct (f e) eqn:Ef.
    - rewrite (Hf e Ef). cbn [length]. lia.
    - destruct (is_release e); cbn [length]; intros H; apply IH; lia. }
  match goal with
  | |- context [for_loop join_body 0 (thread_count ?t) ?t] => set (s1 := t)
  end.
  assert (H1 : keeps s1 /\ count is_join (trace s1) = 0%nat /\
               count is_free (trace s1) = 0%nat /\ count is_close (trace s1) = 0%nat).
  { subst s1 keeps. combo_norm.
    rewrite (Hrel is_join), (Hrel is_free), (Hrel is_close)
      by (intros [] H; try discriminate; reflexivity).
    repeat split; lia. }
  clearbody s1.
  assert (H2 : keeps (for_loop join_body 0 (thread_count s1) s1) /\
               count is_join (trace (for_loop join_body 0 (thread_count s1) s1))
                 = thread_count s1 /\
               count is_free (trace (for_loop join_body 0 (thread_count s1) s1)) = 0%nat /\
               count is_close (trace (for_loop join_body 0 (thread_count s1) s1)) = 0%nat).
  { apply (for_loop_total
             (fun i t => keeps t /\ count is_join (trace t) = i /\
                         count is_free (trace t) = 0%nat /\ count is_close (trace t) = 0%nat)
             join_body (thread_count s1) 0%nat s1).
    - exact H1.
    - intros j t _ ((K1 & K2 & K3 & K4 & K5 & K6 & K7 & K8) & J & F & C).
      split; [reflexivity|]. cbn [join_body snd]. subst keeps. combo_norm.
      repeat split; try assumption; lia. }
  generalize dependent (for_loop join_body 0 (thread_count s1) s1).
  intros s2 ((K1 & K2 & K3 & K4 & K5 & K6 & K7 & K8) & J & F & C).
  assert (H3 : keeps (for_loop free_body 0 (leak_count s2) s2) /\
               count is_join (trace (for_loop free_body 0 (leak_count s2) s2))
                 = thread_count s1 /\
               count is_free (trace (for_loop free_body 0 (leak_count s2) s2))
                 = leak_count s2 /\
               count is_close (trace (for_loop free_body 0 (leak_count s2) s2)) = 0%nat).
  { apply (for_loop_total
             (fun i t => (i <= leak_count s2)%nat -> 
                         keeps t /\ count is_join (trace t) = thread_count s1 /\
                         count is_free (trace t) = i /\ count is_close (trace t) = 0%nat)
             free_body (leak_count s2) 0%nat s2); [| | lia].
    - intros _. subst keeps. repeat split; assumption.
    - intros j t Hj Ht. split; [reflexivity|]. intros Hle.
      destruct (Ht ltac:(lia)) as ((L1 & L2 & L3 & L4 & L5 & L6 & L7 & L8) & J' & F' & C').
      cbn [free_body snd].
      assert (Hcell : leak_cell j t <> 0).
      { unfold leak_cell. rewrite L1. apply B4. lia. }
      destruct (Z.eqb_spec (leak_cell j t) 0) as [E | _]; [contradiction|].
      subst keeps. combo_norm. repeat split; try assumption; lia. }
  generalize dependent (for_loop free_body 0 (leak_count s2) s2).
  intros s3 ((L1 & L2 & L3 & L4 & L5 & L6 & L7 & L8) & J' & F' & C').
  assert (H4 : keeps (for_loop (close_body w) 0 (file_count s3) s3) /\
               count is_join (trace (for_loop (close_body w) 0 (file_count s3) s3))
                 = thread_count s1 /\
               count is_free (trace (for_loop (close_body w) 0 (file_count s3) s3))
                 = leak_count s2 /\
               count is_close (trace (for_loop (close_body w) 0 (file_count s3) s3))
                 = file_count s3).
  { apply (for_loop_total
             (fun i t => (i <= file_count s3)%nat ->
                         keeps t /\ count is_join (trace t) = thread_count s1 /\
                         count is_free (trace t) = leak_count s2 /\
                         count is_close (trace t) = i)
             (close_body w) (file_count s3) 0%nat s3); [| | lia].
    - intros _. subst keeps. repeat split; assumption.
    - intros j t Hj Ht. split; [reflexivity|]. intros Hle.
      destruct (Ht ltac:(lia)) as ((M1 & M2 & M3 & M4 & M5 & M6 & M7 & M8) & J'' & F'' & C'').
      cbn [close_body snd].
      assert (Hcell : 0 <= fd_cell j t).
      { unfold fd_cell. rewrite M2. apply B5. lia. }
      destruct (Z.leb_spec 0 (fd_cell j t)) as [_ | E]; [| lia].
      subst keeps. combo_norm. repeat split; try assumption; lia. }
  destruct H4 as ((M1 & M2 & M3 & M4 & M5 & M6 & M7 & M8) & J'' & F'' & C'').
  destruct H1 as ((N1 & N2 & N3 & N4 & N5 & N6 & N7 & N8) & _).
  repeat split; lia.
Qed.

(** The combo gives back what it obtained, in every run: as many joins
    as threads created, as many frees as blocks allocated, as many
    closes as files opened. *)
Lemma combo_releases_what_it_acquired :
  let t := trace (snd (main w)) in
  count is_join t = count is_created t /\
  count is_free t = count malloc_ok t /\
  count is_close t = count open_ok t.
Proof.
  cbv zeta. unfold main; cbn [snd].
  pose proof (sustain_phase_balanced _ attack_phase_balanced) as B.
  generalize dependent (sustain_phase (attack_phase w (emit banner (init w)))).
  intros s B.
  destruct (cleanup_phase_counts s B) as (H1 & H2 & H3 & H4 & H5 & H6).
  destruct B as (B1 & B2 & B3 & _).
  rewrite H1, H2, H3, H4, H5, H6. repeat split; lia.
Qed.

End ComboFacts.

(** ** CPU spike *)

Section CpuSpikeFacts.
Import CpuSpikeAttack.
Variables (w : world) (B : Z).
Hypothesis rate_pos : 0 < CLOCKS_PER_SEC w.
Hypothesis pass_cost : forall k, 1 <= batch_ticks w k <= B.

(** The busy loop ends, at the first reading of the clock that is not
    below [end_]: less than one pass after it. *)
Lemma burn_spec (fuel : nat) :
  forall (end_ : Z) (s : state),
    cpu s < end_ + B ->
    end_ - cpu s <= Z.of_nat fuel ->
    exists s',
      burn w fuel end_ s = Some s' /\
      Z.max end_ (cpu s) <= cpu s' < end_ + B /\
      (end_ <= cpu s -> cpu s' = cpu s) /\
      slept s' = slept s /\ trace s' = trace s.
Proof.
  induction fuel as [|fuel IH]; intros end_ s Hlt Hfuel.
  - cbn [burn]. destruct (Z.ltb_spec (cpu s) end_); [lia|].
    exists s. repeat split; lia.
  - cbn [burn]. destruct (Z.ltb_spec (cpu s) end_) as [Hc | Hc].
    + pose proof (pass_cost (passes s)) as Hb.
      destruct (IH end_ (one_pass w s)) as (s' & E & Hr & _ & Hs & Ht).
      * cbn [one_pass cpu]. lia.
      * cbn [one_pass cpu]. lia.
      * exists s'. cbn [one_pass cpu] in Hr.
        split; [exact E | split; [lia | split; [lia | split; assumption]]].
    + exists s. repeat split; lia.
Qed.

Lemma consume_cpu_spec (fuel : nat) (d : Z) (s : state) :
  0 <= d ->
  d * CLOCKS_PER_SEC w <= Z.of_nat fuel ->
  exists s',
    consume_cpu w fuel d s = Ok s' /\
    d * CLOCKS_PER_SEC w <= cpu s' - cpu s <= d * CLOCKS_PER_SEC w + (B - 1) /\
    (d = 0 -> cpu s' = cpu s) /\
    slept s' = slept s /\ trace s' = trace s.
Proof.
  intros Hd Hfuel. unfold consume_cpu. cbv zeta.
  pose proof (pass_cost 0%nat) as HB.
  destruct (burn_spec fuel (cpu s + d * CLOCKS_PER_SEC w) s) as (s' & E & Hr & Hz & Hs & Ht).
  - nia.
  - lia.
  - rewrite E. exists s'. split; [reflexivity | split; [lia | split; [| split; assumption]]].
    intros ->. apply Hz. lia.
Qed.

(** Invariant rule for a loop whose turns all reach their end. *)
Lemma repeat_rule (P : nat -> state -> Prop) (body : nat -> state -> run state) (n : nat) :
  forall i s,
    P i s ->
    (forall j t, (i <= j < i + n)%nat -> P j t ->
                 exists t', body j t = Ok t' /\ P (S j) t') ->
    exists s', repeat_ body i n s = Ok s' /\ P (i + n)%nat s'.
Proof.
  induction n as [|n IH]; intros i s Hs Hbody; cbn [repeat_].
  - exists s. now rewrite Nat.add_0_r.
  - destruct (Hbody i s ltac:(lia) Hs) as (t' & E & Ht'). rewrite E. cbn [bind].
    destruct (IH (S i) t' Ht') as (s' & E' & Hs').
    + intros j t Hj. apply Hbody. lia.
    + exists s'. split; [exact E'|]. now replace (i + S n)%nat with (S i + n)%nat by lia.
Qed.

(** A call of [printf] whose format is well formed and finds its
    arguments prints and goes on. *)
Lemma printf_ok (fmt : string) (args : list Z) (s : state) :
  Printf.defined fmt (length args) = true ->
  printf fmt args s = Ok (emit [Print Stdout fmt args] s).
Proof using Type. intros H. unfold printf. now rewrite H. Qed.

(** Phase 3: three seconds asleep. *)
Lemma cpu_cooldown_spec (s : state) :
  exists s3,
    cooldown_phase s = Ok s3 /\
    slept s3 = slept s + sec 3 /\ cpu s3 = cpu s.
Proof using Type.
  unfold cooldown_phase. rewrite printf_ok by reflexivity. cbn [bind].
  destruct (repeat_rule
              (fun i t => slept t = slept s + Z.of_nat i * 1000000 /\ cpu t = cpu s)
              cooldown_body 3 0%nat
              (emit [Print Stdout "Phase 3/3: Returning to normal behavior..." []] s))
    as (s3 & E & Hs & Hc).
  - cbn. lia.
  - intros j t _ [Hs Hc]. unfold cooldown_body.
    rewrite printf_ok by reflexivity. cbn [bind].
    eexists. split; [reflexivity|]. unfold sec. cbn [usleep_ emit slept cpu]. lia.
  - exists s3. split; [exact E|]. unfold sec. cbn in Hs. lia.
Qed.

(** The closing lines are printed one after the other. *)
Lemma cpu_closing_spec (s : state) :
  exists s4,
    say (closing w) s = Ok s4 /\ slept s4 = slept s /\ cpu s4 = cpu s.
Proof using Type.
  unfold closing. cbn [say].
  rewrite !printf_ok by reflexivity. cbn [bind].
  rewrite !printf_ok by reflexivity. cbn [bind].
  eexists. split; [reflexivity|]. split; reflexivity.
Qed.

Variable fuel : nat.
Hypothesis enough_fuel : CLOCKS_PER_SEC w <= Z.of_nat fuel.

(** Phase 1: five seconds asleep, no processor time. *)
Lemma cpu_benign_spec (s : state) :
  exists s1,
    benign_phase w fuel s = Ok s1 /\
    slept s1 = slept s + sec 5 /\ cpu s1 = cpu s.
Proof.
  unfold benign_phase. rewrite printf_ok by reflexivity. cbn [bind].
  destruct (repeat_rule
              (fun i t => slept t = slept s + Z.of_nat i * 1000000 /\ cpu t = cpu s)
              (benign_body w fuel) 5 0%nat
              (emit [Print Stdout "Phase 1/3: Benign behavior (low CPU)..." []] s))
    as (s1 & E & Hs & Hc).
  - cbn. lia.
  - intros j t _ [Hs Hc]. unfold benign_body.
    rewrite printf_ok by reflexivity. cbn [bind].
    destruct (consume_cpu_spec fuel 0
                (usleep_ 900000 (emit [Print Stdout "[%d/5] CPU: ~5%% (normal)"
                                         [Z.of_nat j + 1]] t)))
      as (t' & E & _ & Hz & Hs' & _); [lia | lia |].
    rewrite E. cbn [bind]. eexists. split; [reflexivity|].
    cbn [usleep_ slept cpu]. rewrite Hs', (Hz eq_refl). cbn [usleep_ emit slept cpu]. lia.
  - exists s1. split; [exact E|]. unfold sec. cbn in Hs. lia.
Qed.

(** Phase 2: no sleep; fifteen busy seconds, each overshot by less than
    one pass. *)
Lemma cpu_attack_spec (s : state) :
  exists s2,
    attack_phase w fuel s = Ok s2 /\
    slept s2 = slept s /\
    15 * CLOCKS_PER_SEC w <= cpu s2 - cpu s <= 15 * (CLOCKS_PER_SEC w + (B - 1)).
Proof.
  unfold attack_phase.
  rewrite printf_ok by reflexivity. cbn [bind].
  rewrite printf_ok by reflexivity. cbn [bind].
  match goal with |- context [repeat_ _ 0 15 ?x] => set (s0 := x) end.
  destruct (repeat_rule
              (fun i t => slept t = slept s /\
                          Z.of_nat i * CLOCKS_PER_SEC w <= cpu t - cpu s
                          <= Z.of_nat i * (CLOCKS_PER_SEC w + (B - 1)))
              (attack_body w fuel) 15 0%nat s0)
    as (s2 & E & Hs & Hc).
  - subst s0. cbn. lia.
  - intros j t _ [Hs Hc]. unfold attack_body.
    rewrite printf_ok by reflexivity. cbn [bind].
    destruct (consume_cpu_spec fuel 1
                (emit [Print Stdout "[%d/15] CPU: 95%%+ (ANOMALOUS)" [Z.of_nat j + 1]] t))
      as (t' & E & Hd & _ & Hs' & _); [lia | lia |].
    exists t'. split; [exact E|]. cbn [emit slept cpu] in *.
    split; [lia | nia].
  - rewrite E. cbn [bind]. eexists. split; [reflexivity|]. cbn [emit slept cpu]. cbn in Hc. lia.
Qed.

(** Lines 41 to 74, from any state: the three phases in a row, 8
    seconds asleep and 15 busy, and exit code 0. *)
Lemma cpu_phases_spec (s : state) :
  exists s',
    phases w fuel s = Ok (0, s') /\
    slept s' = slept s + sec 8 /\
    15 * CLOCKS_PER_SEC w <= cpu s' - cpu s <= 15 * (CLOCKS_PER_SEC w + (B - 1)).
Proof.
  unfold phases.
  destruct (cpu_benign_spec s) as (s1 & E1 & Hs1 & Hc1). rewrite E1. cbn [bind].
  destruct (cpu_attack_spec s1) as (s2 & E2 & Hs2 & Hc2). rewrite E2. cbn [bind].
  destruct (cpu_cooldown_spec s2) as (s3 & E3 & Hs3 & Hc3). rewrite E3. cbn [bind].
  destruct (cpu_closing_spec s3) as (s4 & E4 & Hs4 & Hc4). rewrite E4. cbn [bind].
  exists s4. split; [reflexivity|]. unfold sec in *. split; lia.
Qed.

End CpuSpikeFacts.

(** C7 (CPU spike simulator).  No run of the program reaches its first
    phase.  The format of the [printf] of line 39 holds two percent
    signs that are not doubled: [%)] is no conversion specification, and
    [%+ s] is one that takes a string, for which the call has no
    argument.  The call has no defined behaviour, whatever the clock
    does: the run ends there, after three lines of the banner, without
    having slept or burnt anything and without an exit code.  The
    formats of lines 51 and 56 double the sign and are well formed.
    What the claim describes is what the lines behind the banner would
    do: on a clock that a pass of the busy loop advances by 1 to [B]
    ticks they sleep 8 seconds, burn 15 seconds of processor time,
    overshooting each second by less than one pass, and return 0. *)
Theorem C7_cpu_spike_dies_in_banner :
  (forall (w : CpuSpikeAttack.world) (fuel : nat) (cpu0 : Z),
      exists s,
        CpuSpikeAttack.main w fuel cpu0 = CpuSpikeAttack.Undefined s /\
        CpuSpikeAttack.trace s =
          [Print Stdout "CPU SPIKE ATTACK SIMULATOR (ML Test)" [];
           Print Stdout "This program is designed to trigger ML anomaly detection." [];
           Print Stdout "Expected: CPU Spike Anomaly (score: 0.8-0.95)" []] /\
        CpuSpikeAttack.slept s = 0 /\ CpuSpikeAttack.cpu s = cpu0) /\
  (Printf.arguments "Pattern: Low CPU (5%) -> Sudden spike to 95%+ sustained" = None /\
   Printf.arguments "Pattern: Low CPU (5%%) -> Sudden spike to 95%+ sustained" = Some 1%nat /\
   Printf.arguments "Pattern: Low CPU (5%%) -> Sudden spike to 95%%+ sustained" = Some 0%nat /\
   Printf.arguments "Consuming 95%%+ CPU for 15 seconds..." = Some 0%nat /\
   Printf.arguments "[%d/15] CPU: 95%%+ (ANOMALOUS)" = Some 1%nat) /\
  (forall (w : CpuSpikeAttack.world) (B : Z) (fuel : nat) (s : CpuSpikeAttack.state),
      0 < CpuSpikeAttack.CLOCKS_PER_SEC w ->
      (forall k, 1 <= CpuSpikeAttack.batch_ticks w k <= B) ->
      CpuSpikeAttack.CLOCKS_PER_SEC w <= Z.of_nat fuel ->
      exists s',
        CpuSpikeAttack.phases w fuel s = CpuSpikeAttack.Ok (0, s') /\
        CpuSpikeAttack.slept s' = CpuSpikeAttack.slept s + sec 8 /\
        15 * CpuSpikeAttack.CLOCKS_PER_SEC w
          <= CpuSpikeAttack.cpu s' - CpuSpikeAttack.cpu s
          <= 15 * (CpuSpikeAttack.CLOCKS_PER_SEC w + (B - 1))).
Proof.
  split; [| split].
  - intros w fuel cpu0. eexists. split; [reflexivity|]. repeat split.
  - repeat split.
  - intros w B fuel s rate_pos pass_cost enough_fuel.
    exact (cpu_phases_spec w B rate_pos pass_cost fuel enough_fuel s).
Qed.

(** C7 on a machine with the POSIX clock rate where a pass takes 3
    ticks: the run ends in the banner, and the lines behind it would
    take 8 seconds asleep and 15 busy. *)
Lemma C7_cpu_spike_dies_in_banner_witness :
  (exists s,
      CpuSpikeAttack.main CpuSpikeAttack.steady (Z.to_nat 1000000) 0
        = CpuSpikeAttack.Undefined s /\
      CpuSpikeAttack.trace s =
        [Print Stdout "CPU SPIKE ATTACK SIMULATOR (ML Test)" [];
         Print Stdout "This program is designed to trigger ML anomaly detection." [];
         Print Stdout "Expected: CPU Spike Anomaly (score: 0.8-0.95)" []] /\
      CpuSpikeAttack.slept s = 0 /\ CpuSpikeAttack.cpu s = 0) /\
  (exists s',
      CpuSpikeAttack.phases CpuSpikeAttack.steady (Z.to_nat 1000000) (CpuSpikeAttack.init 0)
        = CpuSpikeAttack.Ok (0, s') /\
      CpuSpikeAttack.slept s' = CpuSpikeAttack.slept (CpuSpikeAttack.init 0) + sec 8 /\
      15 * CpuSpikeAttack.CLOCKS_PER_SEC CpuSpikeAttack.steady
        <= CpuSpikeAttack.cpu s' - CpuSpikeAttack.cpu (CpuSpikeAttack.init 0)
        <= 15 * (CpuSpikeAttack.CLOCKS_PER_SEC CpuSpikeAttack.steady + (3 - 1))).
Proof.
  split.
  - apply (proj1 C7_cpu_spike_dies_in_banner).
  - apply (proj2 (proj2 C7_cpu_spike_dies_in_banner) CpuSpikeAttack.steady 3).
    + reflexivity.
    + intros k. unfold CpuSpikeAttack.steady, CpuSpikeAttack.batch_ticks. lia.
    + unfold CpuSpikeAttack.steady, CpuSpikeAttack.CLOCKS_PER_SEC. lia.
Defined.

(** C1.  The combo gives back what it obtained in every run: as many
    joins as threads created, frees as blocks allocated, closes as files
    opened.  So does the gradual fork bomb by number, in every run that
    reaches its cleanup.  The progressive leak does not: on the run where
    all 25 allocations succeed and the stack cell that becomes
    [allocations[25]] holds a stale non-NULL word, 25 blocks are acquired
    and [free] is called 26 times, the last time on the stale word, which
    no [malloc] returned and no statement stored. *)
Theorem C1_cleanup_frees_a_block_never_acquired :
  (forall w : ResourceExhaustionCombo.world,
      let t := ResourceExhaustionCombo.trace (snd (ResourceExhaustionCombo.main w)) in
      count ResourceExhaustionCombo.is_join t = count ResourceExhaustionCombo.is_created t /\
      count ResourceExhaustionCombo.is_free t = count ResourceExhaustionCombo.malloc_ok t /\
      count ResourceExhaustionCombo.is_close t = count ResourceExhaustionCombo.open_ok t) /\
  (forall (w : ForkBombGradual.world) (argv : list string),
      ForkBombGradual.thread_ids_ptr w <> 0 ->
      let t := ForkBombGradual.trace (snd (ForkBombGradual.main w argv)) in
      count ForkBombGradual.is_join t = count ForkBombGradual.is_created t) /\
  (let t := MemoryLeakProgressive.trace
              (snd (MemoryLeakProgressive.main MemoryLeakProgressive.stale_slot_25)) in
   MemoryLeakProgressive.acquired t = 25%nat /\
   MemoryLeakProgressive.released t = 26%nat /\
   count (MemoryLeakProgressive.stores_to 25) t = 0%nat /\
   In (Load 25 3735928559) t /\
   In (Free 3735928559) t).
Proof.
  split; [| split].
  - intros w. apply combo_releases_what_it_acquired.
  - intros w argv Hids. cbv zeta. apply (gradual_join_count w Hids argv).
  - cbv zeta.
    refine (conj _ (conj _ (conj _ (conj _ _))));
      try (apply occurs_In); vm_compute; reflexivity.
Qed.

(** C3, as the code has it.  In the progressive leak the first failed
    allocation, and in phase 2 of the gradual fork bomb the first
    creation that fails there, is reported at once on standard output,
    nothing further is acquired, and the run goes on to the cleanup.
    The combo reports no failure and leaves no loop early: whatever
    fails, all 20 attack iterations run, only narration is printed, and
    the run goes on to the cleanup. *)
Theorem C3_failure_policy :
  (forall (w : MemoryLeakProgressive.world) (k : nat),
      (k < 25)%nat ->
      MemoryLeakProgressive.malloc_ret w k = 0 ->
      (forall j, (j < k)%nat -> MemoryLeakProgressive.malloc_ret w j <> 0) ->
      exists pre post,
        MemoryLeakProgressive.trace (snd (MemoryLeakProgressive.main w))
          = pre ++ MemoryLeakProgressive.failure_events k ++ post /\
        count is_malloc pre = k /\
        count is_malloc post = 0%nat /\
        In (Print Stdout "Cleaning up allocations..." []) post) /\
  (forall (w : ForkBombGradual.world) (argv : list string) (k : nat),
      ForkBombGradual.thread_ids_ptr w <> 0 ->
      5 <= Z.of_nat k < ForkBombGradual.max_threads_of argv ->
      ForkBombGradual.pthread_create_ret w k = None ->
      (forall j, (5 <= j < k)%nat -> ForkBombGradual.pthread_create_ret w j <> None) ->
      exists pre post,
        ForkBombGradual.trace (snd (ForkBombGradual.main w argv))
          = pre ++ ForkBombGradual.failure_events k ++ post /\
        count ForkBombGradual.is_create pre = k /\
        count ForkBombGradual.is_create post = 0%nat /\
        In (Print Stdout "Shutting down threads..." []) post) /\
  (forall w : ResourceExhaustionCombo.world,
      let t := ResourceExhaustionCombo.trace (snd (ResourceExhaustionCombo.main w)) in
      count ResourceExhaustionCombo.is_iteration t = 20%nat /\
      forallb ResourceExhaustionCombo.plain t = true /\
      In (Print Stdout "Shutting down attack..." []) t).
Proof.
  split; [| split].
  - intros w k Hk Hfail Hok.
    exact (leak_main_on_failure w k Hk Hfail Hok).
  - intros w argv k Hids Hk Hfail Hok.
    exact (proj2 (gradual_main_on_failure w Hids argv k Hk Hfail Hok)).
  - intros w. cbv zeta.
    destruct (combo_main_summary w) as (_ & _ & Hp & Hn).
    split; [exact Hn | split; [exact Hp |]].
    apply combo_cleanup_reached.
Qed.

(** C3 at four runs: the progressive leak when the fourth allocation
    fails, with all stale cells of the array NULL and with a stale word
    in the cell behind the failure, and the gradual fork bomb (no
    argument) when the eighth creation fails, after a phase 1 without
    failure and after one in which the third creation failed. *)
Lemma C3_failure_policy_witness :
  (exists pre post,
     MemoryLeakProgressive.trace (snd (MemoryLeakProgressive.main MemoryLeakProgressive.fails_at_3))
       = pre ++ MemoryLeakProgressive.failure_events 3 ++ post /\
     count is_malloc pre = 3%nat /\
     count is_malloc post = 0%nat /\
     In (Print Stdout "Cleaning up allocations..." []) post) /\
  (exists pre post,
     MemoryLeakProgressive.trace
       (snd (MemoryLeakProgressive.main MemoryLeakProgressive.fails_at_3_stale))
       = pre ++ MemoryLeakProgressive.failure_events 3 ++ post /\
     count is_malloc pre = 3%nat /\
     count is_malloc post = 0%nat /\
     In (Print Stdout "Cleaning up allocations..." []) post) /\
  (exists pre post,
     ForkBombGradual.trace (snd (ForkBombGradual.main ForkBombGradual.fails_at_7 []))
       = pre ++ ForkBombGradual.failure_events 7 ++ post /\
     count ForkBombGradual.is_create pre = 7%nat /\
     count ForkBombGradual.is_create post = 0%nat /\
     In (Print Stdout "Shutting down threads..." []) post) /\
  (exists pre post,
     ForkBombGradual.trace (snd (ForkBombGradual.main ForkBombGradual.fails_at_2_and_7 []))
       = pre ++ ForkBombGradual.failure_events 7 ++ post /\
     count ForkBombGradual.is_create pre = 7%nat /\
     count ForkBombGradual.is_create post = 0%nat /\
     In (Print Stdout "Shutting down threads..." []) post).
Proof.
  split; [| split; [| split]].
  - apply (proj1 C3_failure_policy MemoryLeakProgressive.fails_at_3 3%nat).
    + lia.
    + reflexivity.
    + intros j Hj. destruct j as [|[|[|j]]]; [discriminate | discriminate | discriminate | lia].
  - apply (proj1 C3_failure_policy MemoryLeakProgressive.fails_at_3_stale 3%nat).
    + lia.
    + reflexivity.
    + intros j Hj. destruct j as [|[|[|j]]]; [discriminate | discriminate | discriminate | lia].
  - apply (proj1 (proj2 C3_failure_policy) ForkBombGradual.fails_at_7 [] 7%nat).
    + discriminate.
    + split; [lia | reflexivity].
    + reflexivity.
    + intros j Hj.
      destruct j as [|[|[|[|[|[|[|j]]]]]]]; try discriminate; lia.
  - apply (proj1 (proj2 C3_failure_policy) ForkBombGradual.fails_at_2_and_7 [] 7%nat).
    + discriminate.
    + split; [lia | reflexivity].
    + reflexivity.
    + intros j Hj.
      destruct j as [|[|[|[|[|[|[|j]]]]]]]; try discriminate; lia.
Defined.

(** C3 fails for the combo: on the run where the first allocation fails,
    the failed call is followed at once by the thread creations, nothing
    but narration is printed in the whole run, all 20 iterations are
    made, and nine more allocations are tried. *)
Lemma C3_combo_failure_not_reported :
  ResourceExhaustionCombo.trace
    (snd (ResourceExhaustionCombo.main ResourceExhaustionCombo.first_malloc_fails)) !! 9%nat
    = Some (Malloc 8388608 0) /\
  ResourceExhaustionCombo.trace
    (snd (ResourceExhaustionCombo.main ResourceExhaustionCombo.first_malloc_fails)) !! 10%nat
    = Some (PthreadCreate 0 true 1000) /\
  forallb ResourceExhaustionCombo.plain
    (ResourceExhaustionCombo.trace
       (snd (ResourceExhaustionCombo.main ResourceExhaustionCombo.first_malloc_fails))) = true /\
  count ResourceExhaustionCombo.is_iteration
    (ResourceExhaustionCombo.trace
       (snd (ResourceExhaustionCombo.main ResourceExhaustionCombo.first_malloc_fails))) = 20%nat /\
  count is_malloc
    (ResourceExhaustionCombo.trace
       (snd (ResourceExhaustionCombo.main ResourceExhaustionCombo.first_malloc_fails))) = 10%nat.
Proof.
  refine (conj _ (conj _ (conj _ (conj _ _)))); vm_compute; reflexivity.
Qed.

(** ** I/O storm *)

Section IoStormFacts.
Import IoStormWriter.
Variable w : world.

Lemma returned_snoc (n : nat) :
  forall k, returned w k (S n) = returned w k n + fwrite_ret w (k + n)%nat.
Proof.
  induction n as [|n IH]; intros k.
  - cbn [returned]. rewrite Nat.add_0_r. lia.
  - change (returned w k (S (S n))) with (fwrite_ret w k + returned w (S k) (S n)).
    rewrite IH. cbn [returned]. replace (S k + n)%nat with (k + S n)%nat by lia. lia.
Qed.

Lemma returned_all_complete (n : nat) :
  forall k,
    (forall j, (k <= j < k + n)%nat -> fwrite_ret w j = CHUNK_SIZE) ->
    returned w k n = CHUNK_SIZE * Z.of_nat n.
Proof.
  induction n as [|n IH]; intros k H; cbn [returned]; [lia|].
  rewrite (H k) by lia. rewrite IH by (intros j Hj; apply H; lia). lia.
Qed.

Hypothesis fwrite_range : forall k, 0 <= fwrite_ret w k <= CHUNK_SIZE.

Lemma returned_range (n : nat) :
  forall k, 0 <= returned w k n <= CHUNK_SIZE * Z.of_nat n.
Proof.
  induction n as [|n IH]; intros k; cbn [returned]; [lia|].
  specialize (IH (S k)). pose proof (fwrite_range k). lia.
Qed.

Lemma storm_body_total (i : nat) (s : state) :
  fst (storm_body w i s) = Next /\
  total_written (snd (storm_body w i s))
    = to_size_t (total_written s + fwrite_ret w (3 + i)).
Proof.
  unfold storm_body. cbv zeta. split; [reflexivity|].
  destruct (Nat.eqb (i mod 10) 0); reflexivity.
Qed.

(** The running total after the storm phase is the sum of what its 150
    calls of [fwrite] returned. *)
Lemma storm_phase_total (s : state) :
  total_written s = 0 ->
  total_written (storm_phase w s) = returned w 3 150.
Proof.
  intros H0. unfold storm_phase. cbv zeta.
  apply (for_loop_total
           (fun i t => total_written t = returned w 3 i) (storm_body w) 150 0%nat).
  - exact H0.
  - intros j t Hj Ht. destruct (storm_body_total j t) as [Hc Hs].
    split; [exact Hc|]. rewrite Hs, Ht, returned_snoc.
    apply to_size_t_small.
    pose proof (returned_range (S j) 3) as Hr. rewrite returned_snoc in Hr.
    unfold CHUNK_SIZE, MB in Hr. lia.
Qed.

Lemma normal_phase_total (s : state) :
  total_written (normal_phase w s) = total_written s.
Proof. unfold normal_phase. apply (for_loop_preserves total_written). reflexivity. Qed.

Lemma cooldown_phase_total (s : state) :
  total_written (cooldown_phase w s) = total_written s.
Proof.
  unfold cooldown_phase. cbv zeta.
  rewrite (for_loop_preserves total_written) by reflexivity. reflexivity.
Qed.

Lemma io_phases_extend (s : state) :
  extends trace (fun _ => true) s
    (cooldown_phase w (storm_phase w (normal_phase w s))).
Proof.
  assert (H1 : extends trace (fun _ => true) s (normal_phase w s)).
  { apply for_loop_extends. intros j t. eexists; split; reflexivity. }
  assert (H2 : forall t, extends trace (fun _ => true) t (storm_phase w t)).
  { intros t. unfold storm_phase. cbv zeta.
    eapply extends_trans; [| apply for_loop_extends].
    - eexists; split; reflexivity.
    - intros j u. unfold storm_body. cbv zeta.
      destruct (Nat.eqb (j mod 10) 0); cbn [snd];
        unfold add_written, emit; cbn [trace]; rewrite <- ?app_assoc;
        eexists; split; reflexivity. }
  assert (H3 : forall t, extends trace (fun _ => true) t (cooldown_phase w t)).
  { intros t. unfold cooldown_phase. cbv zeta.
    eapply extends_trans; [| apply for_loop_extends].
    - eexists; split; reflexivity.
    - intros j u. eexists; split; reflexivity. }
  eapply extends_trans; [exact H1|].
  eapply extends_trans; [apply H2 | apply H3].
Qed.

Lemma io_main_eq :
  buffer_ptr w <> 0 -> fopen_ok w = true ->
  main w = (0, cleanup_phase w
                 (cooldown_phase w (storm_phase w (normal_phase w (opened w))))).
Proof using Type.
  intros Hb Hf. unfold main.
  destruct (Z.eqb_spec (buffer_ptr w) 0) as [E | _]; [contradiction|].
  rewrite Hf. reflexivity.
Qed.

Lemma io_opened_total : total_written (opened w) = 0.
Proof using Type. reflexivity. Qed.

Lemma io_opened_fopen :
  fopen_ok w = true -> In (Fopen (IoStormTmp (pid w)) true) (trace (opened w)).
Proof using Type.
  intros Hf. unfold opened, emit; cbn [trace]. rewrite Hf.
  apply in_or_app. right. right. right. left. reflexivity.
Qed.

(** The cleanup leaves the total alone; its last two steps unlink the
    temp file and free the buffer. *)
Lemma io_cleanup_spec (s : state) :
  total_written (cleanup_phase w s) = total_written s /\
  trace (cleanup_phase w s) =
    (trace s ++ [Fclose;
                 Print Stdout "I/O STORM TEST COMPLETE" [];
                 Print Stdout "Peak I/O Rate: %.1f MB/s" [];
                 Print Stdout "Check ML Anomaly Detection tab for analysis." [];
                 Print Stdout "Expected: isAnomalous=true, anomalyType='io_storm'" [];
                 Print Stdout "Cleaning up temp file: %s" []])
    ++ [Unlink (IoStormTmp (pid w)); Free (buffer_ptr w)].
Proof using Type.
  unfold cleanup_phase, emit; cbn [total_written trace].
  split; [reflexivity|]. rewrite <- app_assoc. reflexivity.
Qed.

End IoStormFacts.

(** C4, as the code has it.  When the buffer and the temp file are
    obtained, the running total after the 150 turns of the storm phase
    (it is not touched afterwards) is the sum of the byte counts the 150
    calls of [fwrite] returned; it is 150 times the chunk size when each
    of these writes was complete.  The run then ends with code 0, and
    the last two things it does are to unlink the temp file named after
    its PID and to free the buffer. *)
Theorem C4_io_storm_total_and_cleanup (w : IoStormWriter.world)
    (buffer_ok : IoStormWriter.buffer_ptr w <> 0)
    (file_ok : IoStormWriter.fopen_ok w = true)
    (fwrite_range : forall k, 0 <= IoStormWriter.fwrite_ret w k <= IoStormWriter.CHUNK_SIZE) :
  fst (IoStormWriter.main w) = 0 /\
  IoStormWriter.total_written
    (IoStormWriter.storm_phase w (IoStormWriter.normal_phase w (IoStormWriter.opened w)))
    = IoStormWriter.returned w 3 150 /\
  IoStormWriter.total_written (snd (IoStormWriter.main w)) = IoStormWriter.returned w 3 150 /\
  ((forall k, (3 <= k < 153)%nat -> IoStormWriter.fwrite_ret w k = IoStormWriter.CHUNK_SIZE) ->
   IoStormWriter.total_written (snd (IoStormWriter.main w)) = IoStormWriter.CHUNK_SIZE * 150) /\
  exists pre,
    IoStormWriter.trace (snd (IoStormWriter.main w))
      = pre ++ [Unlink (IoStormTmp (IoStormWriter.pid w)); Free (IoStormWriter.buffer_ptr w)] /\
    In (Fopen (IoStormTmp (IoStormWriter.pid w)) true) pre.
Proof.
  rewrite (io_main_eq w buffer_ok file_ok). cbn [fst snd].
  pose proof (io_opened_total w) as H0.
  pose proof (extends_In _ _ _ _ _ (io_phases_extend w (IoStormWriter.opened w))
                (io_opened_fopen w file_ok)) as Hin.
  pose proof (storm_phase_total w fwrite_range
                (IoStormWriter.normal_phase w (IoStormWriter.opened w))) as Hstorm.
  rewrite normal_phase_total in Hstorm. specialize (Hstorm H0).
  split; [reflexivity | split; [exact Hstorm |]].
  pose proof (cooldown_phase_total w
                (IoStormWriter.storm_phase w
                   (IoStormWriter.normal_phase w (IoStormWriter.opened w)))) as Hcool.
  rewrite Hstorm in Hcool.
  generalize dependent (IoStormWriter.cooldown_phase w
                          (IoStormWriter.storm_phase w
                             (IoStormWriter.normal_phase w (IoStormWriter.opened w)))).
  intros s3 Hin Hcool. clear Hstorm H0.
  destruct (io_cleanup_spec w s3) as [Htot Htr]. rewrite Htot, Htr, Hcool.
  split; [reflexivity | split].
  - intros Hall.
    rewrite (returned_all_complete w 150 3) by (intros j Hj; apply Hall; lia). reflexivity.
  - eexists. split; [reflexivity|]. apply in_or_app. left. exact Hin.
Qed.

(** C4 on a run in which every write is complete. *)
Lemma C4_io_storm_total_and_cleanup_witness :
  fst (IoStormWriter.main IoStormWriter.all_complete) = 0 /\
  IoStormWriter.total_written
    (IoStormWriter.storm_phase IoStormWriter.all_complete
       (IoStormWriter.normal_phase IoStormWriter.all_complete
          (IoStormWriter.opened IoStormWriter.all_complete)))
    = IoStormWriter.returned IoStormWriter.all_complete 3 150 /\
  IoStormWriter.total_written (snd (IoStormWriter.main IoStormWriter.all_complete))
    = IoStormWriter.returned IoStormWriter.all_complete 3 150 /\
  ((forall k, (3 <= k < 153)%nat ->
              IoStormWriter.fwrite_ret IoStormWriter.all_complete k = IoStormWriter.CHUNK_SIZE) ->
   IoStormWriter.total_written (snd (IoStormWriter.main IoStormWriter.all_complete))
     = IoStormWriter.CHUNK_SIZE * 150) /\
  exists pre,
    IoStormWriter.trace (snd (IoStormWriter.main IoStormWriter.all_complete))
      = pre ++ [Unlink (IoStormTmp (IoStormWriter.pid IoStormWriter.all_complete));
                Free (IoStormWriter.buffer_ptr IoStormWriter.all_complete)] /\
    In (Fopen (IoStormTmp (IoStormWriter.pid IoStormWriter.all_complete)) true) pre.
Proof.
  apply (C4_io_storm_total_and_cleanup IoStormWriter.all_complete).
  - discriminate.
  - reflexivity.
  - intros k. vm_compute. split; discriminate.
Defined.

(** The total of that run: 150 MB. *)
Example C4_all_complete_total :
  IoStormWriter.total_written (snd (IoStormWriter.main IoStormWriter.all_complete))
    = 157286400.
Proof. vm_compute. reflexivity. Qed.

(** C4 fails as stated: on a disk that fills up, the first write of the
    storm phase stores 4096 bytes of its chunk.  All 150 turns are made
    (156 writes in the whole run), and the total is 149 chunks and 4096
    bytes: not 150 chunks, and no whole number of chunks at all. *)
Lemma C4_short_write_total :
  fst (IoStormWriter.main IoStormWriter.short_write) = 0 /\
  count IoStormWriter.is_fwrite
    (IoStormWriter.trace (snd (IoStormWriter.main IoStormWriter.short_write))) = 156%nat /\
  IoStormWriter.total_written (snd (IoStormWriter.main IoStormWriter.short_write))
    = 149 * IoStormWriter.CHUNK_SIZE + 4096 /\
  IoStormWriter.total_written (snd (IoStormWriter.main IoStormWriter.short_write))
    mod IoStormWriter.CHUNK_SIZE = 4096 /\
  (IoStormWriter.total_written (snd (IoStormWriter.main IoStormWriter.short_write))
   =? IoStormWriter.CHUNK_SIZE * 150) = false.
Proof.
  refine (conj _ (conj _ (conj _ (conj _ _)))); vm_compute; reflexivity.
Qed.

(** ** File writer *)

Lemma to_size_t_add (x y : Z) : to_size_t (to_size_t x + y) = to_size_t (x + y).
Proof. unfold to_size_t. now rewrite Z.add_mod_idemp_l. Qed.

Section FileWriterFacts.
Import FileWriter.
Variable w : world.

(** A turn whose write is complete goes on; its events remove no file. *)
Lemma write_body_full (s : state) :
  fwrite_ret w (writes s) = CHUNK_SIZE ->
  exists rest,
    write_body w s =
      (Next,
       {| total := to_size_t (total s + CHUNK_SIZE);
          count_ := to_uint (count_ s + 1);
          writes := S (writes s);
          trace := trace s ++ Fwrite CHUNK_SIZE CHUNK_SIZE :: rest |}) /\
    count is_full_write rest = 0%nat /\
    count is_unlink rest = 0%nat.
Proof.
  intros H. unfold write_body. cbv zeta. rewrite H, Z.eqb_refl.
  unfold emit; cbn [total count_ writes trace].
  destruct (to_uint (count_ s + 1) mod 100 =? 0);
    cbn [total count_ writes trace]; rewrite <- ?app_assoc; cbn [app];
    eexists; (split; [reflexivity | split; reflexivity]).
Qed.

(** A turn whose write is short reports on standard error and leaves
    the loop. *)
Lemma write_body_short (s : state) :
  fwrite_ret w (writes s) <> CHUNK_SIZE ->
  write_body w s =
    (Break,
     {| total := total s; count_ := count_ s; writes := S (writes s);
        trace := trace s ++ [Fwrite CHUNK_SIZE (fwrite_ret w (writes s));
                             Print Stderr "Write failed after %lu MB"
                               [total s / (1024 * 1024)]] |}).
Proof.
  intros H. unfold write_body. cbv zeta.
  destruct (Z.eqb_spec (fwrite_ret w (writes s)) CHUNK_SIZE) as [E | _]; [contradiction|].
  unfold emit; cbn [total count_ writes trace]. now rewrite <- app_assoc.
Qed.

(** The loop is left at the first short write, after [n] complete
    ones. *)
Lemma write_loop_spec (n : nat) :
  forall (fuel : nat) (s : state),
    (n < fuel)%nat ->
    to_size_t (total s) = total s ->
    (forall k, (k < n)%nat -> fwrite_ret w (writes s + k) = CHUNK_SIZE) ->
    fwrite_ret w (writes s + n) <> CHUNK_SIZE ->
    exists s' mid,
      while_loop (write_body w) fuel s = Some s' /\
      trace s' =
        trace s ++ mid ++
        [Fwrite CHUNK_SIZE (fwrite_ret w (writes s + n));
         Print Stderr "Write failed after %lu MB"
           [to_size_t (total s + Z.of_nat n * CHUNK_SIZE) / (1024 * 1024)]] /\
      count is_full_write mid = n /\
      count is_unlink mid = 0%nat.
Proof.
  induction n as [|n IH]; intros fuel s Hfuel Htot Hfull Hshort.
  - destruct fuel as [|fuel]; [lia|]. cbn [while_loop].
    rewrite Nat.add_0_r in *. rewrite (write_body_short s Hshort).
    eexists. exists []. split; [reflexivity|]. cbn [trace app].
    replace (total s + Z.of_nat 0 * CHUNK_SIZE) with (total s) by lia.
    rewrite Htot. split; [reflexivity | split; reflexivity].
  - destruct fuel as [|fuel]; [lia|]. cbn [while_loop].
    assert (H0 : fwrite_ret w (writes s) = CHUNK_SIZE)
      by (rewrite <- (Nat.add_0_r (writes s)); apply Hfull; lia).
    destruct (write_body_full s H0) as (rest & -> & Hr1 & Hr2).
    match goal with |- context [while_loop _ _ ?t] => set (s1 := t) end.
    destruct (IH fuel s1) as (s' & mid & E & Ht & Hm1 & Hm2).
    + lia.
    + subst s1; cbn [total]. unfold to_size_t. apply Z.mod_mod. lia.
    + intros k Hk. subst s1; cbn [writes].
      replace (S (writes s) + k)%nat with (writes s + S k)%nat by lia. apply Hfull. lia.
    + subst s1; cbn [writes].
      replace (S (writes s) + n)%nat with (writes s + S n)%nat by lia. exact Hshort.
    + exists s', (Fwrite CHUNK_SIZE CHUNK_SIZE :: rest ++ mid).
      split; [exact E|]. rewrite Ht. subst s1; cbn [trace total writes].
      split; [| split].
      * rewrite to_size_t_add.
        replace (S (writes s) + n)%nat with (writes s + S n)%nat by lia.
        replace (total s + CHUNK_SIZE + Z.of_nat n * CHUNK_SIZE)
          with (total s + Z.of_nat (S n) * CHUNK_SIZE) by lia.
        cbn [app]. rewrite <- ?app_assoc. cbn [app]. rewrite <- ?app_assoc. reflexivity.
      * rewrite count_cons, count_app, Hr1, Hm1. reflexivity.
      * rewrite count_cons, count_app, Hr2, Hm2. reflexivity.
Qed.

End FileWriterFacts.

(** When the output file and the buffer are obtained and the write
    number [n] (counting from 0) is the first that returns fewer bytes
    than asked, the file writer stops writing there, reports on standard
    error with the megabytes written so far, frees the buffer, closes
    the file and returns 0.  It never removes the output file. *)
Lemma file_writer_short_write (w : FileWriter.world) (n fuel : nat)
    (file_ok : FileWriter.fopen_ok w = true)
    (buffer_ok : FileWriter.buffer_ptr w <> 0)
    (full : forall k, (k < n)%nat -> FileWriter.fwrite_ret w k = FileWriter.CHUNK_SIZE)
    (short : FileWriter.fwrite_ret w n <> FileWriter.CHUNK_SIZE)
    (enough_fuel : (n < fuel)%nat) :
  exists s,
    FileWriter.main w fuel = Some (0, s) /\
    In (Fopen TestOutputDat true) (FileWriter.trace s) /\
    In (Print Stderr "Write failed after %lu MB"
          [to_size_t (Z.of_nat n * FileWriter.CHUNK_SIZE) / (1024 * 1024)])
       (FileWriter.trace s) /\
    count FileWriter.is_full_write (FileWriter.trace s) = n /\
    count FileWriter.is_unlink (FileWriter.trace s) = 0%nat /\
    exists pre, FileWriter.trace s = pre ++ [Free (FileWriter.buffer_ptr w); Fclose].
Proof.
  unfold FileWriter.main. rewrite file_ok.
  destruct (Z.eqb_spec (FileWriter.buffer_ptr w) 0) as [E | _]; [contradiction|].
  destruct (write_loop_spec w n fuel (FileWriter.ready w)) as (s' & mid & -> & Ht & Hm1 & Hm2).
  - exact enough_fuel.
  - reflexivity.
  - intros k Hk. apply full. exact Hk.
  - exact short.
  - eexists. split; [reflexivity|].
    unfold FileWriter.emit at 1 2 3 4; cbn [FileWriter.trace]. rewrite Ht.
    change (FileWriter.total (FileWriter.ready w)) with 0.
    change (FileWriter.writes (FileWriter.ready w)) with 0%nat.
    change (FileWriter.trace (FileWriter.ready w))
      with ([Print Stdout "Starting file write test..." [];
             Print Stdout "Output file: %s" [];
             FflushStdout;
             Fopen TestOutputDat (FileWriter.fopen_ok w);
             Malloc FileWriter.CHUNK_SIZE (FileWriter.buffer_ptr w);
             Memset (FileWriter.buffer_ptr w) 205 FileWriter.CHUNK_SIZE]).
    rewrite file_ok. cbn [Nat.add Z.add].
    split; [| split; [| split; [| split; [| eexists; reflexivity]]]].
    + apply in_or_app. left. apply in_or_app. left. right. right. right. left. reflexivity.
    + apply in_or_app. left. apply in_or_app. right. apply in_or_app. right.
      right. left. reflexivity.
    + rewrite !count_app, Hm1. cbn [Nat.add].
      destruct (Z.eqb_spec (FileWriter.fwrite_ret w n) FileWriter.CHUNK_SIZE) as [E | _];
        [contradiction|].
      unfold count; cbn [List.filter FileWriter.is_full_write].
      destruct (FileWriter.fwrite_ret w n =? FileWriter.CHUNK_SIZE) eqn:E';
        [apply Z.eqb_eq in E'; contradiction|].
      cbn. lia.
    + rewrite !count_app, Hm2. reflexivity.
Qed.

(** ** Fork bomb and network test *)

Section ForkBombFacts.
Import ForkBomb.
Variable w : world.

(** A failed [fork] is reported, followed by a sleep of one second,
    and the loop goes on. *)
Lemma fork_step_failed (s : state) :
  fork_ret w (forks s) < 0 ->
  fst (step w s) = None /\
  trace (snd (step w s)) = trace s ++ retry_events (fork_ret w (forks s)) (count_ s) /\
  forks (snd (step w s)) = S (forks s) /\
  count_ (snd (step w s)) = count_ s.
Proof.
  intros H. unfold step. cbv zeta.
  destruct (Z.ltb_spec (fork_ret w (forks s)) 0) as [_ | Hge]; [| lia].
  unfold emit, retry_events; cbn [fst snd trace forks count_].
  rewrite <- app_assoc. repeat split.
Qed.

(** Where [fork] does not return 0, the turn ends in the next turn. *)
Lemma fork_step_parent (s : state) :
  fork_ret w (forks s) <> 0 ->
  fst (step w s) = None /\
  forks (snd (step w s)) = S (forks s) /\
  count is_fork (trace (snd (step w s))) = S (count is_fork (trace s)).
Proof.
  intros H. unfold step. cbv zeta.
  destruct (Z.ltb_spec (fork_ret w (forks s)) 0) as [Hlt | Hge].
  - unfold emit; cbn [fst snd trace forks count_].
    split; [reflexivity | split; [reflexivity|]].
    rewrite !count_app. unfold count. cbn [List.filter is_fork length]. lia.
  - destruct (Z.eqb_spec (fork_ret w (forks s)) 0) as [E | _]; [contradiction|].
    cbn [count_ forks trace].
    destruct (to_uint (count_ s + 1) mod 10 =? 0);
      unfold emit; cbn [fst snd trace forks count_];
      (split; [reflexivity | split; [reflexivity|]]);
      rewrite !count_app; unfold count; cbn [List.filter is_fork length]; lia.
Qed.

(** In the parent the loop runs for as many turns as one cares to
    watch, whatever fails. *)
Lemma fork_forever (fuel : nat) :
  forall s,
    (forall k, fork_ret w k <> 0) ->
    exists s',
      forever (step w) fuel s = Running s' /\
      forks s' = (forks s + fuel)%nat /\
      count is_fork (trace s') = (count is_fork (trace s) + fuel)%nat.
Proof.
  induction fuel as [|fuel IH]; intros s Hw; cbn [forever].
  - exists s. split; [reflexivity | split; lia].
  - destruct (fork_step_parent s (Hw (forks s))) as (Hc & Hf & Hn).
    destruct (step w s) as [c s1]. cbn [fst snd] in *. subst c.
    destruct (IH s1 Hw) as (s' & E & Hf' & Hn').
    exists s'. split; [exact E | split; lia].
Qed.

End ForkBombFacts.

Section NetworkTestFacts.
Import NetworkTest.
Variable w : world.

Lemma network_step_goes_on (s : state) :
  fst (step w s) = None /\ turns (snd (step w s)) = S (turns s).
Proof.
  unfold step. cbv zeta.
  destruct (socket_ret w (turns s) <? 0); [split; reflexivity|].
  destruct (inet_pton_ret w (turns s) <=? 0); [split; reflexivity|].
  destruct (connect_ret w (turns s) <? 0); split; reflexivity.
Qed.

Lemma network_socket_failed (s : state) :
  socket_ret w (turns s) < 0 ->
  trace (snd (step w s)) =
    trace s ++ socket_retry_events (socket_ret w (turns s)) (int_add (attempt s) 1).
Proof.
  intros H. unfold step. cbv zeta.
  destruct (Z.ltb_spec (socket_ret w (turns s)) 0) as [_ | Hge]; [| lia].
  unfold emit, socket_retry_events; cbn [snd trace attempt].
  rewrite <- app_assoc. reflexivity.
Qed.

Lemma network_connect_failed (s : state) :
  0 <= socket_ret w (turns s) ->
  0 < inet_pton_ret w (turns s) ->
  connect_ret w (turns s) < 0 ->
  trace (snd (step w s)) =
    trace s ++ connect_retry_events (socket_ret w (turns s)) (inet_pton_ret w (turns s))
                 (connect_ret w (turns s)) (int_add (attempt s) 1).
Proof.
  intros Hs Hp Hc. unfold step. cbv zeta.
  destruct (Z.ltb_spec (socket_ret w (turns s)) 0) as [Hlt | _]; [lia|].
  destruct (Z.leb_spec (inet_pton_ret w (turns s)) 0) as [Hle | _]; [lia|].
  destruct (Z.ltb_spec (connect_ret w (turns s)) 0) as [_ | Hge]; [| lia].
  unfold emit, connect_retry_events; cbn [snd trace attempt].
  rewrite <- !app_assoc. reflexivity.
Qed.

Lemma network_forever (fuel : nat) :
  forall s, exists s',
    forever (step w) fuel s = Running s' /\ turns s' = (turns s + fuel)%nat.
Proof.
  induction fuel as [|fuel IH]; intros s; cbn [forever].
  - exists s. split; [reflexivity | lia].
  - destruct (network_step_goes_on s) as (Hc & Ht).
    destruct (step w s) as [c s1]. cbn [fst snd] in *. subst c.
    destruct (IH s1) as (s' & E & Ht').
    exists s'. split; [exact E | lia].
Qed.

End NetworkTestFacts.

(** C8, as the code has it.  The fork bomb and the network test retry
    without end: a failed [fork] is reported and tried again after a
    sleep of one second, a failed [socket] after two seconds, a failed
    [connect] after three; the loop of the fork bomb is never left in the
    parent and the loop of the network test is never left at all,
    whatever fails.  They are not the only generators that try a failed
    operation again: within its 20 attack iterations the combo asks
    again for the same size whenever its last [malloc] failed. *)
Theorem C8_retry_on_failure :
  (forall (w : ForkBomb.world) (s : ForkBomb.state),
      ForkBomb.fork_ret w (ForkBomb.forks s) < 0 ->
      fst (ForkBomb.step w s) = None /\
      ForkBomb.trace (snd (ForkBomb.step w s))
        = ForkBomb.trace s
            ++ ForkBomb.retry_events (ForkBomb.fork_ret w (ForkBomb.forks s)) (ForkBomb.count_ s) /\
      ForkBomb.forks (snd (ForkBomb.step w s)) = S (ForkBomb.forks s)) /\
  (forall (w : ForkBomb.world) (fuel : nat),
      (forall k, ForkBomb.fork_ret w k <> 0) ->
      exists s,
        ForkBomb.main w fuel = Running s /\
        ForkBomb.forks s = fuel /\
        count ForkBomb.is_fork (ForkBomb.trace s) = fuel) /\
  (forall (w : NetworkTest.world) (s : NetworkTest.state),
      NetworkTest.socket_ret w (NetworkTest.turns s) < 0 ->
      fst (NetworkTest.step w s) = None /\
      NetworkTest.trace (snd (NetworkTest.step w s))
        = NetworkTest.trace s
            ++ NetworkTest.socket_retry_events
                 (NetworkTest.socket_ret w (NetworkTest.turns s))
                 (int_add (NetworkTest.attempt s) 1)) /\
  (forall (w : NetworkTest.world) (s : NetworkTest.state),
      0 <= NetworkTest.socket_ret w (NetworkTest.turns s) ->
      0 < NetworkTest.inet_pton_ret w (NetworkTest.turns s) ->
      NetworkTest.connect_ret w (NetworkTest.turns s) < 0 ->
      fst (NetworkTest.step w s) = None /\
      NetworkTest.trace (snd (NetworkTest.step w s))
        = NetworkTest.trace s
            ++ NetworkTest.connect_retry_events
                 (NetworkTest.socket_ret w (NetworkTest.turns s))
                 (NetworkTest.inet_pton_ret w (NetworkTest.turns s))
                 (NetworkTest.connect_ret w (NetworkTest.turns s))
                 (int_add (NetworkTest.attempt s) 1)) /\
  (forall (w : NetworkTest.world) (fuel : nat),
      exists s, NetworkTest.main w fuel = Running s /\ NetworkTest.turns s = fuel) /\
  (forall w : ResourceExhaustionCombo.world,
      chain ResourceExhaustionCombo.retry_same
        (malloc_calls (ResourceExhaustionCombo.trace (snd (ResourceExhaustionCombo.main w))))).
Proof.
  refine (conj _ (conj _ (conj _ (conj _ (conj _ _))))).
  - intros w s H. destruct (fork_step_failed w s H) as (H1 & H2 & H3 & _).
    split; [exact H1 | split; [exact H2 | exact H3]].
  - intros w fuel Hw. unfold ForkBomb.main.
    destruct (fork_forever w fuel ForkBomb.init Hw) as (s & E & Hf & Hn).
    exists s. split; [exact E | split; [exact Hf | exact Hn]].
  - intros w s H. split; [apply network_step_goes_on | now apply network_socket_failed].
  - intros w s H1 H2 H3.
    split; [apply network_step_goes_on | now apply network_connect_failed].
  - intros w fuel. unfold NetworkTest.main.
    destruct (network_forever w fuel NetworkTest.init) as (s & E & Ht).
    exists s. split; [exact E | exact Ht].
  - intros w. apply combo_main_summary.
Qed.

(** C8 for the fork bomb in a process table that is full from the third
    call on, and for the network test behind a closed network. *)
Lemma C8_retry_on_failure_witness :
  (fst (ForkBomb.step ForkBomb.table_full_after_2 ForkBomb.two_children) = None /\
   ForkBomb.trace (snd (ForkBomb.step ForkBomb.table_full_after_2 ForkBomb.two_children))
     = ForkBomb.trace ForkBomb.two_children ++ ForkBomb.retry_events (-1) 2 /\
   ForkBomb.forks (snd (ForkBomb.step ForkBomb.table_full_after_2 ForkBomb.two_children))
     = 3%nat) /\
  (exists s,
      ForkBomb.main ForkBomb.table_full_after_2 10 = Running s /\
      ForkBomb.forks s = 10%nat /\
      count ForkBomb.is_fork (ForkBomb.trace s) = 10%nat) /\
  (fst (NetworkTest.step NetworkTest.blocked NetworkTest.init) = None /\
   NetworkTest.trace (snd (NetworkTest.step NetworkTest.blocked NetworkTest.init))
     = NetworkTest.trace NetworkTest.init ++ NetworkTest.connect_retry_events 3 1 (-1) 1).
Proof.
  split; [| split].
  - apply (proj1 C8_retry_on_failure ForkBomb.table_full_after_2 ForkBomb.two_children).
    reflexivity.
  - apply (proj1 (proj2 C8_retry_on_failure) ForkBomb.table_full_after_2 10%nat).
    intros k. unfold ForkBomb.table_full_after_2, ForkBomb.fork_ret.
    destruct (k <? 2)%nat; lia.
  - apply (proj1 (proj2 (proj2 (proj2 C8_retry_on_failure)))
             NetworkTest.blocked NetworkTest.init).
    + discriminate.
    + reflexivity.
    + reflexivity.
Defined.

(** C8 fails as stated: the combo, too, tries a failed operation again.
    On the run where its first allocation fails, the program asks for 8
    MB (event 9, answered NULL), sleeps twice for a second (events 15 and
    20), and asks for the same 8 MB again (event 22). *)
Lemma C8_combo_retries_failed_malloc :
  take 2 (malloc_calls
            (ResourceExhaustionCombo.trace
               (snd (ResourceExhaustionCombo.main ResourceExhaustionCombo.first_malloc_fails))))
    = [(8388608, 0); (8388608, 196608)] /\
  ResourceExhaustionCombo.trace
    (snd (ResourceExhaustionCombo.main ResourceExhaustionCombo.first_malloc_fails)) !! 9%nat
    = Some (Malloc 8388608 0) /\
  ResourceExhaustionCombo.trace
    (snd (ResourceExhaustionCombo.main ResourceExhaustionCombo.first_malloc_fails)) !! 15%nat
    = Some (Sleep 1000000) /\
  ResourceExhaustionCombo.trace
    (snd (ResourceExhaustionCombo.main ResourceExhaustionCombo.first_malloc_fails)) !! 20%nat
    = Some (Sleep 1000000) /\
  ResourceExhaustionCombo.trace
    (snd (ResourceExhaustionCombo.main ResourceExhaustionCombo.first_malloc_fails)) !! 22%nat
    = Some (Malloc 8388608 196608).
Proof.
  refine (conj _ (conj _ (conj _ (conj _ _)))); vm_compute; reflexivity.
Qed.

(** * Further properties of the programs *)

(** ** Loops without end, and what a trace holds *)

Lemma forever_add {St : Type} (step : St -> option Z * St) (a b : nat) :
  forall s,
    forever step (a + b) s =
      match forever step a s with
      | Running s' => forever step b s'
      | Exited c s' => Exited c s'
      end.
Proof.
  induction a as [|a IH]; intros s; [reflexivity|].
  cbn [Nat.add forever]. destruct (step s) as [[c|] s']; [reflexivity | apply IH].
Qed.

Lemma pick_app {A : Type} (f : event -> option A) (t u : list event) :
  pick f (t ++ u) = pick f t ++ pick f u.
Proof.
  induction t as [|e t IH]; [reflexivity|].
  cbn [app pick]. destruct (f e); cbn [app]; now rewrite IH.
Qed.

Lemma pick_none {A : Type} (f : event -> option A) (ok : event -> bool) (t : list event) :
  (forall e, ok e = true -> f e = None) ->
  forallb ok t = true -> pick f t = [].
Proof.
  intros Hf. induction t as [|e t IH]; [reflexivity|]. cbn [forallb pick].
  intros H. apply andb_prop in H as [He Ht]. rewrite (Hf e He). auto.
Qed.

Lemma seq_snoc (i n : nat) : seq i (S n) = seq i n ++ [(i + n)%nat].
Proof. apply seq_S. Qed.

(** ** Memory hog *)

Section MemoryHogFacts.
Import MemoryHog.
Variable w : world.

(** A turn whose [malloc] succeeds. *)
Lemma hog_step_ok (k : nat) (s : state) :
  holds w k s ->
  malloc_ret w k <> 0 ->
  Z.of_nat k + 1 < 2 ^ 31 ->
  fst (step w s) = None /\ holds w (S k) (snd (step w s)).
Proof.
  intros (Hc & Ht & Hn & Ho & Hf & Hp) Hok Hk.
  unfold step. rewrite Hc. apply Z.eqb_neq in Hok. rewrite Hok.
  cbn [total count_ calls trace emit].
  rewrite Hn.
  assert (Ei : int_add (Z.of_nat k) 1 = Z.of_nat k + 1)
    by (unfold int_add; apply to_int_small; lia).
  rewrite Ei.
  assert (Er : Z.rem (Z.of_nat k + 1) 10 = (Z.of_nat k + 1) mod 10)
    by (apply Z.rem_mod_nonneg; lia).
  rewrite Er.
  assert (Et : to_size_t (total s + CHUNK_SIZE) = CHUNK_SIZE * Z.of_nat (S k)).
  { rewrite Ht. unfold CHUNK_SIZE. rewrite to_size_t_small; lia. }
  apply Z.eqb_neq in Hok.
  destruct ((Z.of_nat k + 1) mod 10 =? 0) eqn:Em;
    cbn [fst snd total count_ calls trace emit]; (split; [reflexivity|]);
    unfold holds; cbn [total count_ calls trace emit];
    rewrite <- ?app_assoc, !pick_app, !count_app, Ho, Hf, seq_snoc, map_app;
    cbn [pick block_obtained block_freed app map Nat.add];
    (destruct (malloc_ret w k =? 0) eqn:E0; [apply Z.eqb_eq in E0; contradiction|]);
    rewrite ?count_cons, ?count_nil; cbn [is_progress String.eqb Ascii.eqb Bool.eqb];
    refine (conj eq_refl (conj Et (conj _ (conj eq_refl (conj eq_refl _))))); try lia.
  - apply Z.eqb_eq in Em. rewrite !Nat2Z.inj_add, Hp.
    change (Z.of_nat (1 + 0)) with 1. change (Z.of_nat 0) with 0.
    rewrite Nat2Z.inj_succ. Z.to_euclidean_division_equations. lia.
  - apply Z.eqb_neq in Em. rewrite !Nat2Z.inj_add, Hp.
    change (Z.of_nat 0) with 0.
    rewrite Nat2Z.inj_succ. Z.to_euclidean_division_equations. lia.
Qed.

(** The turn whose [malloc] fails ends the program. *)
Lemma hog_step_fail (k : nat) (s : state) :
  holds w k s ->
  malloc_ret w k = 0 ->
  fst (step w s) = Some 1 /\
  calls (snd (step w s)) = S k /\
  total (snd (step w s)) = total s /\
  trace (snd (step w s)) =
    trace s ++ [Malloc CHUNK_SIZE 0;
                Print Stderr "malloc failed after %lu MB" [total s / (1024 * 1024)]].
Proof.
  intros (Hc & _) Hf. unfold step. rewrite Hc, Hf. cbn [Z.eqb fst snd].
  cbn [total count_ calls trace emit]. rewrite <- app_assoc. repeat split.
Qed.

Lemma hog_init : holds w 0 init.
Proof. repeat split. Qed.

Lemma hog_forever (n : nat) :
  forall (k : nat) (s : state),
    holds w k s ->
    (forall j, (k <= j < k + n)%nat -> malloc_ret w j <> 0) ->
    Z.of_nat (k + n) < 2 ^ 31 ->
    exists s', forever (step w) n s = Running s' /\ holds w (k + n) s'.
Proof.
  induction n as [|n IH]; intros k s Hs Hok Hk.
  - exists s. rewrite Nat.add_0_r. now split.
  - cbn [forever].
    destruct (hog_step_ok k s Hs) as [E H1]; [apply Hok; lia | lia |].
    destruct (step w s) as [c s1]. cbn [fst snd] in E, H1. subst c.
    destruct (IH (S k) s1 H1) as (s' & E' & H'); [intros j Hj; apply Hok; lia | lia |].
    exists s'. split; [exact E'|]. now replace (k + S n)%nat with (S k + n)%nat by lia.
Qed.

End MemoryHogFacts.

(** X1 (memory_hog.c).  The program ends at the first [malloc] that
    returns NULL, with exit code 1: when that is call number [n] (counted
    from 0), it has then obtained the [n] blocks of the earlier calls and
    freed none of them, its last action is the message to standard error,
    which reports [10 * n] MB, and it has printed a progress line for
    every tenth chunk. *)
Theorem X1_memory_hog_ends_at_first_failure
    (w : MemoryHog.world) (n fuel : nat)
    (ok : forall k, (k < n)%nat -> MemoryHog.malloc_ret w k <> 0)
    (failed : MemoryHog.malloc_ret w n = 0)
    (in_range : Z.of_nat n < 2 ^ 31)
    (enough_fuel : (n < fuel)%nat) :
  exists s,
    MemoryHog.main w fuel = Exited 1 s /\
    MemoryHog.calls s = S n /\
    pick block_obtained (MemoryHog.trace s) = map (MemoryHog.malloc_ret w) (seq 0 n) /\
    pick block_freed (MemoryHog.trace s) = [] /\
    MemoryHog.total s = MemoryHog.CHUNK_SIZE * Z.of_nat n /\
    last (MemoryHog.trace s)
      = Some (Print Stderr "malloc failed after %lu MB" [10 * Z.of_nat n]) /\
    Z.of_nat (count MemoryHog.is_progress (MemoryHog.trace s)) = Z.of_nat n / 10.
Proof.
  destruct (hog_forever w n 0 MemoryHog.init (hog_init w)) as (s1 & E1 & H1).
  { intros j Hj. apply ok. lia. }
  { cbn [Nat.add]. lia. }
  cbn [Nat.add] in H1.
  destruct (hog_step_fail w n s1 H1 failed) as (Ec & Hcalls & Htot & Htr).
  destruct H1 as (_ & Ht & _ & Ho & Hf & Hp).
  exists (snd (MemoryHog.step w s1)).
  split; [| split; [exact Hcalls | split; [| split; [| split; [| split]]]]].
  - unfold MemoryHog.main.
    replace fuel with (n + S (fuel - S n))%nat by lia.
    rewrite forever_add, E1. cbn [forever].
    destruct (MemoryHog.step w s1) as [c s2]. cbn [fst snd] in *. now subst c.
  - rewrite Htr, pick_app, Ho. cbn. now rewrite app_nil_r.
  - rewrite Htr, pick_app, Hf. reflexivity.
  - now rewrite Htot.
  - rewrite Htr, last_app, Ht. cbn [last]. do 3 f_equal.
    unfold MemoryHog.CHUNK_SIZE. Z.to_euclidean_division_equations. lia.
  - rewrite Htr, count_app, !count_cons, count_nil. cbn. rewrite Nat.add_0_r. exact Hp.
Qed.

Lemma X1_memory_hog_ends_at_first_failure_witness :
  exists s,
    MemoryHog.main MemoryHog.full_after_12 13 = Exited 1 s /\
    MemoryHog.calls s = 13%nat /\
    pick block_obtained (MemoryHog.trace s)
      = map (MemoryHog.malloc_ret MemoryHog.full_after_12) (seq 0 12) /\
    pick block_freed (MemoryHog.trace s) = [] /\
    MemoryHog.total s = MemoryHog.CHUNK_SIZE * Z.of_nat 12 /\
    last (MemoryHog.trace s)
      = Some (Print Stderr "malloc failed after %lu MB" [10 * Z.of_nat 12]) /\
    Z.of_nat (count MemoryHog.is_progress (MemoryHog.trace s)) = Z.of_nat 12 / 10.
Proof.
  apply (X1_memory_hog_ends_at_first_failure MemoryHog.full_after_12 12 13).
  - intros k Hk.
    change (MemoryHog.malloc_ret MemoryHog.full_after_12 k)
      with (if (k <? 12)%nat then 4096 * (1 + Z.of_nat k) else 0).
    destruct (Nat.ltb_spec k 12); lia.
  - reflexivity.
  - reflexivity.
  - lia.
Defined.

(** X2 (memory_hog.c).  There is no other way out: as long as [malloc]
    succeeds the program goes on allocating.  After [fuel] turns without
    a failure it is still running, holds the [fuel] blocks obtained, has
    freed none, and its total stands at [fuel] chunks of 10 MB. *)
Theorem X2_memory_hog_runs_while_malloc_succeeds
    (w : MemoryHog.world) (fuel : nat)
    (ok : forall k, (k < fuel)%nat -> MemoryHog.malloc_ret w k <> 0)
    (in_range : Z.of_nat fuel < 2 ^ 31) :
  exists s,
    MemoryHog.main w fuel = Running s /\
    MemoryHog.calls s = fuel /\
    pick block_obtained (MemoryHog.trace s) = map (MemoryHog.malloc_ret w) (seq 0 fuel) /\
    pick block_freed (MemoryHog.trace s) = [] /\
    MemoryHog.total s = MemoryHog.CHUNK_SIZE * Z.of_nat fuel /\
    Z.of_nat (count MemoryHog.is_progress (MemoryHog.trace s)) = Z.of_nat fuel / 10.
Proof.
  destruct (hog_forever w fuel 0 MemoryHog.init (hog_init w)) as (s & E & H).
  { intros j Hj. apply ok. lia. }
  { cbn [Nat.add]. lia. }
  cbn [Nat.add] in H. destruct H as (Hc & Ht & _ & Ho & Hf & Hp).
  exists s. repeat split; assumption.
Qed.

Lemma X2_memory_hog_runs_while_malloc_succeeds_witness :
  exists s,
    MemoryHog.main MemoryHog.full_after_12 12 = Running s /\
    MemoryHog.calls s = 12%nat /\
    pick block_obtained (MemoryHog.trace s)
      = map (MemoryHog.malloc_ret MemoryHog.full_after_12) (seq 0 12) /\
    pick block_freed (MemoryHog.trace s) = [] /\
    MemoryHog.total s = MemoryHog.CHUNK_SIZE * Z.of_nat 12 /\
    Z.of_nat (count MemoryHog.is_progress (MemoryHog.trace s)) = Z.of_nat 12 / 10.
Proof.
  apply (X2_memory_hog_runs_while_malloc_succeeds MemoryHog.full_after_12 12).
  - intros k Hk.
    change (MemoryHog.malloc_ret MemoryHog.full_after_12 k)
      with (if (k <? 12)%nat then 4096 * (1 + Z.of_nat k) else 0).
    destruct (Nat.ltb_spec k 12); lia.
  - reflexivity.
Defined.

(** ** Infinite loop *)

Section InfiniteLoopFacts.
Import InfiniteLoop.

Lemma loop_step (s : state) :
  forallb round_report (trace s) = true ->
  fst (step s) = None /\
  counter (snd (step s)) = (counter s + 1) mod 2 ^ 64 /\
  forallb round_report (trace (snd (step s))) = true /\
  count is_report (trace (snd (step s))) =
    (count is_report (trace s)
     + if ((counter s + 1) mod 2 ^ 64 mod 100000000 =? 0)%Z then 1 else 0)%nat.
Proof.
  intros Hr. unfold step. cbn [counter trace].
  destruct ((counter s + 1) mod 2 ^ 64 mod 100000000 =? 0) eqn:E;
    cbn [fst snd emit counter trace].
  - rewrite forallb_app, Hr, count_app, !count_cons, count_nil.
    cbn [forallb round_report is_report]. rewrite String.eqb_refl, E.
    repeat split.
  - rewrite Hr. repeat split. lia.
Qed.

Lemma loop_forever (fuel : nat) :
  forall s,
    forallb round_report (trace s) = true ->
    0 <= counter s < 2 ^ 64 ->
    exists s',
      forever step fuel s = Running s' /\
      counter s' = (counter s + Z.of_nat fuel) mod 2 ^ 64 /\
      forallb round_report (trace s') = true /\
      (counter s + Z.of_nat fuel < 2 ^ 64 ->
       Z.of_nat (count is_report (trace s'))
         = Z.of_nat (count is_report (trace s))
           + (counter s + Z.of_nat fuel) / 100000000 - counter s / 100000000).
Proof.
  induction fuel as [|fuel IH]; intros s Hr Hc.
  - exists s. split; [reflexivity|]. split; [| split; [exact Hr|]].
    + cbn [Z.of_nat]. rewrite Z.add_0_r. now rewrite Z.mod_small by lia.
    + intros _. cbn [Z.of_nat]. rewrite Z.add_0_r. lia.
  - cbn [forever].
    destruct (loop_step s Hr) as (E & Hc1 & Hr1 & Hn1).
    destruct (step s) as [c s1]. cbn [fst snd] in E, Hc1, Hr1, Hn1. subst c.
    destruct (IH s1 Hr1) as (s' & E' & Hc' & Hr' & Hn').
    { rewrite Hc1. apply Z.mod_pos_bound. lia. }
    exists s'. split; [exact E' | split; [| split; [exact Hr'|]]].
    + rewrite Hc', Hc1, Z.add_mod_idemp_l by lia. f_equal. lia.
    + intros Hlt.
      assert (E1 : counter s1 = counter s + 1) by (rewrite Hc1; apply Z.mod_small; lia).
      rewrite Hn' by lia. rewrite Hn1, Hc1, (Z.mod_small (counter s + 1)) by lia.
      replace (counter s + 1 + Z.of_nat fuel) with (counter s + Z.of_nat (S fuel)) by lia.
      rewrite Nat2Z.inj_add.
      destruct ((counter s + 1) mod 100000000 =? 0) eqn:Em;
        [apply Z.eqb_eq in Em | apply Z.eqb_neq in Em];
        Z.to_euclidean_division_equations; lia.
Qed.

End InfiniteLoopFacts.

(** X3 (infinite_loop.c).  The loop never ends: after any number of
    turns the program is still running and its counter holds the number
    of turns made (modulo 2^64).  Every report it prints carries a
    multiple of one hundred million, and until the counter wraps it has
    printed exactly one report per hundred million turns. *)
Theorem X3_infinite_loop_reports (fuel : nat) :
  exists s,
    InfiniteLoop.main fuel = Running s /\
    InfiniteLoop.counter s = Z.of_nat fuel mod 2 ^ 64 /\
    forallb InfiniteLoop.round_report (InfiniteLoop.trace s) = true /\
    (Z.of_nat fuel < 2 ^ 64 ->
     Z.of_nat (count InfiniteLoop.is_report (InfiniteLoop.trace s))
       = Z.of_nat fuel / 100000000).
Proof.
  destruct (loop_forever fuel InfiniteLoop.init) as (s & E & Hc & Hr & Hn).
  { reflexivity. }
  { cbn. lia. }
  exists s. split; [exact E | split; [exact Hc | split; [exact Hr|]]].
  intros Hlt. rewrite (Hn Hlt).
  change (InfiniteLoop.counter InfiniteLoop.init) with 0.
  change (count InfiniteLoop.is_report (InfiniteLoop.trace InfiniteLoop.init)) with 0%nat.
  change (0 / 100000000) with 0. change (Z.of_nat 0) with 0.
  rewrite !Z.add_0_l, Z.sub_0_r. reflexivity.
Qed.

(** ** File writer: how a run can end *)

Section FileWriterEnds.
Import FileWriter.
Variable w : world.

(** The loop is left only by a short write. *)
Lemma write_loop_ends (fuel : nat) :
  forall (s s' : state),
    while_loop (write_body w) fuel s = Some s' ->
    exists n,
      (n < fuel)%nat /\
      (forall k, (k < n)%nat -> fwrite_ret w (writes s + k) = CHUNK_SIZE) /\
      fwrite_ret w (writes s + n) <> CHUNK_SIZE.
Proof.
  induction fuel as [|fuel IH]; intros s s' E; [discriminate|].
  cbn [while_loop] in E.
  destruct (Z.eq_dec (fwrite_ret w (writes s)) CHUNK_SIZE) as [H|H].
  - destruct (write_body_full w s H) as (rest & Eb & _). rewrite Eb in E.
    apply IH in E as (n & Hn & Hfull & Hshort). cbn [writes] in Hfull, Hshort.
    exists (S n). split; [lia|]. split.
    + intros [|k] Hk; [now rewrite Nat.add_0_r|].
      replace (writes s + S k)%nat with (S (writes s) + k)%nat by lia. apply Hfull. lia.
    + now replace (writes s + S n)%nat with (S (writes s) + n)%nat by lia.
  - exists 0%nat. split; [lia|]. split; [intros k Hk; lia|]. now rewrite Nat.add_0_r.
Qed.

(** While the writes are complete the loop goes on. *)
Lemma write_loop_goes_on (fuel : nat) :
  forall s,
    (forall k, (k < fuel)%nat -> fwrite_ret w (writes s + k) = CHUNK_SIZE) ->
    while_loop (write_body w) fuel s = None.
Proof.
  induction fuel as [|fuel IH]; intros s Hfull; [reflexivity|].
  cbn [while_loop].
  assert (H0 : fwrite_ret w (writes s) = CHUNK_SIZE)
    by (rewrite <- (Nat.add_0_r (writes s)); apply Hfull; lia).
  destruct (write_body_full w s H0) as (rest & -> & _).
  apply IH. intros k Hk. cbn [writes].
  replace (S (writes s) + k)%nat with (writes s + S k)%nat by lia. apply Hfull. lia.
Qed.

End FileWriterEnds.

(** The two failures of the setup end the program with 1, whatever
    comes after. *)
Lemma file_writer_setup_fails (w : FileWriter.world) (fuel : nat) :
  (FileWriter.fopen_ok w = false ->
   FileWriter.main w fuel =
     Some (1, FileWriter.emit [Perror "fopen"] (FileWriter.opened w))) /\
  (FileWriter.fopen_ok w = true ->
   FileWriter.buffer_ptr w = 0 ->
   FileWriter.main w fuel =
     Some (1, FileWriter.emit [Malloc FileWriter.CHUNK_SIZE 0;
                               Print Stderr "malloc failed" []; Fclose]
                (FileWriter.opened w))).
Proof.
  unfold FileWriter.main. split.
  - intros ->. reflexivity.
  - intros -> ->. reflexivity.
Qed.

(** The memory hog, whose loop has the same shape, returns 1 when its
    allocation fails. *)
Lemma hog_ends_with_1 (w : MemoryHog.world) (n fuel : nat) :
  (forall k, (k < n)%nat -> MemoryHog.malloc_ret w k <> 0) ->
  MemoryHog.malloc_ret w n = 0 ->
  Z.of_nat n < 2 ^ 31 ->
  (n < fuel)%nat ->
  exists s,
    MemoryHog.main w fuel = Exited 1 s /\
    last (MemoryHog.trace s)
      = Some (Print Stderr "malloc failed after %lu MB" [10 * Z.of_nat n]).
Proof.
  intros ok failed in_range enough_fuel.
  destruct (hog_forever w n 0 MemoryHog.init (hog_init w)) as (s1 & E1 & H1).
  { intros j Hj. apply ok. lia. }
  { cbn [Nat.add]. lia. }
  cbn [Nat.add] in H1.
  destruct (hog_step_fail w n s1 H1 failed) as (Ec & _ & _ & Htr).
  destruct H1 as (_ & Ht & _).
  exists (snd (MemoryHog.step w s1)). split.
  - unfold MemoryHog.main.
    replace fuel with (n + S (fuel - S n))%nat by lia.
    rewrite forever_add, E1. cbn [forever].
    destruct (MemoryHog.step w s1) as [c s2]. cbn [fst snd] in *. now subst c.
  - rewrite Htr, last_app, Ht. cbn [last]. do 3 f_equal.
    unfold MemoryHog.CHUNK_SIZE. Z.to_euclidean_division_equations. lia.
Qed.

(** C2 (file writer).  The exit code of the write failure is 0, and it
    is the only failure the program answers so.  In every run in which
    the output file and the buffer are obtained and write number [n]
    (from 0) is the first that returns fewer bytes than asked, the
    program reports "Write failed after ... MB" on standard error with
    the megabytes written so far, frees the buffer, closes the file,
    leaves the output file in place and returns 0.  The two other
    failures of the same [main], a failed [fopen] and a failed [malloc],
    are reported on standard error and return 1, and so does the memory
    hog, whose loop has the same shape, when its [malloc] fails.  On a
    disk with room for two chunks and a half the third write is short,
    2 MB are reported and the exit code is 0. *)
Theorem C2_write_failure_returns_0 :
  (forall (w : FileWriter.world) (n fuel : nat),
      FileWriter.fopen_ok w = true ->
      FileWriter.buffer_ptr w <> 0 ->
      (forall k, (k < n)%nat -> FileWriter.fwrite_ret w k = FileWriter.CHUNK_SIZE) ->
      FileWriter.fwrite_ret w n <> FileWriter.CHUNK_SIZE ->
      (n < fuel)%nat ->
      exists s,
        FileWriter.main w fuel = Some (0, s) /\
        In (Fopen TestOutputDat true) (FileWriter.trace s) /\
        In (Print Stderr "Write failed after %lu MB"
              [to_size_t (Z.of_nat n * FileWriter.CHUNK_SIZE) / (1024 * 1024)])
           (FileWriter.trace s) /\
        count FileWriter.is_full_write (FileWriter.trace s) = n /\
        count FileWriter.is_unlink (FileWriter.trace s) = 0%nat /\
        exists pre, FileWriter.trace s = pre ++ [Free (FileWriter.buffer_ptr w); Fclose]) /\
  (forall (w : FileWriter.world) (fuel : nat),
      (FileWriter.fopen_ok w = false ->
       FileWriter.main w fuel =
         Some (1, FileWriter.emit [Perror "fopen"] (FileWriter.opened w))) /\
      (FileWriter.fopen_ok w = true ->
       FileWriter.buffer_ptr w = 0 ->
       FileWriter.main w fuel =
         Some (1, FileWriter.emit [Malloc FileWriter.CHUNK_SIZE 0;
                                   Print Stderr "malloc failed" []; Fclose]
                    (FileWriter.opened w)))) /\
  (forall (w : MemoryHog.world) (n fuel : nat),
      (forall k, (k < n)%nat -> MemoryHog.malloc_ret w k <> 0) ->
      MemoryHog.malloc_ret w n = 0 ->
      Z.of_nat n < 2 ^ 31 ->
      (n < fuel)%nat ->
      exists s,
        MemoryHog.main w fuel = Exited 1 s /\
        last (MemoryHog.trace s)
          = Some (Print Stderr "malloc failed after %lu MB" [10 * Z.of_nat n])) /\
  (option_map fst (FileWriter.main FileWriter.disk_full_after_2 3) = Some 0 /\
   option_map (fun r => occurs (Fwrite 1048576 524288) (FileWriter.trace (snd r)))
     (FileWriter.main FileWriter.disk_full_after_2 3) = Some true /\
   option_map (fun r => occurs (Print Stderr "Write failed after %lu MB" [2])
                          (FileWriter.trace (snd r)))
     (FileWriter.main FileWriter.disk_full_after_2 3) = Some true /\
   option_map (fun r => fst r =? 1) (FileWriter.main FileWriter.disk_full_after_2 3)
     = Some false).
Proof.
  split; [| split; [| split]].
  - intros w n fuel file_ok buffer_ok full short enough_fuel.
    exact (file_writer_short_write w n fuel file_ok buffer_ok full short enough_fuel).
  - intros w fuel. apply file_writer_setup_fails.
  - intros w n fuel. apply hog_ends_with_1.
  - refine (conj _ (conj _ (conj _ _))); vm_compute; reflexivity.
Qed.

(** C2 on a disk with room for two chunks and a half. *)
Lemma C2_write_failure_returns_0_witness :
  exists s,
    FileWriter.main FileWriter.disk_full_after_2 3 = Some (0, s) /\
    In (Fopen TestOutputDat true) (FileWriter.trace s) /\
    In (Print Stderr "Write failed after %lu MB"
          [to_size_t (Z.of_nat 2 * FileWriter.CHUNK_SIZE) / (1024 * 1024)])
       (FileWriter.trace s) /\
    count FileWriter.is_full_write (FileWriter.trace s) = 2%nat /\
    count FileWriter.is_unlink (FileWriter.trace s) = 0%nat /\
    exists pre,
      FileWriter.trace s
        = pre ++ [Free (FileWriter.buffer_ptr FileWriter.disk_full_after_2); Fclose].
Proof.
  apply (proj1 C2_write_failure_returns_0 FileWriter.disk_full_after_2 2%nat 3%nat).
  - reflexivity.
  - discriminate.
  - intros k Hk. destruct k as [|[|k]]; [reflexivity | reflexivity | lia].
  - discriminate.
  - lia.
Defined.

(** X4 (file_writer.c).  How a run of the file writer ends.  When the
    output file cannot be opened it returns 1 with [perror] as its last
    action, having done nothing else; when the buffer cannot be
    obtained it returns 1 after it has reported and closed the file,
    having written nothing.  With the file open and the buffer obtained
    it returns 0 at the first write that is short, and it is still
    running after any number of complete writes.  It has no other end:
    a run that returns is one of these three. *)
Theorem X4_file_writer_ends_only_on_failure (w : FileWriter.world) (fuel : nat) :
  (FileWriter.fopen_ok w = false ->
   FileWriter.main w fuel =
     Some (1, FileWriter.emit [Perror "fopen"] (FileWriter.opened w))) /\
  (FileWriter.fopen_ok w = true ->
   FileWriter.buffer_ptr w = 0 ->
   FileWriter.main w fuel =
     Some (1, FileWriter.emit [Malloc FileWriter.CHUNK_SIZE 0;
                               Print Stderr "malloc failed" []; Fclose]
                (FileWriter.opened w))) /\
  (FileWriter.fopen_ok w = true ->
   FileWriter.buffer_ptr w <> 0 ->
   forall n,
     (n < fuel)%nat ->
     (forall k, (k < n)%nat -> FileWriter.fwrite_ret w k = FileWriter.CHUNK_SIZE) ->
     FileWriter.fwrite_ret w n <> FileWriter.CHUNK_SIZE ->
     exists s,
       FileWriter.main w fuel = Some (0, s) /\
       count FileWriter.is_full_write (FileWriter.trace s) = n) /\
  (FileWriter.fopen_ok w = true ->
   FileWriter.buffer_ptr w <> 0 ->
   (forall k, (k < fuel)%nat -> FileWriter.fwrite_ret w k = FileWriter.CHUNK_SIZE) ->
   FileWriter.main w fuel = None) /\
  (forall c s,
      FileWriter.main w fuel = Some (c, s) ->
      (c = 1 /\ FileWriter.fopen_ok w = false /\
       FileWriter.trace s = FileWriter.trace (FileWriter.opened w) ++ [Perror "fopen"]) \/
      (c = 1 /\ FileWriter.fopen_ok w = true /\ FileWriter.buffer_ptr w = 0 /\
       FileWriter.trace s =
         FileWriter.trace (FileWriter.opened w)
           ++ [Malloc FileWriter.CHUNK_SIZE 0; Print Stderr "malloc failed" []; Fclose]) \/
      (c = 0 /\ FileWriter.fopen_ok w = true /\ FileWriter.buffer_ptr w <> 0 /\
       exists n,
         (n < fuel)%nat /\
         (forall k, (k < n)%nat -> FileWriter.fwrite_ret w k = FileWriter.CHUNK_SIZE) /\
         FileWriter.fwrite_ret w n <> FileWriter.CHUNK_SIZE)).
Proof.
  destruct (file_writer_setup_fails w fuel) as [Hopen Hbuf].
  split; [exact Hopen | split; [exact Hbuf | split; [| split]]].
  - intros Eo Eb n Hn Hfull Hshort.
    destruct (file_writer_short_write w n fuel Eo Eb Hfull Hshort Hn)
      as (s & E & _ & _ & Hc & _).
    exists s. split; [exact E | exact Hc].
  - intros Eo Eb Hfull. unfold FileWriter.main. rewrite Eo.
    destruct (Z.eqb_spec (FileWriter.buffer_ptr w) 0) as [E0|_]; [contradiction|].
    rewrite write_loop_goes_on; [reflexivity|]. intros k Hk. apply Hfull. exact Hk.
  - intros c s E. unfold FileWriter.main in E.
    destruct (FileWriter.fopen_ok w) eqn:Eo.
    + destruct (Z.eqb_spec (FileWriter.buffer_ptr w) 0) as [Eb|Eb].
      * injection E as <- <-. right. left. rewrite Eb. repeat split.
      * destruct (FileWriter.while_loop (FileWriter.write_body w) fuel (FileWriter.ready w))
          as [s'|] eqn:El; [| discriminate].
        injection E as <- <-. right. right.
        apply write_loop_ends in El as (n & Hn & Hfull & Hshort).
        repeat split; [assumption|]. exists n. repeat split; assumption.
    + injection E as <- <-. left. repeat split.
Qed.

(** X4 at four runs: no output file, no buffer, a disk with room for
    two chunks and a half, and the first three turns on a disk that
    takes every chunk. *)
Lemma X4_file_writer_ends_only_on_failure_witness :
  FileWriter.main FileWriter.read_only_dir 3 =
    Some (1, FileWriter.emit [Perror "fopen"] (FileWriter.opened FileWriter.read_only_dir)) /\
  FileWriter.main FileWriter.no_memory 3 =
    Some (1, FileWriter.emit [Malloc FileWriter.CHUNK_SIZE 0;
                              Print Stderr "malloc failed" []; Fclose]
               (FileWriter.opened FileWriter.no_memory)) /\
  (exists s,
      FileWriter.main FileWriter.disk_full_after_2 3 = Some (0, s) /\
      count FileWriter.is_full_write (FileWriter.trace s) = 2%nat) /\
  FileWriter.main FileWriter.roomy 3 = None.
Proof.
  split; [| split; [| split]].
  - apply (proj1 (X4_file_writer_ends_only_on_failure FileWriter.read_only_dir 3)).
    reflexivity.
  - apply (proj1 (proj2 (X4_file_writer_ends_only_on_failure FileWriter.no_memory 3))).
    + reflexivity.
    + reflexivity.
  - apply (proj1 (proj2 (proj2
             (X4_file_writer_ends_only_on_failure FileWriter.disk_full_after_2 3)))).
    + reflexivity.
    + discriminate.
    + lia.
    + intros k Hk. destruct k as [|[|k]]; [reflexivity | reflexivity | lia].
    + discriminate.
  - apply (proj1 (proj2 (proj2 (proj2
             (X4_file_writer_ends_only_on_failure FileWriter.roomy 3))))).
    + reflexivity.
    + discriminate.
    + intros k Hk. reflexivity.
Defined.

(** ** I/O storm: setup failures and what a run causes *)

Section IoStormRuns.
Import IoStormWriter.
Variable w : world.

(** What a run that got past its setup does, whatever [fwrite] answers. *)
Lemma io_full_run_effects :
  let t := trace (cleanup_phase w (cooldown_phase w (storm_phase w (normal_phase w (opened w))))) in
  pick write_returned t = map (fwrite_ret w) (seq 0 156) /\
  length (pick stream_flushed t) = 156%nat /\
  pick stream_opened t = [(IoStormTmp (pid w), fopen_ok w)] /\
  pick stream_closed t = [tt] /\
  pick file_unlinked t = [IoStormTmp (pid w)] /\
  pick block_freed t = [buffer_ptr w] /\
  sum_list (pick delay t) = 7500000.
Proof.
  cbv zeta. refine (conj _ (conj _ (conj _ (conj _ (conj _ (conj _ _)))))); vm_compute; reflexivity.
Qed.

End IoStormRuns.

(** X5 (io_storm_writer.c).  The three ways a run of the I/O storm can
    go.  Without a buffer it returns 1 after the message to standard
    error: no file is opened, nothing is written, freed or removed.
    With a buffer but no temp file it returns 1 as well: nothing is
    written, closed or removed, and the buffer is freed as its last
    action.  Past the setup it returns 0 after exactly 156 writes (3, 150
    and 3), each followed by a flush and none of them checked, 7.5
    seconds of requested sleep, one [fclose], the removal of the temp
    file it opened and one [free] of the buffer. *)
Theorem X5_io_storm_setup_and_effects (w : IoStormWriter.world) :
  let t := IoStormWriter.trace (snd (IoStormWriter.main w)) in
  (IoStormWriter.buffer_ptr w = 0 ->
   fst (IoStormWriter.main w) = 1 /\
   last t = Some (Print Stderr "Failed to allocate buffer!" []) /\
   pick stream_opened t = [] /\
   pick write_returned t = [] /\
   pick block_freed t = [] /\
   pick file_unlinked t = []) /\
  (IoStormWriter.buffer_ptr w <> 0 ->
   IoStormWriter.fopen_ok w = false ->
   fst (IoStormWriter.main w) = 1 /\
   pick stream_opened t = [(IoStormTmp (IoStormWriter.pid w), false)] /\
   pick write_returned t = [] /\
   pick stream_closed t = [] /\
   pick file_unlinked t = [] /\
   pick block_freed t = [IoStormWriter.buffer_ptr w] /\
   last t = Some (Free (IoStormWriter.buffer_ptr w))) /\
  (IoStormWriter.buffer_ptr w <> 0 ->
   IoStormWriter.fopen_ok w = true ->
   fst (IoStormWriter.main w) = 0 /\
   pick write_returned t = map (IoStormWriter.fwrite_ret w) (seq 0 156) /\
   length (pick stream_flushed t) = 156%nat /\
   pick stream_opened t = [(IoStormTmp (IoStormWriter.pid w), true)] /\
   pick stream_closed t = [tt] /\
   pick file_unlinked t = [IoStormTmp (IoStormWriter.pid w)] /\
   pick block_freed t = [IoStormWriter.buffer_ptr w] /\
   sum_list (pick delay t) = 7500000).
Proof.
  intros t. subst t. split; [| split].
  - intros Hb. unfold IoStormWriter.main. rewrite Hb. cbn [Z.eqb fst snd].
    unfold IoStormWriter.allocated. rewrite Hb.
    refine (conj _ (conj _ (conj _ (conj _ (conj _ _))))); vm_compute; reflexivity.
  - intros Hb Hf. unfold IoStormWriter.main.
    destruct (Z.eqb_spec (IoStormWriter.buffer_ptr w) 0) as [E|_]; [contradiction|].
    rewrite Hf. cbn [fst snd]. unfold IoStormWriter.opened. rewrite Hf.
    refine (conj _ (conj _ (conj _ (conj _ (conj _ (conj _ _)))))); vm_compute; reflexivity.
  - intros Hb Hf. rewrite (io_main_eq w Hb Hf). cbn [fst snd].
    destruct (io_full_run_effects w) as (H1 & H2 & H3 & H4 & H5 & H6 & H7).
    rewrite Hf in H3.
    refine (conj eq_refl (conj H1 (conj H2 (conj H3 (conj H4 (conj H5 (conj H6 H7))))))).
Qed.

(** ** Fork bomb and network test: what every run keeps *)

(** What every turn keeps holds of the state a run has reached. *)
Lemma forever_invariant {St : Type} (P : St -> Prop) (step : St -> option Z * St) :
  (forall s, P s -> P (snd (step s))) ->
  forall fuel s, P s -> P (final (forever step fuel s)).
Proof.
  intros H. induction fuel as [|fuel IH]; intros s Hs; [exact Hs|].
  cbn [forever]. specialize (H s Hs).
  destruct (step s) as [[c|] s']; cbn [snd] in H; [exact H | now apply IH].
Qed.

Lemma fork_audit_app (t u : list event) :
  forall n,
    fork_audit n (t ++ u) =
      match fork_audit n t with
      | Some m => fork_audit m u
      | None => None
      end.
Proof.
  induction t as [|e t IH]; intros n; [reflexivity|].
  cbn [app]. destruct e; cbn [fork_audit]; try apply IH.
  destruct to, args as [|c [|c' args]]; try apply IH.
  - destruct ((c =? n) && (n mod 10 =? 0)); [apply IH | reflexivity].
  - destruct ((c =? n) && (n mod 10 =? 0)); [apply IH | reflexivity].
  - destruct (c =? n); [apply IH | reflexivity].
Qed.

Section ForkBombRuns.
Import ForkBomb.
Variable w : world.

Lemma fork_step_audit (n0 : Z) (s : state) :
  fork_audit n0 (trace s) = Some (count_ s) ->
  fork_audit n0 (trace (snd (step w s))) = Some (count_ (snd (step w s))).
Proof.
  intros H. unfold step. cbv zeta. cbn [count_ forks trace].
  destruct (fork_ret w (forks s) <? 0) eqn:Ef; [| destruct (fork_ret w (forks s) =? 0)];
    [| | destruct (to_uint (count_ s + 1) mod 10 =? 0) eqn:Em];
    cbn [fst snd emit count_ forks trace]; rewrite <- ?app_assoc;
    rewrite fork_audit_app, H; cbn [app fork_audit]; rewrite Ef, ?Z.eqb_refl, ?Em;
    reflexivity.
Qed.

(** In the process where [fork] returns 0, the turn ends the program. *)
Lemma fork_step_child (s : state) :
  fork_ret w (forks s) = 0 ->
  fst (step w s) = Some 0 /\
  forks (snd (step w s)) = S (forks s) /\
  trace (snd (step w s)) = trace s ++ [Fork 0; Sleep (sec 60); Exit 0].
Proof.
  intros H. unfold step. rewrite H. cbn [Z.ltb Z.eqb Z.compare fst snd].
  cbn [fst snd emit count_ forks trace]. rewrite <- app_assoc. repeat split.
Qed.

Lemma fork_run (n : nat) :
  forall s,
    (forall k, (forks s <= k < forks s + n)%nat -> fork_ret w k <> 0) ->
    exists s',
      forever (step w) n s = Running s' /\
      forks s' = (forks s + n)%nat /\
      count is_fork (trace s') = (count is_fork (trace s) + n)%nat.
Proof.
  induction n as [|n IH]; intros s Hw.
  - exists s. rewrite !Nat.add_0_r. repeat split.
  - cbn [forever].
    destruct (fork_step_parent w s) as (E & Hf & Hn); [apply Hw; lia|].
    destruct (step w s) as [c s1]. cbn [fst snd] in E, Hf, Hn. subst c.
    destruct (IH s1) as (s' & E' & Hf' & Hn').
    { intros k Hk. apply Hw. lia. }
    exists s'. split; [exact E'|]. split; lia.
Qed.

End ForkBombRuns.

(** X6 (fork_bomb.c).  In every run the counter of the fork bomb is the
    number of forks that succeeded so far (as an [unsigned int]), every
    failure message reports that number, and a progress line is printed
    only when it is a multiple of ten, with that number. *)
Theorem X6_fork_bomb_counter_is_accurate (w : ForkBomb.world) (fuel : nat) :
  fork_audit 0 (ForkBomb.trace (final (ForkBomb.main w fuel)))
    = Some (ForkBomb.count_ (final (ForkBomb.main w fuel))).
Proof.
  unfold ForkBomb.main.
  apply (forever_invariant
           (fun s => fork_audit 0 (ForkBomb.trace s) = Some (ForkBomb.count_ s))).
  - intros s. apply fork_step_audit.
  - reflexivity.
Qed.

(** X7 (fork_bomb.c).  The program ends only in a child: in the process
    where call number [n] of [fork] is the first to return 0, the run ends
    in that turn with exit code 0, after a sleep of 60 seconds, and
    without another call of [fork]. *)
Theorem X7_fork_bomb_child_exits (w : ForkBomb.world) (n fuel : nat)
    (parent : forall k, (k < n)%nat -> ForkBomb.fork_ret w k <> 0)
    (child : ForkBomb.fork_ret w n = 0)
    (enough_fuel : (n < fuel)%nat) :
  exists s pre,
    ForkBomb.main w fuel = Exited 0 s /\
    ForkBomb.forks s = S n /\
    ForkBomb.trace s = pre ++ [Fork 0; Sleep (sec 60); Exit 0] /\
    count ForkBomb.is_fork pre = n.
Proof.
  destruct (fork_run w n ForkBomb.init) as (s1 & E1 & Hf1 & Hn1).
  { intros k Hk. apply parent. cbn [ForkBomb.forks ForkBomb.init] in Hk. lia. }
  cbn [ForkBomb.forks ForkBomb.init Nat.add] in Hf1.
  destruct (fork_step_child w s1) as (Ec & Hf & Ht); [now rewrite Hf1|].
  exists (snd (ForkBomb.step w s1)), (ForkBomb.trace s1).
  split; [| split; [| split]].
  - unfold ForkBomb.main. replace fuel with (n + S (fuel - S n))%nat by lia.
    rewrite forever_add, E1. cbn [forever].
    destruct (ForkBomb.step w s1) as [c s2]. cbn [fst snd] in *. now subst c.
  - now rewrite Hf, Hf1.
  - exact Ht.
  - rewrite Hn1. reflexivity.
Qed.

Lemma X7_fork_bomb_child_exits_witness :
  exists s pre,
    ForkBomb.main fourth_child 4 = Exited 0 s /\
    ForkBomb.forks s = 4%nat /\
    ForkBomb.trace s = pre ++ [Fork 0; Sleep (sec 60); Exit 0] /\
    count ForkBomb.is_fork pre = 3%nat.
Proof.
  apply (X7_fork_bomb_child_exits fourth_child 3 4).
  - intros k Hk.
    change (ForkBomb.fork_ret fourth_child k)
      with (if (k <? 3)%nat then 500 + Z.of_nat k else 0).
    destruct (Nat.ltb_spec k 3); lia.
  - reflexivity.
  - lia.
Defined.

Lemma to_int_add_l (x y : Z) : to_int (to_int x + y) = to_int (x + y).
Proof.
  unfold to_int. f_equal.
  replace ((x + 2 ^ 31) mod 2 ^ 32 - 2 ^ 31 + y + 2 ^ 31)
    with ((x + 2 ^ 31) mod 2 ^ 32 + y) by lia.
  rewrite Z.add_mod_idemp_l by lia. f_equal. lia.
Qed.

Lemma net_audit_app (t u : list event) :
  forall a h,
    net_audit a h (t ++ u) =
      match net_audit a h t with
      | Some (a', h') => net_audit a' h' u
      | None => None
      end.
Proof.
  induction t as [|e t IH]; intros a h; [reflexivity|].
  cbn [app]. destruct e; cbn [net_audit]; try apply IH.
  - destruct args as [|c [|c' args]]; try apply IH.
    destruct (negb (String.prefix "Attempt %d:" fmt) || (c =? a)); [apply IH | reflexivity].
  - destruct h as [fd'|]; [| reflexivity].
    destruct (fd =? fd'); [apply IH | reflexivity].
  - destruct h; [reflexivity | apply IH].
  - destruct h; [apply IH | reflexivity].
  - destruct h; [apply IH | reflexivity].
Qed.

Section NetworkTestRuns.
Import NetworkTest.
Variable w : world.

(** A turn starts and ends without a socket held, and its lines carry
    its number. *)
Lemma network_step_audit (a0 : Z) (s : state) :
  net_audit a0 None (trace s) = Some (attempt s, None) ->
  net_audit a0 None (trace (snd (step w s)))
    = Some (attempt (snd (step w s)), None).
Proof.
  intros H. unfold step. cbv zeta. cbn [attempt turns trace emit].
  destruct (socket_ret w (turns s) <? 0) eqn:Es;
    [| destruct (inet_pton_ret w (turns s) <=? 0);
       [| destruct (connect_ret w (turns s) <? 0)]];
    cbn [fst snd emit attempt turns trace]; rewrite <- ?app_assoc;
    rewrite net_audit_app, H; cbn [app net_audit]; rewrite Es, ?Z.eqb_refl;
    cbn; rewrite ?Z.eqb_refl; reflexivity.
Qed.

Lemma network_step_attempt (s : state) :
  attempt s = to_int (Z.of_nat (turns s)) ->
  attempt (snd (step w s)) = to_int (Z.of_nat (turns (snd (step w s)))).
Proof.
  intros H.
  assert (E : attempt (snd (step w s)) = int_add (attempt s) 1 /\
              turns (snd (step w s)) = S (turns s)).
  { unfold step. cbv zeta.
    destruct (socket_ret w (turns s) <? 0);
      [| destruct (inet_pton_ret w (turns s) <=? 0);
         [| destruct (connect_ret w (turns s) <? 0)]];
      split; reflexivity. }
  destruct E as [-> ->]. rewrite H. unfold int_add.
  rewrite to_int_add_l. f_equal. lia.
Qed.

End NetworkTestRuns.

(** X8 (network_test.c).  In every run of the network test, after any
    number of turns: the program is still running, its attempt counter
    is the number of turns made (as an [int]) and every line about an
    attempt carries the number of its turn; a socket is asked for only
    when none is held, [inet_pton] and [connect] come only with a socket
    held, every [close] closes the socket that is held, and at the end of
    each turn no socket is held. *)
Theorem X8_network_test_closes_its_sockets (w : NetworkTest.world) (fuel : nat) :
  exists s,
    NetworkTest.main w fuel = Running s /\
    NetworkTest.turns s = fuel /\
    NetworkTest.attempt s = to_int (Z.of_nat fuel) /\
    net_audit 0 None (NetworkTest.trace s) = Some (to_int (Z.of_nat fuel), None).
Proof.
  destruct (network_forever w fuel NetworkTest.init) as (s & E & Ht).
  cbn [NetworkTest.turns NetworkTest.init Nat.add] in Ht.
  assert (H : NetworkTest.attempt s = to_int (Z.of_nat (NetworkTest.turns s)) /\
              net_audit 0 None (NetworkTest.trace s) = Some (NetworkTest.attempt s, None)).
  { change s with (final (Running s)). rewrite <- E.
    apply (forever_invariant
             (fun s => NetworkTest.attempt s = to_int (Z.of_nat (NetworkTest.turns s)) /\
                       net_audit 0 None (NetworkTest.trace s)
                         = Some (NetworkTest.attempt s, None))).
    - intros s0 [Ha Hn]. split; [now apply network_step_attempt | now apply network_step_audit].
    - split; reflexivity. }
  destruct H as [Ha Hn]. rewrite Ht in Ha.
  exists s. split; [exact E | split; [exact Ht | split; [exact Ha|]]].
  now rewrite Hn, Ha.
Qed.

(** ** Progressive memory leak: what is freed, and the total reported *)

Lemma quiet_not_obtained e : quiet e = true -> block_obtained e = None.
Proof. now destruct e. Qed.

Lemma quiet_not_freed e : quiet e = true -> block_freed e = None.
Proof. now destruct e. Qed.

Lemma sum_list_app (l l' : list Z) : sum_list (l ++ l') = sum_list l + sum_list l'.
Proof. unfold sum_list. induction l as [|a l IH]; cbn; [reflexivity | rewrite IH; lia]. Qed.

Lemma map_lookup_take (l : list Z) (n : nat) :
  (n <= length l)%nat ->
  map (fun i => default 0 (l !! i)) (seq 0 n) = take n l.
Proof.
  induction n as [|n IH]; intros Hn; [reflexivity|].
  destruct (lookup_lt_is_Some_2 l n) as [x Hx]; [lia|].
  rewrite (seq_S n 0), map_app, IH by lia. cbn [map Nat.add].
  now rewrite Hx, (take_S_r _ _ _ Hx).
Qed.

Lemma leaked_sizes_length (t : list event) :
  length (leaked_sizes t) = length (pick block_obtained t).
Proof.
  unfold leaked_sizes. rewrite length_map.
  induction t as [|e t IH]; [reflexivity|].
  destruct e; cbn [malloc_calls pick block_obtained]; try exact IH.
  cbn [List.filter snd]. destruct (ret =? 0); cbn [negb length]; now rewrite IH.
Qed.

(** ** The heap and the cleanup loops *)

Lemma heap_from_app (t u : list event) :
  forall h, heap_from h (t ++ u) = heap_from (heap_from h t) u.
Proof.
  induction t as [|e t IH]; intros h; [reflexivity|].
  destruct e; cbn [app heap_from]; apply IH.
Qed.

Lemma frees_defined_app (t u : list event) :
  forall h,
    frees_defined h (t ++ u) = frees_defined h t && frees_defined (heap_from h t) u.
Proof.
  induction t as [|e t IH]; intros h; [reflexivity|].
  destruct e; cbn [app heap_from frees_defined]; rewrite ?IH; try reflexivity.
  now rewrite andb_assoc.
Qed.

(** As long as nothing is freed, the heap grows by the blocks obtained
    and every call made is defined. *)
Lemma heap_from_obtained (t : list event) :
  forall h,
    pick block_freed t = [] ->
    heap_from h t = h ++ pick block_obtained t /\ frees_defined h t = true.
Proof.
  induction t as [|e t IH]; intros h Hf; [now rewrite app_nil_r|].
  destruct e; cbn [heap_from frees_defined pick block_obtained block_freed] in *;
    try (apply IH; exact Hf); [| discriminate].
  destruct (ret =? 0); [apply IH; exact Hf|].
  destruct (IH (h ++ [ret]) Hf) as [-> ->]. now rewrite <- app_assoc.
Qed.

Lemma holds_head (p : Z) (h : list Z) : holds (p :: h) p = true.
Proof. unfold holds. cbn [existsb]. now rewrite Z.eqb_refl. Qed.

Lemma take_out_head (p : Z) (h : list Z) : take_out p (p :: h) = h.
Proof. cbn [take_out]. now rewrite Z.eqb_refl. Qed.

(** A sweep depends on the cells it passes only. *)
Lemma sweep_from_ext (c c' : nat -> Z) (n : nat) :
  forall h i,
    (forall j, (i <= j < i + n)%nat -> c j = c' j) ->
    sweep_from c h i n = sweep_from c' h i n.
Proof.
  induction n as [|n IH]; intros h i H; [reflexivity|].
  cbn [sweep_from]. rewrite <- (H i) by lia.
  rewrite !(IH _ (S i)) by (intros j Hj; apply H; lia). reflexivity.
Qed.

(** Over cells that hold the blocks held, oldest first, the sweep frees
    one block per cell. *)
Lemma sweep_from_held (c : nat -> Z) (h : list Z) (d : nat) :
  forall i n,
    (forall j, (i <= j < i + d)%nat -> c j <> 0) ->
    sweep_from c (map c (seq i d) ++ h) i (d + n) =
      flat_map (fun j => [Load j (c j); Free (c j)]) (seq i d)
        ++ sweep_from c h (i + d) n.
Proof.
  induction d as [|d IH]; intros i n H.
  - cbn [seq map app flat_map Nat.add]. now rewrite Nat.add_0_r.
  - cbn [seq map app flat_map Nat.add sweep_from].
    destruct (Z.eqb_spec (c i) 0) as [E | _]; [exfalso; apply (H i); [lia | exact E]|].
    rewrite holds_head, take_out_head, IH by (intros j Hj; apply H; lia).
    now replace (S i + d)%nat with (i + S d)%nat by lia.
Qed.

Lemma held_sweep_effects (c : nat -> Z) (l : list nat) :
  let t := flat_map (fun j => [Load j (c j); Free (c j)]) l in
  pick block_freed t = map c l /\
  pick block_obtained t = [] /\
  pick cell_loaded t = l /\
  malloc_calls t = [] /\
  forall f, (forall j v, f (Load j v) = false) -> (forall p, f (Free p) = false) ->
            count f t = 0%nat.
Proof.
  cbv zeta. induction l as [|j l (IH1 & IH2 & IH3 & IH4 & IH5)].
  - repeat split.
  - cbn [flat_map app pick block_freed block_obtained cell_loaded map malloc_calls].
    rewrite IH1, IH2, IH3, IH4. repeat split.
    intros f Hl Hf. rewrite !count_cons, Hl, Hf, (IH5 f Hl Hf). reflexivity.
Qed.

Lemma held_sweep_defined (c : nat -> Z) (h : list Z) (u : list event) (d : nat) :
  forall i,
    frees_defined (map c (seq i d) ++ h)
      (flat_map (fun j => [Load j (c j); Free (c j)]) (seq i d) ++ u)
    = frees_defined h u.
Proof.
  induction d as [|d IH]; intros i; [reflexivity|].
  cbn [seq map app flat_map frees_defined].
  now rewrite holds_head, orb_true_r, take_out_head, IH.
Qed.

(** With no block held, the sweep passes the cells that hold NULL and
    ends at the first word it meets: that word is passed to [free], and
    the call is not defined. *)
Lemma sweep_from_empty (c : nat -> Z) (n : nat) :
  forall i,
    let t := sweep_from c [] i n in
    let word := List.find (fun p => negb (p =? 0)) (map c (seq i n)) in
    pick block_freed t = match word with Some p => [p] | None => [] end /\
    pick block_obtained t = [] /\
    malloc_calls t = [] /\
    frees_defined [] t = match word with Some _ => false | None => true end /\
    forall f, (forall j v, f (Load j v) = false) -> (forall p, f (Free p) = false) ->
              count f t = 0%nat.
Proof.
  induction n as [|n IH]; intros i; cbv zeta.
  - repeat split.
  - cbn [sweep_from seq map List.find holds existsb].
    destruct (c i =? 0) eqn:Ez; cbn [negb].
    + destruct (IH (S i)) as (H1 & H2 & H3 & H4 & H5).
      cbn [pick block_freed block_obtained malloc_calls frees_defined].
      repeat split; try assumption.
      intros f Hl Hf. rewrite count_cons, Hl. now apply H5.
    + cbn [pick block_freed block_obtained malloc_calls frees_defined holds existsb].
      rewrite Ez. repeat split.
      intros f Hl Hf. rewrite !count_cons, Hl, Hf. reflexivity.
Qed.

(** The sweep reaches a cell when all the cells before it hold NULL. *)
Lemma sweep_from_reach (c : nat -> Z) (n : nat) :
  forall i j,
    (i <= j < i + n)%nat ->
    (forall m, (i <= m < j)%nat -> c m = 0) ->
    In (Load j (c j)) (sweep_from c [] i n) /\
    (c j = 0 \/ In (Free (c j)) (sweep_from c [] i n)).
Proof.
  induction n as [|n IH]; intros i j Hj Hz; [lia|].
  cbn [sweep_from holds existsb].
  destruct (Nat.eq_dec i j) as [-> | Hne].
  - destruct (Z.eqb_spec (c j) 0) as [E | E].
    + split; [now left | now left].
    + split; [now left | right; right; now left].
  - rewrite (Hz i) by lia. cbn [Z.eqb].
    destruct (IH (S i) j ltac:(lia)) as [H1 H2]; [intros m Hm; apply Hz; lia|].
    split; [now right | destruct H2 as [H2 | H2]; [now left | right; now right]].
Qed.

Lemma sweep_from_count (f : event -> bool) (c : nat -> Z) (n : nat) :
  (forall j v, f (Load j v) = false) -> (forall p, f (Free p) = false) ->
  forall h i, count f (sweep_from c h i n) = 0%nat.
Proof.
  intros Hl Hf. induction n as [|n IH]; intros h i; [reflexivity|].
  cbn [sweep_from]. destruct (c i =? 0); [| destruct (holds h (c i))];
    rewrite ?count_cons, ?Hl, ?Hf, ?IH; reflexivity.
Qed.

(** The cells of an array of [N] cells after a loop of [n] turns that
    wrote the answers [a] into the cells before [k], NULL into cell [k]
    when it left early, and nothing behind: one by one. *)
Lemma cells_after_loop (a g : nat -> Z) (n N k : nat) (l : list Z) :
  (k <= n <= N)%nat ->
  l = map a (seq 0 k)
        ++ (if (k <? n)%nat then [0] else [])
        ++ map g (seq (Nat.min (S k) n) (N - Nat.min (S k) n)) ->
  (forall j, (j < k)%nat -> default 0 (l !! j) = a j) /\
  ((k < n)%nat -> default 0 (l !! k) = 0) /\
  (forall j, (Nat.min (S k) n <= j < N)%nat -> default 0 (l !! j) = g j).
Proof.
  intros Hk ->. split; [| split].
  - intros j Hj. rewrite lookup_app_l by (rewrite length_map, length_seq; lia).
    rewrite list_lookup_fmap, lookup_seq_lt by lia. reflexivity.
  - intros Hlt. rewrite lookup_app_r by (rewrite length_map, length_seq; lia).
    rewrite length_map, length_seq, Nat.sub_diag.
    destruct (Nat.ltb_spec k n); [reflexivity | lia].
  - intros j Hj. rewrite lookup_app_r by (rewrite length_map, length_seq; lia).
    rewrite length_map, length_seq.
    destruct (Nat.ltb_spec k n) as [Hlt | Hge].
    + replace (Nat.min (S k) n) with (S k) in * by lia.
      replace (j - k)%nat with (S (j - S k)) by lia. cbn [app].
      rewrite lookup_cons, list_lookup_fmap, lookup_seq_lt by lia. cbn. f_equal. lia.
    + replace (Nat.min (S k) n) with n in * by lia. cbn [app].
      assert (k = n) by lia. subst k.
      rewrite list_lookup_fmap, lookup_seq_lt by lia. cbn. f_equal. lia.
Qed.

Lemma flat_map_eq_in {A B : Type} (f g : A -> list B) (l : list A) :
  (forall a, In a l -> f a = g a) -> flat_map f l = flat_map g l.
Proof.
  induction l as [|a l IH]; intros H; [reflexivity|]. cbn [flat_map].
  rewrite (H a) by now left. f_equal. apply IH. intros x Hx. apply H. now right.
Qed.

(** The first NULL among the answers. *)
Lemma first_null_spec (f : nat -> Z) (n : nat) :
  forall i,
    let k := first_null f i n in
    (i <= k <= i + n)%nat /\
    (forall j, (i <= j < k)%nat -> f j <> 0) /\
    ((k < i + n)%nat -> f k = 0).
Proof.
  induction n as [|n IH]; intros i; cbv zeta; cbn [first_null].
  - split; [lia|]. split; [intros j Hj; lia | intros H; lia].
  - destruct (Z.eqb_spec (f i) 0) as [E | E].
    + split; [lia|]. split; [intros j Hj; lia | intros _; exact E].
    + destruct (IH (S i)) as (H1 & H2 & H3). split; [lia|]. split.
      * intros j Hj. destruct (Nat.eq_dec j i) as [-> |]; [exact E | apply H2; lia].
      * intros H. apply H3. lia.
Qed.

Section MemoryLeakRuns.
Import MemoryLeakProgressive.
Variable w : world.

(** The array after the leak loop, when call [k] is the first to fail
    ([k = 25]: none fails): the blocks obtained, a NULL where the loop
    broke, and behind it what the stack held. *)
Lemma leak_loop_shape (k : nat) (s0 : state) :
  (k <= 25)%nat ->
  (forall j, (j < k)%nat -> malloc_ret w j <> 0) ->
  ((k < 25)%nat -> malloc_ret w k = 0) ->
  allocations s0 = map (stack_garbage w) (seq 0 30) ->
  let s1 := for_loop (leak_body w) 0 25 s0 in
  allocations s1 =
    map (malloc_ret w) (seq 0 k)
      ++ (if (k <? 25)%nat then [0] else [])
      ++ map (stack_garbage w) (seq (Nat.min (S k) 25) (30 - Nat.min (S k) 25)) /\
  pick block_obtained (trace s1) = pick block_obtained (trace s0) ++ map (malloc_ret w) (seq 0 k) /\
  pick block_freed (trace s1) = pick block_freed (trace s0).
Proof.
  intros Hk Hok Hfail H0. cbv zeta.
  apply (for_loop_rule
           (fun i s => (i <= k)%nat /\
                       allocations s =
                         map (malloc_ret w) (seq 0 i)
                           ++ map (stack_garbage w) (seq i (30 - i)) /\
                       pick block_obtained (trace s) =
                         pick block_obtained (trace s0) ++ map (malloc_ret w) (seq 0 i) /\
                       pick block_freed (trace s) = pick block_freed (trace s0))).
  - split; [lia|]. split; [exact H0|]. split; [now rewrite app_nil_r | reflexivity].
  - intros j t t' Hj (Hle & Ha & Ho & Hf) E.
    destruct (leak_body_spec w j t) as (rest & Hq & E'). rewrite E' in E.
    destruct (malloc_ret w j =? 0) eqn:Hz; [discriminate|].
    apply Z.eqb_neq in Hz.
    assert (Hlt : (j < k)%nat).
    { destruct (Nat.eq_dec j k) as [-> |]; [| lia]. exfalso. apply Hz, Hfail. lia. }
    injection E as <-. cbn [allocations trace]. split; [lia|]. split; [| split].
    + rewrite Ha, insert_app_r_alt by (rewrite length_map, length_seq; lia).
      rewrite length_map, length_seq, Nat.sub_diag.
      replace (30 - j)%nat with (S (30 - S j)) by lia.
      rewrite (seq_S j 0), map_app, <- app_assoc. reflexivity.
    + rewrite pick_app, Ho, (seq_S j 0), map_app, <- app_assoc. f_equal.
      cbn [pick block_obtained]. apply Z.eqb_neq in Hz. rewrite Hz.
      rewrite (pick_none _ quiet rest quiet_not_obtained Hq). reflexivity.
    + rewrite pick_app, Hf. cbn [pick block_freed].
      rewrite (pick_none _ quiet rest quiet_not_freed Hq). now rewrite app_nil_r.
  - intros j t t' Hj (Hle & Ha & Ho & Hf) E.
    destruct (leak_body_spec w j t) as (rest & Hq & E'). rewrite E' in E.
    destruct (malloc_ret w j =? 0) eqn:Hz; [| discriminate].
    apply Z.eqb_eq in Hz.
    assert (Hjk : j = k).
    { destruct (Nat.eq_dec j k); [assumption|]. exfalso. apply (Hok j); [lia | exact Hz]. }
    subst j. injection E as <-. cbn [allocations trace]. split; [| split].
    + rewrite Ha, insert_app_r_alt by (rewrite length_map, length_seq; lia).
      rewrite length_map, length_seq, Nat.sub_diag.
      replace (30 - k)%nat with (S (30 - S k)) by lia.
      destruct (Nat.ltb_spec k 25); [| lia].
      rewrite Nat.min_l by lia. rewrite Hz. reflexivity.
    + rewrite pick_app, Ho. cbn [pick block_obtained]. rewrite Hz. cbn [Z.eqb].
      rewrite (pick_none _ quiet rest quiet_not_obtained Hq). now rewrite app_nil_r.
    + rewrite pick_app, Hf. cbn [pick block_freed].
      rewrite (pick_none _ quiet rest quiet_not_freed Hq). now rewrite app_nil_r.
  - intros t (Hle & Ha & Ho & Hf).
    assert (k = 25)%nat by lia. subst k. split; [| split; assumption].
    rewrite Ha. reflexivity.
Qed.

(** The calls of the leak loop, and the cells it leaves alone: it
    writes no cell behind the one where it ends and reads none. *)
Lemma leak_loop_calls (k : nat) (s0 : state) :
  (k <= 25)%nat ->
  (forall j, (j < k)%nat -> malloc_ret w j <> 0) ->
  ((k < 25)%nat -> malloc_ret w k = 0) ->
  let s1 := for_loop (leak_body w) 0 25 s0 in
  malloc_calls (trace s1) =
    malloc_calls (trace s0)
      ++ map (fun j => (alloc_size j, malloc_ret w j)) (seq 0 (Nat.min (S k) 25)) /\
  (forall m, (Nat.min (S k) 25 <= m)%nat ->
             count (stores_to m) (trace s1) = count (stores_to m) (trace s0)) /\
  pick cell_loaded (trace s1) = pick cell_loaded (trace s0).
Proof.
  intros Hk Hok Hfail. cbv zeta.
  assert (Hquiet : forall rest, forallb quiet rest = true ->
                     malloc_calls rest = [] /\
                     (forall m, count (stores_to m) rest = 0%nat) /\
                     pick cell_loaded rest = []).
  { intros rest Hq. split; [| split].
    - apply (malloc_calls_none quiet); [now intros [] | exact Hq].
    - intros m. apply (count_quiet _ rest (stores_to_quiet m) Hq).
    - apply (pick_none _ quiet); [now intros [] | exact Hq]. }
  apply (for_loop_rule
           (fun i s => (i <= k)%nat /\
                       malloc_calls (trace s) =
                         malloc_calls (trace s0)
                           ++ map (fun j => (alloc_size j, malloc_ret w j)) (seq 0 i) /\
                       (forall m, (i <= m)%nat ->
                                  count (stores_to m) (trace s) = count (stores_to m) (trace s0)) /\
                       pick cell_loaded (trace s) = pick cell_loaded (trace s0))).
  - split; [lia|]. split; [now rewrite app_nil_r | split; [reflexivity | reflexivity]].
  - intros j t t' Hj (Hle & Hc & Hs & Hl) E.
    destruct (leak_body_spec w j t) as (rest & Hq & E'). rewrite E' in E.
    destruct (Hquiet rest Hq) as (Q1 & Q2 & Q3).
    destruct (malloc_ret w j =? 0) eqn:Hz; [discriminate|].
    apply Z.eqb_neq in Hz.
    assert (Hlt : (j < k)%nat).
    { destruct (Nat.eq_dec j k) as [-> |]; [| lia]. exfalso. apply Hz, Hfail. lia. }
    injection E as <-. cbn [trace]. split; [lia|]. split; [| split].
    + rewrite malloc_calls_app, Hc, (seq_S j 0), map_app, <- app_assoc.
      cbn [malloc_calls map Nat.add]. now rewrite Q1.
    + intros m Hm. rewrite count_app, !count_cons, Q2, Hs by lia.
      unfold stores_to. destruct (Nat.eqb_spec j m); lia.
    + rewrite pick_app, Hl. cbn [pick cell_loaded]. now rewrite Q3, app_nil_r.
  - intros j t t' Hj (Hle & Hc & Hs & Hl) E.
    destruct (leak_body_spec w j t) as (rest & Hq & E'). rewrite E' in E.
    destruct (Hquiet rest Hq) as (Q1 & Q2 & Q3).
    destruct (malloc_ret w j =? 0) eqn:Hz; [| discriminate].
    apply Z.eqb_eq in Hz.
    assert (Hjk : j = k).
    { destruct (Nat.eq_dec j k); [assumption|]. exfalso. apply (Hok j); [lia | exact Hz]. }
    subst j. injection E as <-. cbn [trace].
    replace (Nat.min (S k) 25) with (S k) by lia. split; [| split].
    + rewrite malloc_calls_app, Hc, (seq_S k 0), map_app, <- app_assoc.
      cbn [malloc_calls map Nat.add]. now rewrite Q1.
    + intros m Hm. rewrite count_app, !count_cons, Q2, Hs by lia.
      unfold stores_to. destruct (Nat.eqb_spec k m); lia.
    + rewrite pick_app, Hl. cbn [pick cell_loaded]. now rewrite Q3, app_nil_r.
  - intros t (Hle & Hc & Hs & Hl).
    assert (k = 25)%nat by lia. subst k. split; [exact Hc | split; [| exact Hl]].
    intros m Hm. apply Hs. lia.
Qed.

(** One turn of the cleanup loop. *)
Lemma cleanup_body_eq (i : nat) (s : state) :
  cleanup_body i s =
    if cell i s =? 0 then (Next, emit [Load i (cell i s)] s)
    else if holds (heap (trace s)) (cell i s)
         then (Next, emit [Load i (cell i s); Free (cell i s)] s)
         else (Break, emit [Load i (cell i s); Free (cell i s)] s).
Proof.
  unfold cleanup_body, is_block. cbv zeta.
  assert (Hh : heap (trace (emit [Load i (cell i s)] s)) = heap (trace s)).
  { unfold emit; cbn [trace]. unfold heap. now rewrite heap_from_app. }
  rewrite Hh. destruct (cell i s =? 0); [reflexivity|].
  destruct (holds (heap (trace s)) (cell i s));
    unfold emit; cbn [allocations total_allocated trace]; now rewrite <- app_assoc.
Qed.

(** The cleanup loop, event by event. *)
Lemma leak_cleanup_loop (n : nat) :
  forall i s,
    allocations (for_loop cleanup_body i n s) = allocations s /\
    total_allocated (for_loop cleanup_body i n s) = total_allocated s /\
    trace (for_loop cleanup_body i n s) =
      trace s ++ sweep_from (fun j => cell j s) (heap (trace s)) i n.
Proof.
  induction n as [|n IH]; intros i s.
  - cbn [for_loop sweep_from]. now rewrite app_nil_r.
  - cbn [for_loop sweep_from]. rewrite cleanup_body_eq.
    destruct (cell i s =? 0) eqn:Ez.
    + destruct (IH (S i) (emit [Load i (cell i s)] s)) as (A & T & Tr).
      rewrite A, T, Tr. split; [reflexivity | split; [reflexivity|]].
      unfold emit; cbn [trace]. unfold heap. rewrite heap_from_app, <- app_assoc.
      reflexivity.
    + destruct (holds (heap (trace s)) (cell i s)) eqn:Eh.
      * destruct (IH (S i) (emit [Load i (cell i s); Free (cell i s)] s)) as (A & T & Tr).
        rewrite A, T, Tr. split; [reflexivity | split; [reflexivity|]].
        unfold emit; cbn [trace]. unfold heap. rewrite heap_from_app, <- app_assoc.
        reflexivity.
      * split; [reflexivity | split; [reflexivity | reflexivity]].
Qed.

(** A whole run, when call [k] of [malloc] is the first to fail ([k =
    25]: none fails): what comes before the cleanup loop, then one
    [free] per block obtained, the NULL where the leak loop broke, and
    the sweep over the cells that were never written, with no block
    left. *)
Lemma leak_run_shape (k : nat) :
  (k <= 25)%nat ->
  (forall j, (j < k)%nat -> malloc_ret w j <> 0) ->
  ((k < 25)%nat -> malloc_ret w k = 0) ->
  exists pre,
    trace (snd (main w)) =
      pre ++ flat_map (fun j => [Load j (malloc_ret w j); Free (malloc_ret w j)]) (seq 0 k)
          ++ (if (k <? 25)%nat then [Load k 0] else [])
          ++ sweep_from (stack_garbage w) [] (Nat.min (S k) 25) (30 - Nat.min (S k) 25) /\
    pick block_obtained pre = map (malloc_ret w) (seq 0 k) /\
    pick block_freed pre = [] /\
    pick cell_loaded pre = [] /\
    malloc_calls pre =
      map (fun j => (alloc_size j, malloc_ret w j)) (seq 0 (Nat.min (S k) 25)) /\
    (forall m, (Nat.min (S k) 25 <= m)%nat -> count (stores_to m) pre = 0%nat).
Proof.
  intros Hk Hok Hfail. unfold main. cbv zeta. cbn [snd]. unfold leak_phase.
  set (s0 := emit [Print Stdout "Phase 1/2: Starting memory leak..." []]
               (emit banner (init w))).
  destruct (leak_loop_shape k s0 Hk Hok Hfail eq_refl) as (Ha & Ho & Hf).
  destruct (leak_loop_calls k s0 Hk Hok Hfail) as (Hc & Hst & Hld).
  change (pick block_obtained (trace s0)) with (@nil Z) in Ho.
  change (pick block_freed (trace s0)) with (@nil Z) in Hf.
  change (malloc_calls (trace s0)) with (@nil (Z * Z)) in Hc.
  change (pick cell_loaded (trace s0)) with (@nil nat) in Hld.
  assert (Hst0 : forall m, count (stores_to m) (trace s0) = 0%nat) by (intros m; reflexivity).
  cbn [app] in Ho, Hc.
  revert Ha Ho Hf Hc Hst Hld. generalize (for_loop (leak_body w) 0 25 s0). clearbody s0.
  intros s1 Ha Ho Hf Hc Hst Hld.
  destruct (leak_hold_spec s1) as (rest & Hq & ->).
  unfold cleanup_phase.
  match goal with |- context [for_loop cleanup_body 0 30 ?x] => set (s2 := x) end.
  destruct (leak_cleanup_loop 30 0 s2) as (_ & _ & ->).
  destruct (cells_after_loop (malloc_ret w) (stack_garbage w) 25 30 k (allocations s1)
              ltac:(lia) Ha) as (C1 & C2 & C3).
  set (pre := trace s2).
  assert (Hpre : pre = (trace s1 ++ rest) ++ [Print Stdout "Cleaning up allocations..." []])
    by reflexivity.
  assert (Po : pick block_obtained pre = map (malloc_ret w) (seq 0 k)).
  { rewrite Hpre, !pick_app, Ho, (pick_none _ quiet rest quiet_not_obtained Hq).
    cbn [pick block_obtained]. now rewrite !app_nil_r. }
  assert (Pf : pick block_freed pre = []).
  { rewrite Hpre, !pick_app, Hf, (pick_none _ quiet rest quiet_not_freed Hq). reflexivity. }
  assert (Pl : pick cell_loaded pre = []).
  { rewrite Hpre, !pick_app, Hld.
    rewrite (pick_none cell_loaded quiet rest) by (try assumption; now intros []).
    reflexivity. }
  assert (Pc : malloc_calls pre =
               map (fun j => (alloc_size j, malloc_ret w j)) (seq 0 (Nat.min (S k) 25))).
  { rewrite Hpre, !malloc_calls_app, Hc.
    rewrite (malloc_calls_none quiet rest) by (try assumption; now intros []).
    cbn [malloc_calls]. now rewrite !app_nil_r. }
  assert (Ps : forall m, (Nat.min (S k) 25 <= m)%nat -> count (stores_to m) pre = 0%nat).
  { intros m Hm. rewrite Hpre, !count_app, Hst, Hst0 by exact Hm.
    rewrite (count_quiet _ rest (stores_to_quiet m) Hq). reflexivity. }
  exists pre. split; [| repeat split; assumption]. f_equal.
  destruct (heap_from_obtained pre [] Pf) as [Hheap _].
  unfold heap. rewrite Hheap, Po. cbn [app].
  change (fun j => cell j s2) with (fun j => default 0 (allocations s1 !! j)).
  set (c := fun j => default 0 (allocations s1 !! j)).
  replace (map (malloc_ret w) (seq 0 k)) with (map c (seq 0 k) ++ [])
    by (rewrite app_nil_r; apply map_ext_in; intros j Hj; apply List.in_seq in Hj;
        apply C1; lia).
  replace 30%nat with (k + (30 - k))%nat at 1 by lia.
  rewrite sweep_from_held by (intros j Hj; unfold c; rewrite C1 by lia; apply Hok; lia).
  rewrite (flat_map_eq_in (fun j => [Load j (c j); Free (c j)])
             (fun j => [Load j (malloc_ret w j); Free (malloc_ret w j)]))
    by (intros j Hj; apply List.in_seq in Hj; unfold c; now rewrite C1 by lia).
  f_equal. cbn [Nat.add].
  destruct (Nat.ltb_spec k 25) as [Hlt | Hge].
  - replace (Nat.min (S k) 25) with (S k) in * by lia.
    replace (30 - k)%nat with (S (30 - S k)) by lia.
    cbn [sweep_from]. unfold c at 1 2. rewrite (C2 Hlt). cbn [Z.eqb app]. f_equal.
    apply sweep_from_ext. intros j Hj. apply C3. lia.
  - replace (Nat.min (S k) 25) with 25%nat in * by lia.
    assert (k = 25)%nat by lia. subst k. cbn [app].
    apply sweep_from_ext. intros j Hj. apply C3. lia.
Qed.

(** The total the program keeps is the sum of the sizes it obtained. *)
Lemma leak_loop_total (s0 : state) :
  total_allocated s0 = 0 ->
  leaked_sizes (trace s0) = [] ->
  let s1 := for_loop (leak_body w) 0 25 s0 in
  total_allocated s1 = sum_list (leaked_sizes (trace s1)) /\
  0 <= total_allocated s1 <= 1625 * MB.
Proof.
  intros Ht0 Hl0. cbv zeta.
  apply (for_loop_rule
           (fun i s => total_allocated s = sum_list (leaked_sizes (trace s)) /\
                       0 <= 2 * total_allocated s
                         <= 5 * MB * (Z.of_nat i * (Z.of_nat i + 1)))).
  - rewrite Ht0, Hl0. cbn. lia.
  - intros j t t' Hj (Ht & Hb) E.
    destruct (leak_body_spec w j t) as (rest & Hq & E'). rewrite E' in E.
    destruct (malloc_ret w j =? 0) eqn:Hz; [discriminate|].
    injection E as <-. cbn [total_allocated trace].
    rewrite leaked_sizes_app, sum_list_app, <- Ht.
    unfold leaked_sizes at 1. cbn [malloc_calls List.filter snd]. rewrite Hz. cbn [negb map fst].
    rewrite (malloc_calls_none quiet rest) by (try assumption; now intros []).
    cbn [List.filter map sum_list fold_right].
    rewrite alloc_size_eq by lia. unfold MB in *.
    rewrite to_size_t_small by nia. split; nia.
  - intros j t t' Hj (Ht & Hb) E.
    destruct (leak_body_spec w j t) as (rest & Hq & E'). rewrite E' in E.
    destruct (malloc_ret w j =? 0) eqn:Hz; [| discriminate].
    injection E as <-. cbn [total_allocated trace].
    rewrite leaked_sizes_app, sum_list_app, <- Ht.
    unfold leaked_sizes at 1. cbn [malloc_calls List.filter snd]. rewrite Hz. cbn [negb].
    rewrite (malloc_calls_none quiet rest) by (try assumption; now intros []).
    cbn [List.filter map sum_list fold_right]. unfold MB in *. split; nia.
  - intros t (Ht & Hb). split; [exact Ht|]. unfold MB in *. cbn in Hb. lia.
Qed.

Lemma leak_hold_reports (s : state) :
  In (Print Stdout "Total Memory Leaked: %zu MB" [total_allocated s / MB])
     (trace (hold_phase s)).
Proof.
  unfold hold_phase, hold_body, emit; cbn [for_loop allocations total_allocated trace].
  apply in_or_app. right. right. left. reflexivity.
Qed.

Lemma leak_cleanup_total (s : state) :
  total_allocated (cleanup_phase s) = total_allocated s.
Proof.
  unfold cleanup_phase.
  rewrite (for_loop_preserves total_allocated); [reflexivity|].
  intros j t. now destruct (cleanup_body_spec j t) as (c & ->).
Qed.

(** The run has an exit code when all its calls of [free] are defined. *)
Lemma leak_main_exit :
  fst (main w) = if defined (trace (snd (main w))) then Some 0 else None.
Proof. unfold main. cbv zeta. cbn [fst snd]. reflexivity. Qed.

(** What a whole run obtains, what it passes to [free], and how it
    ends. *)
Lemma leak_run_effects (k : nat) :
  (k <= 25)%nat ->
  (forall j, (j < k)%nat -> malloc_ret w j <> 0) ->
  ((k < 25)%nat -> malloc_ret w k = 0) ->
  let t := trace (snd (main w)) in
  let word := List.find (fun p => negb (p =? 0))
                (map (stack_garbage w) (seq (Nat.min (S k) 25) (30 - Nat.min (S k) 25))) in
  pick block_obtained t = map (malloc_ret w) (seq 0 k) /\
  pick block_freed t =
    map (malloc_ret w) (seq 0 k) ++ match word with Some p => [p] | None => [] end /\
  fst (main w) = match word with Some _ => None | None => Some 0 end.
Proof.
  intros Hk Hok Hfail. cbv zeta.
  rewrite leak_main_exit.
  destruct (leak_run_shape k Hk Hok Hfail) as (pre & -> & Po & Pf & _ & _ & _).
  destruct (held_sweep_effects (malloc_ret w) (seq 0 k)) as (F1 & F2 & _).
  destruct (sweep_from_empty (stack_garbage w) (30 - Nat.min (S k) 25) (Nat.min (S k) 25))
    as (S1 & S2 & _ & S4 & _).
  cbv zeta in F1, F2, S1, S2, S4.
  assert (Z1 : pick block_obtained (if (k <? 25)%nat then [Load k 0] else []) = [])
    by now destruct (k <? 25)%nat.
  assert (Z2 : pick block_freed (if (k <? 25)%nat then [Load k 0] else []) = [])
    by now destruct (k <? 25)%nat.
  rewrite !pick_app, Po, Pf, F1, F2, S1, S2, Z1, Z2. cbn [app].
  split; [now rewrite !app_nil_r | split; [reflexivity|]].
  unfold defined. rewrite frees_defined_app.
  destruct (heap_from_obtained pre [] Pf) as [-> ->]. rewrite Po. cbn [app andb].
  rewrite <- (app_nil_r (map (malloc_ret w) (seq 0 k))) at 1.
  rewrite held_sweep_defined, frees_defined_app.
  assert (Z3 : frees_defined [] (if (k <? 25)%nat then [Load k 0] else []) = true)
    by now destruct (k <? 25)%nat.
  assert (Z4 : heap_from [] (if (k <? 25)%nat then [Load k 0] else []) = [])
    by now destruct (k <? 25)%nat.
  rewrite Z3, Z4, S4. cbn [andb].
  now destruct (List.find _ _).
Qed.

(** No run writes more than 25 cells. *)
Lemma leak_main_stores : (count is_store (trace (snd (main w))) <= 25)%nat.
Proof.
  unfold main. cbv zeta. cbn [snd].
  pose proof (hold_phase_tail w _ (leak_phase_tail w)) as (Hc & _ & _).
  revert Hc. generalize (hold_phase (leak_phase w (emit banner (init w)))). intros s Hc.
  unfold cleanup_phase.
  destruct (leak_cleanup_loop 30 0 (emit [Print Stdout "Cleaning up allocations..." []] s))
    as (_ & _ & ->).
  unfold emit; cbn [trace]. rewrite !count_app, sweep_from_count by reflexivity.
  cbn. lia.
Qed.

End MemoryLeakRuns.

(** C9 (progressive memory leak), as the code has it.  The leak loop
    writes at most 25 cells of the 30-cell array and none from the cell
    [u] on, where [u] is the cell behind the one at which the loop ends
    (25 when no allocation fails).  In every run the cleanup loop reads
    cell [u], which still holds what the stack held at entry, and passes
    that word to [free] unless it is NULL.  It reads a later cell, so
    any of the cells 25 to 29, in the runs in which all the cells from
    [u] up to that cell hold NULL, and passes what it finds to [free]
    unless it is NULL. *)
Theorem C9_cleanup_reads_uninitialised_cells (w : MemoryLeakProgressive.world) :
  let t := MemoryLeakProgressive.trace (snd (MemoryLeakProgressive.main w)) in
  let k := first_null (MemoryLeakProgressive.malloc_ret w) 0 25 in
  let u := Nat.min (S k) 25 in
  let g := MemoryLeakProgressive.stack_garbage w in
  (count MemoryLeakProgressive.is_store t <= 25)%nat /\
  (forall m, (u <= m)%nat -> count (MemoryLeakProgressive.stores_to m) t = 0%nat) /\
  (In (Load u (g u)) t /\ (g u = 0 \/ In (Free (g u)) t)) /\
  (forall j, (u <= j < 30)%nat ->
             (forall m, (u <= m < j)%nat -> g m = 0) ->
             In (Load j (g j)) t /\ (g j = 0 \/ In (Free (g j)) t)).
Proof.
  cbv zeta.
  destruct (first_null_spec (MemoryLeakProgressive.malloc_ret w) 25 0) as (Hk & Hok & Hfail).
  cbv zeta in Hk, Hok, Hfail.
  set (k := first_null (MemoryLeakProgressive.malloc_ret w) 0 25) in *.
  split; [apply leak_main_stores|].
  destruct (leak_run_shape w k ltac:(lia) ltac:(intros j Hj; apply Hok; lia)
              ltac:(intros H; apply Hfail; lia))
    as (pre & -> & _ & _ & _ & _ & Ps).
  assert (Hreach : forall j, (Nat.min (S k) 25 <= j < 30)%nat ->
             (forall m, (Nat.min (S k) 25 <= m < j)%nat ->
                        MemoryLeakProgressive.stack_garbage w m = 0) ->
             In (Load j (MemoryLeakProgressive.stack_garbage w j))
                (sweep_from (MemoryLeakProgressive.stack_garbage w) []
                   (Nat.min (S k) 25) (30 - Nat.min (S k) 25)) /\
             (MemoryLeakProgressive.stack_garbage w j = 0 \/
              In (Free (MemoryLeakProgressive.stack_garbage w j))
                 (sweep_from (MemoryLeakProgressive.stack_garbage w) []
                    (Nat.min (S k) 25) (30 - Nat.min (S k) 25)))).
  { intros j Hj Hz. apply sweep_from_reach; [lia | exact Hz]. }
  assert (Hin : forall e,
             In e (sweep_from (MemoryLeakProgressive.stack_garbage w) []
                     (Nat.min (S k) 25) (30 - Nat.min (S k) 25)) ->
             In e (pre ++ flat_map (fun j => [Load j (MemoryLeakProgressive.malloc_ret w j);
                                              Free (MemoryLeakProgressive.malloc_ret w j)])
                           (seq 0 k)
                       ++ (if (k <? 25)%nat then [Load k 0] else [])
                       ++ sweep_from (MemoryLeakProgressive.stack_garbage w) []
                            (Nat.min (S k) 25) (30 - Nat.min (S k) 25))).
  { intros e He. apply in_or_app. right. apply in_or_app. right. apply in_or_app. now right. }
  split; [| split].
  - intros m Hm. rewrite !count_app, (Ps m Hm), sweep_from_count by reflexivity.
    destruct (held_sweep_effects (MemoryLeakProgressive.malloc_ret w) (seq 0 k))
      as (_ & _ & _ & _ & F5).
    cbv zeta in F5. rewrite F5 by reflexivity.
    destruct (Nat.ltb_spec k 25) as [Hlt | Hge]; reflexivity.
  - destruct (Hreach (Nat.min (S k) 25) ltac:(lia) ltac:(intros m Hm; lia)) as [H1 H2].
    split; [apply Hin, H1 | destruct H2 as [H2 | H2]; [now left | right; apply Hin, H2]].
  - intros j Hj Hz. destruct (Hreach j Hj Hz) as [H1 H2].
    split; [apply Hin, H1 | destruct H2 as [H2 | H2]; [now left | right; apply Hin, H2]].
Qed.

(** C9 at three runs.  When the fourth allocation fails and the stack
    left NULL in every cell, the cleanup reads cell 4, the first never
    written, and goes on to cell 29.  When it left a stale word in every
    cell, the cleanup reads cell 4 and passes the word to [free].  When
    all 25 allocations succeed and only cell 25 holds a stale word, the
    cleanup reads cell 25 and passes the word to [free]. *)
Lemma C9_cleanup_reads_uninitialised_cells_witness :
  (In (Load 4 0)
      (MemoryLeakProgressive.trace
         (snd (MemoryLeakProgressive.main MemoryLeakProgressive.fails_at_3))) /\
   In (Load 29 0)
      (MemoryLeakProgressive.trace
         (snd (MemoryLeakProgressive.main MemoryLeakProgressive.fails_at_3)))) /\
  (In (Load 4 140737488355360)
      (MemoryLeakProgressive.trace
         (snd (MemoryLeakProgressive.main MemoryLeakProgressive.fails_at_3_stale))) /\
   In (Free 140737488355360)
      (MemoryLeakProgressive.trace
         (snd (MemoryLeakProgressive.main MemoryLeakProgressive.fails_at_3_stale)))) /\
  (In (Load 25 3735928559)
      (MemoryLeakProgressive.trace
         (snd (MemoryLeakProgressive.main MemoryLeakProgressive.stale_slot_25))) /\
   In (Free 3735928559)
      (MemoryLeakProgressive.trace
         (snd (MemoryLeakProgressive.main MemoryLeakProgressive.stale_slot_25)))).
Proof.
  split; [| split].
  - destruct (C9_cleanup_reads_uninitialised_cells MemoryLeakProgressive.fails_at_3)
      as (_ & _ & (H4 & _) & Hlater).
    split; [exact H4 |].
    refine (proj1 (Hlater 29%nat _ _)).
    + split; [vm_compute; lia | lia].
    + intros m Hm. reflexivity.
  - destruct (C9_cleanup_reads_uninitialised_cells MemoryLeakProgressive.fails_at_3_stale)
      as (_ & _ & (H4 & [E | Hf]) & _).
    + discriminate E.
    + split; [exact H4 | exact Hf].
  - destruct (C9_cleanup_reads_uninitialised_cells MemoryLeakProgressive.stale_slot_25)
      as (_ & _ & (H25 & [E | Hf]) & _).
    + discriminate E.
    + split; [exact H25 | exact Hf].
Defined.

(** C9 as the claim states it fails: on the run where all 25
    allocations succeed and the stack left a stale word in the cell that
    becomes [allocations[25]], the cleanup loop reads the cells 0 to 25
    and no other; its last action is the call of [free] on the stale
    word, which is not defined, and the run has no exit code. *)
Lemma C9_stale_word_ends_the_cleanup :
  pick cell_loaded
    (MemoryLeakProgressive.trace
       (snd (MemoryLeakProgressive.main MemoryLeakProgressive.stale_slot_25)))
    = seq 0 26 /\
  last (MemoryLeakProgressive.trace
          (snd (MemoryLeakProgressive.main MemoryLeakProgressive.stale_slot_25)))
    = Some (Free 3735928559) /\
  is_block 3735928559
    (removelast (MemoryLeakProgressive.trace
                   (snd (MemoryLeakProgressive.main MemoryLeakProgressive.stale_slot_25))))
    = false /\
  fst (MemoryLeakProgressive.main MemoryLeakProgressive.stale_slot_25) = None.
Proof.
  refine (conj _ (conj _ (conj _ _))); vm_compute; reflexivity.
Qed.

(** X9 (memory_leak_progressive.c).  What the cleanup loop frees, and
    how the run ends.  Let call [k] of [malloc] be the first that fails
    ([k = 25]: none fails).  The program has then obtained the blocks of
    the calls before [k], and its cleanup loop frees exactly these, in
    the order obtained.  Behind them come the array cells the leak loop
    never wrote, which still hold what the stack held at entry: when
    they all hold NULL the run returns 0 with every block freed;
    otherwise the first word among them that is not NULL is passed to
    [free], a call that is not defined, and the run ends there without
    an exit code. *)
Theorem X9_leak_cleanup_ends_at_first_stale_word
    (w : MemoryLeakProgressive.world) (k : nat)
    (bound : (k <= 25)%nat)
    (ok : forall j, (j < k)%nat -> MemoryLeakProgressive.malloc_ret w j <> 0)
    (failed : (k < 25)%nat -> MemoryLeakProgressive.malloc_ret w k = 0) :
  let t := MemoryLeakProgressive.trace (snd (MemoryLeakProgressive.main w)) in
  let word :=
    List.find (fun p => negb (p =? 0))
      (map (MemoryLeakProgressive.stack_garbage w)
           (seq (Nat.min (S k) 25) (30 - Nat.min (S k) 25))) in
  pick block_obtained t = map (MemoryLeakProgressive.malloc_ret w) (seq 0 k) /\
  pick block_freed t =
    map (MemoryLeakProgressive.malloc_ret w) (seq 0 k)
      ++ match word with Some p => [p] | None => [] end /\
  fst (MemoryLeakProgressive.main w) = match word with Some _ => None | None => Some 0 end.
Proof. exact (leak_run_effects w k bound ok failed). Qed.

(** X9 at two runs in which the fourth allocation fails: with NULL in
    every cell the leak loop did not write, and with a stale word in
    each of them. *)
Lemma X9_leak_cleanup_ends_at_first_stale_word_witness :
  (pick block_obtained
     (MemoryLeakProgressive.trace (snd (MemoryLeakProgressive.main MemoryLeakProgressive.fails_at_3)))
     = [4096; 8192; 12288] /\
   pick block_freed
     (MemoryLeakProgressive.trace (snd (MemoryLeakProgressive.main MemoryLeakProgressive.fails_at_3)))
     = [4096; 8192; 12288] ++ [] /\
   fst (MemoryLeakProgressive.main MemoryLeakProgressive.fails_at_3) = Some 0) /\
  (pick block_obtained
     (MemoryLeakProgressive.trace
        (snd (MemoryLeakProgressive.main MemoryLeakProgressive.fails_at_3_stale)))
     = [4096; 8192; 12288] /\
   pick block_freed
     (MemoryLeakProgressive.trace
        (snd (MemoryLeakProgressive.main MemoryLeakProgressive.fails_at_3_stale)))
     = [4096; 8192; 12288] ++ [140737488355360] /\
   fst (MemoryLeakProgressive.main MemoryLeakProgressive.fails_at_3_stale) = None).
Proof.
  split.
  - apply (X9_leak_cleanup_ends_at_first_stale_word MemoryLeakProgressive.fails_at_3 3).
    + lia.
    + intros j Hj. destruct j as [|[|[|j]]]; [discriminate | discriminate | discriminate | lia].
    + reflexivity.
  - apply (X9_leak_cleanup_ends_at_first_stale_word MemoryLeakProgressive.fails_at_3_stale 3).
    + lia.
    + intros j Hj. destruct j as [|[|[|j]]]; [discriminate | discriminate | discriminate | lia].
    + reflexivity.
Defined.

(** X10 (memory_leak_progressive.c).  In every run the total the
    program keeps and reports at the end ([Total Memory Leaked]) is the
    sum of the sizes of the blocks it obtained; it never exceeds 1625 MB,
    so the [size_t] does not wrap. *)
Theorem X10_leak_total_is_what_was_obtained (w : MemoryLeakProgressive.world) :
  let s := snd (MemoryLeakProgressive.main w) in
  MemoryLeakProgressive.total_allocated s
    = sum_list (leaked_sizes (MemoryLeakProgressive.trace s)) /\
  0 <= MemoryLeakProgressive.total_allocated s <= 1625 * MemoryLeakProgressive.MB /\
  In (Print Stdout "Total Memory Leaked: %zu MB"
        [sum_list (leaked_sizes (MemoryLeakProgressive.trace s)) / MemoryLeakProgressive.MB])
     (MemoryLeakProgressive.trace s).
Proof.
  intros s. subst s. unfold MemoryLeakProgressive.main; cbn [snd].
  unfold MemoryLeakProgressive.leak_phase.
  destruct (leak_loop_total w
              (MemoryLeakProgressive.emit
                 [Print Stdout "Phase 1/2: Starting memory leak..." []]
                 (MemoryLeakProgressive.emit MemoryLeakProgressive.banner
                    (MemoryLeakProgressive.init w))) eq_refl eq_refl) as (Ht & Hb).
  revert Ht Hb. generalize (for_loop (MemoryLeakProgressive.leak_body w) 0 25
              (MemoryLeakProgressive.emit
                 [Print Stdout "Phase 1/2: Starting memory leak..." []]
                 (MemoryLeakProgressive.emit MemoryLeakProgressive.banner
                    (MemoryLeakProgressive.init w)))).
  intros s1 Ht Hb.
  assert (Etot : MemoryLeakProgressive.total_allocated
                   (MemoryLeakProgressive.cleanup_phase (MemoryLeakProgressive.hold_phase s1))
                 = MemoryLeakProgressive.total_allocated s1).
  { rewrite leak_cleanup_total. destruct (leak_hold_spec s1) as (rest & _ & ->). reflexivity. }
  assert (Esz : leaked_sizes (MemoryLeakProgressive.trace
                   (MemoryLeakProgressive.cleanup_phase (MemoryLeakProgressive.hold_phase s1)))
                = leaked_sizes (MemoryLeakProgressive.trace s1)).
  { destruct (leak_after_attack s1) as (ext & -> & Hq & _).
    rewrite leaked_sizes_app. unfold leaked_sizes at 2.
    rewrite (malloc_calls_none MemoryLeakProgressive.no_call ext no_call_not_malloc Hq).
    cbn. now rewrite app_nil_r. }
  rewrite Etot, Esz. split; [exact Ht | split; [exact Hb|]].
  rewrite <- Ht.
  destruct (leak_cleanup_extends (MemoryLeakProgressive.hold_phase s1)) as (ext & -> & _).
  apply in_or_app. left. cbn [MemoryLeakProgressive.emit MemoryLeakProgressive.trace].
  apply in_or_app. left. apply leak_hold_reports.
Qed.

(** ** ML test patterns *)

Lemma idle_not_malloc e : idle e = true -> is_malloc e = false.
Proof. now destruct e. Qed.

Lemma idle_not_filled e : idle e = true -> block_filled e = None.
Proof. now destruct e. Qed.

Lemma idle_not_sized e : idle e = true -> block_sized e = None.
Proof. now destruct e. Qed.

Lemma idle_not_obtained e : idle e = true -> block_obtained e = None.
Proof. now destruct e. Qed.

Lemma idle_not_freed e : idle e = true -> block_freed e = None.
Proof. now destruct e. Qed.

Section MlPatternFacts.
Import MlTestPattern.
Variables (w : world) (B : Z).
Hypothesis pass_cost : forall k, 1 <= pass_ticks w k <= B.

(** The busy loop ends at the first reading of the clock that is not
    below [end_], less than one pass after it, and touches nothing but
    the clock. *)
Lemma ml_burn_spec (fuel : nat) :
  forall (end_ : Z) (s : state),
    cpu s < end_ + B ->
    end_ - cpu s <= Z.of_nat fuel ->
    exists s',
      burn w fuel end_ s = Some s' /\
      only_burnt s s' /\
      Z.max end_ (cpu s) <= cpu s' < end_ + B /\
      (end_ <= cpu s -> s' = s).
Proof.
  induction fuel as [|fuel IH]; intros end_ s Hlt Hfuel.
  - cbn [burn]. destruct (Z.ltb_spec (cpu s) end_); [lia|].
    exists s. unfold only_burnt. repeat split; lia.
  - cbn [burn]. destruct (Z.ltb_spec (cpu s) end_) as [Hc | Hc].
    + pose proof (pass_cost (passes s)) as Hb.
      destruct (IH end_ (one_pass w s)) as (s' & E & Ho & Hr & _).
      * cbn [one_pass cpu]. lia.
      * cbn [one_pass cpu]. lia.
      * exists s'. cbn [one_pass cpu] in Hr.
        split; [exact E | split; [exact Ho | split; lia]].
    + exists s. unfold only_burnt. repeat split; lia.
Qed.

Lemma cpu_burst_spec (fuel : nat) (ms : Z) (s : state) :
  ticks_of w ms <= Z.of_nat fuel ->
  exists s',
    cpu_burst w fuel ms s = Some s' /\
    only_burnt s s' /\
    (ticks_of w ms <= 0 -> s' = s) /\
    (0 <= ticks_of w ms ->
     ticks_of w ms <= cpu s' - cpu s <= ticks_of w ms + (B - 1)).
Proof.
  intros Hfuel. unfold cpu_burst. cbv zeta.
  pose proof (pass_cost 0%nat) as HB.
  destruct (Z.le_gt_cases (ticks_of w ms) 0) as [Hneg | Hpos].
  - destruct fuel as [|fuel]; cbn [burn];
      (destruct (Z.ltb_spec (cpu s) (cpu s + ticks_of w ms)); [lia|]);
      exists s; unfold only_burnt; repeat split; lia.
  - destruct (ml_burn_spec fuel (cpu s + ticks_of w ms) s) as (s' & E & Ho & Hr & _);
      [lia | lia |].
    exists s'. split; [exact E | split; [exact Ho | split; lia]].
Qed.

(** A turn of the patterns 1, 2 and 4: a line, a burst, a second
    asleep. *)
Lemma burst_turn_spec (fuel : nat) (line : event) (ms : Z) (s : state) :
  0 <= ticks_of w ms <= Z.of_nat fuel ->
  exists s',
    burst_turn w fuel line ms s = Some s' /\
    ptrs s' = ptrs s /\ mem_ptr s' = mem_ptr s /\ mallocs s' = mallocs s /\
    slept s' = slept s + sec 1 /\
    trace s' = trace s ++ [line; Sleep (sec 1)] /\
    ticks_of w ms <= cpu s' - cpu s <= ticks_of w ms + (B - 1).
Proof.
  intros Hms. unfold burst_turn.
  destruct (cpu_burst_spec fuel ms (emit [line] s)) as (s' & E & Ho & _ & Hc); [lia|].
  rewrite E. eexists. split; [reflexivity|].
  destruct Ho as (Hp & Hm & Hn & Hs & Ht).
  cbn [sleep_ emit ptrs mem_ptr mallocs slept trace cpu] in *.
  rewrite Hp, Hm, Hn, Hs, Ht, <- app_assoc.
  repeat split; try reflexivity; apply Hc; lia.
Qed.

(** A loop of such turns. *)
Lemma burst_loop_spec (fuel : nat) (fmt : nat -> string) (args : nat -> list Z)
    (ms : nat -> Z) (body : nat -> state -> option state) :
  (forall i s, body i s = burst_turn w fuel (Print Stdout (fmt i) (args i)) (ms i) s) ->
  forall n i s,
    (forall j, (i <= j < i + n)%nat -> 0 <= ticks_of w (ms j) <= Z.of_nat fuel) ->
    exists s',
      repeat_ body i n s = Some s' /\
      ptrs s' = ptrs s /\ mem_ptr s' = mem_ptr s /\ mallocs s' = mallocs s /\
      slept s' = slept s + sec (Z.of_nat n) /\
      planned w ms i n <= cpu s' - cpu s <= planned w ms i n + Z.of_nat n * (B - 1) /\
      exists ext, trace s' = trace s ++ ext /\ forallb idle ext = true.
Proof.
  intros Hbody. induction n as [|n IH]; intros i s Hms.
  - exists s. cbn [repeat_ planned]. unfold sec. repeat split; try lia.
    exists []. now rewrite app_nil_r.
  - cbn [repeat_ planned]. rewrite Hbody.
    destruct (burst_turn_spec fuel (Print Stdout (fmt i) (args i)) (ms i) s)
      as (s1 & E & Hp & Hm & Hn & Hs & Ht & Hc); [apply Hms; lia|].
    rewrite E.
    destruct (IH (S i) s1) as (s' & E' & Hp' & Hm' & Hn' & Hs' & Hc' & ext & Ht' & Hq).
    { intros j Hj. apply Hms. lia. }
    exists s'. split; [exact E'|].
    rewrite Hp', Hm', Hn', Hs', Hp, Hm, Hn, Hs. unfold sec in *.
    split; [reflexivity | split; [reflexivity | split; [reflexivity | split; [lia|]]]].
    split; [lia|].
    exists (Print Stdout (fmt i) (args i) :: Sleep (1 * 1000000) :: ext).
    rewrite Ht', Ht, <- app_assoc. split; [reflexivity | exact Hq].
Qed.

(** Invariant rule for a loop whose body may run out of fuel. *)
Lemma ml_repeat_rule (P : nat -> state -> Prop) (body : nat -> state -> option state)
    (n : nat) :
  forall i s,
    P i s ->
    (forall j t, (i <= j < i + n)%nat -> P j t ->
                 exists t', body j t = Some t' /\ P (S j) t') ->
    exists s', repeat_ body i n s = Some s' /\ P (i + n)%nat s'.
Proof using Type.
  induction n as [|n IH]; intros i s Hs Hbody; cbn [repeat_].
  - exists s. now rewrite Nat.add_0_r.
  - destruct (Hbody i s ltac:(lia) Hs) as (t' & E & Ht'). rewrite E.
    destruct (IH (S i) t' Ht') as (s' & E' & Hs').
    + intros j t Hj. apply Hbody. lia.
    + exists s'. split; [exact E'|]. now replace (i + S n)%nat with (S i + n)%nat by lia.
Qed.

Lemma planned_snoc (ms : nat -> Z) (n : nat) :
  forall i, planned w ms i (S n) = planned w ms i n + ticks_of w (ms (i + n)%nat).
Proof using Type.
  induction n as [|n IH]; intros i.
  - cbn [planned]. rewrite Nat.add_0_r. lia.
  - change (planned w ms i (S (S n))) with (ticks_of w (ms i) + planned w ms (S i) (S n)).
    rewrite IH. cbn [planned]. replace (S i + n)%nat with (i + S n)%nat by lia. lia.
Qed.

Hypothesis rate_pos : 0 < CLOCKS_PER_SEC w.
Variable fuel : nat.
Hypothesis enough_fuel : ticks_of w 800 <= Z.of_nat fuel.

Lemma ticks_of_range (ms : Z) : 0 <= ms <= 800 -> 0 <= ticks_of w ms <= Z.of_nat fuel.
Proof using rate_pos enough_fuel.
  intros Hms. unfold ticks_of in *. split.
  - apply Z.quot_pos; nia.
  - etransitivity; [| exact enough_fuel]. apply Z.quot_le_mono; nia.
Qed.

(** Pattern 1: twenty turns, the burst growing by 25 ms a turn. *)
Lemma gradual_pattern_spec (s : state) :
  exists s',
    gradual_pattern w fuel s = Some s' /\
    slept s' = slept s + sec 20 /\
    planned w (fun i => 50 + Z.of_nat i * 25) 0 20 <= cpu s' - cpu s
      <= planned w (fun i => 50 + Z.of_nat i * 25) 0 20 + 20 * (B - 1) /\
    exists ext, trace s' = trace s ++ ext /\ forallb idle ext = true.
Proof using pass_cost rate_pos enough_fuel.
  unfold gradual_pattern.
  match goal with |- context [repeat_ _ _ _ ?x] => set (s0 := x) end.
  destruct (burst_loop_spec fuel
              (fun _ => "Iteration %d: CPU load %d%%"%string)
              (fun i => [Z.of_nat i + 1; (Z.of_nat i + 1) * 5])
              (fun i => 50 + Z.of_nat i * 25)
              (gradual_body w fuel) (fun i s => eq_refl) 20 0%nat s0)
    as (s' & E & _ & _ & _ & Hs & Hc & ext & Ht & Hq).
  { intros j Hj. apply ticks_of_range. lia. }
  exists s'. split; [exact E|]. subst s0. cbn [emit slept cpu trace] in Hs, Hc, Ht.
  split; [exact Hs | split; [exact Hc|]].
  eexists. rewrite Ht, <- app_assoc. split; [reflexivity|]. cbn [app forallb idle]. exact Hq.
Qed.

(** Pattern 2: fifteen turns of 50 ms, the eighth of 800 ms. *)
Lemma spike_pattern_spec (s : state) :
  exists s',
    spike_pattern w fuel s = Some s' /\
    slept s' = slept s + sec 15 /\
    14 * ticks_of w 50 + ticks_of w 800 <= cpu s' - cpu s
      <= 14 * ticks_of w 50 + ticks_of w 800 + 15 * (B - 1) /\
    exists ext, trace s' = trace s ++ ext /\ forallb idle ext = true.
Proof using pass_cost rate_pos enough_fuel.
  unfold spike_pattern.
  match goal with |- context [repeat_ _ _ _ ?x] => set (s0 := x) end.
  destruct (burst_loop_spec fuel
              (fun i => if Nat.eqb i 7 then "!!! SUDDEN SPIKE at iteration %d !!!"%string
                        else "Iteration %d: Normal load"%string)
              (fun i => [Z.of_nat i + 1])
              (fun i => if Nat.eqb i 7 then 800 else 50)
              (spike_body w fuel)) with (n := 15%nat) (i := 0%nat) (s := s0)
    as (s' & E & _ & _ & _ & Hs & Hc & ext & Ht & Hq).
  { intros i t. unfold spike_body. now destruct (Nat.eqb i 7). }
  { intros j Hj. apply ticks_of_range. destruct (Nat.eqb j 7); lia. }
  exists s'. split; [exact E|]. subst s0. cbn [emit slept cpu trace] in Hs, Hc, Ht.
  split; [exact Hs|]. split.
  - cbn [planned Nat.eqb] in Hc. lia.
  - eexists. rewrite Ht, <- app_assoc. split; [reflexivity|]. cbn [app forallb idle]. exact Hq.
Qed.

(** Pattern 4: twenty turns, 600 ms and 50 ms in turn. *)
Lemma oscillating_pattern_spec (s : state) :
  exists s',
    oscillating_pattern w fuel s = Some s' /\
    slept s' = slept s + sec 20 /\
    10 * ticks_of w 600 + 10 * ticks_of w 50 <= cpu s' - cpu s
      <= 10 * ticks_of w 600 + 10 * ticks_of w 50 + 20 * (B - 1) /\
    exists ext, trace s' = trace s ++ ext /\ forallb idle ext = true.
Proof using pass_cost rate_pos enough_fuel.
  unfold oscillating_pattern.
  match goal with |- context [repeat_ _ _ _ ?x] => set (s0 := x) end.
  destruct (burst_loop_spec fuel
              (fun i => if Nat.eqb (i mod 2) 0 then "Iteration %d: HIGH CPU load"%string
                        else "Iteration %d: LOW CPU load"%string)
              (fun i => [Z.of_nat i + 1])
              (fun i => if Nat.eqb (i mod 2) 0 then 600 else 50)
              (oscillating_body w fuel)) with (n := 20%nat) (i := 0%nat) (s := s0)
    as (s' & E & _ & _ & _ & Hs & Hc & ext & Ht & Hq).
  { intros i t. unfold oscillating_body. now destruct (Nat.eqb (i mod 2) 0). }
  { intros j Hj. apply ticks_of_range. destruct (Nat.eqb (j mod 2) 0); lia. }
  exists s'. split; [exact E|]. subst s0. cbn [emit slept cpu trace] in Hs, Hc, Ht.
  split; [exact Hs|]. split.
  - cbn in Hc. lia.
  - eexists. rewrite Ht, <- app_assoc. split; [reflexivity|]. cbn [app forallb idle]. exact Hq.
Qed.

End MlPatternFacts.

(** X11 (ml_test_pattern.c, [cpu_burst]).  On a clock that every pass
    of the busy loop advances by 1 to [B] ticks, [cpu_burst (ms)] returns
    after it has burnt the [ms * CLOCKS_PER_SEC / 1000] ticks asked for,
    overshooting by less than one pass, and touches nothing but the clock.
    When that number is not positive (a duration of 0, or a negative one)
    it returns at once, the state unchanged. *)
Theorem X11_cpu_burst_duration
    (w : MlTestPattern.world) (B : Z) (fuel : nat) (ms : Z) (s : MlTestPattern.state)
    (pass_cost : forall k, 1 <= MlTestPattern.pass_ticks w k <= B)
    (enough_fuel : MlTestPattern.ticks_of w ms <= Z.of_nat fuel) :
  exists s',
    MlTestPattern.cpu_burst w fuel ms s = Some s' /\
    MlTestPattern.only_burnt s s' /\
    (MlTestPattern.ticks_of w ms <= 0 -> s' = s) /\
    (0 <= MlTestPattern.ticks_of w ms ->
     MlTestPattern.ticks_of w ms
       <= MlTestPattern.cpu s' - MlTestPattern.cpu s
       <= MlTestPattern.ticks_of w ms + (B - 1)).
Proof. exact (cpu_burst_spec w B pass_cost fuel ms s enough_fuel). Qed.

Lemma X11_cpu_burst_duration_witness :
  exists s',
    MlTestPattern.cpu_burst MlTestPattern.steady (Z.to_nat 50000) 50
      (MlTestPattern.init MlTestPattern.steady 0) = Some s' /\
    MlTestPattern.only_burnt (MlTestPattern.init MlTestPattern.steady 0) s' /\
    (MlTestPattern.ticks_of MlTestPattern.steady 50 <= 0 ->
     s' = MlTestPattern.init MlTestPattern.steady 0) /\
    (0 <= MlTestPattern.ticks_of MlTestPattern.steady 50 ->
     MlTestPattern.ticks_of MlTestPattern.steady 50
       <= MlTestPattern.cpu s' - MlTestPattern.cpu (MlTestPattern.init MlTestPattern.steady 0)
       <= MlTestPattern.ticks_of MlTestPattern.steady 50 + (2 - 1)).
Proof.
  apply (X11_cpu_burst_duration MlTestPattern.steady 2 (Z.to_nat 50000) 50
           (MlTestPattern.init MlTestPattern.steady 0)).
  - intros k. cbn. lia.
  - change (MlTestPattern.ticks_of MlTestPattern.steady 50) with 50000. lia.
Defined.

(** X12 (ml_test_pattern.c, patterns 1, 2 and 4).  On such a clock, with
    a positive clock rate, each of the three CPU patterns returns 0 after
    one second of sleep per turn (20, 15 and 20 seconds), calls [malloc]
    never, and burns at least the processor time its bursts ask for --
    pattern 1: 50 ms growing by 25 ms a turn (5.75 s at the POSIX rate);
    pattern 2: fourteen bursts of 50 ms and one of 800 ms; pattern 4: ten
    of 600 ms and ten of 50 ms -- overshooting each burst by less than one
    pass. *)
Theorem X12_cpu_patterns_timing
    (w : MlTestPattern.world) (B cpu0 : Z) (fuel : nat) (argv : list string)
    (rate_pos : 0 < MlTestPattern.CLOCKS_PER_SEC w)
    (pass_cost : forall k, 1 <= MlTestPattern.pass_ticks w k <= B)
    (enough_fuel : MlTestPattern.ticks_of w 800 <= Z.of_nat fuel) :
  (MlTestPattern.pattern_of argv = 1 ->
   exists s,
     MlTestPattern.main w fuel cpu0 argv = Some (0, s) /\
     MlTestPattern.slept s = sec 20 /\
     MlTestPattern.planned w (fun i => 50 + Z.of_nat i * 25) 0 20
       <= MlTestPattern.cpu s - cpu0
       <= MlTestPattern.planned w (fun i => 50 + Z.of_nat i * 25) 0 20 + 20 * (B - 1) /\
     (MlTestPattern.CLOCKS_PER_SEC w = 1000000 ->
      MlTestPattern.planned w (fun i => 50 + Z.of_nat i * 25) 0 20 = 5750000) /\
     malloc_calls (MlTestPattern.trace s) = []) /\
  (MlTestPattern.pattern_of argv = 2 ->
   exists s,
     MlTestPattern.main w fuel cpu0 argv = Some (0, s) /\
     MlTestPattern.slept s = sec 15 /\
     14 * MlTestPattern.ticks_of w 50 + MlTestPattern.ticks_of w 800
       <= MlTestPattern.cpu s - cpu0
       <= 14 * MlTestPattern.ticks_of w 50 + MlTestPattern.ticks_of w 800 + 15 * (B - 1) /\
     malloc_calls (MlTestPattern.trace s) = []) /\
  (MlTestPattern.pattern_of argv = 4 ->
   exists s,
     MlTestPattern.main w fuel cpu0 argv = Some (0, s) /\
     MlTestPattern.slept s = sec 20 /\
     10 * MlTestPattern.ticks_of w 600 + 10 * MlTestPattern.ticks_of w 50
       <= MlTestPattern.cpu s - cpu0
       <= 10 * MlTestPattern.ticks_of w 600 + 10 * MlTestPattern.ticks_of w 50
          + 20 * (B - 1) /\
     malloc_calls (MlTestPattern.trace s) = []).
Proof.
  split; [| split]; intros Hp; unfold MlTestPattern.main; rewrite Hp;
    cbv beta iota delta [MlTestPattern.dispatch].
  - destruct (gradual_pattern_spec w B pass_cost rate_pos fuel enough_fuel
                (MlTestPattern.emit MlTestPattern.banner (MlTestPattern.init w cpu0)))
      as (s & E & Hs & Hc & ext & Ht & Hq).
    rewrite E. cbn [MlTestPattern.complete]. eexists. split; [reflexivity|].
    cbn [MlTestPattern.emit MlTestPattern.slept MlTestPattern.cpu MlTestPattern.trace].
    split; [exact Hs | split; [exact Hc | split]].
    + intros Hr. unfold MlTestPattern.planned, MlTestPattern.ticks_of. rewrite Hr.
      reflexivity.
    + rewrite Ht, !malloc_calls_app.
      rewrite (malloc_calls_none idle ext idle_not_malloc Hq). reflexivity.
  - destruct (spike_pattern_spec w B pass_cost rate_pos fuel enough_fuel
                (MlTestPattern.emit MlTestPattern.banner (MlTestPattern.init w cpu0)))
      as (s & E & Hs & Hc & ext & Ht & Hq).
    rewrite E. cbn [MlTestPattern.complete]. eexists. split; [reflexivity|].
    cbn [MlTestPattern.emit MlTestPattern.slept MlTestPattern.cpu MlTestPattern.trace].
    split; [exact Hs | split; [exact Hc |]].
    rewrite Ht, !malloc_calls_app.
    rewrite (malloc_calls_none idle ext idle_not_malloc Hq). reflexivity.
  - destruct (oscillating_pattern_spec w B pass_cost rate_pos fuel enough_fuel
                (MlTestPattern.emit MlTestPattern.banner (MlTestPattern.init w cpu0)))
      as (s & E & Hs & Hc & ext & Ht & Hq).
    rewrite E. cbn [MlTestPattern.complete]. eexists. split; [reflexivity|].
    cbn [MlTestPattern.emit MlTestPattern.slept MlTestPattern.cpu MlTestPattern.trace].
    split; [exact Hs | split; [exact Hc |]].
    rewrite Ht, !malloc_calls_app.
    rewrite (malloc_calls_none idle ext idle_not_malloc Hq). reflexivity.
Qed.

Lemma X12_cpu_patterns_timing_witness :
  (MlTestPattern.pattern_of ["1"%string] = 1 ->
   exists s,
     MlTestPattern.main MlTestPattern.steady (Z.to_nat 800000) 0 ["1"%string] = Some (0, s) /\
     MlTestPattern.slept s = sec 20 /\
     MlTestPattern.planned MlTestPattern.steady (fun i => 50 + Z.of_nat i * 25) 0 20
       <= MlTestPattern.cpu s - 0
       <= MlTestPattern.planned MlTestPattern.steady (fun i => 50 + Z.of_nat i * 25) 0 20
          + 20 * (2 - 1) /\
     (MlTestPattern.CLOCKS_PER_SEC MlTestPattern.steady = 1000000 ->
      MlTestPattern.planned MlTestPattern.steady (fun i => 50 + Z.of_nat i * 25) 0 20
        = 5750000) /\
     malloc_calls (MlTestPattern.trace s) = []) /\
  (MlTestPattern.pattern_of ["1"%string] = 2 ->
   exists s,
     MlTestPattern.main MlTestPattern.steady (Z.to_nat 800000) 0 ["1"%string] = Some (0, s) /\
     MlTestPattern.slept s = sec 15 /\
     14 * MlTestPattern.ticks_of MlTestPattern.steady 50
       + MlTestPattern.ticks_of MlTestPattern.steady 800
       <= MlTestPattern.cpu s - 0
       <= 14 * MlTestPattern.ticks_of MlTestPattern.steady 50
          + MlTestPattern.ticks_of MlTestPattern.steady 800 + 15 * (2 - 1) /\
     malloc_calls (MlTestPattern.trace s) = []) /\
  (MlTestPattern.pattern_of ["1"%string] = 4 ->
   exists s,
     MlTestPattern.main MlTestPattern.steady (Z.to_nat 800000) 0 ["1"%string] = Some (0, s) /\
     MlTestPattern.slept s = sec 20 /\
     10 * MlTestPattern.ticks_of MlTestPattern.steady 600
       + 10 * MlTestPattern.ticks_of MlTestPattern.steady 50
       <= MlTestPattern.cpu s - 0
       <= 10 * MlTestPattern.ticks_of MlTestPattern.steady 600
          + 10 * MlTestPattern.ticks_of MlTestPattern.steady 50 + 20 * (2 - 1) /\
     malloc_calls (MlTestPattern.trace s) = []).
Proof.
  apply (X12_cpu_patterns_timing MlTestPattern.steady 2 0 (Z.to_nat 800000) ["1"%string]).
  - reflexivity.
  - intros k. cbn. lia.
  - change (MlTestPattern.ticks_of MlTestPattern.steady 800) with 800000. lia.
Defined.

Section MlCombinedFacts.
Import MlTestPattern.

Lemma ml_repeat_add (body : nat -> state -> option state) (a b : nat) :
  forall i s,
    repeat_ body i (a + b) s =
      match repeat_ body i a s with
      | Some s' => repeat_ body (i + a) b s'
      | None => None
      end.
Proof.
  induction a as [|a IH]; intros i s.
  - cbn [Nat.add repeat_]. now rewrite Nat.add_0_r.
  - cbn [Nat.add repeat_]. destruct (body i s) as [s1|]; [| reflexivity].
    rewrite IH. now replace (S i + a)%nat with (i + S a)%nat by lia.
Qed.

Lemma ml_repeat_1 (body : nat -> state -> option state) (i : nat) (s : state) :
  repeat_ body i 1 s = body i s.
Proof. cbn [repeat_]. now destruct (body i s). Qed.

Lemma ml_repeat_ext (body body' : nat -> state -> option state) (n : nat) :
  forall i s,
    (forall j t, (i <= j < i + n)%nat -> body j t = body' j t) ->
    repeat_ body i n s = repeat_ body' i n s.
Proof.
  induction n as [|n IH]; intros i s H; [reflexivity|].
  cbn [repeat_]. rewrite H by lia. destruct (body' i s) as [s1|]; [| reflexivity].
  apply IH. intros j t Hj. apply H. lia.
Qed.

Variables (w : world) (B : Z).
Hypothesis pass_cost : forall k, 1 <= pass_ticks w k <= B.
Hypothesis rate_pos : 0 < CLOCKS_PER_SEC w.
Variable fuel : nat.
Hypothesis enough_fuel : ticks_of w 800 <= Z.of_nat fuel.

(** The turns of pattern 5 other than the eleventh. *)
Lemma combined_normal_turns (i n : nat) (s : state) :
  (i + n <= 10 \/ 10 < i)%nat ->
  exists s',
    repeat_ (combined_body w fuel) i n s = Some s' /\
    ptrs s' = ptrs s /\ mem_ptr s' = mem_ptr s /\ mallocs s' = mallocs s /\
    slept s' = slept s + sec (Z.of_nat n) /\
    Z.of_nat n * ticks_of w 100 <= cpu s' - cpu s
      <= Z.of_nat n * ticks_of w 100 + Z.of_nat n * (B - 1) /\
    exists ext, trace s' = trace s ++ ext /\ forallb idle ext = true.
Proof using pass_cost rate_pos enough_fuel.
  intros Hi.
  rewrite (ml_repeat_ext _
             (fun j t => burst_turn w fuel
                           (Print Stdout "Iteration %d: Normal behavior" [Z.of_nat j + 1])
                           100 t)).
  - destruct (burst_loop_spec w B pass_cost fuel
                (fun _ => "Iteration %d: Normal behavior"%string)
                (fun j => [Z.of_nat j + 1])
                (fun _ => 100)
                (fun j t => burst_turn w fuel
                              (Print Stdout "Iteration %d: Normal behavior" [Z.of_nat j + 1])
                              100 t)
                (fun j t => eq_refl) n i s)
      as (s' & E & Hp & Hm & Hn & Hs & Hc & Hext).
    { intros j Hj. apply ticks_of_range; [assumption | assumption | lia]. }
    exists s'. split; [exact E|]. repeat (split; [assumption|]).
    split; [| exact Hext].
    assert (Hpl : forall k j, planned w (fun _ => 100) j k = Z.of_nat k * ticks_of w 100).
    { induction k as [|k IHk]; intros j; [reflexivity|].
      cbn [planned]. rewrite IHk. lia. }
    rewrite Hpl in Hc. exact Hc.
  - intros j t Hj. unfold combined_body.
    destruct (Nat.eqb_spec j 10); [lia | reflexivity].
Qed.

(** The eleventh turn: the burst of 700 ms, then the request for 50
    MB, filled when it is granted. *)
Lemma combined_anomaly_turn (s : state) :
  exists s',
    combined_body w fuel 10 s = Some s' /\
    ptrs s' = ptrs s /\ mem_ptr s' = malloc_ret w (mallocs s) /\
    mallocs s' = S (mallocs s) /\
    slept s' = slept s + sec 1 /\
    ticks_of w 700 <= cpu s' - cpu s <= ticks_of w 700 + (B - 1) /\
    trace s' =
      trace s
        ++ [Print Stdout "!!! ANOMALY: Simultaneous CPU spike + memory surge !!!" [];
            Malloc 52428800 (malloc_ret w (mallocs s))]
        ++ (if malloc_ret w (mallocs s) =? 0 then []
            else [Memset (malloc_ret w (mallocs s)) 170 52428800])
        ++ [Sleep (sec 1)].
Proof using pass_cost rate_pos enough_fuel.
  unfold combined_body. cbn [Nat.eqb].
  match goal with |- context [cpu_burst w fuel 700 ?x] => set (s0 := x) end.
  destruct (cpu_burst_spec w B pass_cost fuel 700 s0) as (s1 & E & Ho & _ & Hc).
  { apply ticks_of_range; [assumption | assumption | lia]. }
  rewrite E. destruct Ho as (Hp & Hm & Hn & Hs & Ht).
  destruct (ticks_of_range w rate_pos fuel enough_fuel 700) as [H700 _]; [lia|].
  specialize (Hc H700). subst s0. cbn [emit ptrs mem_ptr mallocs slept trace cpu] in *.
  unfold allocate_memory. cbv zeta. rewrite Hn.
  destruct (malloc_ret w (mallocs s) =? 0);
    eexists; (split; [reflexivity|]);
    cbn [sleep_ set_mem_ptr emit ptrs mem_ptr mallocs slept trace cpu];
    rewrite ?Hp, ?Hs, ?Ht, <- ?app_assoc; cbn [app];
    repeat split; try reflexivity; lia.
Qed.

Lemma combined_pattern_spec (s : state) :
  exists s' pre mid,
    combined_pattern w fuel s = Some s' /\
    slept s' = slept s + sec 25 /\
    24 * ticks_of w 100 + ticks_of w 700 <= cpu s' - cpu s
      <= 24 * ticks_of w 100 + ticks_of w 700 + 25 * (B - 1) /\
    forallb idle pre = true /\ forallb idle mid = true /\
    trace s' =
      trace s ++ pre
        ++ [Malloc 52428800 (malloc_ret w (mallocs s))]
        ++ (if malloc_ret w (mallocs s) =? 0 then []
            else [Memset (malloc_ret w (mallocs s)) 170 52428800])
        ++ mid
        ++ (if malloc_ret w (mallocs s) =? 0 then []
            else [Free (malloc_ret w (mallocs s))]).
Proof using pass_cost rate_pos enough_fuel.
  unfold combined_pattern.
  match goal with |- context [repeat_ _ _ _ ?x] => set (s0 := x) end.
  change 25%nat with (10 + (1 + 14))%nat. rewrite ml_repeat_add.
  destruct (combined_normal_turns 0 10 s0) as (s1 & E1 & _ & _ & Hn1 & Hs1 & Hc1 & e1 & Ht1 & Hq1);
    [lia|].
  rewrite E1, ml_repeat_add, ml_repeat_1.
  change (0 + 10)%nat with 10%nat. change (10 + 1)%nat with 11%nat.
  destruct (combined_anomaly_turn s1) as (s2 & E2 & _ & Hm2 & _ & Hs2 & Hc2 & Ht2).
  rewrite E2.
  destruct (combined_normal_turns 11 14 s2) as (s3 & E3 & _ & Hm3 & _ & Hs3 & Hc3 & e3 & Ht3 & Hq3);
    [lia|].
  rewrite E3. subst s0. cbn [emit ptrs mem_ptr mallocs slept trace cpu] in *.
  rewrite Hn1 in *. rewrite Hm3, Hm2.
  exists (if malloc_ret w (mallocs s) =? 0 then s3
          else emit [Free (malloc_ret w (mallocs s))] s3).
  exists ([Print Stdout "Pattern 5: Combined CPU + Memory anomaly" [];
           Print Stdout "This creates a complex anomaly for ML to detect." []]
            ++ e1
            ++ [Print Stdout "!!! ANOMALY: Simultaneous CPU spike + memory surge !!!" []]).
  exists (Sleep (sec 1) :: e3).
  split; [reflexivity|].
  assert (Hpre : forallb idle
                   ([Print Stdout "Pattern 5: Combined CPU + Memory anomaly" [];
                     Print Stdout "This creates a complex anomaly for ML to detect." []]
                      ++ e1
                      ++ [Print Stdout "!!! ANOMALY: Simultaneous CPU spike + memory surge !!!" []])
                 = true).
  { rewrite !forallb_app, Hq1. reflexivity. }
  unfold sec in *.
  destruct (malloc_ret w (mallocs s) =? 0);
    cbn [emit slept cpu trace];
    (split; [lia | split; [lia | split; [exact Hpre | split; [exact Hq3 |]]]]);
    rewrite Ht3, Ht2, Ht1; cbn [app]; rewrite <- ?app_assoc; cbn [app];
    rewrite <- ?app_assoc, ?app_nil_r; reflexivity.
Qed.

End MlCombinedFacts.

(** X13 (ml_test_pattern.c, pattern 5).  On such a clock pattern 5
    returns 0 after 25 seconds of sleep and at least 24 bursts of 100 ms
    and one of 700 ms of processor time.  It calls [malloc] exactly once,
    for 50 MB; the block is filled when, and only when, it was obtained
    ([allocate_memory] never writes through NULL), and it is freed before
    the end when, and only when, it was obtained. *)
Theorem X13_combined_pattern_block
    (w : MlTestPattern.world) (B cpu0 : Z) (fuel : nat) (argv : list string)
    (rate_pos : 0 < MlTestPattern.CLOCKS_PER_SEC w)
    (pass_cost : forall k, 1 <= MlTestPattern.pass_ticks w k <= B)
    (enough_fuel : MlTestPattern.ticks_of w 800 <= Z.of_nat fuel)
    (selected : MlTestPattern.pattern_of argv = 5) :
  exists s,
    MlTestPattern.main w fuel cpu0 argv = Some (0, s) /\
    MlTestPattern.slept s = sec 25 /\
    24 * MlTestPattern.ticks_of w 100 + MlTestPattern.ticks_of w 700
      <= MlTestPattern.cpu s - cpu0
      <= 24 * MlTestPattern.ticks_of w 100 + MlTestPattern.ticks_of w 700 + 25 * (B - 1) /\
    malloc_calls (MlTestPattern.trace s) = [(52428800, MlTestPattern.malloc_ret w 0)] /\
    pick block_obtained (MlTestPattern.trace s)
      = (if MlTestPattern.malloc_ret w 0 =? 0 then [] else [MlTestPattern.malloc_ret w 0]) /\
    pick block_filled (MlTestPattern.trace s) = pick block_sized (MlTestPattern.trace s) /\
    pick block_freed (MlTestPattern.trace s) = pick block_obtained (MlTestPattern.trace s).
Proof.
  unfold MlTestPattern.main. rewrite selected.
  cbv beta iota delta [MlTestPattern.dispatch].
  destruct (combined_pattern_spec w B pass_cost rate_pos fuel enough_fuel
              (MlTestPattern.emit MlTestPattern.banner (MlTestPattern.init w cpu0)))
    as (s & pre & mid & E & Hs & Hc & Hpre & Hmid & Ht).
  rewrite E. cbn [MlTestPattern.complete]. eexists. split; [reflexivity|].
  cbn [MlTestPattern.emit MlTestPattern.slept MlTestPattern.cpu MlTestPattern.trace].
  split; [exact Hs | split; [exact Hc|]].
  rewrite Ht.
  change (MlTestPattern.mallocs (MlTestPattern.emit _ _)) with 0%nat.
  change (MlTestPattern.trace (MlTestPattern.emit MlTestPattern.banner _))
    with MlTestPattern.banner.
  rewrite !malloc_calls_app, !pick_app.
  rewrite (malloc_calls_none idle pre idle_not_malloc Hpre).
  rewrite (malloc_calls_none idle mid idle_not_malloc Hmid).
  rewrite !(pick_none _ idle pre idle_not_obtained Hpre).
  rewrite !(pick_none _ idle mid idle_not_obtained Hmid).
  rewrite !(pick_none _ idle pre idle_not_filled Hpre).
  rewrite !(pick_none _ idle mid idle_not_filled Hmid).
  rewrite !(pick_none _ idle pre idle_not_sized Hpre).
  rewrite !(pick_none _ idle mid idle_not_sized Hmid).
  rewrite !(pick_none _ idle pre idle_not_freed Hpre).
  rewrite !(pick_none _ idle mid idle_not_freed Hmid).
  destruct (MlTestPattern.malloc_ret w 0 =? 0) eqn:Ez;
    cbn [MlTestPattern.banner malloc_calls pick block_obtained block_filled block_sized
         block_freed app];
    rewrite ?Ez; repeat split.
Qed.

Lemma X13_combined_pattern_block_witness :
  exists s,
    MlTestPattern.main MlTestPattern.steady (Z.to_nat 800000) 0 ["5"%string] = Some (0, s) /\
    MlTestPattern.slept s = sec 25 /\
    24 * MlTestPattern.ticks_of MlTestPattern.steady 100
      + MlTestPattern.ticks_of MlTestPattern.steady 700
      <= MlTestPattern.cpu s - 0
      <= 24 * MlTestPattern.ticks_of MlTestPattern.steady 100
         + MlTestPattern.ticks_of MlTestPattern.steady 700 + 25 * (2 - 1) /\
    malloc_calls (MlTestPattern.trace s)
      = [(52428800, MlTestPattern.malloc_ret MlTestPattern.steady 0)] /\
    pick block_obtained (MlTestPattern.trace s)
      = (if MlTestPattern.malloc_ret MlTestPattern.steady 0 =? 0 then []
         else [MlTestPattern.malloc_ret MlTestPattern.steady 0]) /\
    pick block_filled (MlTestPattern.trace s) = pick block_sized (MlTestPattern.trace s) /\
    pick block_freed (MlTestPattern.trace s) = pick block_obtained (MlTestPattern.trace s).
Proof.
  apply (X13_combined_pattern_block MlTestPattern.steady 2 0 (Z.to_nat 800000) ["5"%string]).
  - reflexivity.
  - intros k. cbn. lia.
  - change (MlTestPattern.ticks_of MlTestPattern.steady 800) with 800000. lia.
  - reflexivity.
Defined.

(** *** Pattern 3 *)

Lemma pick_flat_map {A B : Type} (f : event -> option A) (g : B -> list event)
    (l : list B) :
  pick f (flat_map g l) = flat_map (fun x => pick f (g x)) l.
Proof.
  induction l as [|x l IH]; [reflexivity|].
  cbn [flat_map]. now rewrite pick_app, IH.
Qed.

Lemma flat_map_single {A B : Type} (g : A -> list B) (h : A -> B) (l : list A) :
  (forall x, In x l -> g x = [h x]) -> flat_map g l = map h l.
Proof.
  induction l as [|x l IH]; intros H; [reflexivity|].
  cbn [flat_map map]. rewrite (H x) by now left.
  cbn [app]. f_equal. apply IH. intros y Hy. apply H. now right.
Qed.

Lemma flat_map_nothing {A B : Type} (g : A -> list B) (l : list A) :
  (forall x, In x l -> g x = []) -> flat_map g l = [].
Proof.
  induction l as [|x l IH]; intros H; [reflexivity|].
  cbn [flat_map]. rewrite (H x) by now left.
  apply IH. intros y Hy. apply H. now right.
Qed.

Lemma malloc_calls_flat_map {B : Type} (g : B -> list event) (l : list B) :
  malloc_calls (flat_map g l) = flat_map (fun x => malloc_calls (g x)) l.
Proof.
  induction l as [|x l IH]; [reflexivity|].
  cbn [flat_map]. now rewrite malloc_calls_app, IH.
Qed.

Section MlLeakPattern.
Import MlTestPattern.
Variable w : world.

Lemma alloc_bytes_eq (i : nat) :
  (i < 20)%nat -> alloc_bytes i = (Z.of_nat i + 1) * 5 * MB.
Proof.
  intros Hi. unfold alloc_bytes, int_mul, int_add, MB.
  rewrite (to_int_small (Z.of_nat i + 1)) by lia.
  rewrite (to_int_small ((Z.of_nat i + 1) * 5)) by lia.
  rewrite (to_int_small ((Z.of_nat i + 1) * 5 * 1024)) by lia.
  rewrite to_int_small by lia.
  rewrite to_size_t_small by lia. lia.
Qed.

(** One turn of the allocation loop. *)
Lemma ml_leak_body_spec (i : nat) (s : state) :
  mallocs s = i ->
  leak_body w i s =
    (if malloc_ret w i =? 0 then Break else Next,
     {| ptrs := <[ i := malloc_ret w i ]> (ptrs s);
        mem_ptr := mem_ptr s;
        mallocs := S i;
        cpu := cpu s;
        passes := passes s;
        slept := if malloc_ret w i =? 0 then slept s else slept s + sec 1;
        trace := trace s ++ (if malloc_ret w i =? 0 then turn_failed i else turn_ok w i) |}).
Proof.
  intros Hm. unfold leak_body, allocate_memory. cbv zeta.
  cbn [emit ptrs mem_ptr mallocs cpu passes slept trace]. rewrite Hm.
  destruct (malloc_ret w i =? 0) eqn:Ez.
  - apply Z.eqb_eq in Ez. rewrite Ez. cbn [Z.eqb].
    unfold set_ptr, emit. cbn [ptrs mem_ptr mallocs cpu passes slept trace].
    rewrite <- !app_assoc. reflexivity.
  - unfold set_ptr, sleep_, emit. cbn [ptrs mem_ptr mallocs cpu passes slept trace].
    rewrite <- !app_assoc. reflexivity.
Qed.

(** The allocation loop, when call [k] is the first to fail ([k = 20]:
    none fails). *)
Lemma ml_leak_loop_shape (k : nat) (s0 : state) :
  (k <= 20)%nat ->
  (forall j, (j < k)%nat -> malloc_ret w j <> 0) ->
  ((k < 20)%nat -> malloc_ret w k = 0) ->
  mallocs s0 = 0%nat ->
  ptrs s0 = map (stack_garbage w) (seq 0 20) ->
  let s1 := for_loop (leak_body w) 0 20 s0 in
  ptrs s1 =
    map (malloc_ret w) (seq 0 k)
      ++ (if (k <? 20)%nat then [0] else [])
      ++ map (stack_garbage w) (seq (Nat.min (S k) 20) (20 - Nat.min (S k) 20)) /\
  slept s1 = slept s0 + sec (Z.of_nat k) /\
  cpu s1 = cpu s0 /\
  trace s1 =
    trace s0 ++ flat_map (turn_ok w) (seq 0 k)
      ++ (if (k <? 20)%nat then turn_failed k else []).
Proof.
  intros Hk Hok Hfail Hm0 Hp0. cbv zeta.
  apply (for_loop_rule
           (fun i s => (i <= k)%nat /\
                       mallocs s = i /\
                       ptrs s =
                         map (malloc_ret w) (seq 0 i)
                           ++ map (stack_garbage w) (seq i (20 - i)) /\
                       slept s = slept s0 + sec (Z.of_nat i) /\
                       cpu s = cpu s0 /\
                       trace s = trace s0 ++ flat_map (turn_ok w) (seq 0 i))).
  - unfold sec. repeat split; try assumption; try lia. cbn. now rewrite app_nil_r.
  - intros j t t' Hj (Hle & Hm & Hp & Hs & Hc & Ht) E.
    rewrite (ml_leak_body_spec j t Hm) in E.
    destruct (malloc_ret w j =? 0) eqn:Hz; [discriminate|].
    apply Z.eqb_neq in Hz.
    assert (Hlt : (j < k)%nat).
    { destruct (Nat.eq_dec j k) as [-> |]; [| lia]. exfalso. apply Hz, Hfail. lia. }
    injection E as <-. cbn [ptrs mallocs slept cpu trace].
    split; [lia | split; [reflexivity | split; [| split; [| split; [exact Hc|]]]]].
    + rewrite Hp, insert_app_r_alt by (rewrite length_map, length_seq; lia).
      rewrite length_map, length_seq, Nat.sub_diag.
      replace (20 - j)%nat with (S (20 - S j)) by lia.
      rewrite (seq_S j 0), map_app, <- app_assoc. reflexivity.
    + rewrite Hs. unfold sec. lia.
    + rewrite Ht, (seq_S j 0), flat_map_app, <- app_assoc. cbn [flat_map Nat.add].
      now rewrite app_nil_r.
  - intros j t t' Hj (Hle & Hm & Hp & Hs & Hc & Ht) E.
    rewrite (ml_leak_body_spec j t Hm) in E. clear Hm.
    destruct (malloc_ret w j =? 0) eqn:Hz; [| discriminate].
    apply Z.eqb_eq in Hz.
    assert (Hjk : j = k).
    { destruct (Nat.eq_dec j k); [assumption|]. exfalso. apply (Hok j); [lia | exact Hz]. }
    subst j. injection E as <-. cbn [ptrs mallocs slept cpu trace].
    destruct (Nat.ltb_spec k 20); [| lia].
    split; [| split; [exact Hs | split; [exact Hc|]]].
    + rewrite Hp, insert_app_r_alt by (rewrite length_map, length_seq; lia).
      rewrite length_map, length_seq, Nat.sub_diag.
      replace (20 - k)%nat with (S (20 - S k)) by lia.
      rewrite Nat.min_l by lia. rewrite Hz. reflexivity.
    + rewrite Ht, <- app_assoc. reflexivity.
  - intros t (Hle & Hm & Hp & Hs & Hc & Ht).
    assert (k = 20)%nat by lia. subst k.
    split; [| split; [exact Hs | split; [exact Hc|]]].
    + rewrite Hp. reflexivity.
    + rewrite Ht. cbn [Nat.ltb Nat.leb]. now rewrite app_nil_r.
Qed.

Lemma triangle_sum (j : nat) :
  2 * sum_list (map (fun i => 5 * (Z.of_nat i + 1)) (seq 0 j))
    = 5 * (Z.of_nat j * (Z.of_nat j + 1)).
Proof.
  induction j as [|j IH]; [reflexivity|].
  rewrite (seq_S j 0), map_app, sum_list_app. cbn [map sum_list fold_right Nat.add].
  nia.
Qed.

(** What a turn shows to each observer. *)
Lemma turn_ok_observed (j : nat) :
  malloc_ret w j <> 0 ->
  pick block_obtained (turn_ok w j) = [malloc_ret w j] /\
  pick block_sized (turn_ok w j) = [(malloc_ret w j, alloc_bytes j)] /\
  pick block_filled (turn_ok w j) = [(malloc_ret w j, alloc_bytes j)] /\
  pick block_freed (turn_ok w j) = [] /\
  malloc_calls (turn_ok w j) = [(alloc_bytes j, malloc_ret w j)] /\
  pick announced (turn_ok w j) =
    [[Z.of_nat j + 1; alloc_bytes j / MB;
      Z.quot ((Z.of_nat j + 1) * (Z.of_nat j + 2)) 2 * 5]].
Proof.
  intros H. apply Z.eqb_neq in H.
  unfold turn_ok, announcement.
  cbn [pick block_obtained block_sized block_filled block_freed malloc_calls announced String.eqb Ascii.eqb Bool.eqb].
  rewrite H. repeat split.
Qed.

Lemma turn_failed_observed (j : nat) :
  pick block_obtained (turn_failed j) = [] /\
  pick block_sized (turn_failed j) = [] /\
  pick block_filled (turn_failed j) = [] /\
  pick block_freed (turn_failed j) = [] /\
  malloc_calls (turn_failed j) = [(alloc_bytes j, 0)] /\
  pick announced (turn_failed j) =
    [[Z.of_nat j + 1; alloc_bytes j / MB;
      Z.quot ((Z.of_nat j + 1) * (Z.of_nat j + 2)) 2 * 5]].
Proof. repeat split. Qed.

(** What the line of turn [j] announces: the size of the request, and
    the sum of the sizes of the requests up to this one. *)
Lemma announcement_args (j : nat) :
  (j < 20)%nat ->
  [Z.of_nat j + 1; alloc_bytes j / MB; Z.quot ((Z.of_nat j + 1) * (Z.of_nat j + 2)) 2 * 5]
    = [Z.of_nat j + 1; 5 * (Z.of_nat j + 1);
       sum_list (map (fun i => 5 * (Z.of_nat i + 1)) (seq 0 (S j)))].
Proof.
  intros Hj. rewrite alloc_bytes_eq by exact Hj. f_equal. f_equal; [| f_equal].
  - unfold MB. rewrite Z.div_mul by lia. lia.
  - pose proof (triangle_sum (S j)) as H. rewrite Nat2Z.inj_succ in H.
    rewrite Z.quot_div_nonneg by nia.
    replace ((Z.of_nat j + 1) * (Z.of_nat j + 2))
      with (Z.succ (Z.of_nat j) * (Z.succ (Z.of_nat j) + 1)) by lia.
    revert H.
    generalize (sum_list (map (fun i => 5 * (Z.of_nat i + 1)) (seq 0 (S j)))).
    generalize (Z.succ (Z.of_nat j) * (Z.succ (Z.of_nat j) + 1)).
    intros m S H. Z.to_euclidean_division_equations. lia.
Qed.

(** One turn of the cleanup loop. *)
Lemma ml_cleanup_body_eq (i : nat) (s : state) :
  cleanup_body i s =
    if cell i s =? 0 then (Next, emit [Load i (cell i s)] s)
    else if holds (heap (trace s)) (cell i s)
         then (Next, emit [Load i (cell i s); Free (cell i s)] s)
         else (Break, emit [Load i (cell i s); Free (cell i s)] s).
Proof.
  unfold cleanup_body, is_block. cbv zeta.
  assert (Hh : heap (trace (emit [Load i (cell i s)] s)) = heap (trace s)).
  { unfold emit; cbn [trace]. unfold heap. now rewrite heap_from_app. }
  rewrite Hh. destruct (cell i s =? 0); [reflexivity|].
  destruct (holds (heap (trace s)) (cell i s));
    unfold emit; cbn [ptrs mem_ptr mallocs cpu passes slept trace];
    now rewrite <- app_assoc.
Qed.

(** The cleanup loop, event by event. *)
Lemma ml_cleanup_loop (n : nat) :
  forall i s,
    slept (for_loop cleanup_body i n s) = slept s /\
    cpu (for_loop cleanup_body i n s) = cpu s /\
    trace (for_loop cleanup_body i n s) =
      trace s ++ sweep_from (fun j => cell j s) (heap (trace s)) i n.
Proof.
  induction n as [|n IH]; intros i s.
  - cbn [for_loop sweep_from]. now rewrite app_nil_r.
  - cbn [for_loop sweep_from]. rewrite ml_cleanup_body_eq.
    destruct (cell i s =? 0) eqn:Ez.
    + destruct (IH (S i) (emit [Load i (cell i s)] s)) as (A & T & Tr).
      rewrite A, T, Tr. split; [reflexivity | split; [reflexivity|]].
      unfold emit; cbn [trace]. unfold heap. rewrite heap_from_app, <- app_assoc.
      reflexivity.
    + destruct (holds (heap (trace s)) (cell i s)) eqn:Eh.
      * destruct (IH (S i) (emit [Load i (cell i s); Free (cell i s)] s)) as (A & T & Tr).
        rewrite A, T, Tr. split; [reflexivity | split; [reflexivity|]].
        unfold emit; cbn [trace]. unfold heap. rewrite heap_from_app, <- app_assoc.
        reflexivity.
      * split; [reflexivity | split; [reflexivity | reflexivity]].
Qed.

Lemma dispatch_3 (fuel : nat) (s : state) :
  dispatch w fuel 3 s = complete (leak_pattern w s).
Proof. reflexivity. Qed.

(** What the turns of the allocation loop show to each observer. *)
Lemma ml_turns_observed (k : nat) :
  (k <= 20)%nat ->
  (forall j, (j < k)%nat -> malloc_ret w j <> 0) ->
  let t := flat_map (turn_ok w) (seq 0 k) ++ (if (k <? 20)%nat then turn_failed k else []) in
  pick block_obtained t = map (malloc_ret w) (seq 0 k) /\
  pick block_freed t = [] /\
  pick block_filled t = pick block_sized t.
Proof.
  intros Hk Hok. cbv zeta.
  assert (Hturns : forall j, In j (seq 0 k) -> malloc_ret w j <> 0).
  { intros j Hj. apply List.in_seq in Hj. apply Hok. lia. }
  rewrite !pick_app, !pick_flat_map.
  rewrite (flat_map_single (fun x => pick block_obtained (turn_ok w x)) (malloc_ret w))
    by (intros j Hj; apply (turn_ok_observed j (Hturns j Hj))).
  rewrite (flat_map_nothing (fun x => pick block_freed (turn_ok w x)))
    by (intros j Hj; apply (turn_ok_observed j (Hturns j Hj))).
  rewrite (flat_map_single (fun x => pick block_filled (turn_ok w x))
             (fun j => (malloc_ret w j, alloc_bytes j)))
    by (intros j Hj; apply (turn_ok_observed j (Hturns j Hj))).
  rewrite (flat_map_single (fun x => pick block_sized (turn_ok w x))
             (fun j => (malloc_ret w j, alloc_bytes j)))
    by (intros j Hj; apply (turn_ok_observed j (Hturns j Hj))).
  destruct (k <? 20)%nat; cbn; rewrite ?app_nil_r; repeat split.
Qed.

(** Pattern 3 up to the end of its cleanup loop, when call [k] of
    [malloc] is the first to fail ([k = 20]: none fails): the
    allocation loop, then one [free] per block obtained, the NULL where
    the allocation loop broke, and the sweep over the cells that were
    never written, with no block left. *)
Lemma ml_pattern3_shape (cpu0 : Z) (k : nat) :
  (k <= 20)%nat ->
  (forall j, (j < k)%nat -> malloc_ret w j <> 0) ->
  ((k < 20)%nat -> malloc_ret w k = 0) ->
  let s := cleanup_loop (leak_loop w (emit banner (init w cpu0))) in
  slept s = sec (Z.of_nat k) /\
  cpu s = cpu0 /\
  exists pre,
    trace s =
      pre ++ flat_map (fun j => [Load j (malloc_ret w j); Free (malloc_ret w j)]) (seq 0 k)
          ++ (if (k <? 20)%nat then [Load k 0] else [])
          ++ sweep_from (stack_garbage w) [] (Nat.min (S k) 20) (20 - Nat.min (S k) 20) /\
    pick block_obtained pre = map (malloc_ret w) (seq 0 k) /\
    pick block_freed pre = [] /\
    pick block_filled pre = pick block_sized pre.
Proof.
  intros Hk Hok Hfail. cbv zeta. unfold leak_loop.
  destruct (ml_leak_loop_shape k
              (emit [Print Stdout "Pattern 3: Memory leak simulation (Anomalous behavior)" [];
                     Print Stdout "This should be detected as ANOMALOUS by ML." []]
                 (emit banner (init w cpu0))) Hk Hok Hfail eq_refl eq_refl)
    as (Hp & Hs & Hc & Ht).
  cbn [emit slept cpu trace init] in Hs, Hc, Ht.
  revert Hp Hs Hc Ht.
  generalize (for_loop (leak_body w) 0 20
                (emit [Print Stdout "Pattern 3: Memory leak simulation (Anomalous behavior)" [];
                       Print Stdout "This should be detected as ANOMALOUS by ML." []]
                   (emit banner (init w cpu0)))).
  intros s1 Hp Hs Hc Ht.
  unfold cleanup_loop.
  match goal with |- context [for_loop cleanup_body 0 20 ?x] => set (s2 := x) end.
  destruct (ml_cleanup_loop 20 0 s2) as (-> & -> & ->).
  split; [subst s2; cbn [emit slept]; rewrite Hs; unfold sec; lia|].
  split; [subst s2; cbn [emit cpu]; exact Hc|].
  destruct (cells_after_loop (malloc_ret w) (stack_garbage w) 20 20 k (ptrs s1)
              ltac:(lia) Hp) as (C1 & C2 & C3).
  destruct (ml_turns_observed k Hk Hok) as (To & Tf & Tfs). cbv zeta in To, Tf, Tfs.
  rewrite !pick_app in To. rewrite !pick_app in Tf. rewrite !pick_app in Tfs.
  set (pre := trace s2).
  assert (Hpre : pre =
            ((banner
                ++ [Print Stdout "Pattern 3: Memory leak simulation (Anomalous behavior)" [];
                    Print Stdout "This should be detected as ANOMALOUS by ML." []])
               ++ (flat_map (turn_ok w) (seq 0 k)
                     ++ (if (k <? 20)%nat then turn_failed k else [])))
              ++ [Print Stdout "Cleaning up memory..." []]).
  { subst pre s2. cbn [emit trace]. now rewrite Ht. }
  assert (Po : pick block_obtained pre = map (malloc_ret w) (seq 0 k)).
  { rewrite Hpre, !pick_app, To. cbn. now rewrite app_nil_r. }
  assert (Pf : pick block_freed pre = []).
  { rewrite Hpre, !pick_app, Tf. reflexivity. }
  assert (Pfs : pick block_filled pre = pick block_sized pre).
  { rewrite Hpre, !pick_app, Tfs. reflexivity. }
  exists pre. split; [| repeat split; assumption]. f_equal.
  destruct (heap_from_obtained pre [] Pf) as [Hheap _].
  unfold heap. rewrite Hheap, Po. cbn [app].
  change (fun j => cell j s2) with (fun j => default 0 (ptrs s1 !! j)).
  set (c := fun j => default 0 (ptrs s1 !! j)).
  replace (map (malloc_ret w) (seq 0 k)) with (map c (seq 0 k) ++ [])
    by (rewrite app_nil_r; apply map_ext_in; intros j Hj; apply List.in_seq in Hj;
        apply C1; lia).
  replace 20%nat with (k + (20 - k))%nat at 1 by lia.
  rewrite sweep_from_held by (intros j Hj; unfold c; rewrite C1 by lia; apply Hok; lia).
  rewrite (flat_map_eq_in (fun j => [Load j (c j); Free (c j)])
             (fun j => [Load j (malloc_ret w j); Free (malloc_ret w j)]))
    by (intros j Hj; apply List.in_seq in Hj; unfold c; now rewrite C1 by lia).
  f_equal. cbn [Nat.add].
  destruct (Nat.ltb_spec k 20) as [Hlt | Hge].
  - replace (Nat.min (S k) 20) with (S k) in * by lia.
    replace (20 - k)%nat with (S (20 - S k)) by lia.
    cbn [sweep_from]. unfold c at 1 2. rewrite (C2 Hlt). cbn [Z.eqb app]. f_equal.
    apply sweep_from_ext. intros j Hj. apply C3. lia.
  - replace (Nat.min (S k) 20) with 20%nat in * by lia.
    assert (k = 20)%nat by lia. subst k. reflexivity.
Qed.

(** What pattern 3 obtains and what it passes to [free], and whether
    all its calls of [free] are defined. *)
Lemma ml_pattern3_effects (cpu0 : Z) (k : nat) :
  (k <= 20)%nat ->
  (forall j, (j < k)%nat -> malloc_ret w j <> 0) ->
  ((k < 20)%nat -> malloc_ret w k = 0) ->
  let s := cleanup_loop (leak_loop w (emit banner (init w cpu0))) in
  let word := List.find (fun p => negb (p =? 0))
                (map (stack_garbage w) (seq (Nat.min (S k) 20) (20 - Nat.min (S k) 20))) in
  slept s = sec (Z.of_nat k) /\
  cpu s = cpu0 /\
  pick block_obtained (trace s) = map (malloc_ret w) (seq 0 k) /\
  pick block_filled (trace s) = pick block_sized (trace s) /\
  pick block_freed (trace s) =
    map (malloc_ret w) (seq 0 k) ++ match word with Some p => [p] | None => [] end /\
  defined (trace s) = match word with Some _ => false | None => true end.
Proof.
  intros Hk Hok Hfail. cbv zeta.
  destruct (ml_pattern3_shape cpu0 k Hk Hok Hfail) as (Hs & Hc & pre & Ht & Po & Pf & Pfs).
  cbv zeta in Hs, Hc, Ht. revert Hs Hc Ht.
  generalize (cleanup_loop (leak_loop w (emit banner (init w cpu0)))).
  intros s Hs Hc ->. split; [exact Hs | split; [exact Hc|]].
  destruct (held_sweep_effects (malloc_ret w) (seq 0 k)) as (F1 & F2 & _).
  destruct (sweep_from_empty (stack_garbage w) (20 - Nat.min (S k) 20) (Nat.min (S k) 20))
    as (S1 & S2 & _ & S4 & _).
  cbv zeta in F1, F2, S1, S2, S4.
  assert (Hquiet : forall (A : Type) (f : event -> option A),
            (forall j v, f (Load j v) = None) -> (forall p, f (Free p) = None) ->
            forall c h n i, pick f (sweep_from c h i n) = []).
  { intros A f Hl Hf c h n. revert h. induction n as [|n IH]; intros h i; [reflexivity|].
    cbn [sweep_from]. destruct (c i =? 0); [| destruct (holds h (c i))];
      cbn [pick]; rewrite ?Hl, ?Hf, ?IH; reflexivity. }
  assert (Hquiet' : forall (A : Type) (f : event -> option A) (c : nat -> Z) (l : list nat),
            (forall j v, f (Load j v) = None) -> (forall p, f (Free p) = None) ->
            pick f (flat_map (fun j => [Load j (c j); Free (c j)]) l) = []).
  { intros A f c l Hl Hf. induction l as [|j l IH]; [reflexivity|].
    cbn [flat_map app pick]. now rewrite Hl, Hf, IH. }
  assert (Z0 : forall (A : Type) (f : event -> option A),
            (forall j v, f (Load j v) = None) ->
            pick f (if (k <? 20)%nat then [Load k 0] else []) = []).
  { intros A f Hl. destruct (k <? 20)%nat; [cbn [pick]; now rewrite Hl | reflexivity]. }
  rewrite !pick_app, Po, Pf, Pfs, F1, F2, S1, S2.
  rewrite !Z0, !Hquiet, !Hquiet' by reflexivity. cbn [app].
  split; [now rewrite !app_nil_r | split; [reflexivity | split; [reflexivity|]]].
  unfold defined. rewrite frees_defined_app.
  destruct (heap_from_obtained pre [] Pf) as [-> ->]. rewrite Po. cbn [app andb].
  rewrite <- (app_nil_r (map (malloc_ret w) (seq 0 k))) at 1.
  rewrite held_sweep_defined, frees_defined_app.
  assert (Z3 : frees_defined [] (if (k <? 20)%nat then [Load k 0] else []) = true)
    by now destruct (k <? 20)%nat.
  assert (Z4 : heap_from [] (if (k <? 20)%nat then [Load k 0] else []) = [])
    by now destruct (k <? 20)%nat.
  rewrite Z3, Z4, S4. cbn [andb]. reflexivity.
Qed.

End MlLeakPattern.

(** X14 (ml_test_pattern.c, pattern 3 and [allocate_memory]).  What
    pattern 3 holds and frees, and how it ends, whatever the clock.  Let
    call [k] of [malloc] be the first that fails ([k = 20]: none fails).
    At the end of the cleanup loop the run has slept [k] seconds; it has
    obtained the blocks of the calls before [k], filled each of them
    over the size asked for and nothing else, and freed exactly these
    blocks, in the order obtained.  Behind them come the cells of
    [ptrs] the allocation loop never wrote, which hold what the stack
    held at entry: when they all hold NULL, the run prints its closing
    line and returns 0; otherwise the first word among them that is not
    NULL is passed to [free], a call that is not defined, and the run
    ends there without an exit code. *)
Theorem X14_pattern3_cleanup_ends_at_first_stale_word
    (w : MlTestPattern.world) (fuel : nat) (cpu0 : Z) (argv : list string) (k : nat)
    (selected : MlTestPattern.pattern_of argv = 3)
    (bound : (k <= 20)%nat)
    (ok : forall j, (j < k)%nat -> MlTestPattern.malloc_ret w j <> 0)
    (failed : (k < 20)%nat -> MlTestPattern.malloc_ret w k = 0) :
  let s := MlTestPattern.cleanup_loop
             (MlTestPattern.leak_loop w
                (MlTestPattern.emit MlTestPattern.banner (MlTestPattern.init w cpu0))) in
  let word :=
    List.find (fun p => negb (p =? 0))
      (map (MlTestPattern.stack_garbage w)
           (seq (Nat.min (S k) 20) (20 - Nat.min (S k) 20))) in
  MlTestPattern.slept s = sec (Z.of_nat k) /\
  MlTestPattern.cpu s = cpu0 /\
  pick block_obtained (MlTestPattern.trace s) = map (MlTestPattern.malloc_ret w) (seq 0 k) /\
  pick block_filled (MlTestPattern.trace s) = pick block_sized (MlTestPattern.trace s) /\
  pick block_freed (MlTestPattern.trace s) =
    map (MlTestPattern.malloc_ret w) (seq 0 k)
      ++ match word with Some p => [p] | None => [] end /\
  MlTestPattern.main w fuel cpu0 argv =
    match word with
    | Some _ => None
    | None =>
        Some (0, MlTestPattern.emit
                   [Print Stdout "Pattern complete! Check the AI Anomaly Detection tab." []] s)
    end.
Proof.
  cbv zeta.
  destruct (ml_pattern3_effects w cpu0 k bound ok failed) as (Hs & Hc & Ho & Hfs & Hf & Hd).
  cbv zeta in Hs, Hc, Ho, Hfs, Hf, Hd.
  unfold MlTestPattern.main. rewrite selected, dispatch_3.
  unfold MlTestPattern.leak_pattern. cbv zeta.
  revert Hs Hc Ho Hfs Hf Hd.
  generalize (MlTestPattern.cleanup_loop
                (MlTestPattern.leak_loop w
                   (MlTestPattern.emit MlTestPattern.banner (MlTestPattern.init w cpu0)))).
  intros s Hs Hc Ho Hfs Hf Hd. rewrite Hd.
  split; [exact Hs | split; [exact Hc | split; [exact Ho | split; [exact Hfs|]]]].
  split; [exact Hf|].
  now destruct (List.find _ _).
Qed.

(** X14 at two runs: out of memory at the fourth allocation with a
    stale word in the stack cell that becomes [ptrs[9]], and with every
    allocation granted. *)
Lemma X14_pattern3_cleanup_ends_at_first_stale_word_witness :
  (let s := MlTestPattern.cleanup_loop
              (MlTestPattern.leak_loop MlTestPattern.tight
                 (MlTestPattern.emit MlTestPattern.banner
                    (MlTestPattern.init MlTestPattern.tight 0))) in
   let word :=
     List.find (fun p => negb (p =? 0))
       (map (MlTestPattern.stack_garbage MlTestPattern.tight)
            (seq (Nat.min 4 20) (20 - Nat.min 4 20))) in
   MlTestPattern.slept s = sec (Z.of_nat 3) /\
   MlTestPattern.cpu s = 0 /\
   pick block_obtained (MlTestPattern.trace s)
     = map (MlTestPattern.malloc_ret MlTestPattern.tight) (seq 0 3) /\
   pick block_filled (MlTestPattern.trace s) = pick block_sized (MlTestPattern.trace s) /\
   pick block_freed (MlTestPattern.trace s) =
     map (MlTestPattern.malloc_ret MlTestPattern.tight) (seq 0 3)
       ++ match word with Some p => [p] | None => [] end /\
   MlTestPattern.main MlTestPattern.tight 0 0 ["3"%string] =
     match word with
     | Some _ => None
     | None =>
         Some (0, MlTestPattern.emit
                    [Print Stdout "Pattern complete! Check the AI Anomaly Detection tab." []] s)
     end) /\
  (let s := MlTestPattern.cleanup_loop
              (MlTestPattern.leak_loop MlTestPattern.steady
                 (MlTestPattern.emit MlTestPattern.banner
                    (MlTestPattern.init MlTestPattern.steady 0))) in
   let word :=
     List.find (fun p => negb (p =? 0))
       (map (MlTestPattern.stack_garbage MlTestPattern.steady)
            (seq (Nat.min 21 20) (20 - Nat.min 21 20))) in
   MlTestPattern.slept s = sec (Z.of_nat 20) /\
   MlTestPattern.cpu s = 0 /\
   pick block_obtained (MlTestPattern.trace s)
     = map (MlTestPattern.malloc_ret MlTestPattern.steady) (seq 0 20) /\
   pick block_filled (MlTestPattern.trace s) = pick block_sized (MlTestPattern.trace s) /\
   pick block_freed (MlTestPattern.trace s) =
     map (MlTestPattern.malloc_ret MlTestPattern.steady) (seq 0 20)
       ++ match word with Some p => [p] | None => [] end /\
   MlTestPattern.main MlTestPattern.steady 0 0 ["3"%string] =
     match word with
     | Some _ => None
     | None =>
         Some (0, MlTestPattern.emit
                    [Print Stdout "Pattern complete! Check the AI Anomaly Detection tab." []] s)
     end).
Proof.
  split.
  - apply (X14_pattern3_cleanup_ends_at_first_stale_word
             MlTestPattern.tight 0 0 ["3"%string] 3).
    + reflexivity.
    + lia.
    + intros j Hj.
      change (MlTestPattern.malloc_ret MlTestPattern.tight j)
        with (if (j <? 3)%nat then 4096 * (1 + Z.of_nat j) else 0).
      destruct (Nat.ltb_spec j 3); lia.
    + reflexivity.
  - apply (X14_pattern3_cleanup_ends_at_first_stale_word
             MlTestPattern.steady 0 0 ["3"%string] 20).
    + reflexivity.
    + lia.
    + intros j Hj.
      change (MlTestPattern.malloc_ret MlTestPattern.steady j) with (4096 * (1 + Z.of_nat j)).
      lia.
    + lia.
Defined.

(** X15 (ml_test_pattern.c, pattern 3).  Every line of the allocation
    loop of pattern 3 tells the truth about the requests: with call [k]
    of [malloc] the first to fail, the loop makes the calls 0 to [k] (0
    to 19 when none fails), call [j] asks for [5 * (j + 1)] MB, and the
    line printed before it announces that size and, as running total,
    the sum of the sizes of all requests up to and including this one --
    granted or not. *)
Theorem X15_pattern3_announces_its_requests
    (w : MlTestPattern.world) (cpu0 : Z) (k : nat)
    (bound : (k <= 20)%nat)
    (ok : forall j, (j < k)%nat -> MlTestPattern.malloc_ret w j <> 0)
    (failed : (k < 20)%nat -> MlTestPattern.malloc_ret w k = 0) :
  let t := MlTestPattern.trace
             (MlTestPattern.leak_loop w
                (MlTestPattern.emit MlTestPattern.banner (MlTestPattern.init w cpu0))) in
  malloc_calls t =
    map (fun j => ((Z.of_nat j + 1) * 5 * MlTestPattern.MB, MlTestPattern.malloc_ret w j))
        (seq 0 (Nat.min (S k) 20)) /\
  pick MlTestPattern.announced t =
    map (fun j => [Z.of_nat j + 1; 5 * (Z.of_nat j + 1);
                   sum_list (map (fun i => 5 * (Z.of_nat i + 1)) (seq 0 (S j)))])
        (seq 0 (Nat.min (S k) 20)).
Proof.
  cbv zeta. unfold MlTestPattern.leak_loop.
  destruct (ml_leak_loop_shape w k
              (MlTestPattern.emit
                 [Print Stdout "Pattern 3: Memory leak simulation (Anomalous behavior)" [];
                  Print Stdout "This should be detected as ANOMALOUS by ML." []]
                 (MlTestPattern.emit MlTestPattern.banner (MlTestPattern.init w cpu0)))
              bound ok failed eq_refl eq_refl)
    as (_ & _ & _ & Ht).
  cbv zeta in Ht. rewrite Ht. clear Ht.
  cbn [MlTestPattern.emit MlTestPattern.trace MlTestPattern.init app].
  assert (Hturns : forall j, In j (seq 0 k) -> MlTestPattern.malloc_ret w j <> 0).
  { intros j Hj. apply List.in_seq in Hj. apply ok. lia. }
  split.
  - rewrite !malloc_calls_app, !malloc_calls_flat_map.
    rewrite (flat_map_single (fun x => malloc_calls (MlTestPattern.turn_ok w x))
               (fun j => (MlTestPattern.alloc_bytes j, MlTestPattern.malloc_ret w j)))
      by (intros j Hj; apply (turn_ok_observed w j (Hturns j Hj))).
    cbn [MlTestPattern.banner malloc_calls app].
    destruct (Nat.ltb_spec k 20) as [Hlt | Hge].
    + rewrite Nat.min_l by lia. rewrite (seq_S k 0), map_app.
      cbn [malloc_calls MlTestPattern.turn_failed MlTestPattern.announcement app map Nat.add].
      rewrite (failed Hlt), alloc_bytes_eq by lia. f_equal.
      apply map_ext_in. intros j Hj. apply List.in_seq in Hj.
      now rewrite alloc_bytes_eq by lia.
    + rewrite Nat.min_r by lia. assert (k = 20)%nat by lia. subst k.
      cbn [malloc_calls app]. rewrite app_nil_r.
      apply map_ext_in. intros j Hj. apply List.in_seq in Hj.
      now rewrite alloc_bytes_eq by lia.
  - rewrite !pick_app, !pick_flat_map.
    rewrite (flat_map_single (fun x => pick MlTestPattern.announced (MlTestPattern.turn_ok w x))
               (fun j => [Z.of_nat j + 1; MlTestPattern.alloc_bytes j / MlTestPattern.MB;
                          Z.quot ((Z.of_nat j + 1) * (Z.of_nat j + 2)) 2 * 5]))
      by (intros j Hj; apply (turn_ok_observed w j (Hturns j Hj))).
    change (pick MlTestPattern.announced MlTestPattern.banner) with (@nil (list Z)).
    change (pick MlTestPattern.announced
              [Print Stdout "Pattern 3: Memory leak simulation (Anomalous behavior)" [];
               Print Stdout "This should be detected as ANOMALOUS by ML." []])
      with (@nil (list Z)).
    cbn [app].
    destruct (Nat.ltb_spec k 20) as [Hlt | Hge].
    + rewrite Nat.min_l by lia. rewrite (seq_S k 0), map_app.
      destruct (turn_failed_observed k) as (_ & _ & _ & _ & _ & ->).
      cbn [app map Nat.add]. rewrite announcement_args by lia. f_equal.
      apply map_ext_in. intros j Hj. apply List.in_seq in Hj.
      now rewrite announcement_args by lia.
    + rewrite Nat.min_r by lia. assert (k = 20)%nat by lia. subst k.
      cbn [pick app]. rewrite app_nil_r.
      apply map_ext_in. intros j Hj. apply List.in_seq in Hj.
      now rewrite announcement_args by lia.
Qed.

(** X15 at a run in which the fourth allocation fails. *)
Lemma X15_pattern3_announces_its_requests_witness :
  let t := MlTestPattern.trace
             (MlTestPattern.leak_loop MlTestPattern.tight
                (MlTestPattern.emit MlTestPattern.banner
                   (MlTestPattern.init MlTestPattern.tight 0))) in
  malloc_calls t =
    map (fun j => ((Z.of_nat j + 1) * 5 * MlTestPattern.MB,
                   MlTestPattern.malloc_ret MlTestPattern.tight j))
        (seq 0 (Nat.min 4 20)) /\
  pick MlTestPattern.announced t =
    map (fun j => [Z.of_nat j + 1; 5 * (Z.of_nat j + 1);
                   sum_list (map (fun i => 5 * (Z.of_nat i + 1)) (seq 0 (S j)))])
        (seq 0 (Nat.min 4 20)).
Proof.
  apply (X15_pattern3_announces_its_requests MlTestPattern.tight 0 3).
  - lia.
  - intros j Hj.
    change (MlTestPattern.malloc_ret MlTestPattern.tight j)
      with (if (j <? 3)%nat then 4096 * (1 + Z.of_nat j) else 0).
    destruct (Nat.ltb_spec j 3); lia.
  - reflexivity.
Defined.


Lemma complete_returns_0 (r : option MlTestPattern.state) (c : Z) (s : MlTestPattern.state) :
  MlTestPattern.complete r = Some (c, s) ->
  c = 0 /\
  last (MlTestPattern.trace s)
    = Some (Print Stdout "Pattern complete! Check the AI Anomaly Detection tab." []).
Proof.
  destruct r as [s0|]; [| discriminate]. cbn [MlTestPattern.complete].
  intros E. injection E as <- <-. split; [reflexivity|].
  cbn [MlTestPattern.emit MlTestPattern.trace]. apply last_snoc.
Qed.

(** X16 (ml_test_pattern.c, [main]).  How the pattern is chosen and what
    the exit code tells.  Without an argument pattern 1 runs.  When the
    number read from the first argument is not one of 1 to 5 (text that is
    no number reads as 0), the program prints its banner and the six
    usage lines and returns 1, having done nothing else.  For the
    patterns 1 to 5 a run that ends returns 0, and its last action is the
    closing line. *)
Theorem X16_pattern_selection
    (w : MlTestPattern.world) (fuel : nat) (cpu0 : Z) (argv : list string) :
  MlTestPattern.pattern_of [] = 1 /\
  (~ 1 <= MlTestPattern.pattern_of argv <= 5 ->
   MlTestPattern.main w fuel cpu0 argv
     = Some (1, MlTestPattern.emit MlTestPattern.usage
                  (MlTestPattern.emit MlTestPattern.banner (MlTestPattern.init w cpu0)))) /\
  (1 <= MlTestPattern.pattern_of argv <= 5 ->
   forall c s,
     MlTestPattern.main w fuel cpu0 argv = Some (c, s) ->
     c = 0 /\
     last (MlTestPattern.trace s)
       = Some (Print Stdout "Pattern complete! Check the AI Anomaly Detection tab." [])).
Proof.
  split; [reflexivity|]. unfold MlTestPattern.main.
  generalize (MlTestPattern.emit MlTestPattern.banner (MlTestPattern.init w cpu0)).
  generalize (MlTestPattern.pattern_of argv). intros p s0. split.
  - intros Hp. destruct p as [|p|p]; [reflexivity | | reflexivity].
    destruct p as [[p|p|]|[p|p|]|]; try reflexivity; try (exfalso; apply Hp; lia);
      destruct p; try reflexivity; exfalso; apply Hp; lia.
  - intros Hp c s E.
    assert (H : p = 1 \/ p = 2 \/ p = 3 \/ p = 4 \/ p = 5) by lia.
    destruct H as [-> | [-> | [-> | [-> | ->]]]];
      cbv beta iota delta [MlTestPattern.dispatch] in E;
      exact (complete_returns_0 _ c s E).
Qed.

(** ** Gradual fork bomb: the threads created and the threads joined *)


Lemma calm_not_thread_created e : ForkBombGradual.calm e = true -> thread_created e = None.
Proof. destruct e; try reflexivity. destruct ok; [discriminate | reflexivity]. Qed.

Lemma calm_not_thread_joined e : ForkBombGradual.calm e = true -> thread_joined e = None.
Proof. destruct e; try reflexivity. discriminate. Qed.

Section GradualRuns.
Import ForkBombGradual.
Variable w : world.
Hypothesis thread_ids_ok : thread_ids_ptr w <> 0.

Lemma lined_extends (i : nat) (s s' : state) :
  extends trace calm s s' ->
  created_threads s' = created_threads s ->
  crashed s' = crashed s ->
  threads s' = threads s ->
  gradual_lined w i s -> gradual_lined w i s'.
Proof using Type.
  intros (ext & Ht & Hq) Hc Hk Hth (H1 & H2 & H3 & H4 & H5 & H6).
  unfold gradual_lined. rewrite Hc, Hk, Hth, Ht, !pick_app, H5, H6.
  rewrite (pick_none _ calm ext calm_not_thread_created Hq).
  rewrite (pick_none _ calm ext calm_not_thread_joined Hq).
  rewrite !app_nil_r. repeat split; assumption.
Qed.

Lemma lined_created (i : nat) (s s' : state) (h : Z) (rest : list event) :
  trace s' = trace s ++ PthreadCreate i true h :: rest ->
  forallb calm rest = true ->
  created_threads s' = S (created_threads s) ->
  crashed s' = crashed s ->
  threads s' = <[ i := h ]> (threads s) ->
  pthread_create_ret w i = Some h ->
  (i < 80)%nat ->
  gradual_lined w i s -> gradual_lined w (S i) s'.
Proof using Type.
  intros Ht Hq Hc Hk Hth Hh Hi (H1 & H2 & H3 & H4 & H5 & H6).
  assert (Eh : gradual_handle w i = h) by (unfold gradual_handle; now rewrite Hh).
  unfold gradual_lined.
  rewrite Hc, Hk, Hth, Ht, !pick_app, H5, H6, length_insert, (seq_S i 0), map_app.
  cbn [pick thread_created thread_joined map Nat.add].
  rewrite (pick_none _ calm rest calm_not_thread_created Hq).
  rewrite (pick_none _ calm rest calm_not_thread_joined Hq).
  rewrite Eh.
  split; [lia | split; [assumption | split; [assumption | split; [| split; reflexivity]]]].
  rewrite (take_S_r _ _ h) by (apply list_lookup_insert_eq; lia).
  rewrite take_insert_ge by lia. now rewrite H4.
Qed.

Lemma startup_body_threads (i : nat) (s : state) (h : Z) :
  pthread_create_ret w (calls s) = Some h ->
  threads (snd (startup_body w i s)) = <[ i := h ]> (threads s).
Proof using thread_ids_ok.
  intros H. unfold startup_body.
  destruct (Z.eqb_spec (thread_ids_ptr w) 0) as [E|_]; [contradiction|].
  unfold create. rewrite H. reflexivity.
Qed.

Lemma attack_body_threads (i : nat) (s : state) (h : Z) :
  pthread_create_ret w (calls s) = Some h ->
  threads (snd (attack_body w i s)) = <[ i := h ]> (threads s).
Proof using thread_ids_ok.
  intros H. unfold attack_body.
  destruct (Z.eqb_spec (thread_ids_ptr w) 0) as [E|_]; [contradiction|].
  unfold create. rewrite H. reflexivity.
Qed.

Lemma attack_body_fail_threads (i : nat) (s : state) :
  pthread_create_ret w (calls s) = None ->
  threads (snd (attack_body w i s)) = threads s.
Proof using thread_ids_ok.
  intros H. unfold attack_body.
  destruct (Z.eqb_spec (thread_ids_ptr w) 0) as [E|_]; [contradiction|].
  unfold create. rewrite H. reflexivity.
Qed.

Variable n : nat.
Hypothesis created : forall k, (k < n)%nat -> pthread_create_ret w k <> None.

Lemma gradual_startup_lined (m : Z) :
  5 <= m -> (5 <= n)%nat ->
  calls (startup_phase w m (emit banner init)) = 5%nat /\
  gradual_lined w 5 (startup_phase w m (emit banner init)).
Proof using thread_ids_ok created.
  intros Hm Hn. unfold startup_phase. cbv zeta.
  replace (Nat.min 5 (Z.to_nat m)) with 5%nat by lia.
  apply (for_loop_total (fun i s => calls s = i /\ gradual_lined w i s) (startup_body w) 5 0%nat).
  - split; [reflexivity|]. repeat split.
  - intros j t Hj [Hcalls Ht].
    destruct (pthread_create_ret w (calls t)) as [h|] eqn:E;
      [| exfalso; apply (created j); [lia | now rewrite <- Hcalls]].
    destruct (startup_body_ok w thread_ids_ok j t h E) as (H1 & H2 & H3 & H4 & rest & H5 & H6).
    split; [exact H1 | split; [lia |]].
    apply (lined_created j t _ h rest H5 H6 H3 H4 (startup_body_threads j t h E));
      [now rewrite <- Hcalls | lia | exact Ht].
Qed.

(** The attack loop goes on to the first failure, or to the end. *)
Lemma gradual_attack_lined (m : Z) (s : state) :
  5 <= m <= 80 -> (5 <= n)%nat -> Z.of_nat n <= m ->
  (Z.of_nat n < m -> pthread_create_ret w n = None) ->
  calls s = 5%nat -> gradual_lined w 5 s ->
  gradual_lined w n (attack_phase w m s).
Proof using thread_ids_ok created.
  intros Hm Hn Hnm Hlimit Hcalls Hl. unfold attack_phase.
  apply (for_loop_rule (fun i t => (i <= n)%nat /\ calls t = i /\ gradual_lined w i t)
                       (gradual_lined w n)).
  - split; [exact Hn|]. split; [exact Hcalls|].
    apply (lined_extends 5 s); [| reflexivity | reflexivity | reflexivity | exact Hl].
    eexists. split; reflexivity.
  - intros j t t' Hj (Hle & Hc & Hti) E.
    destruct (pthread_create_ret w (calls t)) as [h|] eqn:Er.
    + destruct (gradual_attack_ok_calm w thread_ids_ok j t h Er)
        as (H1 & H2 & H3 & H4 & rest & H5 & H6).
      pose proof (attack_body_threads j t h Er) as H7.
      rewrite E in *. cbn [fst snd] in *.
      assert (Hlt : (j < n)%nat).
      { destruct (Nat.eq_dec j n) as [-> |]; [| lia].
        rewrite Hc in Er. rewrite Hlimit in Er by lia. discriminate. }
      split; [lia | split; [lia |]].
      apply (lined_created j t t' h rest H5 H6 H3 H4 H7); [now rewrite <- Hc | lia | exact Hti].
    + destruct (gradual_attack_fail_calm w thread_ids_ok j t Er) as (H1 & _).
      rewrite E in H1. discriminate.
  - intros j t t' Hj (Hle & Hc & Hti) E.
    destruct (pthread_create_ret w (calls t)) as [h|] eqn:Er.
    + destruct (gradual_attack_ok_calm w thread_ids_ok j t h Er) as (H1 & _).
      rewrite E in H1. discriminate.
    + destruct (gradual_attack_fail_calm w thread_ids_ok j t Er) as (_ & H2 & H3 & H4).
      pose proof (attack_body_fail_threads j t Er) as H7.
      rewrite E in *. cbn [fst snd] in *.
      assert (Hjn : j = n).
      { destruct (Nat.eq_dec j n); [assumption|]. exfalso.
        apply (created j); [lia | now rewrite <- Hc]. }
      rewrite Hjn in Hti. exact (lined_extends n t t' H2 H3 H4 H7 Hti).
  - intros t (Hle & Hc & Hti).
    replace n with (5 + (Z.to_nat m - 5))%nat by lia. exact Hti.
Qed.

Lemma gradual_threads_emit (es : list event) (s : state) :
  threads (emit es s) = threads s.
Proof using Type. reflexivity. Qed.

Lemma gradual_sustain_lined (i : nat) (s : state) :
  gradual_lined w i s -> gradual_lined w i (sustain_phase s).
Proof using Type.
  apply lined_extends.
  - unfold sustain_phase.
    eapply extends_trans; [| eexists; split; reflexivity].
    eapply extends_trans; [| apply for_loop_extends].
    + eexists; split; reflexivity.
    + intros j t. eexists; split; reflexivity.
  - apply sustain_phase_created.
  - unfold sustain_phase. cbv zeta. rewrite crashed_emit.
    rewrite (for_loop_preserves crashed) by (intros; apply crashed_emit).
    apply crashed_emit.
  - unfold sustain_phase. cbv zeta. rewrite gradual_threads_emit.
    rewrite (for_loop_preserves threads) by (intros; apply gradual_threads_emit).
    apply gradual_threads_emit.
Qed.

(** The cleanup joins the slots below the counter, in order, then
    frees [thread_ids]. *)
Lemma gradual_cleanup_lined (i : nat) (s : state) :
  (i <= 80)%nat ->
  gradual_lined w i s ->
  pick thread_joined (trace (cleanup_phase w s)) = map (gradual_handle w) (seq 0 i) /\
  pick thread_created (trace (cleanup_phase w s)) = map (gradual_handle w) (seq 0 i) /\
  created_threads (cleanup_phase w s) = i /\
  last (trace (cleanup_phase w s)) = Some (Free (thread_ids_ptr w)).
Proof using Type.
  intros Hi (H1 & H2 & H3 & H4 & H5 & H6). unfold cleanup_phase. cbv zeta.
  rewrite trace_emit, !pick_app, last_snoc, created_emit.
  cbn [pick thread_joined thread_created]. rewrite !app_nil_r.
  match goal with
  | |- context [for_loop join_body 0 (created_threads ?t) ?t] => set (s1 := t)
  end.
  assert (Hn : created_threads s1 = i) by exact H1.
  assert (Hth : threads s1 = threads s) by reflexivity.
  assert (Hc : pick thread_created (trace s1) = map (gradual_handle w) (seq 0 i)).
  { subst s1. unfold stop_workers, emit; cbn [trace]. rewrite pick_app, H5.
    cbn. now rewrite app_nil_r. }
  assert (Hj : pick thread_joined (trace s1) = []).
  { subst s1. unfold stop_workers, emit; cbn [trace]. rewrite pick_app, H6. reflexivity. }
  rewrite Hn. clearbody s1.
  assert (H : threads (for_loop join_body 0 i s1) = threads s1 /\
              created_threads (for_loop join_body 0 i s1) = i /\
              pick thread_created (trace (for_loop join_body 0 i s1))
                = map (gradual_handle w) (seq 0 i) /\
              pick thread_joined (trace (for_loop join_body 0 i s1))
                = map (fun j => default 0 (threads s1 !! j)) (seq 0 (0 + i))).
  { apply (for_loop_total
             (fun k t => threads t = threads s1 /\
                         created_threads t = i /\
                         pick thread_created (trace t) = map (gradual_handle w) (seq 0 i) /\
                         pick thread_joined (trace t)
                           = map (fun j => default 0 (threads s1 !! j)) (seq 0 k))
             join_body i 0%nat s1).
    - repeat split; assumption.
    - intros j t _ (Ht & Hct & Hcr & Hjt). split; [reflexivity|].
      cbn [join_body snd]. rewrite trace_emit, !pick_app, Hcr, Hjt, (seq_S j 0), map_app.
      unfold slot. rewrite Ht. cbn [pick thread_created thread_joined map Nat.add].
      rewrite app_nil_r. repeat split; assumption. }
  destruct H as (_ & Hcn & Hcr & Hjn).
  cbn [Nat.add] in Hjn. rewrite map_lookup_take in Hjn by (rewrite Hth, H3; exact Hi).
  rewrite Hth, H4 in Hjn. repeat split; assumption.
Qed.

End GradualRuns.

(** X17 (fork_bomb_gradual.c).  The run of the gradual fork bomb when
    no creation of phase 1 fails.  Let [n] be the number of the first
    call of [pthread_create] that fails, or the configured maximum when
    none fails.  The run returns 0 with exactly [n] threads created, by
    the calls 0 to [n - 1]; the threads joined are exactly the threads
    created, in the order of their creation; and the array from [malloc]
    is freed as the last action. *)
Theorem X17_gradual_creates_then_joins
    (w : ForkBombGradual.world) (argv : list string) (n : nat)
    (thread_ids_ok : ForkBombGradual.thread_ids_ptr w <> 0)
    (created : forall k, (k < n)%nat -> ForkBombGradual.pthread_create_ret w k <> None)
    (range : 5 <= Z.of_nat n <= ForkBombGradual.max_threads_of argv)
    (limit : Z.of_nat n < ForkBombGradual.max_threads_of argv ->
             ForkBombGradual.pthread_create_ret w n = None) :
  fst (ForkBombGradual.main w argv) = Some 0 /\
  ForkBombGradual.created_threads (snd (ForkBombGradual.main w argv)) = n /\
  pick thread_created (ForkBombGradual.trace (snd (ForkBombGradual.main w argv)))
    = map (gradual_handle w) (seq 0 n) /\
  pick thread_joined (ForkBombGradual.trace (snd (ForkBombGradual.main w argv)))
    = pick thread_created (ForkBombGradual.trace (snd (ForkBombGradual.main w argv))) /\
  last (ForkBombGradual.trace (snd (ForkBombGradual.main w argv)))
    = Some (Free (ForkBombGradual.thread_ids_ptr w)).
Proof.
  pose proof (max_threads_range argv) as Hm.
  destruct (gradual_startup_lined w thread_ids_ok n created
              (ForkBombGradual.max_threads_of argv)) as [Hcalls Hl1]; [lia | lia |].
  pose proof (gradual_attack_lined w thread_ids_ok n created
                (ForkBombGradual.max_threads_of argv) _ ltac:(lia) ltac:(lia) ltac:(lia)
                limit Hcalls Hl1) as Hl2.
  rewrite (main_unfold w argv (proj1 (proj2 Hl1)) (proj1 (proj2 Hl2))). cbn [fst snd].
  pose proof (gradual_sustain_lined w n _ Hl2) as Hl3.
  destruct (gradual_cleanup_lined w n _ ltac:(lia) Hl3) as (Hj & Hc & Hn & Hlast).
  rewrite Hj, Hc, Hn, Hlast. repeat split.
Qed.

Lemma X17_gradual_creates_then_joins_witness :
  fst (ForkBombGradual.main ForkBombGradual.fails_at_7 []) = Some 0 /\
  ForkBombGradual.created_threads (snd (ForkBombGradual.main ForkBombGradual.fails_at_7 []))
    = 7%nat /\
  pick thread_created
    (ForkBombGradual.trace (snd (ForkBombGradual.main ForkBombGradual.fails_at_7 [])))
    = map (gradual_handle ForkBombGradual.fails_at_7) (seq 0 7) /\
  pick thread_joined
    (ForkBombGradual.trace (snd (ForkBombGradual.main ForkBombGradual.fails_at_7 [])))
    = pick thread_created
        (ForkBombGradual.trace (snd (ForkBombGradual.main ForkBombGradual.fails_at_7 []))) /\
  last (ForkBombGradual.trace (snd (ForkBombGradual.main ForkBombGradual.fails_at_7 [])))
    = Some (Free (ForkBombGradual.thread_ids_ptr ForkBombGradual.fails_at_7)).
Proof.
  apply (X17_gradual_creates_then_joins ForkBombGradual.fails_at_7 [] 7).
  - discriminate.
  - intros k Hk.
    change (ForkBombGradual.pthread_create_ret ForkBombGradual.fails_at_7 k)
      with (if (k <? 7)%nat then Some (1000 + Z.of_nat k) else None).
    destruct (Nat.ltb_spec k 7); [discriminate | lia].
  - change (ForkBombGradual.max_threads_of []) with 80. lia.
  - reflexivity.
Defined.

(** ** Resource exhaustion combo: what is held is what is given back *)

Lemma quiet_not_thread_created e : quiet e = true -> thread_created e = None.
Proof. now destruct e. Qed.

Lemma quiet_not_thread_joined e : quiet e = true -> thread_joined e = None.
Proof. now destruct e. Qed.

Lemma quiet_not_fd_opened e : quiet e = true -> fd_opened e = None.
Proof. now destruct e. Qed.

Lemma quiet_not_fd_closed e : quiet e = true -> fd_closed e = None.
Proof. now destruct e. Qed.

Lemma quiet_not_file_created e : quiet e = true -> file_created e = None.
Proof. now destruct e. Qed.

Lemma quiet_not_file_unlinked e : quiet e = true -> file_unlinked e = None.
Proof. now destruct e. Qed.

Lemma obtained_not_null (t : list event) (p : Z) :
  In p (pick block_obtained t) -> p <> 0.
Proof.
  induction t as [|e t IH]; [intros []|]. cbn [pick].
  destruct e; cbn [block_obtained]; try exact IH.
  destruct (Z.eqb_spec ret 0); [exact IH|].
  intros [<- | H]; [assumption | now apply IH].
Qed.

Lemma opened_not_negative (t : list event) (fd : Z) :
  In fd (pick fd_opened t) -> 0 <= fd.
Proof.
  induction t as [|e t IH]; [intros []|]. cbn [pick].
  destruct e; cbn [fd_opened]; try exact IH.
  destruct (Z.leb_spec 0 ret) as [Hge | _]; [| exact IH].
  intros [<- | Hin]; [assumption | now apply IH].
Qed.

Section ComboHeld.
Import ResourceExhaustionCombo.
Variable w : world.

Ltac held_norm :=
  unfold combo_held, emit, set_leak, set_thread, set_fd, incr_leak, incr_thread, incr_file,
    stop_workers;
  cbn [memory_leaks threads open_fds keep_running leak_count thread_count file_count trace];
  rewrite ?pick_app;
  cbn [pick block_obtained block_freed thread_created thread_joined fd_opened fd_closed
       file_created file_unlinked].

Lemma emit_held (es : list event) (s : state) :
  forallb quiet es = true -> combo_held w s -> combo_held w (emit es s).
Proof.
  intros Hq (H1 & H2 & H3 & H4 & H5 & H6 & H7 & H8 & H9 & H10 & H11 & H12 & H13 & H14).
  unfold combo_held, emit;
    cbn [memory_leaks threads open_fds keep_running leak_count thread_count file_count trace].
  rewrite !pick_app.
  rewrite (pick_none _ quiet es quiet_not_obtained Hq),
    (pick_none _ quiet es quiet_not_freed Hq),
    (pick_none _ quiet es quiet_not_thread_created Hq),
    (pick_none _ quiet es quiet_not_thread_joined Hq),
    (pick_none _ quiet es quiet_not_fd_opened Hq),
    (pick_none _ quiet es quiet_not_fd_closed Hq),
    (pick_none _ quiet es quiet_not_file_created Hq),
    (pick_none _ quiet es quiet_not_file_unlinked Hq).
  rewrite !app_nil_r. repeat split; try assumption; lia.
Qed.

Lemma leak_step_held (i : nat) (s : state) : combo_held w s -> combo_held w (leak_step w i s).
Proof.
  intros (H1 & H2 & H3 & H4 & H5 & H6 & H7 & H8 & H9 & H10 & H11 & H12 & H13 & H14). unfold leak_step.
  destruct (Nat.eqb (i mod 2) 0); cbn [andb]; [| repeat split; assumption].
  destruct (Nat.ltb_spec (leak_count s) 30) as [Hlt | _]; [| repeat split; assumption].
  destruct (malloc_ret w i =? 0) eqn:Hz; held_norm; rewrite ?Hz, ?app_nil_r, ?length_insert.
  - rewrite take_insert_ge by lia. repeat split; try assumption; lia.
  - rewrite (take_S_r _ _ (malloc_ret w i)) by (apply list_lookup_insert_eq; lia).
    rewrite take_insert_ge by lia. rewrite H1. repeat split; try assumption; lia.
Qed.

Lemma spawn_body_held (i j : nat) (s : state) :
  combo_held w s -> combo_held w (snd (spawn_body w i j s)).
Proof.
  intros (H1 & H2 & H3 & H4 & H5 & H6 & H7 & H8 & H9 & H10 & H11 & H12 & H13 & H14). unfold spawn_body.
  destruct (Nat.ltb_spec (thread_count s) MAX_THREADS) as [Hlt | _]; [| repeat split; assumption].
  unfold MAX_THREADS in Hlt.
  destruct (pthread_create_ret w i j) as [h|]; cbn [snd]; held_norm;
    rewrite ?app_nil_r, ?length_insert.
  - rewrite (take_S_r _ _ h) by (apply list_lookup_insert_eq; lia).
    rewrite take_insert_ge by lia. rewrite H2. repeat split; try assumption; lia.
  - repeat split; try assumption; lia.
Qed.

Lemma thread_step_held (i : nat) (s : state) :
  combo_held w s -> combo_held w (thread_step w i s).
Proof.
  intros H. unfold thread_step.
  destruct (Nat.eqb (i mod 3) 0 && (thread_count s <? MAX_THREADS)%nat); [| exact H].
  apply emit_held; [reflexivity|].
  apply (for_loop_rule (fun _ t => combo_held w t) (combo_held w)); [exact H | | | auto].
  - intros j t t' _ Ht E. pose proof (spawn_body_held i j t Ht) as H'. now rewrite E in H'.
  - intros j t t' _ Ht E. pose proof (spawn_body_held i j t Ht) as H'. now rewrite E in H'.
Qed.

Lemma file_step_held (i : nat) (s : state) : combo_held w s -> combo_held w (file_step w i s).
Proof.
  intros (H1 & H2 & H3 & H4 & H5 & H6 & H7 & H8 & H9 & H10 & H11 & H12 & H13 & H14). unfold file_step.
  destruct (Nat.eqb (i mod 2) 1); cbn [andb]; [| repeat split; assumption].
  destruct (Nat.ltb_spec (file_count s) MAX_FILES) as [Hlt | _]; [| repeat split; assumption].
  unfold MAX_FILES in Hlt.
  destruct (0 <=? open_ret w i) eqn:Hz; held_norm; rewrite ?Hz, ?app_nil_r, ?length_insert.
  - rewrite (take_S_r _ _ (open_ret w i)) by (apply list_lookup_insert_eq; lia).
    rewrite take_insert_ge by lia. rewrite H3, H4, (seq_S (file_count s) 0), map_app.
    repeat split; try assumption; lia.
  - rewrite take_insert_ge by lia. repeat split; try assumption; lia.
Qed.

Lemma report_step_held (i : nat) (s : state) :
  combo_held w s -> combo_held w (report_step i s).
Proof.
  intros H. unfold report_step.
  destruct (0 <? thread_count s)%nat, (Nat.eqb i 5), (Nat.eqb i 10), (Nat.eqb i 15);
    repeat (apply emit_held; [reflexivity |]); exact H.
Qed.

Lemma attack_phase_held : combo_held w (attack_phase w (emit banner (init w))).
Proof.
  unfold attack_phase.
  apply (for_loop_total (fun _ t => combo_held w t) (attack_body w) 20 0%nat).
  - apply emit_held; [reflexivity|]. apply emit_held; [reflexivity|].
    unfold combo_held, init;
      cbn [memory_leaks threads open_fds keep_running leak_count thread_count file_count trace].
    rewrite length_map, length_seq. repeat split; lia.
  - intros j t _ H. split; [reflexivity|]. unfold attack_body; cbn [snd].
    apply report_step_held, file_step_held, thread_step_held, leak_step_held.
    apply emit_held; [reflexivity | exact H].
Qed.

Lemma sustain_phase_held (s : state) : combo_held w s -> combo_held w (sustain_phase s).
Proof.
  intros H. unfold sustain_phase. cbv zeta.
  apply emit_held; [reflexivity|].
  apply (for_loop_total (fun _ t => combo_held w t) sustain_body 8 0%nat).
  - apply emit_held; [reflexivity | exact H].
  - intros j t _ Ht. split; [reflexivity|]. cbn [sustain_body snd].
    apply emit_held; [reflexivity | exact Ht].
Qed.

(** A loop that only appends events and leaves the arrays and the
    counters alone. *)
Lemma combo_sweep_loop (ev : nat -> list event) (body : nat -> state -> ctl * state)
    (s0 : state) :
  (forall i t, combo_same_store s0 t ->
               fst (body i t) = Next /\
               combo_same_store s0 (snd (body i t)) /\
               trace (snd (body i t)) = trace t ++ ev i) ->
  forall n,
    combo_same_store s0 (for_loop body 0 n s0) /\
    trace (for_loop body 0 n s0) = trace s0 ++ flat_map ev (seq 0 n).
Proof.
  intros Hbody n.
  apply (for_loop_total
           (fun i t => combo_same_store s0 t /\ trace t = trace s0 ++ flat_map ev (seq 0 i))
           body n 0%nat s0).
  - split; [repeat split | cbn; now rewrite app_nil_r].
  - intros j t _ [Hs Ht]. destruct (Hbody j t Hs) as (H1 & H2 & H3).
    split; [exact H1 | split; [exact H2|]].
    rewrite H3, Ht, (seq_S j 0), flat_map_app, <- app_assoc. cbn [flat_map Nat.add].
    now rewrite app_nil_r.
Qed.

(** The cleanup, event by event. *)
Lemma combo_cleanup_trace (s : state) :
  trace (cleanup_phase w s) =
    trace s ++ [Print Stdout "Shutting down attack..." []]
      ++ flat_map (fun i => [PthreadJoin i (thread_cell i s)]) (seq 0 (thread_count s))
      ++ flat_map (fun i => if leak_cell i s =? 0 then [] else [Free (leak_cell i s)])
           (seq 0 (leak_count s))
      ++ flat_map (fun i => if 0 <=? fd_cell i s
                            then [Close (fd_cell i s); Unlink (ExhaustTmp (pid w) i)]
                            else [])
           (seq 0 (file_count s)).
Proof.
  unfold cleanup_phase. cbv zeta.
  match goal with
  | |- context [for_loop join_body 0 (thread_count ?t) ?t] => set (s1 := t)
  end.
  assert (H1 : combo_same_store s s1) by (repeat split).
  assert (T1 : trace s1 = trace s ++ [Print Stdout "Shutting down attack..." []])
    by reflexivity.
  clearbody s1.
  destruct (combo_sweep_loop (fun i => [PthreadJoin i (thread_cell i s)]) join_body s1)
    with (n := thread_count s1) as [H2 T2].
  { intros i t (A1 & A2 & A3 & A4 & A5 & A6).
    destruct H1 as (B1 & B2 & B3 & B4 & B5 & B6).
    assert (Hcell : thread_cell i t = thread_cell i s)
      by (unfold thread_cell; now rewrite A2, B2).
    cbn [join_body fst snd]. rewrite Hcell. unfold emit, combo_same_store;
      cbn [memory_leaks threads open_fds leak_count thread_count file_count trace].
    repeat split; try assumption; lia. }
  revert H2 T2. generalize (for_loop join_body 0 (thread_count s1) s1). intros s2 H2 T2.
  assert (H2' : combo_same_store s s2).
  { destruct H1 as (B1 & B2 & B3 & B4 & B5 & B6), H2 as (A1 & A2 & A3 & A4 & A5 & A6).
    unfold combo_same_store. rewrite A1, A2, A3, A4, A5, A6. repeat split; try assumption; lia. }
  destruct (combo_sweep_loop
              (fun i => if leak_cell i s =? 0 then [] else [Free (leak_cell i s)])
              free_body s2) with (n := leak_count s2) as [H3 T3].
  { intros i t (A1 & A2 & A3 & A4 & A5 & A6).
    destruct H2' as (B1 & B2 & B3 & B4 & B5 & B6).
    assert (Hcell : leak_cell i t = leak_cell i s)
      by (unfold leak_cell; now rewrite A1, B1).
    cbn [free_body fst snd]. rewrite Hcell. unfold combo_same_store.
    destruct (leak_cell i s =? 0); unfold emit;
      cbn [memory_leaks threads open_fds leak_count thread_count file_count trace];
      rewrite ?app_nil_r; repeat split; try assumption; lia. }
  revert H3 T3. generalize (for_loop free_body 0 (leak_count s2) s2). intros s3 H3 T3.
  assert (H3' : combo_same_store s s3).
  { destruct H2' as (B1 & B2 & B3 & B4 & B5 & B6), H3 as (A1 & A2 & A3 & A4 & A5 & A6).
    unfold combo_same_store. rewrite A1, A2, A3, A4, A5, A6. repeat split; try assumption; lia. }
  destruct (combo_sweep_loop
              (fun i => if 0 <=? fd_cell i s
                        then [Close (fd_cell i s); Unlink (ExhaustTmp (pid w) i)]
                        else [])
              (close_body w) s3) with (n := file_count s3) as [H4 T4].
  { intros i t (A1 & A2 & A3 & A4 & A5 & A6).
    destruct H3' as (B1 & B2 & B3 & B4 & B5 & B6).
    assert (Hcell : fd_cell i t = fd_cell i s)
      by (unfold fd_cell; now rewrite A3, B3).
    cbn [close_body fst snd]. rewrite Hcell. unfold combo_same_store.
    destruct (0 <=? fd_cell i s); unfold emit;
      cbn [memory_leaks threads open_fds leak_count thread_count file_count trace];
      rewrite ?app_nil_r; repeat split; try assumption; lia. }
  rewrite T4, T3, T2, T1.
  destruct H1 as (_ & _ & _ & _ & -> & _).
  destruct H2' as (_ & _ & _ & -> & _ & _).
  destruct H3' as (_ & _ & _ & _ & _ & ->).
  rewrite <- !app_assoc. reflexivity.
Qed.

End ComboHeld.

(** What the three loops of the cleanup show to each observer. *)
Lemma join_events_observed (c : nat -> Z) (l : list nat) :
  let evs := flat_map (fun i => [PthreadJoin i (c i)]) l in
  pick thread_joined evs = map c l /\
  pick thread_created evs = [] /\
  pick block_freed evs = [] /\ pick block_obtained evs = [] /\
  pick fd_closed evs = [] /\ pick fd_opened evs = [] /\
  pick file_unlinked evs = [] /\ pick file_created evs = [].
Proof.
  cbv zeta. induction l as [|i l (I1 & I2 & I3 & I4 & I5 & I6 & I7 & I8)]; [repeat split|].
  cbn [flat_map map]. rewrite !pick_app, I1, I2, I3, I4, I5, I6, I7, I8. repeat split.
Qed.

Lemma free_events_observed (c : nat -> Z) (l : list nat) :
  (forall i, In i l -> c i <> 0) ->
  let evs := flat_map (fun i => if c i =? 0 then [] else [Free (c i)]) l in
  pick block_freed evs = map c l /\
  pick block_obtained evs = [] /\
  pick thread_joined evs = [] /\ pick thread_created evs = [] /\
  pick fd_closed evs = [] /\ pick fd_opened evs = [] /\
  pick file_unlinked evs = [] /\ pick file_created evs = [].
Proof.
  cbv zeta. induction l as [|i l IH]; intros Hc; [repeat split|].
  destruct IH as (I1 & I2 & I3 & I4 & I5 & I6 & I7 & I8);
    [intros j Hj; apply Hc; now right|].
  cbn [flat_map map]. rewrite !pick_app, I1, I2, I3, I4, I5, I6, I7, I8.
  destruct (Z.eqb_spec (c i) 0) as [E|_]; [exfalso; apply (Hc i); [now left | exact E]|].
  repeat split.
Qed.

Lemma close_events_observed (c : nat -> Z) (name : nat -> path) (l : list nat) :
  (forall i, In i l -> 0 <= c i) ->
  let evs := flat_map (fun i => if 0 <=? c i then [Close (c i); Unlink (name i)] else []) l in
  pick fd_closed evs = map c l /\
  pick file_unlinked evs = map name l /\
  pick fd_opened evs = [] /\ pick file_created evs = [] /\
  pick block_freed evs = [] /\ pick block_obtained evs = [] /\
  pick thread_joined evs = [] /\ pick thread_created evs = [].
Proof.
  cbv zeta. induction l as [|i l IH]; intros Hc; [repeat split|].
  destruct IH as (I1 & I2 & I3 & I4 & I5 & I6 & I7 & I8);
    [intros j Hj; apply Hc; now right|].
  cbn [flat_map map]. rewrite !pick_app, I1, I2, I3, I4, I5, I6, I7, I8.
  destruct (Z.leb_spec 0 (c i)) as [_|E]; [| specialize (Hc i ltac:(now left)); lia].
  repeat split.
Qed.

Lemma take_lookup_in (l : list Z) (n i : nat) :
  (i < n)%nat -> (n <= length l)%nat -> In (default 0 (l !! i)) (take n l).
Proof.
  intros Hi Hn. destruct (lookup_lt_is_Some_2 l i) as [x Hx]; [lia|].
  rewrite Hx. cbn [default]. apply (list_elem_of_In (take n l) x).
  apply (list_elem_of_lookup_2 _ i). rewrite lookup_take_lt by lia. exact Hx.
Qed.

Section ComboGivesBack.
Import ResourceExhaustionCombo.
Variable w : world.

(** On a state that holds its resources in order, the cleanup gives
    back exactly what is held, in that order. *)
Lemma combo_cleanup_observed (s : state) :
  combo_held w s ->
  let t := trace (cleanup_phase w s) in
  (pick thread_joined t = pick thread_created (trace s) /\
   pick thread_created t = pick thread_created (trace s)) /\
  (pick block_freed t = pick block_obtained (trace s) /\
   pick block_obtained t = pick block_obtained (trace s)) /\
  (pick fd_closed t = pick fd_opened (trace s) /\
   pick fd_opened t = pick fd_opened (trace s)) /\
  (pick file_unlinked t = pick file_created (trace s) /\
   pick file_created t = pick file_created (trace s)).
Proof.
  intros (H1 & H2 & H3 & H4 & H5 & H6 & H7 & H8 & H9 & H10 & H11 & H12 & H13 & H14).
  cbv zeta. rewrite combo_cleanup_trace, !pick_app.
  destruct (join_events_observed (fun i => thread_cell i s) (seq 0 (thread_count s)))
    as (J1 & J2 & J3 & J4 & J5 & J6 & J7 & J8).
  destruct (free_events_observed (fun i => leak_cell i s) (seq 0 (leak_count s)))
    as (F1 & F2 & F3 & F4 & F5 & F6 & F7 & F8).
  { intros i Hi. apply List.in_seq in Hi. apply (obtained_not_null (trace s)).
    rewrite <- H1. apply take_lookup_in; lia. }
  destruct (close_events_observed (fun i => fd_cell i s) (fun i => ExhaustTmp (pid w) i)
              (seq 0 (file_count s)))
    as (C1 & C2 & C3 & C4 & C5 & C6 & C7 & C8).
  { intros i Hi. apply List.in_seq in Hi. apply (opened_not_negative (trace s)).
    rewrite <- H3. apply take_lookup_in; lia. }
  rewrite J1, J2, J3, J4, J5, J6, J7, J8, F1, F2, F3, F4, F5, F6, F7, F8,
    C1, C2, C3, C4, C5, C6, C7, C8, H8, H9, H10, H11.
  cbn [pick thread_joined thread_created block_freed block_obtained fd_closed fd_opened
       file_unlinked file_created app].
  rewrite !app_nil_r.
  unfold thread_cell, leak_cell, fd_cell.
  rewrite !map_lookup_take by lia. rewrite H1, H2, H3, H4. repeat split.
Qed.

End ComboGivesBack.

(** X18 (resource_exhaustion_combo.c).  In every run the combo gives
    back exactly what it obtained, and in the order it obtained it: the
    threads it joins are the threads it created, the blocks it frees are
    the blocks [malloc] gave it, the descriptors it closes are the
    descriptors [open] gave it, and the files it removes are the temp
    files it created, each list equal to the other, element by element. *)
Theorem X18_combo_gives_back_what_it_obtained (w : ResourceExhaustionCombo.world) :
  let t := ResourceExhaustionCombo.trace (snd (ResourceExhaustionCombo.main w)) in
  pick thread_joined t = pick thread_created t /\
  pick block_freed t = pick block_obtained t /\
  pick fd_closed t = pick fd_opened t /\
  pick file_unlinked t = pick file_created t.
Proof.
  unfold ResourceExhaustionCombo.main; cbn [snd].
  destruct (combo_cleanup_observed w _ (sustain_phase_held w _ (attack_phase_held w)))
    as ((-> & ->) & (-> & ->) & (-> & ->) & (-> & ->)).
  repeat split.
Qed.

(** ** Resource exhaustion combo: how much it can hold *)

Lemma tally_snoc (f : nat -> nat) (n : nat) :
  forall i, tally f i (S n) = (tally f i n + f (i + n))%nat.
Proof.
  induction n as [|n IH]; intros i.
  - cbn [tally]. rewrite !Nat.add_0_r. reflexivity.
  - change (tally f i (S (S n))) with (f i + tally f (S i) (S n))%nat.
    rewrite IH. cbn [tally]. replace (S i + n)%nat with (i + S n)%nat by lia. lia.
Qed.

Lemma progression_sum (c : Z) (n : nat) :
  2 * sum_list (map (fun k => (Z.of_nat k + 1) * c) (seq 0 n))
    = c * (Z.of_nat n * (Z.of_nat n + 1)).
Proof.
  induction n as [|n IH]; [cbn; lia|].
  rewrite (seq_S n 0), map_app, sum_list_app. cbn [map sum_list fold_right Nat.add].
  nia.
Qed.


Section ComboPeak.
Import ResourceExhaustionCombo.
Variable w : world.

Lemma leak_step_counts (i : nat) (s : state) :
  (leak_count (leak_step w i s) <= leak_count s + combo_blocks i)%nat /\
  thread_count (leak_step w i s) = thread_count s /\
  file_count (leak_step w i s) = file_count s /\
  (malloc_ret w i <> 0 -> (leak_count s < 30)%nat ->
   leak_count (leak_step w i s) = (leak_count s + combo_blocks i)%nat).
Proof.
  unfold leak_step, combo_blocks.
  destruct (Nat.eqb (i mod 2) 0); cbn [andb]; [| repeat split; lia].
  destruct (Nat.ltb_spec (leak_count s) 30) as [Hlt | Hge]; [| repeat split; lia].
  destruct (Z.eqb_spec (malloc_ret w i) 0) as [Hz | Hnz];
    unfold emit, set_leak, incr_leak; cbn [leak_count thread_count file_count];
    repeat split; lia.
Qed.

Lemma spawn_body_counts (i j : nat) (s : state) :
  (thread_count (snd (spawn_body w i j s)) <= S (thread_count s))%nat /\
  leak_count (snd (spawn_body w i j s)) = leak_count s /\
  file_count (snd (spawn_body w i j s)) = file_count s /\
  (pthread_create_ret w i j <> None -> (thread_count s < 60)%nat ->
   fst (spawn_body w i j s) = Next /\
   thread_count (snd (spawn_body w i j s)) = S (thread_count s)).
Proof.
  unfold spawn_body, MAX_THREADS.
  destruct (Nat.ltb_spec (thread_count s) 60) as [Hlt | Hge];
    [| cbn [fst snd]; repeat split; lia].
  destruct (pthread_create_ret w i j) as [h|];
    unfold emit, set_thread, incr_thread; cbn [fst snd leak_count thread_count file_count];
    repeat split; try lia; congruence.
Qed.

Lemma thread_step_counts (i : nat) (s : state) :
  (thread_count (thread_step w i s) <= thread_count s + combo_threads i)%nat /\
  leak_count (thread_step w i s) = leak_count s /\
  file_count (thread_step w i s) = file_count s /\
  ((forall j, pthread_create_ret w i j <> None) -> (thread_count s + 3 <= 60)%nat ->
   thread_count (thread_step w i s) = (thread_count s + combo_threads i)%nat).
Proof.
  unfold thread_step, combo_threads, MAX_THREADS.
  destruct (Nat.eqb (i mod 3) 0); cbn [andb]; [| repeat split; lia].
  destruct (Nat.ltb_spec (thread_count s) 60) as [Hlt | Hge]; [| repeat split; lia].
  unfold emit; cbn [leak_count thread_count file_count].
  assert (H : (thread_count (for_loop (spawn_body w i) 0 3 s) <= thread_count s + 3)%nat /\
              leak_count (for_loop (spawn_body w i) 0 3 s) = leak_count s /\
              file_count (for_loop (spawn_body w i) 0 3 s) = file_count s).
  { apply (for_loop_rule
             (fun k t => (thread_count t <= thread_count s + k)%nat /\
                         leak_count t = leak_count s /\ file_count t = file_count s)
             (fun t => (thread_count t <= thread_count s + 3)%nat /\
                       leak_count t = leak_count s /\ file_count t = file_count s)).
    - repeat split; lia.
    - intros j t t' Hj (A1 & A2 & A3) E.
      destruct (spawn_body_counts i j t) as (B1 & B2 & B3 & _). rewrite E in *.
      cbn [snd] in *. repeat split; lia.
    - intros j t t' Hj (A1 & A2 & A3) E.
      destruct (spawn_body_counts i j t) as (B1 & B2 & B3 & _). rewrite E in *.
      cbn [snd] in *. repeat split; lia.
    - intros t (A1 & A2 & A3). repeat split; lia. }
  destruct H as (H1 & H2 & H3).
  split; [exact H1 | split; [exact H2 | split; [exact H3|]]].
  intros Hok Hroom.
  assert (H : thread_count (for_loop (spawn_body w i) 0 3 s) = (thread_count s + (0 + 3))%nat).
  { apply (for_loop_total (fun k t => thread_count t = (thread_count s + k)%nat)).
    - lia.
    - intros j t Hj Ht.
      destruct (spawn_body_counts i j t) as (_ & _ & _ & B4).
      destruct (B4 (Hok j)) as [B5 B6]; [lia|]. split; [exact B5 | lia]. }
  exact H.
Qed.

Lemma file_step_counts (i : nat) (s : state) :
  (file_count (file_step w i s) <= file_count s + combo_files i)%nat /\
  leak_count (file_step w i s) = leak_count s /\
  thread_count (file_step w i s) = thread_count s /\
  (0 <= open_ret w i -> (file_count s < 100)%nat ->
   file_count (file_step w i s) = (file_count s + combo_files i)%nat).
Proof.
  unfold file_step, combo_files, MAX_FILES.
  destruct (Nat.eqb (i mod 2) 1); cbn [andb]; [| repeat split; lia].
  destruct (Nat.ltb_spec (file_count s) 100) as [Hlt | Hge]; [| repeat split; lia].
  destruct (Z.leb_spec 0 (open_ret w i)) as [Hz | Hnz];
    unfold emit, set_fd, incr_file; cbn [leak_count thread_count file_count];
    repeat split; lia.
Qed.

Lemma report_step_counts (i : nat) (s : state) :
  leak_count (report_step i s) = leak_count s /\
  thread_count (report_step i s) = thread_count s /\
  file_count (report_step i s) = file_count s.
Proof.
  unfold report_step.
  destruct (0 <? thread_count s)%nat, (Nat.eqb i 5), (Nat.eqb i 10), (Nat.eqb i 15);
    repeat split.
Qed.

(** The three counters after the attack loop. *)
Lemma attack_phase_counts (s : state) :
  leak_count s = 0%nat -> thread_count s = 0%nat -> file_count s = 0%nat ->
  ((leak_count (attack_phase w s) <= 10)%nat /\
   (thread_count (attack_phase w s) <= 21)%nat /\
   (file_count (attack_phase w s) <= 10)%nat) /\
  (combo_granted w ->
   leak_count (attack_phase w s) = 10%nat /\
   thread_count (attack_phase w s) = 21%nat /\
   file_count (attack_phase w s) = 10%nat).
Proof.
  intros H1 H2 H3. unfold attack_phase.
  match goal with |- context [for_loop (attack_body w) 0 20 ?x] => set (s0 := x) end.
  assert (H : ((leak_count (for_loop (attack_body w) 0 20 s0) <= tally combo_blocks 0 (0 + 20))%nat /\
               (thread_count (for_loop (attack_body w) 0 20 s0) <= tally combo_threads 0 (0 + 20))%nat /\
               (file_count (for_loop (attack_body w) 0 20 s0) <= tally combo_files 0 (0 + 20))%nat) /\
              (combo_granted w ->
               leak_count (for_loop (attack_body w) 0 20 s0) = tally combo_blocks 0 (0 + 20) /\
               thread_count (for_loop (attack_body w) 0 20 s0) = tally combo_threads 0 (0 + 20) /\
               file_count (for_loop (attack_body w) 0 20 s0) = tally combo_files 0 (0 + 20))).
  { apply (for_loop_total
             (fun i t => ((leak_count t <= tally combo_blocks 0 i)%nat /\
                          (thread_count t <= tally combo_threads 0 i)%nat /\
                          (file_count t <= tally combo_files 0 i)%nat) /\
                         (combo_granted w ->
                          leak_count t = tally combo_blocks 0 i /\
                          thread_count t = tally combo_threads 0 i /\
                          file_count t = tally combo_files 0 i))).
    - subst s0. unfold emit; cbn [leak_count thread_count file_count tally].
      repeat split; lia.
    - intros j t Hj ((A1 & A2 & A3) & A4). split; [reflexivity|].
      unfold attack_body; cbn [snd].
      match goal with |- context [leak_step w j ?x] => set (t0 := x) end.
      assert (E0 : leak_count t0 = leak_count t /\ thread_count t0 = thread_count t /\
                   file_count t0 = file_count t) by (repeat split).
      destruct E0 as (E1 & E2 & E3). clearbody t0.
      destruct (leak_step_counts j t0) as (L1 & L2 & L3 & L4).
      destruct (thread_step_counts j (leak_step w j t0)) as (T1 & T2 & T3 & T4).
      destruct (file_step_counts j (thread_step w j (leak_step w j t0))) as (F1 & F2 & F3 & F4).
      destruct (report_step_counts j (file_step w j (thread_step w j (leak_step w j t0))))
        as (R1 & R2 & R3).
      rewrite R1, R2, R3, !tally_snoc. cbn [Nat.add].
      assert (Bb : (tally combo_blocks 0 j <= j)%nat /\ (tally combo_threads 0 j <= 3 * j)%nat /\
                   (tally combo_files 0 j <= j)%nat).
      { clear. induction j as [|j (I1 & I2 & I3)]; [cbn; lia|].
        rewrite !tally_snoc. cbn [Nat.add].
        assert (combo_blocks j <= 1)%nat
          by (unfold combo_blocks; destruct (Nat.eqb (j mod 2) 0); lia).
        assert (combo_threads j <= 3)%nat
          by (unfold combo_threads; destruct (Nat.eqb (j mod 3) 0); lia).
        assert (combo_files j <= 1)%nat
          by (unfold combo_files; destruct (Nat.eqb (j mod 2) 1); lia).
        lia. }
      split; [repeat split; lia|].
      intros Hg. destruct (A4 Hg) as (G1 & G2 & G3). destruct Hg as (Gm & Gt & Go).
      rewrite F2, T2 in *. rewrite F3 in *. rewrite L2, L3, T3 in *.
      rewrite L4 by (try apply Gm; lia).
      rewrite T4 by (try apply Gt; lia).
      rewrite F4 by (try apply Go; lia).
      repeat split; lia. }
  exact H.
Qed.

(** The sustain phase obtains nothing and reports the three counters. *)
Lemma sustain_phase_counts (s : state) :
  (leak_count (sustain_phase s) = leak_count s /\
   thread_count (sustain_phase s) = thread_count s /\
   file_count (sustain_phase s) = file_count s) /\
  In (Print Stdout "Memory: %d leaks" [Z.of_nat (leak_count s)]) (trace (sustain_phase s)) /\
  In (Print Stdout "Threads: %d active" [Z.of_nat (thread_count s)]) (trace (sustain_phase s)) /\
  In (Print Stdout "Files: %d open" [Z.of_nat (file_count s)]) (trace (sustain_phase s)).
Proof.
  unfold sustain_phase. cbv zeta.
  match goal with |- context [for_loop sustain_body 0 8 ?x] => set (s0 := x) end.
  assert (E0 : leak_count s0 = leak_count s /\ thread_count s0 = thread_count s /\
               file_count s0 = file_count s) by (repeat split).
  clearbody s0. destruct E0 as (E1 & E2 & E3).
  assert (L1 : leak_count (for_loop sustain_body 0 8 s0) = leak_count s0)
    by (apply for_loop_preserves; reflexivity).
  assert (L2 : thread_count (for_loop sustain_body 0 8 s0) = thread_count s0)
    by (apply for_loop_preserves; reflexivity).
  assert (L3 : file_count (for_loop sustain_body 0 8 s0) = file_count s0)
    by (apply for_loop_preserves; reflexivity).
  generalize dependent (for_loop sustain_body 0 8 s0). intros s1 L1 L2 L3.
  unfold emit; cbn [leak_count thread_count file_count trace].
  rewrite L1, L2, L3, E1, E2, E3.
  split; [repeat split|].
  repeat split; apply in_or_app; right; cbn [In]; tauto.
Qed.

End ComboPeak.

(** X19 (resource_exhaustion_combo.c).  What the combo can hold at its
    peak.  In every run it obtains at most 10 blocks, 21 threads and 10
    descriptors, so the limits of its three arrays (30, 60 and 100) are
    never what stops it; the blocks it holds add up to
    [4 MB * n * (n + 1)] for [n] blocks, at most 440 MB; and the three
    numbers of its closing report are the numbers of blocks, threads
    and descriptors it really obtained.  When the system grants every
    request the run reaches all four bounds. *)
Theorem X19_combo_peak (w : ResourceExhaustionCombo.world) :
  let t := ResourceExhaustionCombo.trace (snd (ResourceExhaustionCombo.main w)) in
  let blocks := length (pick block_obtained t) in
  let threads := length (pick thread_created t) in
  let files := length (pick fd_opened t) in
  ((blocks <= 10)%nat /\ (threads <= 21)%nat /\ (files <= 10)%nat /\
   sum_list (leaked_sizes t)
     = 4 * ResourceExhaustionCombo.MB * (Z.of_nat blocks * (Z.of_nat blocks + 1)) /\
   sum_list (leaked_sizes t) <= 440 * ResourceExhaustionCombo.MB) /\
  (In (Print Stdout "Memory: %d leaks" [Z.of_nat blocks]) t /\
   In (Print Stdout "Threads: %d active" [Z.of_nat threads]) t /\
   In (Print Stdout "Files: %d open" [Z.of_nat files]) t) /\
  (combo_granted w ->
   blocks = 10%nat /\ threads = 21%nat /\ files = 10%nat /\
   sum_list (leaked_sizes t) = 440 * ResourceExhaustionCombo.MB).
Proof.
  cbv zeta.
  destruct (combo_main_summary w) as ((n & Hsizes) & _).
  pose proof (leaked_sizes_length
                (ResourceExhaustionCombo.trace (snd (ResourceExhaustionCombo.main w)))) as Hlen.
  rewrite Hsizes, length_map, length_seq in Hlen.
  pose proof (progression_sum (8 * ResourceExhaustionCombo.MB) n) as Hsum.
  rewrite <- Hsizes in Hsum. clear Hsizes.
  revert Hlen Hsum. unfold ResourceExhaustionCombo.main; cbn [snd].
  pose proof (attack_phase_held w) as Hheld.
  destruct (attack_phase_counts w (ResourceExhaustionCombo.emit ResourceExhaustionCombo.banner
                                     (ResourceExhaustionCombo.init w))
              eq_refl eq_refl eq_refl) as ((B1 & B2 & B3) & Hall).
  generalize dependent (ResourceExhaustionCombo.attack_phase w
                          (ResourceExhaustionCombo.emit ResourceExhaustionCombo.banner
                             (ResourceExhaustionCombo.init w))).
  intros a Hheld B1 B2 B3 Hall.
  destruct (sustain_phase_counts a) as ((S1 & S2 & S3) & P1 & P2 & P3).
  pose proof (sustain_phase_held w a Hheld) as Hs.
  destruct (combo_cleanup_observed w _ Hs) as ((_ & T1) & (_ & T2) & (_ & T3) & _).
  pose proof (combo_cleanup_extends w
                (ResourceExhaustionCombo.sustain_phase a)) as Hext.
  destruct Hs as (H1 & H2 & H3 & _ & H5 & H6 & H7 & _ & _ & _ & _ & H12 & H13 & H14).
  cbv zeta in T1, T2, T3.
  rewrite T1, T2, T3, <- H1, <- H2, <- H3, !length_take, H5, H6, H7, S1, S2, S3.
  rewrite !Nat.min_l by lia.
  generalize dependent (ResourceExhaustionCombo.sustain_phase a). intros sa. intros.
  assert (Hn : Z.of_nat (ResourceExhaustionCombo.leak_count a)
               * (Z.of_nat (ResourceExhaustionCombo.leak_count a) + 1) <= 110) by nia.
  subst n. unfold ResourceExhaustionCombo.MB in *.
  split; [repeat split; lia|].
  split.
  - repeat split;
      apply (extends_In ResourceExhaustionCombo.trace ResourceExhaustionCombo.inert _ _ _ Hext);
      assumption.
  - intros Hg. destruct (Hall Hg) as (G1 & G2 & G3). rewrite G1 in *.
    repeat split; lia.
Qed.

(** X19 at a run in which every request is granted: 10 blocks, 21
    threads, 10 descriptors, 440 MB. *)
Lemma X19_combo_peak_witness :
  let t := ResourceExhaustionCombo.trace (snd (ResourceExhaustionCombo.main combo_generous)) in
  length (pick block_obtained t) = 10%nat /\
  length (pick thread_created t) = 21%nat /\
  length (pick fd_opened t) = 10%nat /\
  sum_list (leaked_sizes t) = 440 * ResourceExhaustionCombo.MB.
Proof.
  apply (proj2 (proj2 (X19_combo_peak combo_generous))).
  split; [| split].
  - intros i. change (65536 * (1 + Z.of_nat i) <> 0). lia.
  - intros i j. discriminate.
  - intros i. change (0 <= 3 + Z.of_nat i). lia.
Defined.

(** ** The sizes asked of [malloc] *)

Section ComboCalls.
Import ResourceExhaustionCombo.
Variable w : world.

Lemma combo_leaks_snoc (j : nat) :
  combo_leaks w (S j) =
    (combo_leaks w j
     + if Nat.eqb (j mod 2) 0 && negb (malloc_ret w j =? 0)%Z then 1 else 0)%nat.
Proof. unfold combo_leaks. now rewrite tally_snoc. Qed.

Lemma combo_leaks_bound (j : nat) : (combo_leaks w j <= j)%nat.
Proof.
  induction j as [|j IH]; [reflexivity|]. rewrite combo_leaks_snoc.
  destruct (Nat.eqb (j mod 2) 0 && negb (malloc_ret w j =? 0)); lia.
Qed.

(** Attack vector 1 calls [malloc] on the even turns, and counts the
    block when it is granted. *)
Lemma leak_step_calls (i : nat) (s : state) :
  (leak_count s < 30)%nat ->
  malloc_calls (trace (leak_step w i s)) =
    malloc_calls (trace s)
      ++ (if Nat.eqb (i mod 2) 0 then [(alloc_size (leak_count s), malloc_ret w i)] else []) /\
  leak_count (leak_step w i s) =
    (leak_count s
     + if Nat.eqb (i mod 2) 0 && negb (malloc_ret w i =? 0)%Z then 1 else 0)%nat.
Proof.
  intros Hlt. unfold leak_step.
  destruct (Nat.eqb (i mod 2) 0); cbn [andb]; [| now rewrite app_nil_r, Nat.add_0_r].
  destruct (Nat.ltb_spec (leak_count s) 30) as [_ | Hge]; [| lia].
  destruct (malloc_ret w i =? 0);
    unfold set_leak, incr_leak, emit; cbn [trace leak_count negb];
    rewrite !malloc_calls_app; cbn [malloc_calls]; rewrite ?app_nil_r;
    split; [reflexivity | lia | reflexivity | lia].
Qed.

Lemma combo_attack_body_calls (i : nat) (s : state) :
  (leak_count s < 30)%nat ->
  malloc_calls (trace (snd (attack_body w i s))) =
    malloc_calls (trace s)
      ++ (if Nat.eqb (i mod 2) 0 then [(alloc_size (leak_count s), malloc_ret w i)] else []) /\
  leak_count (snd (attack_body w i s)) =
    (leak_count s
     + if Nat.eqb (i mod 2) 0 && negb (malloc_ret w i =? 0)%Z then 1 else 0)%nat.
Proof.
  intros Hlt. unfold attack_body; cbn [snd].
  set (s0 := emit _ s).
  destruct (report_step_spec i (file_step w i (thread_step w i (leak_step w i s0))))
    as ((e3 & T3 & I3) & L3).
  destruct (file_step_spec w i (thread_step w i (leak_step w i s0))) as ((e2 & T2 & I2) & L2).
  destruct (thread_step_spec w i (leak_step w i s0)) as ((e1 & T1 & I1) & L1).
  destruct (leak_step_calls i s0 Hlt) as [C0 L0].
  rewrite T3, T2, T1, L3, L2, L1, L0, !malloc_calls_app, C0.
  rewrite (malloc_calls_none inert e1 inert_not_malloc I1).
  rewrite (malloc_calls_none inert e2 inert_not_malloc I2).
  rewrite (malloc_calls_none inert e3 inert_not_malloc I3).
  rewrite !app_nil_r. subst s0. unfold emit; cbn [trace leak_count].
  rewrite malloc_calls_app. cbn [malloc_calls]. rewrite app_nil_r. split; reflexivity.
Qed.

(** The calls of [malloc] of a whole run, and the blocks it holds at
    the end of the attack loop. *)
Lemma combo_main_calls :
  malloc_calls (trace (snd (main w))) = flat_map (combo_call w) (seq 0 20) /\
  leaked_sizes (trace (snd (main w))) =
    map (fun k => (Z.of_nat k + 1) * (8 * MB)) (seq 0 (combo_leaks w 20)).
Proof.
  assert (H : let s := attack_phase w (emit banner (init w)) in
              (leak_count s = combo_leaks w (0 + 20) /\
               malloc_calls (trace s) = flat_map (combo_call w) (seq 0 (0 + 20))) /\
              attack_inv s).
  { cbv zeta. split; [| apply (combo_attack_phase_inv w)].
    unfold attack_phase.
    apply (for_loop_total
             (fun i s => leak_count s = combo_leaks w i /\
                         malloc_calls (trace s) = flat_map (combo_call w) (seq 0 i))
             (attack_body w) 20 0%nat).
    - split; reflexivity.
    - intros j t Hj [Hl Hc]. split; [reflexivity|].
      pose proof (combo_leaks_bound j) as Hb.
      destruct (combo_attack_body_calls j t ltac:(lia)) as [C L].
      rewrite C, L, Hc, Hl, combo_leaks_snoc, (seq_S j 0), flat_map_app.
      split; [reflexivity|]. f_equal. cbn [flat_map Nat.add]. rewrite app_nil_r.
      unfold combo_call. rewrite alloc_size_combo by lia. reflexivity. }
  cbv zeta in H. destruct H as ((Hl & Hc) & (Hs & _)). cbn [Nat.add] in Hl, Hc.
  unfold main; cbn [snd].
  revert Hl Hc Hs. generalize (attack_phase w (emit banner (init w))). intros s Hl Hc Hs.
  destruct (extends_trans trace inert _ _ _
              (combo_sustain_extends s) (combo_cleanup_extends w (sustain_phase s)))
    as (ext & -> & Hext).
  pose proof (malloc_calls_none inert ext inert_not_malloc Hext) as Hm.
  split.
  - now rewrite malloc_calls_app, Hm, app_nil_r.
  - rewrite leaked_sizes_app, Hs, Hl. unfold leaked_sizes. rewrite Hm. cbn.
    now rewrite app_nil_r.
Qed.

End ComboCalls.

(** The calls of [malloc] of a run of the progressive leak and the
    blocks it obtains, when call [k] is the first to fail. *)
Lemma leak_main_calls (w : MemoryLeakProgressive.world) :
  let k := first_null (MemoryLeakProgressive.malloc_ret w) 0 25 in
  let t := MemoryLeakProgressive.trace (snd (MemoryLeakProgressive.main w)) in
  malloc_calls t =
    map (fun j => ((Z.of_nat j + 1) * (5 * MemoryLeakProgressive.MB),
                   MemoryLeakProgressive.malloc_ret w j))
        (seq 0 (Nat.min (S k) 25)) /\
  leaked_sizes t =
    map (fun j => (Z.of_nat j + 1) * (5 * MemoryLeakProgressive.MB)) (seq 0 k).
Proof.
  cbv zeta.
  destruct (first_null_spec (MemoryLeakProgressive.malloc_ret w) 25 0) as (Hk & Hok & Hfail).
  cbv zeta in Hk, Hok, Hfail.
  set (k := first_null (MemoryLeakProgressive.malloc_ret w) 0 25) in *.
  destruct (leak_main_sizes w) as (n & Hn).
  pose proof (leaked_sizes_length
                (MemoryLeakProgressive.trace (snd (MemoryLeakProgressive.main w)))) as Hlen.
  rewrite Hn, length_map, length_seq in Hlen.
  destruct (leak_run_effects w k ltac:(lia) ltac:(intros j Hj; apply Hok; lia)
              ltac:(intros H; apply Hfail; lia)) as (Ho & _ & _).
  cbv zeta in Ho. rewrite Ho, length_map, length_seq in Hlen. subst n.
  split; [| exact Hn].
  destruct (leak_run_shape w k ltac:(lia) ltac:(intros j Hj; apply Hok; lia)
              ltac:(intros H; apply Hfail; lia))
    as (pre & -> & _ & _ & _ & Pc & _).
  destruct (held_sweep_effects (MemoryLeakProgressive.malloc_ret w) (seq 0 k))
    as (_ & _ & _ & F4 & _).
  destruct (sweep_from_empty (MemoryLeakProgressive.stack_garbage w)
              (30 - Nat.min (S k) 25) (Nat.min (S k) 25)) as (_ & _ & S3 & _).
  cbv zeta in F4, S3.
  rewrite !malloc_calls_app, Pc, F4, S3.
  assert (Z0 : malloc_calls (if (k <? 25)%nat then [Load k 0] else []) = [])
    by now destruct (k <? 25)%nat.
  rewrite Z0, !app_nil_r.
  apply map_ext_in. intros j Hj. apply List.in_seq in Hj.
  now rewrite alloc_size_eq by lia.
Qed.

(** C5 (progressive memory leak, resource exhaustion combo).  The sizes
    asked of [malloc], in every run.  The progressive leak makes the
    calls 0 to [k], where call [k] is the first that fails (0 to 24 when
    none fails), and call [j] asks for [(j + 1) * 5] MB; the blocks it
    obtains are those of the calls before [k], of 5 MB, 10 MB, 15 MB and
    so on.  The combo calls [malloc] on each of its ten even turns, for
    8 MB more than the blocks obtained so far take, so that a failed
    call is followed by a call for the same size; the blocks it obtains
    are of 8 MB, 16 MB, 24 MB and so on.  In both programs any two
    consecutive blocks obtained differ by exactly the step. *)
Theorem C5_allocation_sizes_step
    (w1 : MemoryLeakProgressive.world) (w2 : ResourceExhaustionCombo.world) :
  let k := first_null (MemoryLeakProgressive.malloc_ret w1) 0 25 in
  let t1 := MemoryLeakProgressive.trace (snd (MemoryLeakProgressive.main w1)) in
  let t2 := ResourceExhaustionCombo.trace (snd (ResourceExhaustionCombo.main w2)) in
  (malloc_calls t1 =
     map (fun j => ((Z.of_nat j + 1) * (5 * MemoryLeakProgressive.MB),
                    MemoryLeakProgressive.malloc_ret w1 j))
         (seq 0 (Nat.min (S k) 25)) /\
   leaked_sizes t1 =
     map (fun j => (Z.of_nat j + 1) * (5 * MemoryLeakProgressive.MB)) (seq 0 k) /\
   chain (fun a b => b = a + 5 * MemoryLeakProgressive.MB) (leaked_sizes t1)) /\
  (malloc_calls t2 =
     map (fun m => ((Z.of_nat (combo_leaks w2 (2 * m)) + 1) * (8 * ResourceExhaustionCombo.MB),
                    ResourceExhaustionCombo.malloc_ret w2 (2 * m)))
         (seq 0 10) /\
   leaked_sizes t2 =
     map (fun j => (Z.of_nat j + 1) * (8 * ResourceExhaustionCombo.MB))
         (seq 0 (combo_leaks w2 20)) /\
   chain (fun a b => b = a + 8 * ResourceExhaustionCombo.MB) (leaked_sizes t2)).
Proof.
  cbv zeta. split.
  - destruct (leak_main_calls w1) as [Hc Hs]. cbv zeta in Hc, Hs.
    split; [exact Hc | split; [exact Hs|]]. rewrite Hs. apply chain_progression.
  - destruct (combo_main_calls w2) as [Hc Hs].
    split; [| split; [exact Hs|]].
    + rewrite Hc. reflexivity.
    + rewrite Hs. apply chain_progression.
Qed.

(** The sizes of a run of the progressive leak in which the fourth
    allocation fails, and of a run of the combo in which the first one
    does. *)
Example C5_sizes_of_two_runs :
  leaked_sizes (MemoryLeakProgressive.trace
                  (snd (MemoryLeakProgressive.main MemoryLeakProgressive.fails_at_3)))
    = [5242880; 10485760; 15728640] /\
  leaked_sizes (ResourceExhaustionCombo.trace
                  (snd (ResourceExhaustionCombo.main ResourceExhaustionCombo.first_malloc_fails)))
    = [8388608; 16777216; 25165824; 33554432; 41943040; 50331648; 58720256;
       67108864; 75497472].
Proof. split; vm_compute; reflexivity. Qed.
